(* ===== verification/_CoqProject ===== *)
-Q . S2P
Prelude.v
GoStrings.v
Slices.v
GoRegexp.v
GoSha256.v
Sanitize.v
GoStrconv.v
GoFloat.v
GoParse.v
GoFlag.v
GoBase64.v
GoDuration.v
GoUrl.v
GitUrl.v
GoJson.v
GoJsonRead.v
GoJsonSyntax.v
GoJsonRound.v
GoJsonDecode.v
Json.v
Kube.v
Metrics.v
Config.v
Timestamp.v
TokenCache.v
World.v
TraceLogic.v
GitComponent.v
Sample.v
SecretSelect.v
Base.v
Scm.v
Gitlab.v
Forgejo.v
Github.v
GithubFetch.v
GithubProofs.v
StaleCache.v
DrivenCache.v
CacheRefinement.v
Component.v
Writable.v
Tekton.v
DucController.v
RunShape.v
DucProofs.v
DucSchedule.v
DucSelect.v
RunConfig.v
EventController.v
EventMessage.v
EventProofs.v
Delivery.v
Scheme.v
Startup.v
GoPath.v
ToolWorld.v
OsvDownload.v
GoCsv.v
GoTime.v
OsvVex.v
Osv.v
OsvAffected.v
OsvPurl.v
OsvGenerator.v
OsvProofs.v
OsvDatabase.v
OsvLiveness.v
OsvSample.v
DeepCopy.v
