(* ===== verification/Prelude.v ===== *)
(** * MintMaker, a verification development

    MintMaker is a Kubernetes operator that keeps the dependencies of the components of
    a Konflux cluster up to date.  This library models its Go code (under src/) as Rocq
    definitions and proves what the code is relied on for.

    ** The program

    - A DependencyUpdateCheck resource asks for a scan.  The DependencyUpdateCheck
      controller (internal/controller) lists the components it selects, turns each into
      a git component (internal/component and its packages base, gitlab, forgejo,
      github), and for every host, repository and branch without an active run creates
      a secret, a config map and a Tekton PipelineRun that mounts them
      (internal/tekton), which becomes their owner.
    - When a pod of such a run cannot mount its secret because the GitHub token is not
      in it, the Event controller adds the token or cancels the run.  The PipelineRun
      controller only logs the end of runs.
    - The package github keeps two caches: of the application's installations
      (stale-allowed, refreshed in the background) and of installation tokens.
    - cmd/manager starts the controllers with the metrics (internal/metrics) and the
      configuration (internal/config).
    - cmd/osv-generator is a program of its own: it downloads an offline vulnerability
      database (tools/osv-downloader) and adds to it the entries it converts from the
      advisories of Red Hat (tools/osv-generator), one goroutine per advisory.

    ** How it is modelled

    A pure Go function is a Rocq function; it returns [result] when it may fail or
    panic ([Ok], [Err], [Panic] of this file).  A handler of a controller is a function
    on the process state, [M E A] of World: the state of the outside world, the package
    variables, and the trace of the requests made so far.  The outside world is an
    arbitrary [Environment], so every theorem about a handler holds for any API server,
    any failure of any request, any clock, any random source and any order in which a
    Go map is iterated.  Theorems speak about the requests a handler makes; TraceLogic
    has the rules to prove them.  Code whose steps interleave is modelled apart: the
    stale-allowed cache and the metrics probe as step relations (StaleCache, Metrics),
    the OSV programs as programs that ask for one thing at a time ([Prog] of ToolWorld),
    whose goroutines run in any order and send on one unbuffered channel.

    ** The files

    Go's standard library, as far as the program uses it:
    - GoStrings (strings), GoRegexp (regexp), GoStrconv (strconv), GoSha256
      (crypto/sha256), GoBase64 (encoding/base64), GoUrl (net/url), GoDuration, Timestamp
      and GoTime (time), GoPath (path/filepath), GoCsv (encoding/csv), GoParse and GoFlag
      (flag, with what it uses of strconv).
    - encoding/json: GoFloat (numbers, exactly), GoJson (texts and how they are written),
      GoJsonRead (the reader: tokens, and a machine with a stack), GoJsonSyntax (the
      reader accepts the grammar, and only that), GoJsonRound (what is written is read
      back), GoJsonDecode (decoding into Go types, by what each target has been given),
      Json (values of an interface{}, Marshal, Unmarshal and their round trip).

    Helpers and data:
    - Slices: internal/slices/slice.go.
    - Sanitize, GitUrl: internal/utils (sanitize.go and random.go; utils.go).
    - Kube: api/v1alpha1/dependencyupdatecheck_types.go, internal/constant, and the
      fields the program uses of the API objects of Kubernetes, Tekton and Konflux.
    - DeepCopy: api/v1alpha1/zz_generated.deepcopy.go, on a memory with shared arrays.
    - Config: internal/config/config.go.  Metrics: internal/metrics.

    The process and the git components:
    - World, TraceLogic: the process state, its surroundings, and a program logic.
    - GitComponent: the interface of component.go, and the laws ([GitComponentLaws],
      [FactoryLaws]) the controllers' theorems are proved against; Component: the
      factory of component.go, which satisfies them; Writable: the configurations its
      components hand out.
    - SecretSelect: the choice of a credential secret that base.go, gitlab.go and
      forgejo.go make; Base: base/base.go; Scm: what gitlab.go and forgejo.go have in
      common; Gitlab; Forgejo.
    - TokenCache: the token cache of github/cache.go; Github, GithubFetch, GithubProofs:
      github/github.go, with the installations cache as one caller sees it; StaleCache:
      the same cache of github/cache.go under concurrency; DrivenCache: its threads in
      the surroundings of the process, with the calls they start and return;
      CacheRefinement: the first is a view of the last.

    The controllers:
    - Tekton, RunShape: tekton/pipeline_run_builder.go and the run it is made to build.
    - DucController: controller/common.go and dependencyupdatecheck_controller.go;
      DucProofs, DucSchedule, DucSelect: its theorems; RunConfig: the controller, the
      factory and the components together.
    - EventController: controller/event_controller.go and pipelinerun_controller.go;
      EventMessage, EventProofs: its theorems; Delivery: the two controllers together,
      from the creation of a run to the event of its pod.
    - Scheme: api/v1alpha1/groupversion_info.go and the init function of
      cmd/manager/main.go.
    - Startup: the main function, and the three SetupWithManager.
    - Sample: a cluster in memory, for examples and witnesses.

    The OSV programs:
    - ToolWorld: requests, programs, runs, goroutines and schedules.
    - OsvDownload: tools/osv-downloader/download_osv.go.
    - OsvVex: the advisories of csaf_vex_vulnerability.go and their decoding; Osv: the
      entries of osv_vulnerability.go and the conversions of cve_parser.go; OsvGenerator:
      generator.go, the rest of cve_parser.go, cmd/osv-generator/main.go.
    - OsvAffected, OsvPurl, OsvProofs, OsvDatabase, OsvLiveness: their theorems;
      OsvSample: runs in a small world.

    ** What is shown

    - DependencyUpdateCheck controller: [Reconcile] refines an abstract account of what
      it may ask for: one run per repository branch, each justified by an enabled
      component and no active run; a failed creation deletes exactly what it created, a
      successful one makes the run the owner of everything; a secret reaches no step
      but its own; the components and the registry credentials are the ones the filters
      and service accounts say; and a check one of whose listings fails is marked as
      processed, so that no retry creates a run for it.
    - Event controller: what becomes of a pod that waits for its token, case by case
      (the component cannot be made, a part of its run cannot be read, its secret is
      patched and updated with the token, its run is cancelled), with the result of
      [Reconcile] in each; events are marked on every path, and no run is cancelled
      after its secret was written.
    - Both together: whatever run was created and whatever pod of it waits, what the
      Event controller writes is a token of the component of that run, in the secret of
      that run, or the cancellation of that run.
    - GitHub: tokens never cross installations; a cached token is served exactly while
      the minimum of the process' configuration remains of it, and otherwise a new one
      is asked for and stored; the page loops read every page; the stale-allowed cache
      has one refresh at a time, never closes a channel twice, never deadlocks, always
      returns, and serves only what was fetched; a history of calls of one caller is a
      run of its threads, call for call, with the same readings of the clock and the
      same answers.
    - A run is for its component: the configuration a created run mounts is read as one
      with the platform, the endpoint, the repository and the branch of the component,
      and its token is the password of the secret the component selects.
    - The other components: branches, tokens, host rules and Renovate configuration on
      every path (the entries of the configuration, of every platform, one by one), and
      the host rules that leak from one component to the next.
    - Builder: every mounted volume is declared, whatever the sequence of calls; when
      volume names are legal.  Helpers: label values are legal, spellings of a git URL
      agree, events counted by a probe are accounted for.
    - Deep copies: the same value, no shared memory, nothing old changed.
    - Manager: its scheme knows the types of the API; it is started only when everything
      was set up; no kind is left to an unrestricted cache.  Command lines: every choice
      of the options of the two programs can be written, and is what the program runs
      with.
    - OSV download: no archive can make it write outside of the destination; what a
      successful run has written; the destinations for which the guard fails.
    - OSV generator: the program exits with 0 only when it has done what its command
      line asks for; a successful generation leaves exactly the entries the
      specification of the conversion asks for, in whatever order the goroutines ran;
      its goroutines and the loop that receives from them always end, without deadlock,
      after at most five downloads and 31 seconds of waits each; it succeeds when its sources are well formed
      and is stopped by one malformed product; retries are bounded and back off; the
      stored file splits back into the entries, which are read back as JSON; every
      advisory is the value of a document.

    ** Bounds

    Machine integers wrap where the code's do ([wrap32], [wrap64], the accumulator of
    ParseInt, the sum of ParseDuration).  [duration_loop] has as many rounds as its text
    has bytes, and [duration_loop_enough] shows that more make no difference; the loop
    of ReplaceAllString likewise has as many as its text has bytes and one more, and
    so has the tokenizer of JSON ([lex_loop_enough]).  The
    only other fuel is [page_fuel], the rounds of the two page loops of
    fetchAppInstallations, which end when the forge says so: running out is a panic the
    code does not have, and GithubFetch shows that as many rounds as there are pages are
    enough.  Every other loop is over a list or a count, [retryGet] over its attempts
    (OsvLiveness bounds its requests and its waits); [schedule], which runs goroutines
    for the examples, stops when its list of choices ends, and the theorems are about
    the relation [group_runs] it is sound for.

    ** What is assumed

    - [EnvironmentLaws]: iterating over a map visits each of its entries once, random
      reads have the length asked for, and a write does not rename an object.  Sample
      has an environment that satisfies them.
    - [Libraries] are functions of the API machinery, of Tekton, of the process
      environment and of net/netip, about which nothing is assumed unless a theorem says
      so.
    - [MonotonicClock], for the refinement of the cache: no request and no reading of
      the clock turns it back.  It is needed only for the run to be one of StaleCache.
    - [pod_of], in Delivery: what Tekton documents of the pods of a run.
    - [DeepCopyLaws] of the metadata types, which the API machinery copies, and
      [SchemeLaws] of its scheme.

    ** What is not modelled

    - The insides of controller-runtime: queues, caches, leader election, retries of a
      failed reconciliation; of Prometheus; of the Git forges' client libraries, whose
      calls are requests to the environment.
    - What the flags of controller-runtime and its logger set; log messages.
    - The texts of errors of the standard library where the program only passes them
      on; the local time zone is a fixed offset; an object's Kind is ASCII; the status
      of a response is looked at where the code does, and not elsewhere.
    - The number JSON writes for a float64 is searched among the decimals of up to 17
      digits; that there always is one is not proved, and theorems that read a text back
      ask it of the numbers in it ([reads_back], [survives]).
    - The mocks and the helpers of the tests. *)

From stdpp Require Export base tactics option list gmap strings sets sorting.
From Stdlib Require Export ZArith Lia.

(** ** Go errors and results

    A Go [error] is either an API "not found" status error, the only class of
    error the program tests for ([errors.IsNotFound]), or any other error; both
    carry their message. *)

Inductive error : Type :=
| NotFound (msg : string)
| Errorf (msg : string).

(** [err.Error()]. *)
Definition error_msg (e : error) : string :=
  match e with NotFound m | Errorf m => m end.

(** [apierrors.IsNotFound(err)]. *)
Definition IsNotFound (e : error) : bool :=
  match e with NotFound _ => true | Errorf _ => false end.

(** [fmt.Errorf(prefix + "%w", err)]: the message gets a prefix, and the wrapped
    error is still found by [errors.As], hence by [IsNotFound]. *)
Definition wrap (prefix : string) (e : error) : error :=
  match e with
  | NotFound m => NotFound (prefix +:+ m)
  | Errorf m => Errorf (prefix +:+ m)
  end.

(** What a Go call does: return a value with a nil error, return a non-nil
    error, or panic. *)
Inductive result (A : Type) : Type :=
| Ok (a : A)
| Err (e : error)
| Panic (msg : string).
Arguments Ok {_} _.
Arguments Err {_} _.
Arguments Panic {_} _.

#[export] Instance error_eq_dec : EqDecision error.
Proof. solve_decision. Defined.

#[export] Instance result_eq_dec `{EqDecision A} : EqDecision (result A).
Proof. solve_decision. Defined.

#[export] Instance result_ret : MRet result := @Ok.
#[export] Instance result_bind : MBind result := λ A B f r,
  match r with Ok a => f a | Err e => Err e | Panic m => Panic m end.
#[export] Instance result_fmap : FMap result := λ A B f r,
  match r with Ok a => Ok (f a) | Err e => Err e | Panic m => Panic m end.

Definition is_ok {A} (r : result A) : bool :=
  match r with Ok _ => true | _ => false end.

Definition result_of_option {A} (e : error) (o : option A) : result A :=
  match o with Some a => Ok a | None => Err e end.

(** Wrapping the error of a call: [if err != nil { return fmt.Errorf(...%w) }]. *)
Definition wrap_err {A} (prefix : string) (r : result A) : result A :=
  match r with Err e => Err (wrap prefix e) | _ => r end.

(** [fmt.Errorf(prefix + "%v", err)]: only the message is kept. *)
Definition errorf_v (prefix : string) (e : error) : error := Errorf (prefix +:+ error_msg e).

Lemma IsNotFound_wrap p e : IsNotFound (wrap p e) = IsNotFound e.
Proof. by destruct e. Qed.

Lemma wrap_err_ok {A} p (r : result A) a : wrap_err p r = Ok a ↔ r = Ok a.
Proof. destruct r; naive_solver. Qed.

Lemma bind_ok {A B} (f : A → result B) (r : result A) b :
  (r ≫= f) = Ok b ↔ ∃ a, r = Ok a ∧ f a = Ok b.
Proof. destruct r as [a| |]; split; [eauto|by intros (?&[= ->]&?)|by intros|by intros (?&?&?)|by intros|by intros (?&?&?)]. Qed.

(** ** Go maps with string keys

    The nil map is [None]: it reads as empty, and assigning to it panics. *)

Abbreviation gomap V := (option (gmap string V)).

(** [v, ok := m[k]]. *)
Definition go_lookup {V} (m : gomap V) (k : string) : option V :=
  match m with Some m' => m' !! k | None => None end.

(** [m[k]], with the zero value of the element type when there is no entry. *)
Definition go_index {V} (zero : V) (m : gomap V) (k : string) : V :=
  default zero (go_lookup m k).

(** [m[k] = v]. *)
Definition go_assign {V} (m : gomap V) (k : string) (v : V) : result (gomap V) :=
  match m with
  | Some m' => Ok (Some (<[k := v]> m'))
  | None => Panic "assignment to entry in nil map"
  end.

(** [if m == nil { m = make(...) }]. *)
Definition go_make_if_nil {V} (m : gomap V) : gmap string V := default ∅ m.

(** [len(m)]. *)
Definition go_len {V} (m : gomap V) : nat := size (go_make_if_nil m).

Lemma go_lookup_assign {V} (m m' : gomap V) k v j :
  go_assign m k v = Ok m' →
  go_lookup m' j = if decide (k = j) then Some v else go_lookup m j.
Proof. destruct m; simpl; intros [= <-]. simpl. by rewrite lookup_insert. Qed.

Lemma go_lookup_make {V} (m : gomap V) k : go_make_if_nil m !! k = go_lookup m k.
Proof. by destruct m. Qed.

(** ** Stateful Go code

    Code that reads and changes a state [St] (the outside world, process
    globals, or the locals a deferred closure captures) and then returns,
    fails or panics.  The state after a failure is kept, as in Go. *)

Definition GoM (St A : Type) : Type := St → result A * St.

Declare Scope go_scope.
Delimit Scope go_scope with go.
Open Scope go_scope.

Section GoM.
Context {St : Type}.

Definition go_ret {A} (a : A) : GoM St A := λ s, (Ok a, s).
Definition go_fail {A} (e : error) : GoM St A := λ s, (Err e, s).
Definition go_panic {A} (m : string) : GoM St A := λ s, (Panic m, s).

Definition go_bind {A B} (m : GoM St A) (k : A → GoM St B) : GoM St B := λ s,
  match m s with
  | (Ok a, s') => k a s'
  | (Err e, s') => (Err e, s')
  | (Panic p, s') => (Panic p, s')
  end.

(** Calling a function and inspecting its error; a panic still unwinds. *)
Definition go_try {A B} (m : GoM St A) (k : error + A → GoM St B) : GoM St B := λ s,
  match m s with
  | (Ok a, s') => k (inr a) s'
  | (Err e, s') => k (inl e) s'
  | (Panic p, s') => (Panic p, s')
  end.

Definition go_lift {A} (r : result A) : GoM St A := λ s, (r, s).
Definition go_gets {A} (f : St → A) : GoM St A := λ s, (Ok (f s), s).
Definition go_modify (f : St → St) : GoM St unit := λ s, (Ok tt, f s).

(** [if err != nil { return f(err) }]: the error is changed on its way up. *)
Definition go_wrap {A} (f : error → error) (m : GoM St A) : GoM St A :=
  go_try m (λ r, match r with inl e => go_fail (f e) | inr a => go_ret a end).

(** [defer d()] around [m]: [d] runs on every way out of [m], and what it
    returns is dropped, unless it panics itself. *)
Definition go_defer {A} (m : GoM St A) (d : GoM St unit) : GoM St A := λ s,
  let '(r, s') := m s in
  match d s' with
  | (Panic p, s'') => (Panic p, s'')
  | (_, s'') => (r, s'')
  end.

(** [for _, x := range l { body(x) }], where an error or a panic leaves the loop. *)
Fixpoint go_for {A} (l : list A) (body : A → GoM St unit) : GoM St unit :=
  match l with
  | [] => go_ret tt
  | x :: l' => go_bind (body x) (λ _, go_for l' body)
  end.

(** The same loop carrying a local variable. *)
Fixpoint go_fold {A X} (l : list A) (x0 : X) (body : A → X → GoM St X) : GoM St X :=
  match l with
  | [] => go_ret x0
  | a :: l' => go_bind (body a x0) (λ x, go_fold l' x body)
  end.
End GoM.

Notation "'let!' x := m 'in' k" := (go_bind m (λ x, k))
  (at level 10, x name, m at level 100, k at level 200,
   format "'[v' 'let!'  x  :=  m  'in' '/' k ']'") : go_scope.
Notation "'let!' ' p := m 'in' k" := (go_bind m (λ p, k))
  (at level 10, p pattern, m at level 100, k at level 200) : go_scope.
Notation "'try!' x := m 'in' k" := (go_try m (λ x, k))
  (at level 10, x name, m at level 100, k at level 200) : go_scope.

(** Taking a successful run apart. *)
Lemma go_bind_ok {St A B} (m : GoM St A) (k : A → GoM St B) s b s' :
  go_bind m k s = (Ok b, s') ↔ ∃ a s1, m s = (Ok a, s1) ∧ k a s1 = (Ok b, s').
Proof.
  unfold go_bind. destruct (m s) as [[a|e|p] s1]; split; [by eauto|..]; naive_solver.
Qed.

(** Running the first part. *)
Lemma go_bind_run {St A B} (m : GoM St A) (k : A → GoM St B) s r s' :
  m s = (r, s') →
  go_bind m k s =
  match r with Ok a => k a s' | Err e => (Err e, s') | Panic p => (Panic p, s') end.
Proof. intros Hm. unfold go_bind. rewrite Hm. by destruct r. Qed.

(** *** Frame reasoning

    [Preserves R m]: whatever [m] does, the states before and after are related
    by [R].  For a preorder [R] the property is compositional, so a frame for a
    whole handler follows from the frames of the operations it calls. *)

Class Preserves {St A} (R : relation St) (m : GoM St A) : Prop :=
  preserves s : R s (m s).2.

Section Preserves.
Context {St : Type} (R : relation St) `{!PreOrder R}.

Lemma preserves_weaken {A} (R' : relation St) (m : GoM St A) :
  (∀ s s', R' s s' → R s s') → Preserves R' m → Preserves R m.
Proof. intros HR Hm s. apply HR, Hm. Qed.

#[export] Instance preserves_ret {A} (a : A) : Preserves R (go_ret a).
Proof. intros s. simpl. reflexivity. Qed.

#[export] Instance preserves_fail {A} e : Preserves R (go_fail (A:=A) e).
Proof. intros s. simpl. reflexivity. Qed.

#[export] Instance preserves_panic {A} p : Preserves R (go_panic (A:=A) p).
Proof. intros s. simpl. reflexivity. Qed.

#[export] Instance preserves_lift {A} (r : result A) : Preserves R (go_lift r).
Proof. intros s. simpl. reflexivity. Qed.

#[export] Instance preserves_gets {A} (f : St → A) : Preserves R (go_gets f).
Proof. intros s. simpl. reflexivity. Qed.

#[export] Instance preserves_bind {A B} (m : GoM St A) (k : A → GoM St B) :
  Preserves R m → (∀ a, Preserves R (k a)) → Preserves R (go_bind m k).
Proof.
  intros Hm Hk s. unfold go_bind. pose proof (Hm s) as H.
  destruct (m s) as [[a|e|p] s']; simpl in *; [|done..].
  by etrans; [|apply Hk].
Qed.

#[export] Instance preserves_try {A B} (m : GoM St A) (k : error + A → GoM St B) :
  Preserves R m → (∀ a, Preserves R (k a)) → Preserves R (go_try m k).
Proof.
  intros Hm Hk s. unfold go_try. pose proof (Hm s) as H.
  destruct (m s) as [[a|e|p] s']; simpl in *; [| |done];
    by etrans; [|apply Hk].
Qed.

#[export] Instance preserves_wrap {A} f (m : GoM St A) :
  Preserves R m → Preserves R (go_wrap f m).
Proof. intros Hm. apply preserves_try; [done|]. intros [e|a]; apply _. Qed.

#[export] Instance preserves_defer {A} (m : GoM St A) (d : GoM St unit) :
  Preserves R m → Preserves R d → Preserves R (go_defer m d).
Proof.
  intros Hm Hd s. unfold go_defer. pose proof (Hm s) as H.
  destruct (m s) as [r s']. pose proof (Hd s') as H'.
  destruct (d s') as [[]?]; simpl in *; by etrans.
Qed.

#[export] Instance preserves_for {A} (l : list A) body :
  (∀ a, Preserves R (body a)) → Preserves R (go_for l body).
Proof. intros Hb. induction l; simpl; apply _. Qed.

#[export] Instance preserves_fold {A X} (l : list A) (x : X) body :
  (∀ a x, Preserves R (body a x)) → Preserves R (go_fold l x body).
Proof. intros Hb. revert x. induction l; intros x; simpl; apply _. Qed.
End Preserves.

(** *** What a successful call returns

    [Yields m Q]: whenever [m] returns a value, the value satisfies [Q]. *)

Definition Yields {St A} (m : GoM St A) (Q : A → Prop) : Prop :=
  ∀ s a s', m s = (Ok a, s') → Q a.

Section Yields.
Context {St : Type}.

Lemma yields_ret {A} (a : A) (Q : A → Prop) : Q a → Yields (St:=St) (go_ret a) Q.
Proof. by intros Ha s a' s' [= <- <-]. Qed.

Lemma yields_fail {A} e (Q : A → Prop) : Yields (St:=St) (go_fail e) Q.
Proof. by intros s a' s' ?. Qed.

Lemma yields_panic {A} p (Q : A → Prop) : Yields (St:=St) (go_panic p) Q.
Proof. by intros s a' s' ?. Qed.

Lemma yields_any {A} (m : GoM St A) : Yields m (λ _, True).
Proof. done. Qed.

Lemma yields_bind {A B} (m : GoM St A) (k : A → GoM St B) P Q :
  Yields m P → (∀ a, P a → Yields (k a) Q) → Yields (go_bind m k) Q.
Proof.
  intros Hm Hk s b s'. unfold go_bind. destruct (m s) as [[a| |] s1] eqn:Hs; [|done..].
  apply Hk. by eapply Hm.
Qed.

Lemma yields_then {A B} (m : GoM St A) (k : A → GoM St B) Q :
  (∀ a, Yields (k a) Q) → Yields (go_bind m k) Q.
Proof. intros Hk. apply (yields_bind m k (λ _, True)); [apply yields_any|auto]. Qed.

Lemma yields_try {A B} (m : GoM St A) (k : error + A → GoM St B) Q :
  (∀ r, Yields (k r) Q) → Yields (go_try m k) Q.
Proof. intros Hk s b s'. unfold go_try. destruct (m s) as [[a| |] s1]; [apply Hk..|done]. Qed.

Lemma yields_impl {A} (m : GoM St A) (P Q : A → Prop) :
  Yields m P → (∀ a, P a → Q a) → Yields m Q.
Proof. unfold Yields. eauto. Qed.

Lemma yields_wrap {A} f (m : GoM St A) Q : Yields m Q → Yields (go_wrap f m) Q.
Proof.
  intros Hm s a s'. unfold go_wrap, go_try. destruct (m s) as [[a1| |] s1] eqn:E; [|done..].
  intros [= <- <-]. by eapply Hm.
Qed.

(** A loop whose variable stays in [Q] while its elements are in [P]. *)
Lemma yields_fold {A X} (l : list A) (x0 : X) (body : A → X → GoM St X) (P : A → Prop) (Q : X → Prop) :
  Forall P l → Q x0 → (∀ a x, P a → Q x → Yields (body a x) Q) → Yields (go_fold l x0 body) Q.
Proof.
  intros Hl Hx Hb. revert x0 Hx. induction Hl as [|a l Ha Hl IH]; intros x0 Hx; [by apply yields_ret|].
  cbn [go_fold]. eapply yields_bind; [by apply Hb|auto].
Qed.

(** What the first part returns matters to what the second one keeps. *)
Lemma preserves_bind_yields {A B} (R : relation St) `{!PreOrder R} (m : GoM St A) (k : A → GoM St B) Q :
  Preserves R m → Yields m Q → (∀ a, Q a → Preserves R (k a)) → Preserves R (go_bind m k).
Proof.
  intros Hm Hq Hk s. unfold go_bind. pose proof (Hm s) as H.
  destruct (m s) as [[a|e|p] s'] eqn:E; simpl in *; [|done..].
  etrans; [exact H|]. apply Hk. by eapply Hq.
Qed.
End Yields.
