(* ===== verification/GoStrings.v ===== *)
(** * Go strings

    The functions of Go's [strings] package the program calls.  A Go string is a
    sequence of bytes, here a [string] of 8-bit [ascii] characters.  Every
    separator the program splits at is a single byte, so [Split], [SplitN] and
    [Cut] take the separator as an [ascii].  Each function comes with the lemma
    that states what it computes in terms of concatenation. *)

From S2P Require Import Prelude.
From Stdlib Require Import Ascii.
From Stdlib Require String.

Abbreviation explode := String.list_ascii_of_string.
Abbreviation implode := String.string_of_list_ascii.

(** ** Concatenation and conversion to lists *)

Lemma app_nil_l_str s : "" +:+ s = s.
Proof. done. Qed.

Lemma app_cons_str c s t : String c s +:+ t = String c (s +:+ t).
Proof. done. Qed.

Lemma app_nil_r_str s : s +:+ "" = s.
Proof. induction s as [|c s IH]; [done|]. by rewrite app_cons_str, IH. Qed.

Lemma app_assoc_str s t u : (s +:+ t) +:+ u = s +:+ t +:+ u.
Proof. induction s as [|c s IH]; [done|]. by rewrite !app_cons_str, IH. Qed.

Lemma app_inj_l_str s t u : s +:+ t = s +:+ u → t = u.
Proof. induction s as [|c s IH]; [done|]. rewrite !app_cons_str. intros [= H]. auto. Qed.

Lemma explode_app s t : explode (s +:+ t) = explode s ++ explode t.
Proof. induction s as [|c s IH]; [done|]. rewrite app_cons_str. simpl. by rewrite IH. Qed.

Lemma implode_explode s : implode (explode s) = s.
Proof. apply String.string_of_list_ascii_of_string. Qed.

Lemma explode_implode l : explode (implode l) = l.
Proof. apply String.list_ascii_of_string_of_list_ascii. Qed.

Lemma implode_app l k : implode (l ++ k) = implode l +:+ implode k.
Proof. induction l as [|c l IH]; [done|]. simpl. by rewrite IH, app_cons_str. Qed.

Lemma explode_inj s t : explode s = explode t → s = t.
Proof. intros H. by rewrite <-(implode_explode s), H, implode_explode. Qed.

Lemma length_explode s : length (explode s) = String.length s.
Proof. induction s; simpl; auto. Qed.

Lemma length_implode l : String.length (implode l) = length l.
Proof. by rewrite <-length_explode, explode_implode. Qed.

Lemma length_app_str s t : String.length (s +:+ t) = String.length s + String.length t.
Proof. by rewrite <-!length_explode, explode_app, length_app. Qed.

(** The bytes of a string, as a set-like predicate. *)
Definition byte_in (c : ascii) (s : string) : Prop := c ∈ explode s.

#[export] Instance byte_in_dec c s : Decision (byte_in c s).
Proof. unfold byte_in. apply _. Defined.

Lemma byte_in_app c s t : byte_in c (s +:+ t) ↔ byte_in c s ∨ byte_in c t.
Proof. unfold byte_in. rewrite explode_app. set_solver. Qed.

Lemma byte_in_cons c d s : byte_in c (String d s) ↔ c = d ∨ byte_in c s.
Proof. unfold byte_in. simpl. set_solver. Qed.

Lemma byte_in_nil c : ¬ byte_in c "".
Proof. unfold byte_in. simpl. set_solver. Qed.

Create Rewrite HintDb gostr.
#[export] Hint Rewrite app_nil_l_str app_cons_str app_nil_r_str app_assoc_str explode_app
  implode_explode explode_implode length_explode length_implode length_app_str : gostr.

(** A property of single bytes is checked on all 256 of them. *)
Lemma ascii_forall (P : ascii → bool) :
  forallb P (ascii_of_nat <$> seq 0 256) = true → ∀ c, P c = true.
Proof.
  rewrite forallb_forall. intros H c. apply H, list_elem_of_In, list_elem_of_fmap.
  exists (nat_of_ascii c). rewrite ascii_nat_embedding, elem_of_seq.
  pose proof (nat_ascii_bounded c). split; [done|lia].
Qed.

Ltac all_bytes c :=
  revert c; apply ascii_forall; vm_compute; reflexivity.

(** ** Prefixes and suffixes *)

(** [strings.HasPrefix(s, p)]. *)
Fixpoint HasPrefix (s p : string) : bool :=
  match p, s with
  | EmptyString, _ => true
  | String a p', String b s' => bool_decide (a = b) && HasPrefix s' p'
  | _, EmptyString => false
  end.

(** [strings.TrimPrefix(s, p)]. *)
Fixpoint drop_str (n : nat) (s : string) : string :=
  match n, s with
  | S n', String _ s' => drop_str n' s'
  | _, _ => s
  end.

Definition TrimPrefix (s p : string) : string :=
  if HasPrefix s p then drop_str (String.length p) s else s.

(** [strings.HasSuffix(s, p)]. *)
Fixpoint HasSuffix (s p : string) : bool :=
  bool_decide (s = p) ||
  match s with EmptyString => false | String _ s' => HasSuffix s' p end.

(** [strings.TrimSuffix(s, p)]. *)
Fixpoint TrimSuffix (s p : string) : string :=
  if decide (s = p) then "" else
  match s with EmptyString => "" | String c s' => String c (TrimSuffix s' p) end.

(** [strings.Contains(s, sub)]. *)
Fixpoint Contains (s sub : string) : bool :=
  HasPrefix s sub ||
  match s with EmptyString => false | String _ s' => Contains s' sub end.

Lemma HasPrefix_nil s : HasPrefix s "" = true.
Proof. by destruct s. Qed.

Lemma HasPrefix_spec s p : HasPrefix s p = true ↔ ∃ t, s = p +:+ t.
Proof.
  revert s. induction p as [|a p IH]; intros s; simpl.
  - destruct s; naive_solver.
  - destruct s as [|b s]; simpl.
    + split; [done|]. intros [t Ht]. by rewrite app_cons_str in Ht.
    + rewrite andb_true_iff, bool_decide_eq_true, IH. split.
      * intros [-> [t ->]]. exists t. by rewrite app_cons_str.
      * intros [t Ht]. rewrite app_cons_str in Ht. simplify_eq. eauto.
Qed.

Lemma drop_str_app p t : drop_str (String.length p) (p +:+ t) = t.
Proof. induction p as [|a p IH]; [by destruct t|]. by rewrite app_cons_str. Qed.

Lemma TrimPrefix_app p t : TrimPrefix (p +:+ t) p = t.
Proof.
  unfold TrimPrefix. assert (HasPrefix (p +:+ t) p = true) as ->
    by (apply HasPrefix_spec; eauto).
  apply drop_str_app.
Qed.

Lemma TrimPrefix_spec s p :
  (HasPrefix s p = true ∧ s = p +:+ TrimPrefix s p) ∨
  (HasPrefix s p = false ∧ TrimPrefix s p = s).
Proof.
  unfold TrimPrefix. destruct (HasPrefix s p) eqn:H; [left|by right].
  apply HasPrefix_spec in H as [t ->]. by rewrite drop_str_app.
Qed.

Lemma app_eq_nil_str s t : s +:+ t = "" → s = "" ∧ t = "".
Proof. destruct s; [by rewrite app_nil_l_str|by rewrite app_cons_str]. Qed.

Lemma HasSuffix_spec s p : HasSuffix s p = true ↔ ∃ t, s = t +:+ p.
Proof.
  induction s as [|c s IH]; simpl; rewrite orb_true_iff, bool_decide_eq_true.
  - split.
    + intros [<-|?]; [by exists ""|done].
    + intros [t Ht]. symmetry in Ht. apply app_eq_nil_str in Ht as [-> ->]. by left.
  - rewrite IH. split.
    + intros [<-|[t ->]]; [by exists ""|]. exists (String c t). by rewrite app_cons_str.
    + intros [[|d t] Ht]; [by left|]. rewrite app_cons_str in Ht. simplify_eq. eauto.
Qed.

Lemma TrimSuffix_spec s p :
  (HasSuffix s p = true ∧ s = TrimSuffix s p +:+ p) ∨
  (HasSuffix s p = false ∧ TrimSuffix s p = s).
Proof.
  induction s as [|c s IH]; simpl.
  - case_decide as E; [left|right]; simpl; [by subst p|].
    by rewrite bool_decide_eq_false_2.
  - case_decide as E; [left|]; simpl.
    + by rewrite bool_decide_eq_true_2, app_nil_l_str.
    + rewrite bool_decide_eq_false_2 by done. simpl.
      destruct IH as [[? Hs]|[? Hs]]; [left|right]; split; [done| |done|].
      * rewrite app_cons_str. by rewrite <-Hs.
      * by rewrite Hs.
Qed.

Lemma TrimSuffix_app t p : TrimSuffix (t +:+ p) p = t.
Proof.
  destruct (TrimSuffix_spec (t +:+ p) p) as [[_ H]|[H _]].
  - assert (explode t ++ explode p = explode (TrimSuffix (t +:+ p) p) ++ explode p) as E
      by (by rewrite <-!explode_app, <-H).
    apply app_inv_tail in E. by apply explode_inj.
  - assert (HasSuffix (t +:+ p) p = true) by (apply HasSuffix_spec; eauto). congruence.
Qed.

Lemma Contains_spec s sub : Contains s sub = true ↔ ∃ a b, s = a +:+ sub +:+ b.
Proof.
  induction s as [|c s IH]; cbn [Contains]; rewrite orb_true_iff, HasPrefix_spec.
  - split.
    + intros [[t ->]|?]; [by exists "", t|done].
    + intros (a & b & H). symmetry in H. apply app_eq_nil_str in H as [-> H]. eauto.
  - rewrite IH. split.
    + intros [[t ->]|(a & b & ->)]; [by exists "", t|].
      exists (String c a), b. by rewrite !app_cons_str.
    + intros ([|d a] & b & H); [left; eauto|right].
      rewrite app_cons_str in H. simplify_eq. eauto.
Qed.

Lemma Contains_byte s c : Contains s (String c "") = true ↔ byte_in c s.
Proof.
  rewrite Contains_spec. split.
  - intros (a & b & ->). rewrite byte_in_app, byte_in_app, byte_in_cons. auto.
  - unfold byte_in. intros (a & b & H)%list_elem_of_split. exists (implode a), (implode b).
    by rewrite <-(implode_explode s), H, implode_app, app_cons_str.
Qed.

(** ** Cutting and splitting *)

(** [strings.Cut(s, sep)]: the text before and after the first separator. *)
Fixpoint Cut (s : string) (sep : ascii) : option (string * string) :=
  match s with
  | EmptyString => None
  | String c s' =>
      if decide (c = sep) then Some ("", s')
      else match Cut s' sep with
           | Some (a, b) => Some (String c a, b)
           | None => None
           end
  end.

(** [strings.Split(s, sep)]. *)
Fixpoint Split (s : string) (sep : ascii) : list string :=
  match s with
  | EmptyString => [""]
  | String c s' =>
      if decide (c = sep) then "" :: Split s' sep
      else match Split s' sep with
           | w :: ws => String c w :: ws
           | [] => [String c ""]
           end
  end.

(** [strings.SplitN(s, sep, 2)]. *)
Definition SplitN2 (s : string) (sep : ascii) : list string :=
  match Cut s sep with
  | Some (a, b) => [a; b]
  | None => [s]
  end.

(** [strings.Join(l, sep)], the inverse of [Split]. *)
Fixpoint Join (l : list string) (sep : ascii) : string :=
  match l with
  | [] => ""
  | [w] => w
  | w :: ws => w +:+ String sep (Join ws sep)
  end.

Lemma Cut_Some s sep a b :
  Cut s sep = Some (a, b) ↔ s = a +:+ String sep b ∧ ¬ byte_in sep a.
Proof.
  revert a b. induction s as [|c s IH]; intros a b; simpl.
  - split; [done|]. intros [H _]. symmetry in H. by apply app_eq_nil_str in H as [_ H].
  - case_decide as E.
    + split.
      * intros [= <- <-]. split; [by subst|apply byte_in_nil].
      * intros [H Hn]. destruct a as [|d a]; [rewrite app_nil_l_str in H; by simplify_eq|].
        rewrite app_cons_str in H. simplify_eq. rewrite byte_in_cons in Hn. naive_solver.
    + split.
      * destruct (Cut s sep) as [[a' b']|]; [|done]. intros [= <- <-].
        destruct (IH a' b') as [[-> Hn] _]; [done|].
        rewrite app_cons_str, byte_in_cons. naive_solver.
      * intros [H Hn]. destruct a as [|d a]; [rewrite app_nil_l_str in H; by simplify_eq|].
        rewrite app_cons_str in H. injection H as -> H. rewrite byte_in_cons in Hn.
        destruct (IH a b) as [_ ->]; naive_solver.
Qed.

Lemma app_sep_inj sep a b a' b' :
  ¬ byte_in sep a → ¬ byte_in sep a' →
  a +:+ String sep b = a' +:+ String sep b' → a = a' ∧ b = b'.
Proof.
  intros Ha Ha' H. assert (Some (a, b) = Some (a', b')) as [= -> ->]; [|done].
  rewrite <-(proj2 (Cut_Some (a +:+ String sep b) sep a b)) by done.
  rewrite H. by apply Cut_Some.
Qed.

Lemma Cut_None s sep : Cut s sep = None ↔ ¬ byte_in sep s.
Proof.
  induction s as [|c s IH]; simpl.
  - split; [intros _; apply byte_in_nil|done].
  - rewrite byte_in_cons. case_decide as E; [naive_solver|].
    destruct (Cut s sep) as [[]|]; naive_solver.
Qed.

(** What precedes the separator keeps a prefix without it. *)
Lemma Cut_head_app p q sep :
  ¬ byte_in sep p →
  match Cut (p +:+ q) sep with Some (a, _) => a | None => p +:+ q end =
  p +:+ match Cut q sep with Some (a, _) => a | None => q end.
Proof.
  induction p as [|c p IH]; [done|]. rewrite byte_in_cons, !app_cons_str. intros Hn. simpl.
  rewrite decide_False by naive_solver. rewrite <-IH by naive_solver.
  by destruct (Cut (p +:+ q) sep) as [[]|].
Qed.

Lemma Split_not_nil s sep : Split s sep ≠ [].
Proof. destruct s; simpl; [done|]. case_decide; [done|]. by destruct (Split s sep). Qed.

Lemma Join_cons w ws sep :
  ws ≠ [] → Join (w :: ws) sep = w +:+ String sep (Join ws sep).
Proof. by destruct ws. Qed.

(** Splitting and joining at the same separator is the identity. *)
Lemma Join_Split s sep : Join (Split s sep) sep = s.
Proof.
  induction s as [|c s IH]; [done|]. simpl. pose proof (Split_not_nil s sep) as Hne.
  case_decide as E.
  - by rewrite Join_cons, IH, E.
  - destruct (Split s sep) as [|w [|w' ws]]; [done| |].
    + simpl in *. by rewrite <-IH.
    + rewrite Join_cons in IH |- * by done. by rewrite app_cons_str, IH.
Qed.

Lemma Split_no_sep s sep : Forall (λ w, ¬ byte_in sep w) (Split s sep).
Proof.
  induction s as [|c s IH]; simpl.
  - constructor; [apply byte_in_nil|constructor].
  - case_decide as E; [constructor; [apply byte_in_nil|done]|].
    destruct (Split s sep) as [|w ws].
    + constructor; [|constructor]. rewrite byte_in_cons. intros [<-|H]; [done|by apply byte_in_nil in H].
    + apply Forall_cons in IH as [Hw Hws]. constructor; [|done].
      rewrite byte_in_cons. intros [?|?]; [by subst|done].
Qed.

(** A string without the separator is its only piece; a separator ends a piece. *)
Lemma Split_single s sep : ¬ byte_in sep s → Split s sep = [s].
Proof.
  induction s as [|c s IH]; simpl; [done|]. rewrite byte_in_cons. intros H.
  rewrite decide_False by naive_solver. by rewrite IH by naive_solver.
Qed.

Lemma Split_app a b sep :
  ¬ byte_in sep a → Split (a +:+ String sep b) sep = a :: Split b sep.
Proof.
  induction a as [|c a IH]; intros H.
  - rewrite app_nil_l_str. simpl. by rewrite decide_True.
  - rewrite app_cons_str. rewrite byte_in_cons in H. simpl.
    rewrite decide_False by naive_solver. by rewrite IH by naive_solver.
Qed.

Lemma Split_Join l sep :
  l ≠ [] → Forall (λ w, ¬ byte_in sep w) l → Split (Join l sep) sep = l.
Proof.
  intros Hne Hl. induction Hl as [|w ws Hw Hws IH]; [done|].
  destruct ws as [|w' ws]; [by apply Split_single|].
  rewrite Join_cons, Split_app by done. by rewrite IH.
Qed.

Lemma SplitN2_pair s sep a b :
  SplitN2 s sep = [a; b] ↔ s = a +:+ String sep b ∧ ¬ byte_in sep a.
Proof.
  rewrite <-Cut_Some. unfold SplitN2.
  destruct (Cut s sep) as [[a' b']|]; naive_solver.
Qed.

(** ** Replacing *)

(** [strings.ReplaceAll(s, old, new)] for a non-empty [old]: the occurrences are
    replaced from left to right without overlapping; [skip] counts the bytes of
    an occurrence still to drop. *)
Fixpoint replace_from (old new : string) (skip : nat) (s : string) : string :=
  match s with
  | EmptyString => ""
  | String c s' =>
      match skip with
      | S k => replace_from old new k s'
      | 0 =>
          if HasPrefix s old
          then new +:+ replace_from old new (pred (String.length old)) s'
          else String c (replace_from old new 0 s')
      end
  end.

Definition ReplaceAll (s old new : string) : string := replace_from old new 0 s.

(** Replacing one byte by one byte maps over the string. *)
Lemma ReplaceAll_byte s c d :
  explode (ReplaceAll s (String c "") (String d "")) =
  (λ x, if decide (x = c) then d else x) <$> explode s.
Proof.
  unfold ReplaceAll. induction s as [|x s IH]; [done|]. simpl.
  rewrite HasPrefix_nil, andb_true_r. case_decide as E.
  - rewrite bool_decide_eq_true_2 by done. rewrite app_cons_str. simpl.
    rewrite app_nil_l_str. by rewrite IH.
  - rewrite bool_decide_eq_false_2 by naive_solver. simpl. by rewrite IH.
Qed.

(** [s[:n]] on a string at least [n] bytes long, [s] otherwise (the callers
    check the length first). *)
Definition take_str (n : nat) (s : string) : string := implode (take n (explode s)).

Lemma explode_take_str n s : explode (take_str n s) = take n (explode s).
Proof. apply explode_implode. Qed.

(** [strings.ToLower] on ASCII text. *)
Definition lower_byte (c : ascii) : ascii :=
  let n := nat_of_ascii c in
  if bool_decide (65 ≤ n ∧ n ≤ 90) then ascii_of_nat (n + 32) else c.

Definition ToLower (s : string) : string := implode (lower_byte <$> explode s).
