(* ===== verification/Slices.v ===== *)
(** * internal/slices

    The two slice helpers of [internal/slices/slice.go], as the loops the code
    has, with what they compute: [Filter] is the list filter, [Intersection] the
    length of the longest common prefix. *)

From S2P Require Import Prelude.

(** The loop of [Filter]: [ret] is the named result, appended to. *)
Fixpoint Filter_loop {T} (slice : list T) (testFunction : T → bool) (ret : list T) : list T :=
  match slice with
  | [] => ret
  | s :: rest =>
      Filter_loop rest testFunction (if testFunction s then ret ++ [s] else ret)
  end.

Definition Filter {T} (slice : list T) (testFunction : T → bool) : list T :=
  Filter_loop slice testFunction [].

(** The loop of [Intersection]: [i] is the index of [e1] in [s1]. *)
Fixpoint Intersection_loop (i : nat) (s1 s2 : list string) (count : nat) : nat :=
  match s1 with
  | [] => count
  | e1 :: rest =>
      if decide (s2 !! i = Some e1) then Intersection_loop (S i) rest s2 (S count)
      else count
  end.

Definition Intersection (s1 s2 : list string) : nat := Intersection_loop 0 s1 s2 0.

(** ** What they compute *)

Lemma Filter_loop_spec {T} (slice : list T) f ret :
  Filter_loop slice f ret = ret ++ List.filter f slice.
Proof.
  revert ret. induction slice as [|s l IH]; intros ret; simpl.
  - by rewrite app_nil_r.
  - rewrite IH. destruct (f s); [by rewrite <-app_assoc|done].
Qed.

(** [Filter] returns exactly the elements that satisfy the test, in the
    order of the slice. *)
Theorem Filter_is_filter {T} (slice : list T) (testFunction : T → bool) :
  Filter slice testFunction = List.filter testFunction slice.
Proof. exact (Filter_loop_spec slice testFunction []). Qed.

Lemma Filter_elem {T} (l : list T) f x : x ∈ Filter l f ↔ x ∈ l ∧ f x = true.
Proof. rewrite Filter_is_filter, !list_elem_of_In. apply filter_In. Qed.

(** The common prefix two lists share. *)
Fixpoint common_prefix (s1 s2 : list string) : list string :=
  match s1, s2 with
  | a :: s1', b :: s2' => if decide (a = b) then a :: common_prefix s1' s2' else []
  | _, _ => []
  end.

Lemma Intersection_loop_spec i s1 s2 count :
  Intersection_loop i s1 s2 count = count + length (common_prefix s1 (drop i s2)).
Proof.
  revert i count. induction s1 as [|a s1 IH]; intros i count; simpl; [lia|].
  destruct (s2 !! i) as [b|] eqn:Hi.
  - rewrite (drop_S _ b) by done. destruct (decide (a = b)) as [->|].
    + rewrite decide_True, IH by done. simpl. lia.
    + rewrite decide_False by congruence. simpl. lia.
  - rewrite decide_False by done. rewrite drop_ge by (by apply lookup_ge_None). simpl. lia.
Qed.

Lemma Intersection_common_prefix s1 s2 :
  Intersection s1 s2 = length (common_prefix s1 s2).
Proof. apply (Intersection_loop_spec 0). Qed.

Lemma common_prefix_length s1 s2 k :
  k ≤ length (common_prefix s1 s2) ↔
  k ≤ length s1 ∧ k ≤ length s2 ∧ take k s1 = take k s2.
Proof.
  revert s2 k. induction s1 as [|a s1 IH]; intros [|b s2] [|k]; simpl;
    try (split; [intros; repeat split; lia|lia]); try lia.
  case_decide as E; simpl; [subst|].
  - rewrite <-!Nat.succ_le_mono, IH.
    split; [by intros (?&?&->)|by intros (?&?&[= ?])].
  - split; [lia|]. intros (_ & _ & [= ? _]). done.
Qed.

Lemma Intersection_longest s1 s2 k :
  k ≤ Intersection s1 s2 ↔
  k ≤ length s1 ∧ k ≤ length s2 ∧ take k s1 = take k s2.
Proof. rewrite Intersection_common_prefix. apply common_prefix_length. Qed.

(** [Intersection] is the length of the longest common prefix: a number is
    at most the result exactly when both slices are that long and agree on that
    many leading elements. *)
Theorem Intersection_longest_prefix s1 s2 k :
  k ≤ Intersection s1 s2 ↔
  k ≤ length s1 ∧ k ≤ length s2 ∧ take k s1 = take k s2.
Proof. apply Intersection_longest. Qed.

Lemma Intersection_le s1 s2 : Intersection s1 s2 ≤ length s1.
Proof. by apply (proj1 (Intersection_longest s1 s2 _) (le_n _)). Qed.

Lemma Intersection_positive s1 s2 :
  0 < Intersection s1 s2 ↔ ∃ a, head s1 = Some a ∧ head s2 = Some a.
Proof.
  rewrite Intersection_common_prefix. destruct s1 as [|a s1], s2 as [|b s2]; simpl;
    [split; [lia|by intros (?&?&?)]..|].
  case_decide as E; simpl; [subst; split; [eauto|lia]|].
  split; [lia|]. intros (x & [= ->] & [= ->]). done.
Qed.
