(* ===== verification/GoRegexp.v ===== *)
(** * Go regular expressions

    The part of Go's [regexp] package the program's patterns need: literals,
    byte classes, greedy [+], [*] and [?], concatenation, capturing groups and
    the anchors [^] and [$] of a pattern without flags.  Repetition is over
    single classes, as in every pattern of the program, so matching is
    structurally recursive.

    A match is leftmost and, at its position, the first in the order a
    backtracking search tries the alternatives (greedy first), which is what
    Go's [regexp] returns.  The text is matched byte by byte where Go matches
    code points; the classes of the program are sets of ASCII characters and
    their complements, and a complement contains every byte of a non-ASCII code
    point, so both give the same matches. *)

From S2P Require Import Prelude GoStrings.
From Stdlib Require Import Ascii.

Inductive regex : Type :=
| Eps
| Cls (p : ascii → bool)      (* one byte of a class *)
| Plus (p : ascii → bool)     (* [p]+ *)
| Many (p : ascii → bool)     (* [p]* *)
| Opt (r : regex)             (* (?:r)? *)
| Seq (r1 r2 : regex)
| Grp (n : nat) (r : regex)   (* the n-th capturing group *)
| Bol                         (* ^ *)
| Eol.                        (* $ *)

(** The state of a match: the byte offset in the text, what is left of the text
    and the captured groups, innermost last. *)
Record mstate := MState {
  ms_pos : nat;
  ms_rest : list ascii;
  ms_caps : list (nat * list ascii)
}.

Definition advance (s : mstate) (rest : list ascii) : mstate :=
  MState (S (ms_pos s)) rest (ms_caps s).

(** The states after one or more (or zero or more) bytes of a class, longest first. *)
Fixpoint run_class (p : ascii → bool) (pos : nat) (rest : list ascii)
    (caps : list (nat * list ascii)) : list mstate :=
  match rest with
  | c :: rest' =>
      if p c then run_class p (S pos) rest' caps ++ [MState (S pos) rest' caps] else []
  | [] => []
  end.

Definition capture (n : nat) (before after : mstate) : mstate :=
  MState (ms_pos after) (ms_rest after)
    (ms_caps after ++
     [(n, take (length (ms_rest before) - length (ms_rest after)) (ms_rest before))]).

(** All the matches of a pattern from a state, in order of preference. *)
Fixpoint matches (r : regex) (s : mstate) : list mstate :=
  match r with
  | Eps => [s]
  | Cls p =>
      match ms_rest s with
      | c :: rest => if p c then [advance s rest] else []
      | [] => []
      end
  | Plus p => run_class p (ms_pos s) (ms_rest s) (ms_caps s)
  | Many p => run_class p (ms_pos s) (ms_rest s) (ms_caps s) ++ [s]
  | Opt r' => matches r' s ++ [s]
  | Seq r1 r2 => matches r1 s ≫= matches r2
  | Grp n r' => capture n s <$> matches r' s
  | Bol => if decide (ms_pos s = 0) then [s] else []
  | Eol => match ms_rest s with [] => [s] | _ => [] end
  end.

(** The leftmost match at or after an offset: where it starts, and its end state. *)
Fixpoint find_from (r : regex) (pos : nat) (rest : list ascii)
    : option (nat * list ascii * mstate) :=
  match matches r (MState pos rest []) with
  | m :: _ => Some (pos, rest, m)
  | [] => match rest with
          | [] => None
          | _ :: rest' => find_from r (S pos) rest'
          end
  end.

(** The text of a group, empty when the group took no part in the match. *)
Definition group (n : nat) (m : mstate) : string :=
  match List.find (λ c, bool_decide (c.1 = n)) (ms_caps m) with
  | Some (_, t) => implode t
  | None => ""
  end.

(** [re.FindStringSubmatch(s)] for a pattern with [k] groups: the whole match and
    the groups, or nothing when there is no match. *)
Definition FindStringSubmatch (k : nat) (r : regex) (s : string) : list string :=
  match find_from r 0 (explode s) with
  | Some (_, start, m) =>
      implode (take (length start - length (ms_rest m)) start)
        :: ((λ n, group n m) <$> seq 1 k)
  | None => []
  end.

(** [re.ReplaceAllString(s, repl)] for a pattern that matches no empty text and a
    replacement without [$]; [fuel] bounds the number of matches. *)
Fixpoint replace_loop (r : regex) (repl : list ascii) (fuel pos : nat) (rest : list ascii)
    : list ascii :=
  match fuel with
  | 0 => rest
  | S fuel' =>
      match find_from r pos rest with
      | Some (_, start, m) =>
          take (length rest - length start) rest ++ repl ++
          replace_loop r repl fuel' (ms_pos m) (ms_rest m)
      | None => rest
      end
  end.

Definition ReplaceAllString (r : regex) (s repl : string) : string :=
  implode (replace_loop r (explode repl) (S (String.length s)) 0 (explode s)).

(** The pattern of a literal text. *)
Fixpoint Lit (s : string) : regex :=
  match s with
  | EmptyString => Eps
  | String c s' => Seq (Cls (λ d, bool_decide (d = c))) (Lit s')
  end.

(** A sequence of patterns. *)
Definition Cat (l : list regex) : regex := foldr Seq Eps l.

(** [.]: any character but a newline. *)
Definition Dot (c : ascii) : bool := negb (bool_decide (c = "010"%char)).

(** ** Runs of a class *)

Section Runs.
Context (p : ascii → bool).

(** How many leading bytes are in the class. *)
Fixpoint span_len (l : list ascii) : nat :=
  match l with c :: l' => if p c then S (span_len l') else 0 | [] => 0 end.

(** The text with its leading run dropped, with its trailing run dropped, and
    with every run replaced by one text. *)
Fixpoint strip_start (l : list ascii) : list ascii :=
  match l with c :: l' => if p c then strip_start l' else l | [] => [] end.

Fixpoint strip_end (l : list ascii) : list ascii :=
  match l with
  | c :: l' => if forallb p l then [] else c :: strip_end l'
  | [] => []
  end.

Fixpoint squeeze (repl : list ascii) (l : list ascii) : list ascii :=
  match l with
  | c :: l' =>
      if p c then
        match l' with
        | d :: _ => if p d then squeeze repl l' else repl ++ squeeze repl l'
        | [] => repl
        end
      else c :: squeeze repl l'
  | [] => []
  end.

Lemma run_class_eq pos rest caps :
  run_class p pos rest caps =
  (λ k, MState (pos + k) (drop k rest) caps) <$> reverse (seq 1 (span_len rest)).
Proof.
  revert pos. induction rest as [|c rest IH]; intros pos; [done|]. simpl.
  destruct (p c); [|done]. rewrite IH. simpl.
  rewrite reverse_cons, fmap_app. f_equal.
  - rewrite <-(fmap_S_seq 1), <-fmap_reverse, <-list_fmap_compose.
    apply list_fmap_ext. intros _ k _. simpl. f_equal. lia.
  - simpl. do 2 f_equal. lia.
Qed.

Lemma elem_of_run_class pos rest caps m :
  m ∈ run_class p pos rest caps ↔
  ∃ w, w ≠ [] ∧ Forall (λ c, p c = true) w ∧ rest = w ++ ms_rest m ∧
       ms_pos m = pos + length w ∧ ms_caps m = caps.
Proof.
  revert pos. induction rest as [|c rest IH]; intros pos; simpl.
  - split; [by intros ?%elem_of_nil|]. by intros ([|] & ? & ? & ? & ?).
  - split.
    + destruct (p c) eqn:Hc; [|by intros ?%elem_of_nil].
      rewrite elem_of_app, list_elem_of_singleton, IH.
      intros [(w & ? & ? & -> & -> & ?)| ->].
      * exists (c :: w). simpl. split_and!; auto with lia.
      * exists [c]. simpl. split_and!; auto with lia.
    + intros (w & Hw & HF & Hr & Hp & Hcaps). destruct w as [|d w]; [done|].
      injection Hr as <- ->. apply Forall_cons in HF as [-> HF].
      rewrite elem_of_app, list_elem_of_singleton, IH. destruct w as [|d' w].
      * right. destruct m; simpl in *. by rewrite Hcaps, Nat.add_1_r in *; subst.
      * left. exists (d' :: w). simpl in *. split_and!; auto with lia.
Qed.

Lemma span_len_drop l : drop (span_len l) l = strip_start l.
Proof. induction l as [|c l IH]; simpl; [done|]. by destruct (p c). Qed.

Lemma run_class_nil pos c rest caps : p c = false → run_class p pos (c :: rest) caps = [].
Proof. intros H. simpl. by rewrite H. Qed.

Lemma run_class_head pos c rest caps :
  p c = true →
  ∃ ms, run_class p pos (c :: rest) caps =
    MState (pos + span_len (c :: rest)) (strip_start (c :: rest)) caps :: ms.
Proof.
  intros Hc. rewrite run_class_eq. simpl span_len. rewrite Hc.
  rewrite seq_S, reverse_snoc. simpl. eexists. f_equal. rewrite Hc. f_equal.
  apply span_len_drop.
Qed.
End Runs.

Lemma strip_start_length p l : length (strip_start p l) ≤ length l.
Proof. induction l as [|c l IH]; simpl; [lia|]. destruct (p c); simpl; lia. Qed.

Lemma strip_start_suffix p l : ∃ w, l = w ++ strip_start p l ∧ Forall (λ c, p c = true) w.
Proof.
  induction l as [|c l [w [Hl Hw]]]; simpl; [by exists []|]. destruct (p c) eqn:Hc.
  - exists (c :: w). simpl. rewrite <-Hl. auto.
  - by exists [].
Qed.

(** ** Searching *)

Lemma find_from_hit r pos rest m ms :
  matches r (MState pos rest []) = m :: ms → find_from r pos rest = Some (pos, rest, m).
Proof. intros H. destruct rest; simpl; by rewrite H. Qed.

Lemma find_from_skip r pos c rest :
  matches r (MState pos (c :: rest) []) = [] →
  find_from r pos (c :: rest) = find_from r (S pos) rest.
Proof. intros H. simpl. by rewrite H. Qed.

Lemma find_from_nil r pos :
  matches r (MState pos [] []) = [] → find_from r pos [] = None.
Proof. intros H. simpl. by rewrite H. Qed.

(** What a search returns is a match, at the position it says. *)
Lemma find_from_sound r pos rest pos' start m :
  find_from r pos rest = Some (pos', start, m) →
  (∃ pre, rest = pre ++ start ∧ pos' = pos + length pre) ∧
  m ∈ matches r (MState pos' start []).
Proof.
  revert pos. induction rest as [|c rest IH]; intros pos; simpl.
  - destruct (matches r (MState pos [] [])) eqn:E; [done|]. intros [= <- <- <-].
    split; [exists []; simpl; auto with lia|]. rewrite E. left.
  - destruct (matches r (MState pos (c :: rest) [])) eqn:E.
    + intros ([pre [-> ->]] & Hm)%IH. split; [|done].
      exists (c :: pre). simpl. auto with lia.
    + intros [= <- <- <-]. split; [exists []; simpl; auto with lia|]. rewrite E. left.
Qed.

(** *** The three shapes of pattern used for rewriting *)

Lemma find_from_Plus p pos rest :
  find_from (Plus p) pos rest =
  match strip_start (λ c, negb (p c)) rest with
  | [] => None
  | start => Some (pos + (length rest - length start), start,
               MState (pos + (length rest - length start) + span_len p start)
                 (strip_start p start) [])
  end.
Proof.
  revert pos. induction rest as [|c rest IH]; intros pos; [done|].
  destruct (p c) eqn:Hc.
  - destruct (run_class_head p pos c rest [] Hc) as [ms Hms].
    rewrite (find_from_hit (Plus p) pos (c :: rest) _ ms Hms). cbn [strip_start]. rewrite Hc. simpl negb.
    cbn iota. rewrite Nat.sub_diag, Nat.add_0_r. cbn [strip_start]. by rewrite Hc.
  - rewrite find_from_skip by (by apply run_class_nil). rewrite IH.
    cbn [strip_start]. rewrite Hc. simpl negb. cbn iota.
    pose proof (strip_start_length (λ c, negb (p c)) rest).
    destruct (strip_start _ rest) as [|d start] eqn:E; [done|].
    simpl length in *. do 2 f_equal; [|f_equal]; try f_equal; lia.
Qed.

Lemma find_from_Bol r pos rest : pos ≠ 0 → find_from (Seq Bol r) pos rest = None.
Proof.
  revert pos. induction rest as [|c rest IH]; intros pos Hp; simpl;
    rewrite decide_False by done; simpl; auto.
Qed.

Lemma matches_Plus_Eol p pos rest :
  matches (Seq (Plus p) Eol) (MState pos rest []) =
  if bool_decide (rest ≠ []) && forallb p rest
  then [MState (pos + length rest) [] []] else [].
Proof.
  simpl. revert pos. induction rest as [|c rest IH]; intros pos; [done|].
  rewrite bool_decide_eq_true_2 by done. simpl.
  destruct (p c); [|done]. simpl. rewrite bind_app, IH. simpl.
  destruct rest as [|d rest]; simpl; [by rewrite Nat.add_1_r|].
  rewrite app_nil_r. destruct (p d && forallb p rest); [|done].
  do 2 f_equal. lia.
Qed.

Lemma strip_end_all p l : forallb p l = true → strip_end p l = [].
Proof. destruct l as [|c l]; [done|]. intros H. cbn [strip_end]. by rewrite H. Qed.

Lemma find_from_Plus_Eol p pos rest :
  find_from (Seq (Plus p) Eol) pos rest =
  let n := length (strip_end p rest) in
  match drop n rest with
  | [] => None
  | start => Some (pos + n, start, MState (pos + length rest) [] [])
  end.
Proof.
  revert pos. induction rest as [|c rest IH]; intros pos; [done|].
  destruct (forallb p (c :: rest)) eqn:Hall.
  - rewrite (find_from_hit _ pos (c :: rest) (MState (pos + length (c :: rest)) [] []) []).
    2: { rewrite matches_Plus_Eol, Hall. by rewrite bool_decide_eq_true_2. }
    cbn zeta. rewrite strip_end_all by done. simpl length. cbn [drop].
    by rewrite Nat.add_0_r.
  - rewrite find_from_skip.
    2: { by rewrite matches_Plus_Eol, Hall, andb_false_r. }
    rewrite IH. cbn zeta. cbn [strip_end]. rewrite Hall. simpl length. cbn [drop].
    destruct (drop _ rest) as [|d start]; [done|]. do 2 f_equal; [f_equal|f_equal]; lia.
Qed.

Lemma strip_end_take p l : strip_end p l = take (length (strip_end p l)) l.
Proof.
  induction l as [|c l IH]; [done|]. cbn [strip_end].
  destruct (forallb p (c :: l)); [done|]. simpl. by rewrite <-IH.
Qed.

Lemma squeeze_skip p repl w l :
  Forall (λ c, p c = false) w → squeeze p repl (w ++ l) = w ++ squeeze p repl l.
Proof.
  induction 1 as [|c w Hc Hw IH]; [done|]. rewrite <-app_comm_cons. cbn [squeeze].
  rewrite Hc. by rewrite IH.
Qed.

Lemma squeeze_run p repl c l :
  p c = true → squeeze p repl (c :: l) = repl ++ squeeze p repl (strip_start p (c :: l)).
Proof.
  revert c. induction l as [|d l IH]; intros c Hc.
  - simpl. rewrite Hc. by rewrite app_nil_r.
  - specialize (IH d). cbn [squeeze strip_start] in *. rewrite Hc.
    destruct (p d) eqn:Hd; [auto|]. simpl. by rewrite Hd.
Qed.

Lemma take_length_sub {A} (w l : list A) : take (length (w ++ l) - length l) (w ++ l) = w.
Proof. rewrite length_app, Nat.add_sub. by apply take_app_length. Qed.

(** Rewriting with [[class]+], with [^[class]+] and with [[class]+$]. *)
Lemma replace_loop_Plus p repl fuel pos rest :
  length rest < fuel → replace_loop (Plus p) repl fuel pos rest = squeeze p repl rest.
Proof.
  revert pos rest. induction fuel as [|fuel IH]; intros pos rest Hf; [lia|].
  cbn [replace_loop]. rewrite find_from_Plus.
  destruct (strip_start_suffix (λ c, negb (p c)) rest) as (w & Hrest & Hw).
  assert (Forall (λ c, p c = false) w) as Hw'
    by (eapply Forall_impl; [exact Hw|]; intros; by apply negb_true_iff).
  destruct (strip_start _ rest) as [|c start] eqn:Hs.
  - by rewrite Hrest, squeeze_skip.
  - assert (p c = true) as Hc.
    { clear -Hs. induction rest as [|d rest IH]; [done|]. cbn [strip_start] in Hs.
      destruct (p d) eqn:Hd; simpl in Hs; [by injection Hs as -> _|auto]. }
    pose proof (strip_start_length p start). rewrite Hrest, length_app in Hf.
    cbn zeta. cbn iota. cbn [ms_pos ms_rest]. clear Hs. subst rest. rewrite take_length_sub, squeeze_skip, squeeze_run by done. do 2 f_equal.
    apply IH. simpl in *. rewrite Hc. lia.
Qed.

Theorem ReplaceAll_Plus p s repl :
  explode (ReplaceAllString (Plus p) s repl) = squeeze p (explode repl) (explode s).
Proof.
  unfold ReplaceAllString. rewrite explode_implode. apply replace_loop_Plus.
  rewrite length_explode. lia.
Qed.

Theorem ReplaceAll_Bol_Plus p s :
  explode (ReplaceAllString (Seq Bol (Plus p)) s "") = strip_start p (explode s).
Proof.
  unfold ReplaceAllString. rewrite explode_implode. generalize (explode s) as l.
  intros l. cbn [replace_loop]. destruct l as [|c l]; [done|].
  destruct (p c) eqn:Hc.
  - destruct (run_class_head p 0 c l [] Hc) as [ms Hms].
    rewrite (find_from_hit (Seq Bol (Plus p)) 0 (c :: l)
      (MState (0 + span_len p (c :: l)) (strip_start p (c :: l)) []) ms)
      by (rewrite <-Hms; apply app_nil_r).
    rewrite Nat.sub_diag. cbn [take app explode].
    destruct (String.length s); [done|]. cbn [replace_loop].
    rewrite find_from_Bol; [done|]. cbn [ms_pos span_len]. rewrite Hc. lia.
  - rewrite find_from_skip by (simpl; by rewrite Hc).
    rewrite find_from_Bol by lia. cbn [strip_start]. by rewrite Hc.
Qed.

Theorem ReplaceAll_Plus_Eol p s :
  explode (ReplaceAllString (Seq (Plus p) Eol) s "") = strip_end p (explode s).
Proof.
  unfold ReplaceAllString. rewrite explode_implode. generalize (explode s) as l.
  intros l. cbn [replace_loop]. rewrite find_from_Plus_Eol. cbn zeta.
  destruct (drop _ l) as [|c start] eqn:Hd.
  - rewrite strip_end_take, take_ge; [done|].
    assert (length (drop (length (strip_end p l)) l) = 0) as H by (by rewrite Hd).
    rewrite length_drop in H. lia.
  - cbn [ms_pos ms_rest explode app]. rewrite <-Hd.
    assert (∀ fuel pos, replace_loop (Seq (Plus p) Eol) [] fuel pos [] = []) as ->
      by (by intros []).
    rewrite app_nil_r, length_drop. rewrite (strip_end_take p l) at 2. f_equal.
    assert (length (drop (length (strip_end p l)) l) = S (length start)) as H
      by (by rewrite Hd).
    rewrite length_drop in H. lia.
Qed.

(** ** Literals *)

Lemma matches_Lit w pos rest caps :
  matches (Lit w) (MState pos (explode w ++ rest) caps) =
  [MState (pos + String.length w) rest caps].
Proof.
  revert pos. induction w as [|c w IH]; intros pos; cbn [Lit matches].
  - simpl. by rewrite Nat.add_0_r.
  - cbn [String.list_ascii_of_string app ms_rest]. rewrite bool_decide_eq_true_2 by done.
    rewrite bind_cons. unfold advance. cbn [ms_pos ms_caps]. rewrite IH. simpl.
    by rewrite Nat.add_succ_r.
Qed.

(** A literal matches nothing but itself. *)
Lemma elem_of_matches_Lit w s m :
  m ∈ matches (Lit w) s → ms_rest s = explode w ++ ms_rest m ∧ ms_caps m = ms_caps s.
Proof.
  revert s. induction w as [|c w IH]; intros s; cbn [Lit matches].
  - by intros ->%list_elem_of_singleton.
  - destruct (ms_rest s) as [|d rest] eqn:Hs; simpl; [by intros ?%elem_of_nil|].
    case_bool_decide as E; [|by intros ?%elem_of_nil]. simpl. rewrite app_nil_r.
    intros [H1 H2]%IH. simpl in *. by subst.
Qed.
