(* ===== verification/GoSha256.v ===== *)
(** * SHA-256

    [sha256.Sum256]: the digest of FIPS 180-4, on 32-bit words. *)

From S2P Require Import Prelude GoStrings.
From Stdlib Require Import Ascii.
Local Open Scope Z_scope.

Module Sha256.

Definition add32 (a b : Z) : Z := (a + b) mod 2^32.
Definition rotr (n x : Z) : Z := Z.lor (Z.shiftr x n) (Z.land (Z.shiftl x (32 - n)) (2^32 - 1)).
Definition not32 (x : Z) : Z := Z.lxor x (2^32 - 1).
Definition xor3 (a b c : Z) : Z := Z.lxor (Z.lxor a b) c.

(** ** The constants

    The first 32 bits of the fractional parts of the cube roots of the first 64 primes,
    and of the square roots of the first 8 (FIPS 180-4, 4.2.2 and 5.3.3). *)

Definition is_prime (n : Z) : bool :=
  forallb (λ d, negb (n mod d =? 0)) (seqZ 2 (n - 2)).

(** The largest [r] below [2^bits] whose cube is at most [n]. *)
Fixpoint cube_root (bits : nat) (n r : Z) : Z :=
  match bits with
  | O => r
  | S bits =>
      let r' := r + 2 ^ Z.of_nat bits in
      cube_root bits n (if r' ^ 3 <=? n then r' else r)
  end.

Lemma cube_root_spec bits n r :
  0 <= r → r ^ 3 <= n < (r + 2 ^ Z.of_nat bits) ^ 3 →
  let c := cube_root bits n r in c ^ 3 <= n < (c + 1) ^ 3.
Proof.
  revert r. induction bits as [|bits IH]; intros r Hr Hn; [exact Hn|].
  cbn [cube_root]. rewrite Nat2Z.inj_succ, Z.pow_succ_r in Hn by lia.
  pose proof (Z.pow_pos_nonneg 2 (Z.of_nat bits) ltac:(lia) ltac:(lia)) as Hpos.
  destruct (Z.leb_spec ((r + 2 ^ Z.of_nat bits) ^ 3) n); apply IH; [lia| |lia|lia].
  replace (r + 2 ^ Z.of_nat bits + 2 ^ Z.of_nat bits) with (r + 2 * 2 ^ Z.of_nat bits) by lia. lia.
Qed.

Definition primes : list Z := Eval vm_compute in List.filter is_prime (seqZ 2 310).

Definition _K : list Z :=
  Eval vm_compute in (λ p, cube_root 35 (p * 2^96) 0 mod 2^32) <$> primes.

(** The words of the digest, from the most significant one. *)
Definition digest : Type := Z * Z * Z * Z * Z * Z * Z * Z.

Definition init : digest :=
  Eval vm_compute in let h i := Z.sqrt (nth i primes 0 * 2^64) mod 2^32 in
  (h 0, h 1, h 2, h 3, h 4, h 5, h 6, h 7)%nat.

(** ** A block *)

(** The next word of the schedule, from the sixteen before it. *)
Definition next_word (window : list Z) : Z :=
  let w i := nth i window 0 in
  let s0 := xor3 (rotr 7 (w 1%nat)) (rotr 18 (w 1%nat)) (Z.shiftr (w 1%nat) 3) in
  let s1 := xor3 (rotr 17 (w 14%nat)) (rotr 19 (w 14%nat)) (Z.shiftr (w 14%nat) 10) in
  add32 (add32 s1 (w 9%nat)) (add32 s0 (w 0%nat)).

Fixpoint schedule (n : nat) (window : list Z) : list Z :=
  match n with
  | O => []
  | S n => nth 0 window 0 :: schedule n (tail window ++ [next_word window])
  end.

Definition round (d : digest) (kw : Z * Z) : digest :=
  let '(a, b, c, d, e, f, g, h) := d in
  let t1 := add32 (add32 h (xor3 (rotr 6 e) (rotr 11 e) (rotr 25 e)))
              (add32 (Z.lxor (Z.land e f) (Z.land (not32 e) g)) (add32 kw.1 kw.2)) in
  let t2 := add32 (xor3 (rotr 2 a) (rotr 13 a) (rotr 22 a))
              (xor3 (Z.land a b) (Z.land a c) (Z.land b c)) in
  (add32 t1 t2, a, b, c, add32 d t1, e, f, g).

Definition block (h : digest) (words : list Z) : digest :=
  let '(a, b, c, d, e, f, g, i) := h in
  let '(a', b', c', d', e', f', g', i') := foldl round h (zip _K (schedule 64 words)) in
  (add32 a a', add32 b b', add32 c c', add32 d d', add32 e e', add32 f f', add32 g g', add32 i i').

(** ** A message *)

(** The message, a one bit, zeros up to 8 bytes before the end of a block, and the
    number of its bits. *)
Definition bytes_of (n : nat) (x : Z) : list ascii :=
  (λ i, ascii_of_N (Z.to_N (Z.shiftr x (8 * (Z.of_nat n - 1 - i)) mod 256))) <$> seqZ 0 (Z.of_nat n).

Definition pad (m : list ascii) : list ascii :=
  let n := Z.of_nat (length m) in
  m ++ "128"%char :: replicate (Z.to_nat ((55 - n) mod 64)) "000"%char ++ bytes_of 8 (8 * n).

Fixpoint words (m : list ascii) : list Z :=
  match m with
  | a :: b :: c :: d :: m' =>
      let z x := Z.of_N (N_of_ascii x) in
      (((z a * 256 + z b) * 256 + z c) * 256 + z d) :: words m'
  | _ => []
  end.

Definition blocks (l : list Z) : list (list Z) :=
  (λ i, take 16 (drop (16 * i) l)) <$> seq 0 (length l / 16).

Definition Sum256 (m : list ascii) : list ascii :=
  let '(a, b, c, d, e, f, g, h) := foldl block init (blocks (words (pad m))) in
  [a; b; c; d; e; f; g; h] ≫= bytes_of 4.

(** The padded message is cut into blocks without a rest. *)
Lemma length_pad m : (Z.of_nat (length (pad m)) mod 64 = 0)%Z.
Proof.
  unfold pad. rewrite length_app. cbn [length]. rewrite length_app, length_replicate.
  change (length (bytes_of 8 (8 * Z.of_nat (length m)))) with 8%nat.
  set (n := Z.of_nat (length m)).
  replace (Z.of_nat (length m + S (Z.to_nat ((55 - n) mod 64) + 8))) with (n + 9 + (55 - n) mod 64)
    by (pose proof (Z.mod_pos_bound (55 - n) 64); lia).
  rewrite Z.add_mod_idemp_r by lia. replace (n + 9 + (55 - n)) with (1 * 64) by lia. apply Z.mod_mul. lia.
Qed.

(** Sixty-four primes, and the first and the last of their constants. *)
Example _K_ex :
  length primes = 64%nat ∧ last primes = Some 311 ∧
  head _K = Some 0x428a2f98 ∧ last _K = Some 0xc67178f2.
Proof. repeat split. Qed.

(** ** The length of the digest, and two of the published digests *)

Lemma length_Sum256 m : length (Sum256 m) = 32%nat.
Proof. unfold Sum256. destruct (foldl _ _ _) as [[[[[[[a b] c] d] e] f] g] h]. reflexivity. Qed.

Example Sum256_ex :
  let abc := Sum256 (explode "abc") in
  let two_blocks := Sum256 (explode "abcdbcdecdefdefgefghfghighijhijkijkljklmklmnlmnomnopnopq") in
  take 8 abc = (ascii_of_nat <$> [0xba; 0x78; 0x16; 0xbf; 0x8f; 0x01; 0xcf; 0xea])%nat ∧
  drop 28 abc = (ascii_of_nat <$> [0xf2; 0x00; 0x15; 0xad])%nat ∧
  take 8 (Sum256 []) = (ascii_of_nat <$> [0xe3; 0xb0; 0xc4; 0x42; 0x98; 0xfc; 0x1c; 0x14])%nat ∧
  take 4 two_blocks = (ascii_of_nat <$> [0x24; 0x8d; 0x6a; 0x61])%nat.
Proof. vm_compute. repeat split. Qed.
End Sha256.
