(* ===== verification/Sanitize.v ===== *)
(** * internal/utils: labels, hashes and random names

    [sanitize.go] and [random.go].  [NormalizeLabelValue] is written with the
    code's three regular expressions over the matcher of GoRegexp; the theorems
    show that what it returns is always a legal Kubernetes label value and that
    legal values are left alone.  The system random source is a
    parameter. *)

From S2P Require Import Prelude GoStrings GoRegexp GoSha256.
From Stdlib Require Import Ascii.

(** ** Byte classes *)

Definition in_range (lo hi : nat) (c : ascii) : bool :=
  bool_decide (lo ≤ nat_of_ascii c ∧ nat_of_ascii c ≤ hi).

(** [A-Za-z0-9]. *)
Definition alnum (c : ascii) : bool :=
  in_range 65 90 c || in_range 97 122 c || in_range 48 57 c.

(** [A-Za-z0-9_.-]. *)
Definition label_byte (c : ascii) : bool :=
  alnum c || bool_decide (c = "_"%char) || bool_decide (c = "."%char)
  || bool_decide (c = "-"%char).

Definition not_alnum (c : ascii) : bool := negb (alnum c).
Definition not_label_byte (c : ascii) : bool := negb (label_byte c).

(** The patterns of [NormalizeLabelValue]: [^[^A-Za-z0-9]+], [[^A-Za-z0-9]+$] and
    [[^A-Za-z0-9_.-]+]. *)
Definition leadingRegexp : regex := Seq Bol (Plus not_alnum).
Definition trailingRegexp : regex := Seq (Plus not_alnum) Eol.
Definition invalidRegexp : regex := Plus not_label_byte.

Definition NormalizeLabelValue (value : string) : string :=
  let sanitized := ReplaceAll value "/" "_" in
  let sanitized :=
    if decide (63 < String.length sanitized) then take_str 63 sanitized else sanitized in
  let sanitized := ReplaceAllString leadingRegexp sanitized "" in
  let sanitized := ReplaceAllString trailingRegexp sanitized "" in
  ReplaceAllString invalidRegexp sanitized "_".

(** ** Hexadecimal *)

Definition hex_digit (n : nat) : ascii :=
  if decide (n < 10) then ascii_of_nat (48 + n) else ascii_of_nat (87 + n).

Definition hex_byte (c : ascii) : list ascii :=
  let n := nat_of_ascii c in [hex_digit (n / 16); hex_digit (n `mod` 16)].

(** [hex.EncodeToString], and [fmt.Sprintf("%x", bytes)]. *)
Definition hex_EncodeToString (bytes : list ascii) : string := implode (bytes ≫= hex_byte).

Definition is_hex_digit (c : ascii) : bool := in_range 48 57 c || in_range 97 102 c.

(** ** RepoBranchHash *)

(** [fmt.Sprintf("%s/%s@%s", host, repository, branch)]; the reconciler uses the
    same text as the key of a repository and branch. *)
Definition repo_branch_key (host repository branch : string) : string :=
  host +:+ "/" +:+ repository +:+ "@" +:+ branch.

Definition RepoBranchHash (host repository branch : string) : string :=
  let key := repo_branch_key host repository branch in
  let sum := Sha256.Sum256 (explode key) in
  take_str 12 (hex_EncodeToString sum).

(** ** RandomString *)

Section Random.
Context {St : Type} (rand_Read : nat → GoM St (list ascii)).

Definition RandomString (length : nat) : GoM St string :=
  try! r := rand_Read (length / 2 + 1) in
  match r with
  | inl _ => go_panic "Failed to read from random generator"
  | inr bytes =>
      let s := hex_EncodeToString bytes in
      if decide (length ≤ String.length s) then go_ret (take_str length s)
      else go_panic "slice bounds out of range"
  end.
End Random.

(** ** Legal label values *)

(** The rule of Kubernetes: at most 63 bytes, all of them alphanumeric or one of
    [-], [_] and [.], with an alphanumeric byte at both ends. *)
Definition valid_label (s : string) : bool :=
  let l := explode s in
  bool_decide (length l ≤ 63) && forallb label_byte l &&
  match head l, last l with
  | Some a, Some b => alnum a && alnum b
  | _, _ => true
  end.

Lemma alnum_label c : alnum c = true → label_byte c = true.
Proof. unfold label_byte. by intros ->. Qed.

Lemma valid_label_spec s :
  valid_label s = true ↔
  length (explode s) ≤ 63 ∧ Forall (λ c, label_byte c = true) (explode s) ∧
  (∀ c, head (explode s) = Some c → alnum c = true) ∧
  (∀ c, last (explode s) = Some c → alnum c = true).
Proof.
  unfold valid_label. generalize (explode s) as l. intros l.
  rewrite !andb_true_iff, bool_decide_eq_true, forallb_forall.
  rewrite Forall_forall. setoid_rewrite list_elem_of_In.
  destruct (head l) as [a|] eqn:Ha, (last l) as [b|] eqn:Hb; simpl.
  - rewrite andb_true_iff. naive_solver.
  - destruct l; [done|]. by apply last_None in Hb.
  - destruct l; done.
  - naive_solver.
Qed.

Section Class.
Context (p : ascii → bool).

Lemma strip_start_head l c : head (strip_start p l) = Some c → p c = false.
Proof.
  induction l as [|d l IH]; simpl; [done|]. destruct (p d) eqn:Hd; [done|]. by intros [= <-].
Qed.

Lemma strip_end_nonempty_head l c l' :
  strip_end p l = c :: l' → head l = Some c.
Proof. destruct l as [|d l]; [done|]. cbn [strip_end]. destruct (forallb _ _); naive_solver. Qed.

Lemma strip_end_last l c : last (strip_end p l) = Some c → p c = false.
Proof.
  induction l as [|d l IH]; [done|]. cbn [strip_end].
  destruct (forallb p (d :: l)) eqn:Hall; [done|].
  rewrite last_cons. destruct (last (strip_end p l)) eqn:E; [by intros [= <-]; auto|].
  intros [= <-]. apply last_None in E. simpl in Hall. destruct (p d); [|done].
  simpl in Hall. clear -E Hall. destruct l as [|e l]; [done|].
  cbn [strip_end] in E. by rewrite Hall in E.
Qed.

Lemma strip_start_id l : (∀ c, head l = Some c → p c = false) → strip_start p l = l.
Proof. destruct l as [|c l]; [done|]. intros H. simpl. by rewrite (H c). Qed.

Lemma strip_end_id l : (∀ c, last l = Some c → p c = false) → strip_end p l = l.
Proof.
  induction l as [|c l IH]; intros H; [done|]. cbn [strip_end].
  destruct (forallb p (c :: l)) eqn:Hall.
  - destruct (last (c :: l)) as [d|] eqn:Hd; [|by apply last_None in Hd].
    rewrite forallb_forall in Hall. specialize (H d eq_refl).
    rewrite Hall in H; [done|]. apply list_elem_of_In. by apply last_Some_elem_of.
  - f_equal. apply IH. intros d Hd. apply H. rewrite last_cons. by rewrite Hd.
Qed.

Lemma squeeze_id repl l : Forall (λ c, p c = false) l → squeeze p repl l = l.
Proof. induction 1 as [|c l Hc Hl IH]; [done|]. cbn [squeeze]. by rewrite Hc, IH. Qed.

Lemma squeeze_Forall (q : ascii → Prop) d l :
  q d → (∀ c, p c = false → q c) → Forall q (squeeze p [d] l).
Proof.
  intros Hd Hq. induction l as [|c l IH]; [constructor|]. cbn [squeeze].
  destruct (p c) eqn:Hc; [|by constructor; auto].
  destruct l as [|e l]; [by repeat constructor|]. destruct (p e); [done|]. by constructor.
Qed.

Lemma squeeze_length d l : length (squeeze p [d] l) ≤ length l.
Proof.
  induction l as [|c l IH]; [done|]. cbn [squeeze]. destruct (p c); simpl; [|lia].
  destruct l as [|e l]; simpl; [lia|]. simpl in IH. destruct (p e); simpl in *; lia.
Qed.

Lemma squeeze_nil d l : squeeze p [d] l = [] → l = [].
Proof.
  induction l as [|c l IH]; [done|]. cbn [squeeze]. destruct (p c); [|done].
  destruct l as [|e l]; [done|]. destruct (p e); [|done].
  by intros ?%IH.
Qed.

Lemma squeeze_head d l c :
  head (squeeze p [d] l) = Some c → (∀ e, head l = Some e → p e = false) → head l = Some c.
Proof.
  destruct l as [|e l]; [done|]. intros H Hp. cbn [squeeze] in H.
  by rewrite (Hp e) in H.
Qed.

Lemma squeeze_cons_app repl a l :
  l ≠ [] → ∃ w, squeeze p repl (a :: l) = w ++ squeeze p repl l.
Proof.
  destruct l as [|e l]; [done|]. intros _.
  exists (if p a then if p e then [] else repl else [a]).
  change (squeeze p repl (a :: e :: l)) with
    (if p a then if p e then squeeze p repl (e :: l) else repl ++ squeeze p repl (e :: l)
     else a :: squeeze p repl (e :: l)).
  by destruct (p a), (p e).
Qed.

Lemma squeeze_last d l c :
  last (squeeze p [d] l) = Some c → (∀ e, last l = Some e → p e = false) → last l = Some c.
Proof.
  induction l as [|a l IH]; [done|]. intros H Hp. rewrite last_cons in Hp |- *.
  destruct (last l) as [b|] eqn:Hb.
  - apply IH; [|intros e [= <-]; by apply Hp].
    destruct (squeeze_cons_app [d] a l) as [w Hw]; [by intros ->|].
    rewrite Hw, last_app in H. destruct (last (squeeze p [d] l)) eqn:E; [done|].
    apply last_None, squeeze_nil in E. by subst.
  - apply last_None in Hb as ->. cbn [squeeze] in H. by rewrite (Hp a) in H.
Qed.
End Class.

(** ** NormalizeLabelValue *)

Definition slash_to_underscore (c : ascii) : ascii :=
  if decide (c = "/"%char) then "_"%char else c.

(** The byte-list function the patterns amount to. *)
Lemma NormalizeLabelValue_eq value :
  explode (NormalizeLabelValue value) =
  squeeze not_label_byte ["_"%char]
    (strip_end not_alnum (strip_start not_alnum
       (take 63 (slash_to_underscore <$> explode value)))).
Proof.
  unfold NormalizeLabelValue, invalidRegexp, trailingRegexp, leadingRegexp.
  rewrite ReplaceAll_Plus, ReplaceAll_Plus_Eol, ReplaceAll_Bol_Plus. do 3 f_equal.
  case_decide as H.
  - by rewrite explode_take_str, ReplaceAll_byte.
  - rewrite <-length_explode, ReplaceAll_byte in H. rewrite take_ge by (unfold slash_to_underscore; lia).
    by rewrite ReplaceAll_byte.
Qed.

Lemma strip_end_length p l : length (strip_end p l) ≤ length l.
Proof. rewrite strip_end_take, length_take. lia. Qed.

Lemma NormalizeLabelValue_valid_label value : valid_label (NormalizeLabelValue value) = true.
Proof.
  apply valid_label_spec. rewrite NormalizeLabelValue_eq.
  set (l0 := take 63 _). set (l1 := strip_start _ l0). set (l2 := strip_end _ l1).
  assert (∀ c, not_alnum c = false → not_label_byte c = false) as Hsub.
  { intros c. unfold not_alnum, not_label_byte. rewrite !negb_false_iff. apply alnum_label. }
  assert (∀ c, head l2 = Some c → not_alnum c = false) as Hhead.
  { intros c Hc. destruct l2 as [|d l2'] eqn:E; [done|]. injection Hc as ->.
    apply strip_end_nonempty_head in E. by apply strip_start_head in E. }
  assert (∀ c, last l2 = Some c → not_alnum c = false) as Hlast
    by (intros c; apply strip_end_last).
  split_and!.
  - etrans; [apply squeeze_length|]. etrans; [apply strip_end_length|].
    etrans; [apply strip_start_length|]. unfold l0. rewrite length_take. lia.
  - apply squeeze_Forall; [done|]. intros c. unfold not_label_byte. by rewrite negb_false_iff.
  - intros c Hc%squeeze_head; [|by auto]. apply negb_false_iff. by apply Hhead.
  - intros c Hc%squeeze_last; [|by auto]. apply negb_false_iff. by apply Hlast.
Qed.

Lemma NormalizeLabelValue_fixed v : valid_label v = true → NormalizeLabelValue v = v.
Proof.
  intros (Hlen & Hall & Hhead & Hlast)%valid_label_spec.
  apply explode_inj. rewrite NormalizeLabelValue_eq.
  assert (slash_to_underscore <$> explode v = explode v) as ->.
  { rewrite <-(list_fmap_id (explode v)) at 2. apply list_fmap_ext. intros i c Hc.
    unfold slash_to_underscore. rewrite decide_False; [done|]. intros ->.
    apply list_elem_of_lookup_2 in Hc. rewrite Forall_forall in Hall.
    by specialize (Hall _ Hc). }
  rewrite take_ge by done.
  rewrite strip_start_id by (intros c Hc; apply negb_false_iff; auto).
  rewrite strip_end_id by (intros c Hc; apply negb_false_iff; auto).
  apply squeeze_id. eapply Forall_impl; [exact Hall|]. intros c Hc. by apply negb_false_iff.
Qed.

(** C36.  Whatever repository or branch name it is given, [NormalizeLabelValue]
    returns a string that Kubernetes accepts as a label value. *)
Theorem NormalizeLabelValue_valid value : valid_label (NormalizeLabelValue value) = true.
Proof. apply NormalizeLabelValue_valid_label. Qed.

(** [NormalizeLabelValue] changes a value exactly when Kubernetes would have
    refused it; in particular normalising twice is the same as once. *)
Theorem NormalizeLabelValue_fixpoint value :
  (NormalizeLabelValue value = value ↔ valid_label value = true) ∧
  NormalizeLabelValue (NormalizeLabelValue value) = NormalizeLabelValue value.
Proof.
  split; [split|].
  - intros <-. apply NormalizeLabelValue_valid_label.
  - apply NormalizeLabelValue_fixed.
  - apply NormalizeLabelValue_fixed, NormalizeLabelValue_valid_label.
Qed.

Example NormalizeLabelValue_ex1 :
  NormalizeLabelValue "-_./owner/repo@x!!y-" = "owner_repo_x_y".
Proof. vm_compute. reflexivity. Qed.

(** ** Hashes and random names *)

Lemma hex_digit_hex n : n < 16 → is_hex_digit (hex_digit n) = true.
Proof. intros H. do 16 (destruct n as [|n]; [done|]). lia. Qed.

Lemma hex_byte_hex c : Forall (λ d, is_hex_digit d = true) (hex_byte c).
Proof.
  enough (forallb is_hex_digit (hex_byte c) = true) as H.
  { rewrite Forall_forall. intros d Hd. rewrite forallb_forall in H.
    by apply H, list_elem_of_In. }
  all_bytes c.
Qed.

Lemma hex_Encode_hex l : Forall (λ d, is_hex_digit d = true) (explode (hex_EncodeToString l)).
Proof.
  unfold hex_EncodeToString. rewrite explode_implode.
  induction l as [|c l IH]; [constructor|]. rewrite bind_cons.
  apply Forall_app_2; [apply hex_byte_hex|done].
Qed.

Lemma hex_Encode_length l : String.length (hex_EncodeToString l) = 2 * length l.
Proof.
  unfold hex_EncodeToString. rewrite length_implode.
  induction l as [|c l IH]; [done|]. rewrite bind_cons, length_app, IH. simpl. lia.
Qed.

(** A name made of lower-case hexadecimal digits, of a given length. *)
Definition hex_name (n : nat) (s : string) : Prop :=
  String.length s = n ∧ Forall (λ d, is_hex_digit d = true) (explode s).

Lemma take_hex_name n l : n ≤ 2 * length l → hex_name n (take_str n (hex_EncodeToString l)).
Proof.
  intros Hn. split.
  - rewrite <-length_explode, explode_take_str, length_take, length_explode, hex_Encode_length.
    lia.
  - rewrite explode_take_str. apply Forall_take, hex_Encode_hex.
Qed.

Lemma hex_digit_alnum c : is_hex_digit c = true → alnum c = true.
Proof.
  unfold is_hex_digit, alnum, in_range. rewrite !orb_true_iff, !bool_decide_eq_true. lia.
Qed.

Lemma hex_name_valid_label n s : hex_name n s → n ≤ 63 → valid_label s = true.
Proof.
  intros [Hlen Hhex] Hn. apply valid_label_spec.
  assert (Forall (λ c, alnum c = true) (explode s)) as Hal
    by (eapply Forall_impl; [exact Hhex|exact hex_digit_alnum]).
  rewrite length_explode. rewrite Forall_forall in Hal. split_and!.
  - lia.
  - rewrite Forall_forall. intros c Hc. by apply alnum_label, Hal.
  - intros c Hc. apply Hal. destruct (explode s); [done|]. injection Hc as ->. left.
  - intros c Hc. apply Hal. by apply last_Some_elem_of.
Qed.

(** The hash label is always twelve lower-case hexadecimal digits, hence a legal label
    value. *)
Theorem RepoBranchHash_label host repository branch :
  hex_name 12 (RepoBranchHash host repository branch) ∧
  valid_label (RepoBranchHash host repository branch) = true.
Proof.
  assert (hex_name 12 (RepoBranchHash host repository branch)) as H.
  { apply take_hex_name. rewrite Sha256.length_Sum256. lia. }
  split; [done|]. apply (hex_name_valid_label 12); [done|lia].
Qed.

Example RepoBranchHash_ex : RepoBranchHash "github.com" "org/repo" "main" = "724ac9be1928".
Proof. vm_compute. reflexivity. Qed.

(** Two different repository branches never share a key, as long as host
    names hold no slash and repository paths no at-sign. *)
Theorem repo_branch_key_inj h1 r1 b1 h2 r2 b2 :
  ¬ byte_in "/" h1 → ¬ byte_in "/" h2 → ¬ byte_in "@" r1 → ¬ byte_in "@" r2 →
  repo_branch_key h1 r1 b1 = repo_branch_key h2 r2 b2 →
  h1 = h2 ∧ r1 = r2 ∧ b1 = b2.
Proof.
  intros Hh1 Hh2 Hr1 Hr2 H.
  apply (app_sep_inj "/") in H as [-> H]; [|done..].
  by apply (app_sep_inj "@") in H as [-> ->].
Qed.

Lemma repo_branch_key_inj_witness :
  repo_branch_key "github.com" "org/repo" "main" ≠ repo_branch_key "github.com" "org/repo" "dev".
Proof.
  intros H.
  destruct (repo_branch_key_inj "github.com" "org/repo" "main" "github.com" "org/repo" "dev")
    as (_ & _ & [=]); [apply (bool_decide_unpack _); vm_compute; exact I..|exact H].
Defined.

(** Without that condition the key is ambiguous: an at-sign in a repository
    path gives two different repository branches the same key, hence the same
    hash label. *)
Theorem repo_branch_key_ambiguous :
  repo_branch_key "git.forge" "org/a" "b@c" = repo_branch_key "git.forge" "org/a@b" "c".
Proof. reflexivity. Qed.

Section RandomProofs.
Context {St : Type} (rand_Read : nat → GoM St (list ascii)).

Lemma RandomString_exact n s bytes s' :
  rand_Read (n / 2 + 1) s = (Ok bytes, s') → length bytes = n / 2 + 1 →
  ∃ name, RandomString rand_Read n s = (Ok name, s') ∧ hex_name n name.
Proof.
  intros Hr Hlen. unfold RandomString, go_try. rewrite Hr. cbn zeta.
  assert (n ≤ 2 * length bytes) as Hn.
  { rewrite Hlen. pose proof (Nat.div_mod_eq n 2). pose proof (Nat.mod_upper_bound n 2). lia. }
  rewrite decide_True by (by rewrite hex_Encode_length).
  eexists. split; [done|]. by apply take_hex_name.
Qed.

(** When the random source fills the buffer it is given, [RandomString]
    never fails: it returns exactly the number of hexadecimal digits asked for,
    and it draws once. *)
Theorem RandomString_spec n s bytes s' :
  rand_Read (n / 2 + 1) s = (Ok bytes, s') → length bytes = n / 2 + 1 →
  ∃ name, RandomString rand_Read n s = (Ok name, s') ∧ hex_name n name.
Proof. apply RandomString_exact. Qed.
End RandomProofs.

Lemma RandomString_spec_witness :
  ∃ name, RandomString (λ n (s : nat), (Ok (replicate n "k"%char), S s)) 8 0 = (Ok name, 1) ∧
          hex_name 8 name.
Proof.
  apply (RandomString_spec (λ n (s : nat), (Ok (replicate n "k"%char), S s)) 8 0
           (replicate 5 "k"%char) 1); reflexivity.
Defined.
