(* ===== verification/GoStrconv.v ===== *)
(** * Go's strconv

    [strconv.ParseInt(s, 10, 64)], with the wrap-around of the 64-bit accumulator it
    guards against, and [%d].  Errors are abbreviated: the program only passes them
    on. *)

From S2P Require Import Prelude GoStrings.
From stdpp Require Import pretty.
From Stdlib Require Import Ascii.
Local Open Scope Z_scope.

Definition maxUint64 : Z := 2^64 - 1.

Definition ErrSyntax : error := Errorf "strconv.ParseInt: invalid syntax".
Definition ErrRange : error := Errorf "strconv.ParseInt: value out of range".

Definition decimal (c : ascii) : option Z :=
  let n := nat_of_ascii c in
  if decide (48 ≤ n ∧ n ≤ 57)%nat then Some (Z.of_nat n - 48) else None.

(** The loop of [ParseUint(s, 10, 64)] over the bytes left, [n] read so far. *)
Fixpoint parse_uint (n : Z) (s : string) : result Z :=
  match s with
  | EmptyString => Ok n
  | String c s' =>
      match decimal c with
      | None => Err ErrSyntax
      | Some d =>
          if decide (maxUint64 / 10 + 1 ≤ n) then Err ErrRange
          else
            let n := n * 10 in
            let n1 := (n + d) mod 2^64 in
            if decide (n1 < n ∨ maxUint64 < n1) then Err ErrRange
            else parse_uint n1 s'
      end
  end.

Definition ParseUint (s : string) : result Z :=
  if decide (s = "") then Err ErrSyntax else parse_uint 0 s.

(** The sign of [ParseInt], around a [ParseUint]. *)
Definition parse_signed (uint : string → result Z) (s : string) : result Z :=
  let '(neg, digits) :=
    match s with
    | String "+" s' => (false, s')
    | String "-" s' => (true, s')
    | _ => (false, s)
    end in
  if decide (s = "") then Err ErrSyntax else
  un ← uint digits;
  if decide (neg = false ∧ 2^63 ≤ un) then Err ErrRange
  else if decide (neg = true ∧ 2^63 < un) then Err ErrRange
  else Ok (if neg then - un else un).

Definition ParseInt : string → result Z := parse_signed ParseUint.

(** [%d]. *)
Definition fmt_d (n : Z) : string := pretty n.

#[export] Instance fmt_d_inj : Inj (=) (=) fmt_d.
Proof. unfold fmt_d. apply _. Qed.

(** ** Reading back what was printed *)

(** The number a string of digits stands for, after [n]. *)
Fixpoint digits_val (n : Z) (s : string) : option Z :=
  match s with
  | EmptyString => Some n
  | String c s' => d ← decimal c; digits_val (n * 10 + d) s'
  end.

Lemma decimal_range c d : decimal c = Some d → 0 ≤ d ≤ 9.
Proof. unfold decimal. case_decide; [|done]. intros [= <-]. lia. Qed.

Lemma digits_val_mono n s v : 0 ≤ n → digits_val n s = Some v → n ≤ v.
Proof.
  revert n. induction s as [|c s IH]; simpl; intros n Hn; [intros [= ->]; lia|].
  intros (d & Hd & Hv)%bind_Some. apply decimal_range in Hd. apply IH in Hv; lia.
Qed.

Lemma parse_uint_val n s v :
  0 ≤ n ≤ v → digits_val n s = Some v → v ≤ maxUint64 → parse_uint n s = Ok v.
Proof.
  revert n. induction s as [|c s IH]; simpl; intros n Hn; [by intros [= ->]|].
  intros (d & Hd & Hv)%bind_Some Hmax. rewrite Hd. pose proof (decimal_range c d Hd).
  pose proof (digits_val_mono (n * 10 + d) s v ltac:(lia) Hv).
  assert (maxUint64 / 10 = 1844674407370955161) as Hc by reflexivity.
  assert (maxUint64 = 18446744073709551615) as Hm by reflexivity.
  rewrite (decide_False (P := _ ≤ n)) by lia.
  rewrite Z.mod_small by lia. rewrite decide_False by lia. apply IH; [lia|done|lia].
Qed.

Lemma decimal_pretty (x : N) : (x < 10)%N → decimal (pretty_N_char x) = Some (Z.of_N x).
Proof.
  intros Hx. assert (x = 0 ∨ x = 1 ∨ x = 2 ∨ x = 3 ∨ x = 4 ∨ x = 5 ∨ x = 6 ∨ x = 7 ∨ x = 8 ∨ x = 9)%N
    as Hx' by lia.
  destruct_or! Hx'; subst x; vm_compute; reflexivity.
Qed.

Lemma digits_val_go x s : digits_val 0 (pretty_N_go x s) = digits_val (Z.of_N x) s.
Proof.
  revert s. induction (N.lt_wf_0 x) as [x _ IH]; intros s.
  destruct (decide (x = 0)%N) as [->|Hx]; [by rewrite pretty_N_go_0|].
  rewrite pretty_N_go_step by lia. rewrite IH by (apply N.div_lt; lia). simpl.
  rewrite decimal_pretty by (apply N.mod_lt; lia). simpl. f_equal.
  pose proof (N.div_mod x 10 ltac:(lia)). lia.
Qed.

Lemma digits_val_pretty (x : N) : digits_val 0 (pretty x) = Some (Z.of_N x).
Proof.
  unfold pretty, pretty_N. case_decide; [by subst|]. by rewrite digits_val_go.
Qed.

Lemma pretty_N_digit (x : N) : ∃ c s d, pretty x = String c s ∧ decimal c = Some d.
Proof.
  pose proof (digits_val_pretty x) as H. destruct (pretty x) as [|c s] eqn:E.
  - exfalso. injection H as H. assert (x = 0%N) as -> by lia. discriminate E.
  - simpl in H. apply bind_Some in H as (d & Hd & _). eauto.
Qed.

Lemma ParseUint_pretty (x : N) : Z.of_N x ≤ maxUint64 → ParseUint (pretty x) = Ok (Z.of_N x).
Proof.
  intros Hx. unfold ParseUint. destruct (pretty_N_digit x) as (c & s & d & E & _).
  rewrite decide_False by (rewrite E; done). apply parse_uint_val; [lia| |done].
  apply digits_val_pretty.
Qed.

Lemma parse_signed_digit uint s c d rest :
  s = String c rest → decimal c = Some d →
  parse_signed uint s = (un ← uint s; if decide (2^63 ≤ un) then Err ErrRange else Ok un).
Proof.
  intros -> Hd. unfold parse_signed.
  assert ((match String c rest with
           | String "+" s' => (false, s')
           | String "-" s' => (true, s')
           | _ => (false, String c rest) end) = (false, String c rest)) as ->.
  { destruct c as [[] [] [] [] [] [] [] []]; try reflexivity; discriminate Hd. }
  rewrite decide_False by done. destruct (uint _) as [un| |]; simpl; [|done..].
  destruct (decide (2^63 ≤ un)); [by rewrite decide_True|].
  by rewrite !decide_False by naive_solver.
Qed.

(** A reader of unsigned numbers that reads what is printed gives a reader of signed
    ones. *)
Lemma parse_signed_fmt_d uint n :
  (∀ x : N, Z.of_N x ≤ maxUint64 → uint (pretty x) = Ok (Z.of_N x)) →
  -2^63 ≤ n < 2^63 → parse_signed uint (fmt_d n) = Ok n.
Proof.
  intros Huint Hn. unfold fmt_d. destruct n as [|p|p].
  - change (pretty 0) with (pretty 0%N). rewrite (parse_signed_digit _ _ "0" 0 "") by done.
    by rewrite Huint by done.
  - change (pretty (Z.pos p)) with (pretty (N.pos p)).
    destruct (pretty_N_digit (N.pos p)) as (c & s & d & E & Hd).
    rewrite (parse_signed_digit _ _ c d s) by done. rewrite Huint by (unfold maxUint64; lia).
    simpl. rewrite decide_False by lia. done.
  - change (pretty (Z.neg p)) with ("-" +:+ pretty (N.pos p)).
    change ("-" +:+ pretty (N.pos p)) with (String "-" (pretty (N.pos p))).
    unfold parse_signed. rewrite decide_False by done.
    rewrite Huint by (unfold maxUint64; lia). cbn [mbind result_bind].
    rewrite decide_False by naive_solver. rewrite decide_False by naive_solver lia. done.
Qed.

Lemma parse_signed_range uint s n :
  (∀ t v, uint t = Ok v → 0 ≤ v) → parse_signed uint s = Ok n → -2^63 ≤ n < 2^63.
Proof.
  intros Hpos. unfold parse_signed.
  destruct (match s with EmptyString => _ | String _ _ => _ end) as [neg digits].
  case_decide; [done|].
  destruct (uint digits) as [un| |] eqn:Hu; cbn [mbind result_bind]; [|done..].
  apply Hpos in Hu. do 2 (case_decide; [done|]). intros [= <-]. destruct neg; naive_solver lia.
Qed.

(** Reading back a printed 64-bit integer gives the integer. *)
Theorem ParseInt_fmt_d n : -2^63 ≤ n < 2^63 → ParseInt (fmt_d n) = Ok n.
Proof. apply parse_signed_fmt_d, ParseUint_pretty. Qed.

(** What is read is a 64-bit integer. *)
Theorem ParseInt_range s n : ParseInt s = Ok n → -2^63 ≤ n < 2^63.
Proof.
  apply parse_signed_range. clear.
  assert (∀ n s v, 0 ≤ n → parse_uint n s = Ok v → 0 ≤ v) as Hpos.
  { intros n s. revert n. induction s as [|c s IH]; simpl; intros n v Hn; [by intros [= ->]|].
    destruct (decimal c); [|done]. do 2 (case_decide; [done|]).
    apply IH. apply Z.mod_pos_bound. lia. }
  intros t v. unfold ParseUint. case_decide; [done|]. by apply Hpos.
Qed.

Lemma ParseInt_fmt_d_witness : ParseInt "-9223372036854775808" = Ok (-9223372036854775808).
Proof.
  assert ("-9223372036854775808" = fmt_d (-9223372036854775808)) as -> by (vm_compute; reflexivity).
  apply (ParseInt_fmt_d (-9223372036854775808)). lia.
Defined.

Lemma ParseInt_range_witness : 12345 < 2^63.
Proof. apply (ParseInt_range "+012345" 12345). vm_compute. reflexivity. Defined.
