(* ===== verification/GoFloat.v ===== *)
(** * Numbers of encoding/json

    The float64 a JSON number stands for, correctly rounded ([strconv.ParseFloat]), and
    the number [encoding/json] writes for a float64: the shortest decimal that reads back
    as it, in the notation of the encoder. *)

From S2P Require Import Prelude GoStrings GoStrconv.
From stdpp Require Import pretty.
From Stdlib Require Import Ascii SpecFloat.
Local Open Scope Z_scope.

#[export] Instance spec_float_eq_dec : EqDecision spec_float.
Proof. solve_decision. Defined.

(** [float64(z)] and [uint64(x)] of a float that is not negative and in range. *)
Definition float64 (z : Z) : spec_float := binary_normalize 53 1024 z 0 false.
Definition uint64 (x : spec_float) : Z :=
  match x with
  | S754_finite false m e => if 0 <=? e then Zpos m * 2^e else Zpos m / 2^(- e)
  | _ => 0
  end.

Definition is_finite (x : spec_float) : bool :=
  match x with S754_zero _ | S754_finite _ _ _ => true | _ => false end.

(** ** The syntax of a number *)

(** A minus sign, the digits before the period, those after it, and the exponent: its
    letter, its sign and its digits. *)
Record numeral := MkNumeral {
  num_neg : bool;
  num_int : list ascii;
  num_frac : list ascii;
  num_exp : option (ascii * list ascii * list ascii)
}.

#[export] Instance numeral_eq_dec : EqDecision numeral.
Proof. solve_decision. Defined.

Definition digit (c : ascii) : bool := bool_decide (is_Some (decimal c)).

Definition exponent_text (e : option (ascii * list ascii * list ascii)) : list ascii :=
  match e with Some (letter, sign, digits) => letter :: sign ++ digits | None => [] end.

Definition fraction_text (frac : list ascii) : list ascii :=
  match frac with [] => [] | _ => "."%char :: frac end.

Definition numeral_text (n : numeral) : list ascii :=
  (if num_neg n then ["-"%char] else []) ++ num_int n ++ fraction_text (num_frac n) ++
  exponent_text (num_exp n).

(** What the grammar of JSON asks of the parts. *)
Definition int_ok (l : list ascii) : bool :=
  forallb digit l && bool_decide (l ≠ []) && bool_decide (head l = Some "0"%char → l = ["0"%char]).
Definition exponent_ok (e : option (ascii * list ascii * list ascii)) : bool :=
  match e with
  | Some (letter, sign, digits) =>
      bool_decide (letter = "e"%char ∨ letter = "E"%char) &&
      bool_decide (sign = [] ∨ sign = ["+"%char] ∨ sign = ["-"%char]) &&
      forallb digit digits && bool_decide (digits ≠ [])
  | None => true
  end.
Definition numeral_ok (n : numeral) : bool :=
  int_ok (num_int n) && forallb digit (num_frac n) && exponent_ok (num_exp n).

(** ** Its value *)

(** The nearest float64 to [±d * 10^e], an even one when there are two.  Beyond 10^400
    and below 2^-1100 no further digit matters. *)
Definition decimal_float (neg : bool) (d e : Z) : spec_float :=
  if decide (d = 0) then S754_zero neg
  else
    let signed m := if neg then - m else m in
    if decide (0 ≤ e) then
      if decide (400 < e) then S754_infinity neg
      else binary_normalize 53 1024 (signed (d * 10^e)) 0 neg
    else if decide (Z.log2 d + 3 * e < -1101) then S754_zero neg
    else
      (* a quotient of more than 60 bits; what is left counts as one more bit *)
      let s := Z.max 0 (64 + Z.log2 (10^(- e)) - Z.log2 d) in
      let '(q, r) := Z.div_eucl (d * 2^s) (10^(- e)) in
      let sticky := if decide (r = 0) then 0 else 1 in
      binary_normalize 53 1024 (signed (2 * q + sticky)) (- (s + 1)) neg.

Definition digits_Z (l : list ascii) : Z :=
  foldl (λ n c, n * 10 + default 0 (decimal c)) 0 l.

(** The exponent; digits after the fifth are dropped. *)
Definition exponent_Z (e : option (ascii * list ascii * list ascii)) : Z :=
  match e with
  | Some (_, sign, digits) =>
      let n := foldl (λ n c, if n <? 10000 then n * 10 + default 0 (decimal c) else n) 0 digits in
      if decide (sign = ["-"%char]) then - n else n
  | None => 0
  end.

Definition numeral_float (n : numeral) : spec_float :=
  decimal_float (num_neg n) (digits_Z (num_int n ++ num_frac n))
    (exponent_Z (num_exp n) - Z.of_nat (length (num_frac n))).

(** ** The shortest decimal *)

(** [|x|] as a fraction. *)
Definition fraction (m : positive) (e : Z) : Z * Z :=
  if decide (0 ≤ e) then (Zpos m * 2^e, 1) else (Zpos m, 2^(- e)).

(** [num/den] at least [10^k]. *)
Definition at_least (num den k : Z) : bool :=
  if decide (0 ≤ k) then den * 10^k <=? num else den <=? num * 10^(- k).

(** The exponent of the first digit of [num/den]: the logarithm gives it up to one. *)
Definition first_exponent (num den : Z) : Z :=
  let k := ((Z.log2 num - Z.log2 den) * 1233) / 4096 in
  if at_least num den (k + 1) then k + 1 else if at_least num den k then k else k - 1.

(** [num / (den * 10^k)], rounded down, and its remainder over a denominator. *)
Definition scaled (num den k : Z) : Z * Z * Z :=
  let '(a, b) := if decide (0 ≤ k) then (num, den * 10^k) else (num * 10^(- k), den) in
  let '(q, r) := Z.div_eucl a b in (q, r, b).

(** The decimal [d * 10^k] of [p] digits that is read back as [x], if there is one; the
    nearer one when two are. *)
Definition candidate (x : spec_float) (num den k1 p : Z) : option (Z * Z) :=
  let k := k1 - p + 1 in
  let '(q, r, b) := scaled num den k in
  let reads d := bool_decide (decimal_float false d k = x) in
  if reads q && negb (reads (q + 1) && bool_decide (b < 2 * r ∨ b = 2 * r ∧ Z.odd q = true))
  then Some (q, k)
  else if reads (q + 1) then Some (q + 1, k)
  else None.

Definition shortest (m : positive) (e : Z) : option (Z * Z) :=
  let '(num, den) := fraction m e in
  let k1 := first_exponent num den in
  list_find (λ o : option (Z * Z), is_Some o)
    (candidate (S754_finite false m e) num den k1 <$> seqZ 1 17) ≫= λ found, found.2.

(** The decimal digits of a number that is not negative. *)
Definition digits_of (n : Z) : list ascii := explode (pretty (Z.to_N n)).

Definition zeros (n : Z) : list ascii := replicate (Z.to_nat n) "0"%char.

Fixpoint drop_zeros (l : list ascii) : list ascii :=
  match l with
  | c :: l' => if decide (c = "0"%char) then drop_zeros l' else l
  | [] => []
  end.

(** [floatEncoder]: the notation is decided by the magnitude, 1e-6 and 1e21 being the
    bounds of the one without an exponent; an exponent has at least two digits but
    for those of -1 to -9. *)
Definition float_numeral (x : spec_float) : option numeral :=
  match x with
  | S754_zero neg => Some (MkNumeral neg ["0"%char] [] None)
  | S754_finite neg m e =>
      '(d, k) ← shortest m e;
      let digits := digits_of d in
      (* the first digit stands for a multiple of 10^k1 *)
      let k1 := k + Z.of_nat (length digits) - 1 in
      let digits := reverse (drop_zeros (reverse digits)) in
      let n := Z.of_nat (length digits) in
      Some (if decide (k1 < -6 ∨ 21 ≤ k1) then
              let a := digits_of (Z.abs k1) in
              MkNumeral neg (take 1 digits) (drop 1 digits)
                (Some ("e"%char, [if decide (k1 < 0) then "-"%char else "+"%char], a))
            else if decide (k1 < 0) then MkNumeral neg ["0"%char] (zeros (- k1 - 1) ++ digits) None
            else if decide (n ≤ k1 + 1) then MkNumeral neg (digits ++ zeros (k1 + 1 - n)) [] None
            else MkNumeral neg (take (Z.to_nat (k1 + 1)) digits) (drop (Z.to_nat (k1 + 1)) digits) None)
  | _ => None
  end.

(** A float that is read back from what is written for it. *)
Definition reads_back (x : spec_float) : bool :=
  match float_numeral x with
  | Some n => numeral_ok n && bool_decide (numeral_float n = x)
  | None => false
  end.

Definition float_text (x : spec_float) : string :=
  match float_numeral x with Some n => implode (numeral_text n) | None => "" end.

Example float_ex :
  let n i f e := MkNumeral false (explode i) (explode f) e in
  let e s d := Some ("e"%char, explode s, explode d) in
  let x := [n "3" "14" None; n "100" "" None; n "0" "0000001" None; n "1" "" (e "" "23");
            n "9007199254740993" "" None; n "2" "5" (e "-" "324"); n "2" "" (e "-" "324");
            n "1" "7976931348623157" (e "+" "308")] in
  float_text ∘ numeral_float <$> x =
    ["3.14"; "100"; "1e-7"; "1e+23"; "9007199254740992"; "5e-324"; "0"; "1.7976931348623157e+308"] ∧
  forallb (reads_back ∘ numeral_float) x = true ∧
  numeral_float (n "1" "8" (e "" "308")) = S754_infinity false.
Proof. vm_compute. repeat split. Qed.
