(* ===== verification/GoParse.v ===== *)
(** * The values of a command line

    What package flag uses of strconv: [ParseBool], [ParseInt] of base 0 and 64 bits, and
    [ParseFloat] of 64 bits, with the prefixes of the bases and the underscores between
    digits of Go's literals.  Errors are abbreviated, as in GoStrconv. *)

From S2P Require Import Prelude GoStrings GoStrconv GoFloat.
From stdpp Require Import pretty.
From Stdlib Require Import Ascii SpecFloat.
Local Open Scope Z_scope.

(** ** Booleans *)

Definition ParseBool (str : string) : result bool :=
  if decide (str ∈ ["1"; "t"; "T"; "TRUE"; "true"; "True"]) then Ok true
  else if decide (str ∈ ["0"; "f"; "F"; "FALSE"; "false"; "False"]) then Ok false
  else Err ErrSyntax.

(** ** Digits and underscores *)

(** [lower(c)] of strconv, [c | 0x20]: compared with letters only. *)
Definition lower (c : ascii) : ascii := ascii_of_N (N.lor (N_of_ascii c) 32).

Definition is_letter (c l : ascii) : bool := bool_decide (lower c = l).

(** The value of a digit, letters counting from 10. *)
Definition digit_value (c : ascii) : option Z :=
  match decimal c with
  | Some d => Some d
  | None =>
      let n := Z.of_N (N_of_ascii (lower c)) in
      if decide (97 ≤ n ≤ 122) then Some (n - 87) else None
  end.

Definition digit_below (base : Z) (c : ascii) : bool :=
  match digit_value c with Some d => d <? base | None => false end.

Definition drop_sign (l : list ascii) : list ascii :=
  match l with "-"%char :: l' | "+"%char :: l' => l' | _ => l end.

(** The last byte [underscoreOK] saw: a digit, an underscore, or another. *)
Inductive seen := SeenStart | SeenDigit | SeenUnderscore | SeenOther.

Fixpoint underscores_separate (hex : bool) (saw : seen) (l : list ascii) : bool :=
  match l with
  | [] => match saw with SeenUnderscore => false | _ => true end
  | c :: l' =>
      if digit c || hex && digit_below 16 c then underscores_separate hex SeenDigit l'
      else if bool_decide (c = "_"%char) then
        match saw with SeenDigit => underscores_separate hex SeenUnderscore l' | _ => false end
      else match saw with SeenUnderscore => false | _ => underscores_separate hex SeenOther l' end
  end.

(** [underscoreOK(s)]: a prefix of a base counts as a digit. *)
Definition underscoreOK (s : string) : bool :=
  match drop_sign (explode s) with
  | "0"%char :: c :: l =>
      if is_letter c "b" || is_letter c "o" || is_letter c "x"
      then underscores_separate (is_letter c "x") SeenDigit l
      else underscores_separate false SeenStart ("0"%char :: c :: l)
  | l => underscores_separate false SeenStart l
  end.

Definition underscores_allowed (s : string) : bool :=
  negb (bool_decide ("_"%char ∈ explode s)) || underscoreOK s.

(** ** Integers *)

(** The loop of [ParseUint] over the bytes left, [n] read so far, skipping underscores. *)
Fixpoint parse_digits (base n : Z) (s : string) : result Z :=
  match s with
  | EmptyString => Ok n
  | String c s' =>
      if decide (c = "_"%char) then parse_digits base n s'
      else
        match digit_value c with
        | None => Err ErrSyntax
        | Some d =>
            if base <=? d then Err ErrSyntax
            else if decide (maxUint64 / base + 1 ≤ n) then Err ErrRange
            else
              let n := n * base in
              let n1 := (n + d) mod 2^64 in
              if decide (n1 < n ∨ maxUint64 < n1) then Err ErrRange
              else parse_digits base n1 s'
        end
  end.

(** The base a prefix announces, and the digits behind it. *)
Definition base_of (s : string) : Z * string :=
  match s with
  | String "0" s' =>
      match s' with
      | String c (String _ _ as digits) =>
          if is_letter c "b" then (2, digits)
          else if is_letter c "o" then (8, digits)
          else if is_letter c "x" then (16, digits)
          else (8, s')
      | _ => (8, s')
      end
  | _ => (10, s)
  end.

(** [ParseUint(s, 0, 64)] and [ParseInt(s, 0, 64)]. *)
Definition ParseUint0 (s : string) : result Z :=
  if decide (s = "") then Err ErrSyntax
  else
    let '(base, digits) := base_of s in
    n ← parse_digits base 0 digits;
    if underscores_allowed s then Ok n else Err ErrSyntax.

Definition ParseInt0 : string → result Z := parse_signed ParseUint0.

(** ** Floating-point numbers *)

Fixpoint span (P : ascii → bool) (l : list ascii) : list ascii * list ascii :=
  match l with
  | c :: l' => if P c then let '(a, b) := span P l' in (c :: a, b) else ([], l)
  | [] => ([], [])
  end.

(** The digits before and after a period, and what follows them. *)
Definition mantissa (P : ascii → bool) (l : list ascii) : list ascii * list ascii * list ascii :=
  let '(int, l1) := span P l in
  match l1 with
  | "."%char :: l2 => let '(frac, l3) := span P l2 in (int, frac, l3)
  | _ => (int, [], l1)
  end.

(** What follows the letter of an exponent, to the end of the text. *)
Definition read_exponent (l : list ascii) : option Z :=
  let digits := drop_sign l in
  if decide (digits ≠ [] ∧ forallb digit digits = true)
  then Some (exponent_Z (Some ("e"%char, take 1 l, digits)))
  else None.

(** The value of a text of digits, a period and an exponent, without its sign: base 10,
    or base 16 behind a prefix, where the exponent is of 2 and must be there. *)
Definition decimal_number (neg : bool) (l : list ascii) : option spec_float :=
  let '(int, frac, rest) := mantissa digit l in
  if decide (int ++ frac = []) then None
  else
    e ← match rest with
        | [] => Some 0
        | c :: rest' => if is_letter c "e" then read_exponent rest' else None
        end;
    Some (decimal_float neg (digits_Z (int ++ frac)) (e - Z.of_nat (length frac))).

Definition hex_number (neg : bool) (l : list ascii) : option spec_float :=
  let '(int, frac, rest) := mantissa (digit_below 16) l in
  if decide (int ++ frac = []) then None
  else
    e ← match rest with
        | c :: rest' => if is_letter c "p" then read_exponent rest' else None
        | [] => None
        end;
    let m := foldl (λ n c, n * 16 + default 0 (digit_value c)) 0 (int ++ frac) in
    Some (binary_normalize 53 1024 (if neg then - m else m) (e - 4 * Z.of_nat (length frac)) neg).

(** [special(s)]: infinities and not-a-number, which has no sign. *)
Definition special (s : string) : option spec_float :=
  let name := implode (lower_byte <$> drop_sign (explode s)) in
  if decide (name ∈ ["inf"; "infinity"]) then Some (S754_infinity (HasPrefix s "-"))
  else if decide (name = "nan" ∧ drop_sign (explode s) = explode s) then Some S754_nan
  else None.

Definition number (s : string) : option spec_float :=
  let neg := HasPrefix s "-" in
  match drop_sign (explode s) with
  | "0"%char :: c :: l => if is_letter c "x" then hex_number neg l else decimal_number neg ("0"%char :: c :: l)
  | l => decimal_number neg l
  end.

(** [ParseFloat(s, 64)]. *)
Definition ParseFloat (s : string) : result spec_float :=
  match special s with
  | Some x => Ok x
  | None =>
      if underscores_allowed s then
        match number (implode (List.filter (λ c, negb (bool_decide (c = "_"%char))) (explode s))) with
        | Some (S754_infinity _) => Err ErrRange
        | Some x => Ok x
        | None => Err ErrSyntax
        end
      else Err ErrSyntax
  end.

(** [float32(x)]. *)
Definition float32 (x : spec_float) : spec_float :=
  match x with
  | S754_finite neg m e => binary_normalize 24 128 (if neg then Zneg m else Zpos m) e neg
  | x => x
  end.

(** ** Examples *)

Example ParseBool_ex : ParseBool "T" = Ok true ∧ ParseBool "False" = Ok false ∧ ParseBool "yes" = Err ErrSyntax.
Proof. vm_compute. split_and!; reflexivity. Qed.

Example ParseInt0_ex :
  ParseInt0 "0x_ff" = Ok 255 ∧ ParseInt0 "-0b101" = Ok (-5) ∧ ParseInt0 "017" = Ok 15 ∧
  ParseInt0 "1_000" = Ok 1000 ∧ ParseInt0 "1__0" = Err ErrSyntax ∧ ParseInt0 "0x" = Err ErrSyntax ∧
  ParseInt0 "09" = Err ErrSyntax ∧ ParseInt0 "0" = Ok 0 ∧ ParseInt0 "-" = Err ErrSyntax ∧
  ParseInt0 "0x8000000000000000" = Err ErrRange ∧ ParseInt0 "-0x8000000000000000" = Ok (-2^63).
Proof. vm_compute. split_and!; reflexivity. Qed.

Example ParseFloat_ex :
  ParseFloat "1_23.50_0_0e+1_2" = Ok (decimal_float false 1235 11) ∧
  ParseFloat "-0x1.8p1" = Ok (float64 (-3)) ∧ ParseFloat ".5" = Ok (decimal_float false 5 (-1)) ∧
  ParseFloat "5." = Ok (float64 5) ∧ ParseFloat "." = Err ErrSyntax ∧ ParseFloat "1e" = Err ErrSyntax ∧
  ParseFloat "+Infinity" = Ok (S754_infinity false) ∧ ParseFloat "nAn" = Ok S754_nan ∧
  ParseFloat "-nan" = Err ErrSyntax ∧ ParseFloat "1e309" = Err ErrRange ∧
  ParseFloat "0x1" = Err ErrSyntax ∧ ParseFloat "_1" = Err ErrSyntax ∧ ParseFloat "-1" = Ok (float64 (-1)).
Proof. vm_compute. split_and!; reflexivity. Qed.

(** ** Reading back *)

Lemma digit_value_decimal c d : decimal c = Some d → digit_value c = Some d.
Proof. intros H. unfold digit_value. by rewrite H. Qed.

Lemma decimal_not_underscore c d : decimal c = Some d → c ≠ "_"%char.
Proof. intros H ->. discriminate H. Qed.

(** On decimal digits the loop is the one of base 10. *)
Lemma parse_digits_decimal n s v : digits_val n s = Some v → parse_digits 10 n s = parse_uint n s.
Proof.
  assert (∀ n n' s v, digits_val n s = Some v → ∃ v', digits_val n' s = Some v') as Hany.
  { clear. intros n n' s. revert n n'. induction s as [|c s IH]; simpl; intros n n' v; [eauto|].
    intros (d & -> & Hv)%bind_Some. simpl. by eapply IH. }
  revert n v. induction s as [|c s IH]; simpl; intros n v; [done|].
  intros (d & Hd & Hv)%bind_Some. pose proof (decimal_range _ _ Hd).
  rewrite decide_False by by eapply decimal_not_underscore.
  rewrite (digit_value_decimal _ _ Hd), Hd. rewrite (proj2 (Z.leb_gt 10 d)) by lia.
  case_decide; [done|]. cbn zeta. case_decide; [done|].
  destruct (Hany _ ((n * 10 + d) mod 2^64) _ _ Hv) as [v' Hv']. by eapply IH.
Qed.

Lemma digits_no_underscore n s v : digits_val n s = Some v → "_"%char ∉ explode s.
Proof.
  revert n. induction s as [|c s IH]; simpl; intros n; [intros _; apply not_elem_of_nil|].
  intros (d & Hd & Hv)%bind_Some. apply not_elem_of_cons. split; [|by eapply IH].
  intros E. by eapply decimal_not_underscore.
Qed.

(** What is printed has no leading zero. *)
Lemma pretty_N_go_head x s :
  (0 < x)%N → ∃ d rest, pretty_N_go x s = String (pretty_N_char d) rest ∧ (0 < d < 10)%N.
Proof.
  revert s. induction (N.lt_wf_0 x) as [x _ IH]; intros s Hx.
  rewrite pretty_N_go_step by lia. destruct (decide (x / 10 = 0)%N) as [E|E].
  - rewrite E, pretty_N_go_0. apply N.div_small_iff in E; [|lia]. rewrite N.mod_small by lia. eauto.
  - apply IH; [by apply N.div_lt|by apply N.neq_0_lt_0].
Qed.

Lemma base_of_pretty (x : N) :
  base_of (pretty x) = (10, pretty x) ∨ x = 0%N.
Proof.
  destruct (decide (x = 0)%N) as [->|Hx]; [by right|left].
  destruct (pretty_N_go_head x "") as (d & rest & E & Hd); [lia|].
  unfold pretty, pretty_N. rewrite decide_False, E by done.
  assert (d = 1 ∨ d = 2 ∨ d = 3 ∨ d = 4 ∨ d = 5 ∨ d = 6 ∨ d = 7 ∨ d = 8 ∨ d = 9)%N as Hd' by lia.
  by destruct_or! Hd'; subst d.
Qed.

Lemma ParseUint0_pretty (x : N) : Z.of_N x ≤ maxUint64 → ParseUint0 (pretty x) = Ok (Z.of_N x).
Proof.
  intros Hx. destruct (base_of_pretty x) as [Hb| ->]; [|reflexivity].
  pose proof (ParseUint_pretty x Hx) as HP. pose proof (digits_val_pretty x) as Hv.
  unfold ParseUint0. unfold ParseUint in HP. case_decide; [done|]. rewrite Hb.
  rewrite (parse_digits_decimal _ _ _ Hv), HP. cbn [mbind result_bind]. unfold underscores_allowed.
  by rewrite bool_decide_eq_false_2 by by eapply digits_no_underscore.
Qed.

(** A printed integer is read back in base 0 too. *)
Theorem ParseInt0_fmt_d n : -2^63 ≤ n < 2^63 → ParseInt0 (fmt_d n) = Ok n.
Proof. apply parse_signed_fmt_d, ParseUint0_pretty. Qed.

Lemma parse_digits_range base n s v : 0 ≤ n → parse_digits base n s = Ok v → 0 ≤ v.
Proof.
  revert n. induction s as [|c s IH]; simpl; intros n Hn; [by intros [= <-]|].
  case_decide; [by apply IH|]. destruct (digit_value c); [|done]. destruct (base <=? z); [done|].
  do 2 (case_decide; [done|]). apply IH. apply Z.mod_pos_bound. lia.
Qed.

(** What is read is a 64-bit integer. *)
Theorem ParseInt0_range s n : ParseInt0 s = Ok n → -2^63 ≤ n < 2^63.
Proof.
  apply parse_signed_range. intros t v. unfold ParseUint0. case_decide; [done|].
  destruct (base_of t) as [base digits]. intros (m & Hm & Hr)%bind_ok.
  destruct (underscores_allowed t); [injection Hr as <-|done]. by eapply parse_digits_range.
Qed.

Lemma ParseInt0_fmt_d_witness : ParseInt0 "-42" = Ok (-42).
Proof. apply (ParseInt0_fmt_d (-42)). lia. Defined.

Lemma ParseInt0_range_witness : 15 < 2^63.
Proof. apply (ParseInt0_range "017" 15). vm_compute. reflexivity. Defined.
