(* ===== verification/GoFlag.v ===== *)
(** * Go's flag package

    A flag set whose flags assign the variables of a state, [flag.Parse] on the arguments
    of the program, and the exit code of a program that is given a command line it does
    not understand ([flag.ExitOnError]).  A flag set is a list of flags with different
    names: defining a name twice is a panic of the package. *)

From S2P Require Import Prelude GoStrings GoStrconv GoFloat GoParse.
From Stdlib Require Import Ascii SpecFloat.

(** ** Flags *)

Section Flag.
Context {St : Type}.

(** [flag_Set] is [Value.Set]: [None] is an error. *)
Record Flag := MkFlag {
  flag_name : string;
  flag_IsBool : bool;
  flag_Set : string → St → option St
}.

(** What becomes of an argument: the first that is no flag ends the flags. *)
Inductive word :=
| Operand
| Terminator
| BadSyntax
| FlagWord (name : string) (value : option string).

(** The name of a flag and its value; an equals sign cannot be first. *)
Definition name_value (s : string) : word :=
  match s with
  | EmptyString => BadSyntax
  | String c s' =>
      if decide (c = "-"%char ∨ c = "="%char) then BadSyntax
      else match Cut s' "=" with
           | Some (name, value) => FlagWord (String c name) (Some value)
           | None => FlagWord s None
           end
  end.

Definition read_word (s : string) : word :=
  match s with
  | String "-" EmptyString => Operand
  | String "-" (String "-" EmptyString) => Terminator
  | String "-" (String "-" name) => name_value name
  | String "-" name => name_value name
  | _ => Operand
  end.

(** [f.formal[name]]. *)
Definition lookup_flag (formal : list Flag) (name : string) : option Flag :=
  List.find (λ f, bool_decide (flag_name f = name)) formal.

(** The variables and [flag.Args()]; or a request for help; or an error. *)
Inductive command_line :=
| Parsed (st : St) (args : list string)
| ErrHelp
| ErrUsage.

(** [f.Parse(arguments)], a [parseOne] for each argument. *)
Fixpoint Parse (formal : list Flag) (st : St) (args : list string) : command_line :=
  match args with
  | [] => Parsed st []
  | s :: args' =>
      match read_word s with
      | Operand => Parsed st args
      | Terminator => Parsed st args'
      | BadSyntax => ErrUsage
      | FlagWord name value =>
          match lookup_flag formal name with
          | None => if decide (name = "help" ∨ name = "h") then ErrHelp else ErrUsage
          | Some f =>
              let set v args' :=
                match flag_Set f v st with Some st' => Parse formal st' args' | None => ErrUsage end in
              if flag_IsBool f then set (default "true" value) args'
              else match value with
                   | Some v => set v args'
                   | None => match args' with [] => ErrUsage | v :: args'' => set v args'' end
                   end
          end
      end
  end.

(** [os.Exit] after a command line that is not understood. *)
Definition exit_code (c : command_line) : option Z :=
  match c with Parsed _ _ => None | ErrHelp => Some 0%Z | ErrUsage => Some 2%Z end.

(** ** The flags of the types of Go *)

Definition StringVar (name : string) (assign : string → St → St) : Flag :=
  MkFlag name false (λ v st, Some (assign v st)).

(** A flag whose value is read by a function of strconv. *)
Definition value_flag {A} (read : string → result A) (is_bool : bool) (name : string)
    (assign : A → St → St) : Flag :=
  MkFlag name is_bool (λ v st, match read v with Ok a => Some (assign a st) | _ => None end).

Definition BoolVar : string → (bool → St → St) → Flag := value_flag ParseBool true.
Definition IntVar : string → (Z → St → St) → Flag := value_flag ParseInt0 false.
Definition Float64Var : string → (spec_float → St → St) → Flag := value_flag ParseFloat false.

(** ** Settings

    What a command line asks for: names and values, the last of a name winning. *)

Definition setting : Type := string * string.

Definition apply_setting (formal : list Flag) (st : St) (s : setting) : option St :=
  f ← lookup_flag formal s.1; flag_Set f s.2 st.

Fixpoint apply_settings (formal : list Flag) (st : St) (l : list setting) : option St :=
  match l with
  | [] => Some st
  | s :: l' => st' ← apply_setting formal st s; apply_settings formal st' l'
  end.

(** A setting as one argument. *)
Definition setting_word (s : setting) : string := "--" +:+ s.1 +:+ "=" +:+ s.2.

(** A name that can be written on a command line. *)
Definition name_ok (name : string) : bool :=
  match name with
  | EmptyString => false
  | String c _ => negb (bool_decide (c = "-"%char)) && negb (bool_decide ("="%char ∈ explode name))
  end.

(** ** Properties *)

Lemma name_value_setting name v :
  name_ok name = true → name_value (name +:+ "=" +:+ v) = FlagWord name (Some v).
Proof.
  destruct name as [|c name]; [done|]. cbn [name_ok]. rewrite andb_true_iff, !negb_true_iff.
  intros [Hc Hn]. apply bool_decide_eq_false in Hc, Hn. cbn [explode] in Hn.
  apply not_elem_of_cons in Hn as [Hne Hn].
  rewrite app_cons_str. cbn [name_value]. rewrite decide_False by (intros [?|?]; congruence).
  by rewrite (proj2 (Cut_Some (name +:+ "=" +:+ v) "=" name v) (conj eq_refl Hn)).
Qed.

Lemma read_setting_word name v :
  name_ok name = true → read_word (setting_word (name, v)) = FlagWord name (Some v).
Proof.
  intros Hn. rewrite <-(name_value_setting name v Hn). unfold setting_word. cbn [fst snd].
  by destruct name.
Qed.

(** A command line that spells its settings out is read as those settings, in order, and
    what follows them is read next; a setting that is refused ends the program. *)
Lemma Parse_settings formal st l rest :
  Forall (λ s : setting, name_ok s.1 = true ∧ is_Some (lookup_flag formal s.1)) l →
  Parse formal st ((setting_word <$> l) ++ rest) =
    match apply_settings formal st l with Some st' => Parse formal st' rest | None => ErrUsage end.
Proof.
  intros Hl. revert st. induction Hl as [|[name v] l [Hn [f Hf]] _ IH]; intros st; [done|].
  cbn [fmap list_fmap app Parse apply_settings]. rewrite read_setting_word by done.
  unfold apply_setting. cbn [fst snd] in *. rewrite Hf. cbn [mbind option_bind].
  change (default "true" (Some v)) with v.
  destruct (flag_IsBool f), (flag_Set f v st); cbn [mbind option_bind]; done || apply IH.
Qed.

Lemma apply_settings_cons formal st name v l f st' :
  lookup_flag formal name = Some f → flag_Set f v st = Some st' →
  apply_settings formal st ((name, v) :: l) = apply_settings formal st' l.
Proof.
  intros Hf Hs. cbn [apply_settings]. unfold apply_setting. cbn [fst snd]. rewrite Hf.
  cbn [mbind option_bind]. by rewrite Hs.
Qed.

Lemma value_flag_Set {A} (read : string → result A) is_bool name assign v a st :
  read v = Ok a → flag_Set (value_flag read is_bool name assign) v st = Some (assign a st).
Proof. intros H. cbn. by rewrite H. Qed.

(** Nothing is assigned by an argument that is no flag, and everything from it on is left. *)
Lemma Parse_operand formal st s rest :
  read_word s = Operand → Parse formal st (s :: rest) = Parsed st (s :: rest).
Proof. intros Hs. cbn [Parse]. by rewrite Hs. Qed.

(** The variables a command line leaves behind are reached by assignments of flags of the
    set, so a property they all keep is kept. *)
Lemma Parse_invariant (P : St → Prop) formal st args st' rest :
  Forall (λ f, ∀ v s s', P s → flag_Set f v s = Some s' → P s') formal →
  P st → Parse formal st args = Parsed st' rest → P st'.
Proof.
  intros HF. rewrite Forall_forall in HF.
  remember (length args) as n eqn:Hn. assert (length args ≤ n) as Hle by lia. clear Hn.
  revert st args Hle. induction n as [|n IH]; intros st args Hle HP.
  { destruct args; [by intros [= <- _]|simpl in Hle; lia]. }
  destruct args as [|s args]; [by intros [= <- _]|]. cbn [Parse]. simpl in Hle.
  destruct (read_word s) as [| | |name value]; [by intros [= <- _]|by intros [= <- _]|done|].
  destruct (lookup_flag formal name) as [f|] eqn:Hf; [|by destruct (decide _)].
  apply find_some in Hf as [Hin%list_elem_of_In _].
  assert (∀ v args', length args' ≤ n →
    match flag_Set f v st with Some st' => Parse formal st' args' | None => ErrUsage end =
      Parsed st' rest → P st') as Hset.
  { intros v args' Hl. destruct (flag_Set f v st) as [st1|] eqn:E; [|done]. apply IH; [done|].
    by eapply HF. }
  destruct (flag_IsBool f); [apply Hset; lia|]. destruct value; [apply Hset; lia|].
  destruct args; [done|]. apply Hset. simpl in Hle. lia.
Qed.
End Flag.
Arguments Flag : clear implicits.
Arguments command_line : clear implicits.

(** Applies the settings of a command line one by one, given what their texts stand for. *)
Ltac apply_written :=
  repeat (erewrite apply_settings_cons;
    [|reflexivity|first [reflexivity|apply value_flag_Set; first [eassumption|eauto]]]).

(** ** Examples *)

(** Two flags of a state, and the spellings of a command line. *)
Example Parse_ex :
  let formal := [IntVar "days" (λ n st, (n, st.2)); BoolVar "v" (λ b st, (st.1, b))] in
  let parse := Parse formal (120%Z, false) in
  parse ["-days"; "7"; "--v"; "x"; "-days=8"] = Parsed (7%Z, true) ["x"; "-days=8"] ∧
  parse ["-v=false"; "--days=0x10"; "--"; "-v"] = Parsed (16%Z, false) ["-v"] ∧
  parse ["-v"; "false"] = Parsed (120%Z, true) ["false"] ∧
  parse ["-days"] = ErrUsage ∧ parse ["-days=ten"] = ErrUsage ∧ parse ["---v"] = ErrUsage ∧
  parse ["-=v"] = ErrUsage ∧ parse ["-w"] = ErrUsage ∧ parse ["-h"] = ErrHelp ∧
  parse ["-"; "-w"] = Parsed (120%Z, false) ["-"; "-w"].
Proof. vm_compute. split_and!; reflexivity. Qed.
