(* ===== verification/GoBase64.v ===== *)
(** * Go's encoding/base64

    [base64.StdEncoding.DecodeString], and the encoding it undoes.  Line ends are skipped
    wherever they are, as Go does, so they are dropped first; the bits a padded quantum
    has left over are not looked at.  The position in the text of the error is left out. *)

From S2P Require Import Prelude GoStrings.
From Stdlib Require Import Ascii.
Local Open Scope Z_scope.

Definition alphabet : list ascii :=
  explode "ABCDEFGHIJKLMNOPQRSTUVWXYZabcdefghijklmnopqrstuvwxyz0123456789+/".

Definition padChar : ascii := "=".

(** [enc.decodeMap], [None] for 0xff. *)
Definition decodeMap (c : ascii) : option Z :=
  (λ p, Z.of_nat p.1) <$> list_find (eq c) alphabet.

Definition CorruptInputError : error := Errorf "illegal base64 data".

(** [byte(val)]. *)
Definition byte_of (val : Z) : ascii := ascii_of_nat (Z.to_nat (val mod 256)).

Definition quantum (d0 d1 d2 d3 : Z) : Z :=
  Z.lor (Z.lor (Z.lor (Z.shiftl d0 18) (Z.shiftl d1 12)) (Z.shiftl d2 6)) d3.

Definition quantum_bytes (val : Z) : list ascii :=
  [byte_of (Z.shiftr val 16); byte_of (Z.shiftr val 8); byte_of val].

(** The quanta of a text without line ends: four characters each, of which the last one
    or two of the text may be padding. *)
Fixpoint decode_quanta (src : list ascii) : option (list ascii) :=
  match src with
  | [] => Some []
  | c0 :: c1 :: c2 :: c3 :: rest =>
      match decodeMap c0, decodeMap c1, decodeMap c2, decodeMap c3 with
      | Some d0, Some d1, Some d2, Some d3 =>
          app (quantum_bytes (quantum d0 d1 d2 d3)) <$> decode_quanta rest
      | Some d0, Some d1, Some d2, None =>
          if decide (c3 = padChar ∧ rest = []) then Some (take 2 (quantum_bytes (quantum d0 d1 d2 0)))
          else None
      | Some d0, Some d1, None, None =>
          if decide (c2 = padChar ∧ c3 = padChar ∧ rest = [])
          then Some (take 1 (quantum_bytes (quantum d0 d1 0 0)))
          else None
      | _, _, _, _ => None
      end
  | _ => None
  end.

Definition line_end (c : ascii) : bool := bool_decide (c = "010"%char ∨ c = "013"%char).

Definition DecodeString (s : string) : error + string :=
  match decode_quanta (List.filter (λ c, negb (line_end c)) (explode s)) with
  | Some bytes => inr (implode bytes)
  | None => inl CorruptInputError
  end.

(** ** The encoding *)

Definition char_of (d : Z) : ascii := default padChar (alphabet !! Z.to_nat (Z.land d 63)).
Definition of_byte (c : ascii) : Z := Z.of_nat (nat_of_ascii c).

Fixpoint encode_quanta (src : list ascii) : list ascii :=
  match src with
  | [] => []
  | [a] =>
      let val := Z.shiftl (of_byte a) 16 in
      [char_of (Z.shiftr val 18); char_of (Z.shiftr val 12); padChar; padChar]
  | [a; b] =>
      let val := Z.lor (Z.shiftl (of_byte a) 16) (Z.shiftl (of_byte b) 8) in
      [char_of (Z.shiftr val 18); char_of (Z.shiftr val 12); char_of (Z.shiftr val 6); padChar]
  | a :: b :: c :: rest =>
      let val := Z.lor (Z.lor (Z.shiftl (of_byte a) 16) (Z.shiftl (of_byte b) 8)) (of_byte c) in
      char_of (Z.shiftr val 18) :: char_of (Z.shiftr val 12) :: char_of (Z.shiftr val 6) ::
      char_of val :: encode_quanta rest
  end.

Definition EncodeToString (s : string) : string := implode (encode_quanta (explode s)).

Example base64_ex :
  (λ s, DecodeString (EncodeToString s)) <$> [""; "u"; "us"; "use"; "user:pass"] =
    [inr ""; inr "u"; inr "us"; inr "use"; inr "user:pass"] ∧
  EncodeToString "user:pass" = "dXNlcjpwYXNz" ∧ EncodeToString "any" = "YW55" ∧
  EncodeToString "an" = "YW4=" ∧ EncodeToString "a" = "YQ==" ∧
  DecodeString "YQ" = inl CorruptInputError ∧ DecodeString "YQ==YQ==" = inl CorruptInputError ∧
  DecodeString "YR==" = inr "a" ∧ DecodeString "Y-==" = inl CorruptInputError.
Proof. vm_compute. split_and!; reflexivity. Qed.

(** ** Bits *)

Lemma testbit_above y n i : 0 ≤ y < 2^n → n ≤ i → Z.testbit y i = false.
Proof.
  intros Hy Hi. destruct (decide (y = 0)) as [->|Hne]; [apply Z.bits_0|].
  apply Z.bits_above_log2; [lia|]. apply (Z.lt_le_trans _ n); [|done]. by apply Z.log2_lt_pow2; lia.
Qed.

Lemma lor_shift x y n : 0 ≤ n → 0 ≤ y < 2^n → Z.lor (Z.shiftl x n) y = x * 2^n + y.
Proof.
  intros Hn Hy. rewrite <-Z.shiftl_mul_pow2 by done.
  assert (Z.land (Z.shiftl x n) y = 0) as E.
  { apply Z.bits_inj'. intros i Hi. rewrite Z.land_spec, Z.bits_0.
    destruct (decide (i < n)); [by rewrite Z.shiftl_spec_low|].
    rewrite (testbit_above y n) by (done || lia). apply andb_false_r. }
  by rewrite <-Z.lxor_lor, Z.add_nocarry_lxor.
Qed.

Lemma decode_char d : 0 ≤ d < 64 → decodeMap (char_of d) = Some d.
Proof.
  intros Hd. assert (Forall (λ n, decodeMap (char_of (Z.of_nat n)) = Some (Z.of_nat n)) (seq 0 64)) as HF.
  { apply (bool_decide_unpack _). vm_compute. exact I. }
  rewrite Forall_forall in HF. specialize (HF (Z.to_nat d)). rewrite Z2Nat.id in HF by lia.
  apply HF, elem_of_seq. lia.
Qed.

Lemma char_of_mod d : char_of d = char_of (d mod 64).
Proof.
  unfold char_of. change 63 with (Z.ones 6). rewrite !Z.land_ones by done. by rewrite Zmod_mod.
Qed.

Lemma decode_char_mod d : decodeMap (char_of d) = Some (d mod 64).
Proof. rewrite char_of_mod. apply decode_char, Z.mod_pos_bound. done. Qed.

Lemma quantum_eq d0 d1 d2 d3 :
  0 ≤ d1 < 64 → 0 ≤ d2 < 64 → 0 ≤ d3 < 64 →
  quantum d0 d1 d2 d3 = d0 * 2^18 + d1 * 2^12 + d2 * 2^6 + d3.
Proof.
  intros H1 H2 H3. unfold quantum. rewrite <-!Z.lor_assoc.
  rewrite (lor_shift d2) by lia. rewrite (lor_shift d1) by lia. rewrite (lor_shift d0) by lia. lia.
Qed.

Definition val3 (a b c : Z) : Z := Z.lor (Z.lor (Z.shiftl a 16) (Z.shiftl b 8)) c.

Lemma val3_eq a b c : 0 ≤ b < 256 → 0 ≤ c < 256 → val3 a b c = a * 2^16 + b * 2^8 + c.
Proof.
  intros Hb Hc. unfold val3. rewrite <-Z.lor_assoc.
  rewrite (lor_shift b) by lia. rewrite (lor_shift a) by lia. lia.
Qed.

(** Four sextets of 24 bits are the 24 bits. *)
Lemma quantum_val v :
  0 ≤ v < 2^24 →
  quantum (Z.shiftr v 18 mod 64) (Z.shiftr v 12 mod 64) (Z.shiftr v 6 mod 64) (v mod 64) = v.
Proof.
  intros Hv. rewrite quantum_eq by (apply Z.mod_pos_bound; done).
  rewrite !Z.shiftr_div_pow2 by done. Z.to_euclidean_division_equations. lia.
Qed.

Lemma of_byte_range c : 0 ≤ of_byte c < 256.
Proof. unfold of_byte. pose proof (nat_ascii_bounded c). lia. Qed.

Lemma byte_of_byte n c : n mod 256 = of_byte c → byte_of n = c.
Proof. intros H. unfold byte_of. rewrite H. unfold of_byte. by rewrite Nat2Z.id, ascii_nat_embedding. Qed.

Lemma val3_bytes a b c :
  quantum_bytes (val3 (of_byte a) (of_byte b) (of_byte c)) = [a; b; c].
Proof.
  pose proof (of_byte_range a). pose proof (of_byte_range b). pose proof (of_byte_range c).
  unfold quantum_bytes. rewrite val3_eq by done. rewrite !Z.shiftr_div_pow2 by done.
  f_equal; [|f_equal; [|f_equal]]; apply byte_of_byte; Z.to_euclidean_division_equations; lia.
Qed.

Lemma val3_range a b c : 0 ≤ val3 (of_byte a) (of_byte b) (of_byte c) < 2^24.
Proof.
  pose proof (of_byte_range a). pose proof (of_byte_range b). pose proof (of_byte_range c).
  rewrite val3_eq by done. lia.
Qed.

Lemma decode_pad : decodeMap padChar = None.
Proof. reflexivity. Qed.

Lemma alphabet_plain c d : decodeMap c = Some d → line_end c = false.
Proof.
  intros H. destruct (line_end c) eqn:E; [|done]. apply bool_decide_eq_true in E as [->| ->]; discriminate H.
Qed.

Lemma char_plain d : line_end (char_of d) = false.
Proof. eapply alphabet_plain, decode_char_mod. Qed.

Lemma list_3_ind {A} (P : list A → Prop) :
  P [] → (∀ a, P [a]) → (∀ a b, P [a; b]) → (∀ a b c l, P l → P (a :: b :: c :: l)) → ∀ l, P l.
Proof.
  intros H0 H1 H2 H3. fix IH 1. intros [|a [|b [|c l]]]; [done|apply H1|apply H2|]. apply H3, IH.
Qed.

Lemma decode_encode_quanta l : decode_quanta (encode_quanta l) = Some l.
Proof.
  induction l as [|a|a b|a b c l IH] using list_3_ind; [done|..]; cbn [encode_quanta decode_quanta].
  - rewrite !decode_char_mod, decode_pad, decide_True by done. simpl.
    pose proof (val3_range a "000" "000") as Hr. pose proof (val3_bytes a "000" "000") as Hb.
    unfold val3 in *. change (of_byte "000") with 0 in *. rewrite Z.shiftl_0_l, !Z.lor_0_r in *.
    pose proof (quantum_val _ Hr) as Hq.
    replace (Z.shiftr (Z.shiftl (of_byte a) 16) 6 mod 64) with 0 in Hq
      by (rewrite Z.shiftr_div_pow2, Z.shiftl_mul_pow2 by done; Z.to_euclidean_division_equations; lia).
    replace (Z.shiftl (of_byte a) 16 mod 64) with 0 in Hq
      by (rewrite Z.shiftl_mul_pow2 by done; Z.to_euclidean_division_equations; lia).
    rewrite Hq. unfold quantum_bytes in Hb. by injection Hb as ->.
  - rewrite !decode_char_mod, decode_pad, decide_True by done. simpl.
    pose proof (val3_range a b "000") as Hr. pose proof (val3_bytes a b "000") as Hb.
    unfold val3 in *. change (of_byte "000") with 0 in *. rewrite Z.lor_0_r in *.
    pose proof (quantum_val _ Hr) as Hq.
    replace (Z.lor (Z.shiftl (of_byte a) 16) (Z.shiftl (of_byte b) 8) mod 64) with 0 in Hq.
    { rewrite Hq. unfold quantum_bytes in Hb. by injection Hb as -> ->. }
    pose proof (of_byte_range b). rewrite lor_shift by (rewrite ?Z.shiftl_mul_pow2; lia).
    rewrite Z.shiftl_mul_pow2 by done. Z.to_euclidean_division_equations. lia.
  - rewrite !decode_char_mod, IH. fold (val3 (of_byte a) (of_byte b) (of_byte c)).
    rewrite quantum_val by apply val3_range. by rewrite val3_bytes.
Qed.

Lemma encode_plain l : List.filter (λ c, negb (line_end c)) (encode_quanta l) = encode_quanta l.
Proof.
  induction l as [|a|a b|a b c l IH] using list_3_ind; [done|..]; cbn [encode_quanta];
    cbn [List.filter]; rewrite !char_plain; [done..|]. cbn [negb]. by rewrite IH.
Qed.

(** Decoding an encoded text gives the text back. *)
Theorem DecodeString_EncodeToString s : DecodeString (EncodeToString s) = inr s.
Proof.
  unfold DecodeString, EncodeToString.
  by rewrite explode_implode, encode_plain, decode_encode_quanta, implode_explode.
Qed.
