(* ===== verification/GoDuration.v ===== *)
(** * Go's [time.ParseDuration]

    A signed sequence of decimal numbers, each with an optional fraction and a unit,
    summed in 64 bits.  A fraction of a unit is computed in float64, as Go does; its
    scale is a power of ten of at most 19 digits, which a float64 holds exactly.  The
    text of the errors is left out: the program only looks at whether there is one. *)

From S2P Require Import Prelude GoStrings GoStrconv GoFloat.
From stdpp Require Import pretty.
From Stdlib Require Import Ascii SpecFloat.
Local Open Scope Z_scope.

(** [leadingInt(s)], [x] read so far: the number and what follows it, [None] when it
    overflows. *)
Fixpoint leadingInt (x : Z) (s : string) : option (Z * string) :=
  match s with
  | EmptyString => Some (x, s)
  | String c s' =>
      match decimal c with
      | None => Some (x, s)
      | Some n =>
          if 2^63 / 10 <? x then None
          else if 2^63 <? x * 10 + n then None else leadingInt (x * 10 + n) s'
      end
  end.

(** [leadingFraction(s)]: digits beyond an overflow are read and dropped. *)
Fixpoint leadingFraction (x scale : Z) (overflow : bool) (s : string) : Z * Z * string :=
  match s with
  | EmptyString => (x, scale, s)
  | String c s' =>
      match decimal c with
      | None => (x, scale, s)
      | Some n =>
          if overflow then leadingFraction x scale true s'
          else if (2^63 - 1) / 10 <? x then leadingFraction x scale true s'
          else if 2^63 <? x * 10 + n then leadingFraction x scale true s'
          else leadingFraction (x * 10 + n) (scale * 10) false s'
      end
  end.

(** [uint64(float64(f) * (float64(unit) / scale))]. *)
Definition fraction_of (f scale unit : Z) : Z :=
  uint64 (SFmul 53 1024 (float64 f) (SFdiv 53 1024 (float64 unit) (float64 scale))).

Definition unitMap (u : string) : option Z :=
  if decide (u = "ns") then Some 1
  else if decide (u = "us" ∨ u = "µs" ∨ u = "μs") then Some 1000
  else if decide (u = "ms") then Some 1000000
  else if decide (u = "s") then Some 1000000000
  else if decide (u = "m") then Some 60000000000
  else if decide (u = "h") then Some 3600000000000
  else None.

(** The unit: everything up to a digit or a period. *)
Fixpoint span_unit (s : string) : string * string :=
  match s with
  | EmptyString => ("", s)
  | String c s' =>
      if bool_decide (c = "."%char) || bool_decide (is_Some (decimal c)) then ("", s)
      else let '(u, rest) := span_unit s' in (String c u, rest)
  end.

(** A fraction, if the text begins with one: whether it has digits, and what follows. *)
Definition optional_fraction (s : string) : Z * Z * string * bool :=
  match s with
  | String "." s' => let '(f, scale, rest) := leadingFraction 0 1 false s' in
                     (f, scale, rest, negb (bool_decide (rest = s')))
  | _ => (0, 1, s, false)
  end.

(** One number with its unit: the nanoseconds, and what follows. *)
Definition duration_part (s : string) : option (Z * string) :=
  match s with
  | EmptyString => None
  | String c _ =>
      if bool_decide (c ≠ "."%char) && bool_decide (decimal c = None) then None
      else
        '(v, s1) ← leadingInt 0 s;
        let pre := negb (bool_decide (s1 = s)) in
        let '(f, scale, s2, post) := optional_fraction s1 in
        if negb pre && negb post then None
        else
          let '(u, s3) := span_unit s2 in
          unit ← unitMap u; (* no unit is not one of the map *)
          if 2^63 / unit <? v then None
          else
            let v := v * unit in
            if 0 <? f then
              let v := v + fraction_of f scale unit in
              if 2^63 <? v then None else Some (v, s3)
            else Some (v, s3)
  end.

(** The loop over the parts; every part takes at least one byte. *)
Fixpoint duration_loop (fuel : nat) (d : Z) (s : string) : option Z :=
  match fuel with
  | O => None
  | S fuel =>
      if decide (s = "") then Some d
      else
        '(v, rest) ← duration_part s;
        let d := (d + v) mod 2^64 in
        if 2^63 <? d then None else duration_loop fuel d rest
  end.

Definition invalid_duration : error := Errorf "time: invalid duration".

Definition ParseDuration (s : string) : error + Z :=
  let '(neg, rest) :=
    match s with
    | String "-" s' => (true, s')
    | String "+" s' => (false, s')
    | _ => (false, s)
    end in
  if decide (rest = "0") then inr 0
  else if decide (rest = "") then inl invalid_duration
  else
    match duration_loop (S (String.length rest)) 0 rest with
    | None => inl invalid_duration
    | Some d =>
        if neg then inr (- d)
        else if 2^63 - 1 <? d then inl invalid_duration else inr d
    end.

Example ParseDuration_ex :
  ParseDuration <$> ["60m"; "1h30m"; "1.5h"; "-2s"; ".5s"; "0"; "1.000000001s"; "0.3us"] =
    [inr 3600000000000; inr 5400000000000; inr 5400000000000; inr (-2000000000); inr 500000000;
     inr 0; inr 1000000001; inr 300] ∧
  ParseDuration <$> [""; "5"; "5 m"; "1d"; "."; "-"; "h"; "2562048h"; "m5"] =
    replicate 9 (inl invalid_duration).
Proof. vm_compute. split; reflexivity. Qed.

(** ** The loop ends *)

Lemma leadingInt_rest x s v rest : leadingInt x s = Some (v, rest) → (String.length rest ≤ String.length s)%nat.
Proof.
  revert x. induction s as [|c s IH]; intros x; simpl; [intros [= _ <-]; done|].
  destruct (decimal c); [|intros [= _ <-]; done].
  destruct (_ <? _); [done|]. destruct (_ <? _); [done|]. intros H%IH. lia.
Qed.

Lemma leadingFraction_rest x scale o s : (String.length (leadingFraction x scale o s).2 ≤ String.length s)%nat.
Proof.
  revert x scale o. induction s as [|c s IH]; intros x scale o; simpl; [done|].
  destruct (decimal c); [|done]. destruct o; [|destruct (_ <? _); [|destruct (_ <? _)]];
    (etransitivity; [apply IH|lia]).
Qed.

Lemma span_unit_rest s u rest :
  span_unit s = (u, rest) → (String.length u + String.length rest = String.length s)%nat.
Proof.
  revert u rest. induction s as [|c s IH]; intros u rest; simpl; [by intros [= <- <-]|].
  destruct (_ || _); [by intros [= <- <-]|]. destruct (span_unit s) as [u' r'].
  intros [= <- <-]. simpl. by rewrite (IH u' r').
Qed.

Lemma optional_fraction_rest s f scale rest post :
  optional_fraction s = (f, scale, rest, post) → (String.length rest ≤ String.length s)%nat.
Proof.
  unfold optional_fraction. destruct s as [|c s]; [by intros [= _ _ <- _]|].
  destruct (decide (c = "."%char)) as [->|Hc].
  - destruct (leadingFraction 0 1 false s) as [[f' sc] r] eqn:E.
    pose proof (leadingFraction_rest 0 1 false s) as H. rewrite E in H. simpl in H.
    intros [= _ _ <- _]. simpl. lia.
  - assert ((match c with "."%char => True | _ => False end) → False) as Hn
      by (destruct c as [[] [] [] [] [] [] [] []]; done).
    destruct c as [[] [] [] [] [] [] [] []]; try (by intros [= _ _ <- _]); by destruct Hn.
Qed.

Lemma duration_part_rest s v rest : duration_part s = Some (v, rest) → (String.length rest < String.length s)%nat.
Proof.
  destruct s as [|c s']; [done|]. unfold duration_part. set (s := String c s').
  destruct (_ && _); [done|]. intros ([v1 s1] & H1 & H)%bind_Some. apply leadingInt_rest in H1.
  destruct (optional_fraction s1) as [[[f scale] s2] post] eqn:E2. apply optional_fraction_rest in E2.
  destruct (_ && _); [done|]. destruct (span_unit s2) as [u s3] eqn:E3. apply span_unit_rest in E3.
  apply bind_Some in H as (unit & Hu & H).
  assert (String.length u ≠ 0)%nat as Hn by (by destruct u).
  assert (s3 = rest) as <-.
  { destruct (_ <? _); [done|]. destruct (0 <? f); [destruct (_ <? _); [done|]|]; by injection H. }
  lia.
Qed.

(** The number of rounds given is enough: more make no difference. *)
Theorem duration_loop_enough n m d s :
  (String.length s < n)%nat → (String.length s < m)%nat → duration_loop n d s = duration_loop m d s.
Proof.
  revert m d s. induction n as [|n IH]; intros [|m] d s Hn Hm; try lia. cbn [duration_loop].
  case_decide; [done|]. destruct (duration_part s) as [[v rest]|] eqn:E; [|done]. simpl.
  apply duration_part_rest in E. destruct (_ <? _); [done|]. apply IH; lia.
Qed.

(** ** What is parsed *)

Lemma duration_loop_range n d s r : 0 ≤ d ≤ 2^63 → duration_loop n d s = Some r → 0 ≤ r ≤ 2^63.
Proof.
  revert d s. induction n as [|n IH]; intros d s Hd; [done|]. cbn [duration_loop].
  case_decide; [by intros [= <-]|]. intros ([v rest] & _ & Hr)%bind_Some.
  destruct (Z.ltb_spec (2^63) ((d + v) mod 2^64)); [done|].
  eapply IH; [|exact Hr]. pose proof (Z.mod_pos_bound (d + v) (2^64) ltac:(lia)). lia.
Qed.

(** A duration is a 64-bit integer. *)
Theorem ParseDuration_range s d : ParseDuration s = inr d → -2^63 ≤ d < 2^63.
Proof.
  unfold ParseDuration.
  destruct (match s with String "-" s' => (true, s') | String "+" s' => (false, s') | _ => (false, s) end)
    as [neg rest].
  case_decide; [intros [= <-]; lia|]. case_decide; [done|].
  destruct (duration_loop _ _ _) as [r|] eqn:E; [|done]. apply duration_loop_range in E; [|lia].
  destruct neg; [intros [= <-]; lia|]. destruct (Z.ltb_spec (2^63 - 1) r); [done|]. intros [= <-]. lia.
Qed.

Lemma leadingInt_digits s : ∀ x v rest,
  0 ≤ x → digits_val x s = Some v → v ≤ 2^63 →
  (∀ c rest', rest = String c rest' → decimal c = None) →
  leadingInt x (s +:+ rest) = Some (v, rest).
Proof.
  induction s as [|c s IH]; intros x v rest Hx Hd Hv Hr; simpl.
  - injection Hd as ->. destruct rest as [|c rest]; [done|]. simpl. by rewrite (Hr c rest eq_refl).
  - simpl in Hd. destruct (decimal c) as [n|] eqn:Hc; [|done]. simpl in Hd.
    pose proof (decimal_range _ _ Hc). pose proof (digits_val_mono (x * 10 + n) s v ltac:(lia) Hd).
    rewrite (proj2 (Z.ltb_ge (2^63 / 10) x)) by (apply Z.div_le_lower_bound; lia).
    rewrite (proj2 (Z.ltb_ge (2^63) _)) by lia. apply IH; [lia|done..].
Qed.

(** A whole number of a unit. *)
Theorem ParseDuration_whole n u unit :
  unitMap u = Some unit → Z.of_N n * unit < 2^63 →
  ParseDuration (pretty n +:+ u) = inr (Z.of_N n * unit).
Proof.
  intros Hu Hn.
  assert (1 ≤ unit ∧ span_unit u = (u, "") ∧ u ≠ "" ∧
          ∃ c u', u = String c u' ∧ decimal c = None ∧ c ≠ "."%char) as (H1 & Hs & Hne & c0 & u' & Eu & Hc0 & Hdot).
  { unfold unitMap in Hu. repeat case_decide; try destruct_or?; simplify_eq;
      (split; [lia|]; split; [reflexivity|]; split; [done|]); eexists _, _; by repeat split. }
  destruct (pretty_N_digit n) as (c & s & d & E & Hd).
  pose proof (digits_val_pretty n) as Hv. set (v := Z.of_N n) in *.
  assert (leadingInt 0 (pretty n +:+ u) = Some (v, u)) as Hl.
  { apply leadingInt_digits; [lia|done|nia|]. intros c' r' Er. rewrite Eu in Er. by injection Er as <- _. }
  assert (optional_fraction u = (0, 1, u, false)) as Ho.
  { rewrite Eu. unfold optional_fraction. destruct c0 as [[] [] [] [] [] [] [] []]; try reflexivity; by destruct Hdot. }
  assert (duration_part (pretty n +:+ u) = Some (v * unit, "")) as Hp.
  { assert (pretty n +:+ u = String c (s +:+ u)) as Es by (rewrite E; done).
    unfold duration_part. rewrite Es at 1.
    rewrite (bool_decide_eq_false_2 (decimal c = None)) by (rewrite Hd; done). rewrite andb_false_r.
    rewrite Hl. cbn [mbind option_bind]. rewrite (bool_decide_eq_false_2 (u = _)).
    - cbn [negb andb]. rewrite Ho. cbn [andb]. rewrite Hs, Hu. cbn [mbind option_bind].
      rewrite (proj2 (Z.ltb_ge (2^63 / unit) v)); [done|]. apply Z.div_le_lower_bound; lia.
    - intros Hlen. apply (f_equal String.length) in Hlen. rewrite length_app_str, E in Hlen. simpl in Hlen. lia. }
  assert (pretty n +:+ u = String c (s +:+ u)) as Es by (rewrite E; done).
  assert ((match pretty n +:+ u with
           | String "-" s' => (true, s') | String "+" s' => (false, s')
           | _ => (false, pretty n +:+ u) end) = (false, pretty n +:+ u)) as Hneg.
  { rewrite Es. destruct c as [[] [] [] [] [] [] [] []]; try reflexivity; discriminate Hd. }
  unfold ParseDuration. rewrite Hneg.
  rewrite (decide_False (P := _ = "0")), (decide_False (P := _ = "")).
  - cbn [duration_loop]. rewrite (decide_False (P := _ = "")) by (rewrite Es; done). rewrite Hp.
    cbn [mbind option_bind]. rewrite Z.mod_small by lia. rewrite (proj2 (Z.ltb_ge (2^63) _)) by lia.
    rewrite (duration_loop_enough _ 1) by (rewrite ?Es; simpl; lia). cbn [duration_loop].
    rewrite decide_True by done. rewrite (proj2 (Z.ltb_ge _ _)) by lia. done.
  - by rewrite Es.
  - rewrite Es. intros [= Ec Er]. rewrite Eu in Er. by destruct s.
Qed.

Lemma ParseDuration_whole_witness :
  unitMap "m" = Some 60000000000 ∧ ParseDuration (pretty 45%N +:+ "m") = inr 2700000000000.
Proof.
  split; [reflexivity|]. exact (ParseDuration_whole 45 "m" 60000000000 eq_refl ltac:(reflexivity)).
Defined.
