(* ===== verification/GoUrl.v ===== *)
(** * Go's net/url

    [url.Parse] as far as the program uses its result: the scheme, host and path
    of a reference, or an error.  The algorithm is the one of the Go release the
    module asks for: the fragment and the query are cut off, the scheme is what
    precedes the first colon when it is made of scheme characters, an authority
    follows a double slash, and host, user information and path are
    percent-decoded.  Addresses in brackets are checked by [net/netip], which is a
    parameter.  Error texts are abbreviated: the program only passes them on. *)

From S2P Require Import Prelude GoStrings Sanitize.
From Stdlib Require Import Ascii.

Record URL := MkURL { Scheme : string; Opaque : string; Host : string; Path : string }.

Definition is_letter (c : ascii) : bool := in_range 65 90 c || in_range 97 122 c.
Definition is_digit (c : ascii) : bool := in_range 48 57 c.
Definition is_hex (c : ascii) : bool := is_digit c || in_range 97 102 c || in_range 65 70 c.

Definition one_of (s : string) (c : ascii) : bool := bool_decide (c ∈ explode s).

(** [stringContainsCTLByte]. *)
Definition is_ctl (c : ascii) : bool :=
  bool_decide (nat_of_ascii c < 32) || bool_decide (nat_of_ascii c = 127).

(** [getScheme]: [i] is the offset of the text still to read, [acc] what precedes it. *)
Fixpoint getScheme (acc : string) (s : string) (raw : string) : result (string * string) :=
  match s with
  | EmptyString => Ok ("", raw)
  | String c s' =>
      if is_letter c then getScheme (acc +:+ String c "") s' raw
      else if is_digit c || one_of "+-." c then
        if decide (acc = "") then Ok ("", raw) else getScheme (acc +:+ String c "") s' raw
      else if decide (c = ":"%char) then
        if decide (acc = "") then Err (Errorf "missing protocol scheme")
        else Ok (acc, s')
      else Ok ("", raw)
  end.

(** What part of a URL is being decoded. *)
Inductive encoding := encodeHost | encodeOther.

(** [shouldEscape(c, encodeHost)] for an ASCII byte. *)
Definition shouldEscapeHost (c : ascii) : bool :=
  negb (alnum c || one_of "!$&'()*+,;=:[]<>" c || bool_decide (nat_of_ascii c = 34)
        || one_of "-_.~" c).

Definition unhex (c : ascii) : nat :=
  let n := nat_of_ascii c in
  if is_digit c then n - 48 else if in_range 97 102 c then n - 87 else n - 55.

(** [unescape]; an escape takes three bytes. *)
Fixpoint unescape (mode : encoding) (s : list ascii) : result (list ascii) :=
  match s with
  | [] => Ok []
  | c :: s' =>
      if decide (c = "%"%char) then
        match s' with
        | a :: b :: s'' =>
            if is_hex a && is_hex b then
              match mode with
              | encodeHost =>
                  if bool_decide (unhex a < 8) && bool_decide ([a; b] ≠ ["2"; "5"]%char)
                  then Err (Errorf "invalid URL escape")
                  else r ← unescape mode s''; Ok (ascii_of_nat (16 * unhex a + unhex b) :: r)
              | encodeOther =>
                  r ← unescape mode s''; Ok (ascii_of_nat (16 * unhex a + unhex b) :: r)
              end
            else Err (Errorf "invalid URL escape")
        | _ => Err (Errorf "invalid URL escape")
        end
      else
        match mode with
        | encodeHost =>
            if bool_decide (nat_of_ascii c < 128) && shouldEscapeHost c
            then Err (Errorf "invalid character in host name")
            else r ← unescape mode s'; Ok (c :: r)
        | encodeOther => r ← unescape mode s'; Ok (c :: r)
        end
  end.

Definition unescape_str (mode : encoding) (s : string) : result string :=
  r ← unescape mode (explode s); Ok (implode r).

(** [validOptionalPort]. *)
Definition validOptionalPort (port : string) : bool :=
  match port with
  | EmptyString => true
  | String c p => bool_decide (c = ":"%char) && forallb is_digit (explode p)
  end.

(** [validUserinfo]. *)
Definition validUserinfo (s : string) : bool :=
  forallb (λ c, alnum c || one_of "-._:~!$&'()*+,;=%@" c) (explode s).

(** The text before and after the last [sep]. *)
Fixpoint CutLast (s : string) (sep : ascii) : option (string * string) :=
  match s with
  | EmptyString => None
  | String c s' =>
      match CutLast s' sep with
      | Some (a, b) => Some (String c a, b)
      | None => if decide (c = sep) then Some ("", s') else None
      end
  end.

Section Parse.
(** Checking and normalising the host of an authority that contains a bracket. *)
Context (parseIPLiteral : string → result string).

(** [parseHost]. *)
Definition parseHost (host : string) : result string :=
  if decide (byte_in "[" host) then parseIPLiteral host
  else match Cut host ":" with
       | Some (_, port) =>
           if validOptionalPort (String ":" port) then unescape_str encodeHost host
           else Err (Errorf "invalid port after host")
       | None => unescape_str encodeHost host
       end.

(** [parseAuthority]; the user information is checked and dropped. *)
Definition parseAuthority (authority : string) : result string :=
  match CutLast authority "@" with
  | None => parseHost authority
  | Some (userinfo, host) =>
      h ← parseHost host;
      if validUserinfo userinfo then _ ← unescape_str encodeOther userinfo; Ok h
      else Err (Errorf "net/url: invalid userinfo")
  end.

(** [url.parse(rawURL, false)]. *)
Definition parse (rawURL : string) : result URL :=
  if existsb is_ctl (explode rawURL)
  then Err (Errorf "net/url: invalid control character in URL")
  else if decide (rawURL = "*") then Ok (MkURL "" "" "" "*")
  else
    '(scheme, rest) ← getScheme "" rawURL rawURL;
    let scheme := ToLower scheme in
    let rest := match Cut rest "?" with Some (r, _) => r | None => rest end in
    if negb (HasPrefix rest "/") && negb (bool_decide (scheme = "")) then
      Ok (MkURL scheme rest "" "")
    else if negb (HasPrefix rest "/") &&
            Contains (match Cut rest "/" with Some (seg, _) => seg | None => rest end) ":" then
      Err (Errorf "first path segment in URL cannot contain colon")
    else
      '(host, path) ←
        (if (negb (bool_decide (scheme = "")) || negb (HasPrefix rest "///"))
            && HasPrefix rest "//" then
           let authority := drop_str 2 rest in
           let '(authority, rest) :=
             match Cut authority "/" with
             | Some (a, r) => (a, String "/" r)
             | None => (authority, "")
             end in
           h ← parseAuthority authority; Ok (h, rest)
         else Ok ("", rest));
      path ← unescape_str encodeOther path;
      Ok (MkURL scheme "" host path).

(** [url.Parse]. *)
Definition Parse (rawURL : string) : result URL :=
  let '(u, frag) :=
    match Cut rawURL "#" with Some (u, f) => (u, f) | None => (rawURL, "") end in
  url ← wrap_err "parse: " (parse u);
  _ ← wrap_err "parse: " (unescape_str encodeOther frag);
  Ok url.

(** [u.Hostname()]: the host without its port and brackets. *)
Definition Hostname (u : URL) : string :=
  let host :=
    match CutLast (Host u) ":" with
    | Some (h, port) => if validOptionalPort (String ":" port) then h else Host u
    | None => Host u
    end in
  if HasPrefix host "[" && HasSuffix host "]"
  then TrimSuffix (TrimPrefix host "[") "]" else host.
End Parse.
