(* ===== verification/GitUrl.v ===== *)
(** * internal/utils: git URLs

    [GetGitPlatform], [GetGitHost] and [GetGitPath] of [utils.go]. *)

From S2P Require Import Prelude GoStrings Sanitize GoUrl.
From Stdlib Require Import Ascii.

Section GitUrl.
Context (parseIPLiteral : string → result string).

Definition GetGitHost (giturl : string) : result string :=
  if Contains giturl "@" then
    match SplitN2 giturl ":" with
    | [p0; _] =>
        match SplitN2 p0 "@" with
        | [_; h] => Ok h
        | _ => Err (Errorf ("invalid SSH URL format: " +:+ giturl))
        end
    | _ => Err (Errorf ("invalid SSH URL format: " +:+ giturl))
    end
  else
    u ← Parse parseIPLiteral giturl;
    Ok (Hostname u).

Definition GetGitPath (giturl : string) : result string :=
  let giturl := TrimSuffix (TrimSuffix giturl "/") ".git" in
  if Contains giturl "@" then
    match SplitN2 giturl ":" with
    | [_; p1] => Ok (TrimPrefix p1 "/")
    | _ => Err (Errorf ("invalid SSH URL format: " +:+ giturl))
    end
  else
    u ← Parse parseIPLiteral giturl;
    Ok (TrimPrefix (Path u) "/").

Definition allowedGitPlatforms : list string := ["github"; "gitlab"; "forge"].

(** The loop of [GetGitPlatform]: the first platform the host name contains. *)
Fixpoint platform_of_host (platforms : list string) (host : string) : string :=
  match platforms with
  | [] => ""
  | platform :: rest =>
      if Contains host platform
      then if decide (platform = "forge") then "forgejo" else platform
      else platform_of_host rest host
  end.

Definition GetGitPlatform (giturl : string) : result string :=
  host ← GetGitHost giturl;
  let gitPlatform := platform_of_host allowedGitPlatforms host in
  if decide (gitPlatform = "")
  then Err (Errorf ("unsupported git platform for repository " +:+ giturl))
  else Ok gitPlatform.
End GitUrl.

(** No bracketed address is acceptable: the choice for evaluating examples. *)
Definition no_ip (s : string) : result string := Err (Errorf "invalid IP-literal").

Example ex_host1 : GetGitHost no_ip "https://gitlab.example.com:8443/owner/repo" = Ok "gitlab.example.com".
Proof. vm_compute. reflexivity. Qed.
Example ex_host2 : GetGitHost no_ip "user@gitlab.com:owner/repo.git" = Ok "gitlab.com".
Proof. vm_compute. reflexivity. Qed.
Example ex_path1 : GetGitPath no_ip "https://github.com/owner/repo.git" = Ok "owner/repo".
Proof. vm_compute. reflexivity. Qed.
Example ex_path2 : GetGitPath no_ip "git@gitlab.com:group/subgroup/repo.git" = Ok "group/subgroup/repo".
Proof. vm_compute. reflexivity. Qed.
Example ex_platform1 : GetGitPlatform no_ip "https://forge.example.com/owner/repo" = Ok "forgejo".
Proof. vm_compute. reflexivity. Qed.
Example ex_platform2 : GetGitPlatform no_ip "" = Err (Errorf "unsupported git platform for repository ").
Proof. vm_compute. reflexivity. Qed.

(** ** Platforms *)

Section Properties.
Context (parseIPLiteral : string → result string).
Abbreviation GetGitHost := (GetGitHost parseIPLiteral).
Abbreviation GetGitPath := (GetGitPath parseIPLiteral).
Abbreviation GetGitPlatform := (GetGitPlatform parseIPLiteral).

Lemma platform_of_host_eq host :
  platform_of_host allowedGitPlatforms host =
  if Contains host "github" then "github" else
  if Contains host "gitlab" then "gitlab" else
  if Contains host "forge" then "forgejo" else "".
Proof. reflexivity. Qed.

Lemma GetGitPlatform_ok giturl p :
  GetGitPlatform giturl = Ok p ↔
  ∃ host, GetGitHost giturl = Ok host ∧
    ((p = "github" ∧ Contains host "github" = true) ∨
     (p = "gitlab" ∧ Contains host "github" = false ∧ Contains host "gitlab" = true) ∨
     (p = "forgejo" ∧ Contains host "github" = false ∧ Contains host "gitlab" = false ∧
      Contains host "forge" = true)).
Proof.
  unfold GitUrl.GetGitPlatform. rewrite bind_ok.
  assert (∀ host, (let gp := platform_of_host allowedGitPlatforms host in
    if decide (gp = "") then Err (Errorf ("unsupported git platform for repository " +:+ giturl))
    else Ok gp) = Ok p ↔
    ((p = "github" ∧ Contains host "github" = true) ∨
     (p = "gitlab" ∧ Contains host "github" = false ∧ Contains host "gitlab" = true) ∨
     (p = "forgejo" ∧ Contains host "github" = false ∧ Contains host "gitlab" = false ∧
      Contains host "forge" = true))) as H; [|by setoid_rewrite H].
  intros host. rewrite platform_of_host_eq.
  destruct (Contains host "github"), (Contains host "gitlab"), (Contains host "forge");
    simpl; (split; [intros [= <-]; tauto|intros; destruct_or?; destruct_and?; by subst]).
Qed.

(** ** SSH references *)

Lemma GetGitHost_ssh user host path :
  ¬ byte_in ":" user → ¬ byte_in "@" user → ¬ byte_in ":" host →
  GetGitHost (user +:+ "@" +:+ host +:+ ":" +:+ path) = Ok host.
Proof.
  intros Hu Hu' Hh. unfold GitUrl.GetGitHost.
  rewrite (proj2 (Contains_byte _ "@")).
  2: { rewrite !byte_in_app, !byte_in_cons. auto. }
  rewrite (proj2 (SplitN2_pair _ ":" (user +:+ "@" +:+ host) path)).
  2: { rewrite !app_assoc_str. split; [done|].
       rewrite !byte_in_app, !byte_in_cons. pose proof (byte_in_nil ":"). naive_solver. }
  rewrite (proj2 (SplitN2_pair _ "@" user host)); [done|]. done.
Qed.

Lemma HasSuffix_app_cons a c r p :
  ¬ byte_in c p → HasSuffix (a +:+ String c r) p = true → HasSuffix r p = true.
Proof.
  rewrite !HasSuffix_spec. intros Hc [t Ht].
  assert (explode a ++ c :: explode r = explode t ++ explode p) as E.
  { by rewrite <-(explode_app t), <-Ht, explode_app. }
  apply app_eq_inv in E as [(k & _ & Hp)|(k & _ & Hp)].
  - exfalso. apply Hc. unfold byte_in. rewrite Hp. set_solver.
  - destruct k as [|d k]; simpl in *.
    + exfalso. apply Hc. unfold byte_in. rewrite <-Hp. left.
    + injection Hp as <- Hr. exists (implode k). apply explode_inj.
      by rewrite explode_app, explode_implode.
Qed.

(** The bytes of the hosts and repository paths considered below. *)
Definition host_byte (c : ascii) : bool := alnum c || one_of "-." c.
Definition path_byte (c : ascii) : bool := alnum c || one_of "-_.~/" c.

Definition plain_host (h : string) : Prop := h ≠ "" ∧ Forall (λ c, host_byte c = true) (explode h).

(** A repository path as it is written in a URL: plain bytes, no slash at either
    end and no [.git] at the end. *)
Definition plain_repo (r : string) : Prop :=
  r ≠ "" ∧ Forall (λ c, path_byte c = true) (explode r) ∧
  HasPrefix r "/" = false ∧ HasSuffix r "/" = false ∧ HasSuffix r ".git" = false.

Lemma byte_class (p : ascii → bool) c s :
  Forall (λ c, p c = true) (explode s) → p c = false → ¬ byte_in c s.
Proof. rewrite Forall_forall. unfold byte_in. intros H Hc Hin. specialize (H _ Hin). congruence. Qed.

Lemma TrimSuffix_no s p : HasSuffix s p = false → TrimSuffix s p = s.
Proof. destruct (TrimSuffix_spec s p) as [[? _]|[_ ?]]; congruence. Qed.

Lemma TrimPrefix_no s p : HasPrefix s p = false → TrimPrefix s p = s.
Proof. unfold TrimPrefix. by intros ->. Qed.

Lemma HasSuffix_slash_repo a r p :
  ¬ byte_in "/" p → HasSuffix r p = false → HasSuffix (a +:+ String "/" r) p = false.
Proof.
  intros Hp Hr. destruct (HasSuffix (a +:+ _) p) eqn:E; [|done].
  apply HasSuffix_app_cons in E; [congruence|done].
Qed.

Lemma HasSuffix_cons_ne c s p : s ≠ "" → HasSuffix s (String p "") = false →
  HasSuffix (String c s) (String p "") = false.
Proof.
  intros Hs H. simpl. rewrite H, orb_false_r. apply bool_decide_eq_false_2. naive_solver.
Qed.

Lemma HasSuffix_app_last a r c :
  r ≠ "" → HasSuffix r (String c "") = false → HasSuffix (a +:+ r) (String c "") = false.
Proof.
  intros Hr H. induction a as [|d a IH]; [done|]. rewrite app_cons_str.
  apply HasSuffix_cons_ne; [|done]. by destruct a, r.
Qed.

Lemma GetGitPath_ssh user host r :
  ¬ byte_in ":" user → ¬ byte_in ":" host → plain_repo r →
  GetGitPath (user +:+ "@" +:+ host +:+ ":" +:+ r +:+ ".git") = Ok r.
Proof.
  intros Hu Hh (Hne & Hr & Hpre & Hsl & Hgit). unfold GitUrl.GetGitPath.
  rewrite (TrimSuffix_no _ "/").
  2: { rewrite <-!app_assoc_str. by apply HasSuffix_app_last. }
  rewrite <-!app_assoc_str, TrimSuffix_app, !app_assoc_str.
  rewrite (proj2 (Contains_byte _ "@")).
  2: { rewrite !byte_in_app, !byte_in_cons. auto. }
  rewrite (proj2 (SplitN2_pair _ ":" (user +:+ "@" +:+ host) r)).
  2: { rewrite !app_assoc_str. split; [done|].
       rewrite !byte_in_app, !byte_in_cons. pose proof (byte_in_nil ":"). naive_solver. }
  by rewrite TrimPrefix_no.
Qed.

(** ** HTTPS references *)

Definition url_byte (c : ascii) : bool := path_byte c || bool_decide (c = ":"%char).

Lemma url_byte_not_ctl c : url_byte c = true → is_ctl c = false.
Proof.
  enough (implb (url_byte c) (negb (is_ctl c)) = true) as H.
  { intros Hc. rewrite Hc in H. by apply negb_true_iff. }
  all_bytes c.
Qed.

Lemma host_byte_url c : host_byte c = true → url_byte c = true.
Proof.
  enough (implb (host_byte c) (url_byte c) = true) as H by (by intros Hc; rewrite Hc in H).
  all_bytes c.
Qed.

Lemma host_byte_unescape c :
  host_byte c = true →
  c ≠ "%"%char ∧ bool_decide (nat_of_ascii c < 128) && shouldEscapeHost c = false.
Proof.
  enough (implb (host_byte c) (bool_decide (c ≠ "%"%char)
    && negb (bool_decide (nat_of_ascii c < 128) && shouldEscapeHost c)) = true) as H.
  { intros Hc. rewrite Hc in H. simpl in H.
    by rewrite andb_true_iff, bool_decide_eq_true, negb_true_iff in H. }
  all_bytes c.
Qed.

Lemma existsb_ctl l : Forall (λ c, url_byte c = true) l → existsb is_ctl l = false.
Proof. induction 1 as [|c l Hc Hl IH]; [done|]. simpl. by rewrite url_byte_not_ctl, IH. Qed.

Lemma unescape_host l :
  Forall (λ c, host_byte c = true) l → unescape encodeHost l = Ok l.
Proof.
  induction 1 as [|c l Hc Hl IH]; [done|].
  destruct (host_byte_unescape c Hc) as [Hp Hs]. simpl.
  by rewrite decide_False, Hs, IH.
Qed.

Lemma unescape_other l :
  Forall (λ c, c ≠ "%"%char) l → unescape encodeOther l = Ok l.
Proof.
  induction 1 as [|c l Hc Hl IH]; [done|]. simpl. by rewrite decide_False, IH.
Qed.

Lemma CutLast_None s sep : ¬ byte_in sep s → CutLast s sep = None.
Proof.
  induction s as [|c s IH]; [done|]. rewrite byte_in_cons. intros H. simpl.
  rewrite IH by naive_solver. by rewrite decide_False by naive_solver.
Qed.

Lemma plain_host_url h : plain_host h → Forall (λ c, url_byte c = true) (explode h).
Proof. intros [_ H]. eapply Forall_impl; [exact H|exact host_byte_url]. Qed.

Lemma parse_plain_host h : plain_host h → parseAuthority parseIPLiteral h = Ok h.
Proof.
  intros [_ H]. unfold parseAuthority, parseHost.
  rewrite CutLast_None by (by eapply byte_class).
  rewrite decide_False by (by eapply byte_class).
  rewrite (proj2 (Cut_None h ":")) by (by eapply byte_class).
  unfold unescape_str. rewrite unescape_host by done. simpl. by rewrite implode_explode.
Qed.

Definition https_url (h r : string) : string := "https://" +:+ h +:+ "/" +:+ r.

Lemma https_url_bytes h r :
  plain_host h → Forall (λ c, path_byte c = true) (explode r) →
  Forall (λ c, url_byte c = true) (explode (https_url h r)).
Proof.
  intros Hh Hr. unfold https_url. rewrite !explode_app. repeat apply Forall_app_2.
  - by repeat constructor.
  - by apply plain_host_url.
  - by repeat constructor.
  - eapply Forall_impl; [exact Hr|]. unfold url_byte. by intros c ->.
Qed.

Lemma Parse_https h r :
  plain_host h → Forall (λ c, path_byte c = true) (explode r) →
  Parse parseIPLiteral (https_url h r) = Ok (MkURL "https" "" h (String "/" r)).
Proof.
  intros Hh Hr. pose proof (https_url_bytes h r Hh Hr) as Hb.
  assert (∀ c, url_byte c = false → Cut ("//" +:+ h +:+ "/" +:+ r) c = None) as Hcut.
  { intros c Hc. apply Cut_None. pose proof (byte_class _ c _ Hb Hc) as Hn.
    unfold https_url in Hn. rewrite byte_in_app in Hn. rewrite byte_in_app.
    rewrite !byte_in_cons in *. naive_solver. }
  unfold Parse. rewrite (proj2 (Cut_None _ "#")) by (by eapply byte_class).
  unfold parse. rewrite existsb_ctl by done.
  rewrite decide_False by done.
  assert (getScheme "" (https_url h r) (https_url h r) =
          Ok ("https", "//" +:+ h +:+ "/" +:+ r)) as -> by reflexivity.
  cbn [mbind result_bind]. rewrite Hcut by done.
  change (ToLower "https") with "https".
  assert (∀ s, HasPrefix ("//" +:+ s) "/" = true) as -> by (by intros []).
  assert (∀ s, HasPrefix ("//" +:+ s) "//" = true) as -> by (by intros []).
  cbn [negb andb orb bool_decide decide]. rewrite bool_decide_eq_false_2 by done.
  cbn [negb andb orb].
  assert (drop_str 2 ("//" +:+ h +:+ "/" +:+ r) = h +:+ String "/" r) as -> by reflexivity.
  rewrite (proj2 (Cut_Some _ "/" h r)).
  2: { split; [done|]. destruct Hh as [_ Hh]. by eapply byte_class. }
  rewrite parse_plain_host by done. cbn [mbind result_bind].
  unfold unescape_str. rewrite (unescape_other (explode (String "/" r))).
  2: { constructor; [done|]. eapply Forall_impl; [exact Hr|]. by intros c Hc ->. }
  cbn. by rewrite implode_explode.
Qed.

(** An SSH reference is not a URL. *)
Lemma host_byte_scheme c :
  host_byte c = true → is_letter c = true ∨ is_digit c || one_of "+-." c = true.
Proof.
  enough (implb (host_byte c) (is_letter c || (is_digit c || one_of "+-." c)) = true) as H.
  { intros Hc. rewrite Hc in H. by apply orb_true_iff. }
  all_bytes c.
Qed.

Lemma getScheme_ssh acc user rest raw :
  Forall (λ c, host_byte c = true) (explode user) →
  getScheme acc (user +:+ "@" +:+ rest) raw = Ok ("", raw).
Proof.
  revert acc. induction user as [|c user IH]; intros acc; [done|].
  intros [Hc Hu]%Forall_cons. rewrite app_cons_str. cbn [getScheme].
  specialize (IH (acc +:+ String c "") Hu).
  destruct (host_byte_scheme c Hc) as [-> | ->]; [done|].
  destruct (is_letter c); [done|]. by case_decide.
Qed.

Lemma Parse_ssh_fails user host path :
  plain_host user → plain_host host → Forall (λ c, path_byte c = true) (explode path) →
  ∃ e, Parse parseIPLiteral (user +:+ "@" +:+ host +:+ ":" +:+ path) = Err e.
Proof.
  intros [Hne Hu] [_ Hh] Hp. set (s := user +:+ "@" +:+ host +:+ ":" +:+ path).
  set (ok := λ c, url_byte c || bool_decide (c = "@"%char)).
  assert (Forall (λ c, ok c = true) (explode s)) as Hs.
  { unfold s, ok. rewrite !explode_app. repeat apply Forall_app_2; try (by repeat constructor).
    - eapply Forall_impl; [exact Hu|]. intros c Hc. by rewrite (host_byte_url c Hc).
    - eapply Forall_impl; [exact Hh|]. intros c Hc. by rewrite (host_byte_url c Hc).
    - eapply Forall_impl; [exact Hp|]. unfold url_byte. by intros c ->. }
  unfold Parse. rewrite (proj2 (Cut_None s "#")) by (by apply (byte_class ok)).
  unfold parse. replace (existsb is_ctl (explode s)) with false.
  2: { symmetry. apply not_true_is_false. intros (c & Hin & Hc)%existsb_exists.
       rewrite Forall_forall in Hs. specialize (Hs c). rewrite list_elem_of_In in Hs.
       specialize (Hs Hin). unfold ok in Hs. apply orb_true_iff in Hs as [Hs|Hs].
       - by rewrite (url_byte_not_ctl c Hs) in Hc.
       - by apply bool_decide_eq_true in Hs as ->. }
  rewrite decide_False.
  2: { unfold s. destruct user as [|c [|d user]]; [done|by intros [= -> Hx]|by intros [= -> Hx]]. }
  unfold s at 1. rewrite getScheme_ssh by done. cbn [mbind result_bind].
  rewrite (proj2 (Cut_None s "?")) by (by apply (byte_class ok)).
  assert (HasPrefix s "/" = false) as ->.
  { unfold s. destruct user as [|c user]; [done|]. apply Forall_cons in Hu as [Hc _].
    rewrite app_cons_str. simpl. rewrite bool_decide_eq_false_2; [done|].
    intros <-. vm_compute in Hc. discriminate. }
  change (ToLower "") with "". rewrite bool_decide_eq_true_2 by done. cbn [negb andb].
  assert (s = (user +:+ "@" +:+ host +:+ ":") +:+ path) as -> by (unfold s; by rewrite !app_assoc_str).
  rewrite Cut_head_app.
  2: { rewrite !byte_in_app, !byte_in_cons. pose proof (byte_in_nil "/").
       pose proof (byte_class _ "/" _ Hu ltac:(reflexivity)).
       pose proof (byte_class _ "/" _ Hh ltac:(reflexivity)). naive_solver. }
  rewrite (proj2 (Contains_byte _ ":")); [by eexists|].
  rewrite !byte_in_app, !byte_in_cons. auto 10.
Qed.

Lemma Hostname_plain h path : plain_host h → Hostname (MkURL "https" "" h path) = h.
Proof.
  intros [Hne Hh]. unfold Hostname. cbn [Host].
  rewrite CutLast_None by (by eapply byte_class).
  destruct (HasPrefix h "[") eqn:E; [|done].
  apply HasPrefix_spec in E as [t ->].
  rewrite explode_app in Hh. apply Forall_app in Hh as [Hh _].
  by apply Forall_cons in Hh as [? _].
Qed.

Lemma no_at_https h r :
  plain_host h → Forall (λ c, path_byte c = true) (explode r) →
  Contains (https_url h r) "@" = false.
Proof.
  intros Hh Hr. destruct (Contains _ "@") eqn:E; [|done]. apply Contains_byte in E.
  by eapply byte_class in E; [|by apply https_url_bytes|].
Qed.

Lemma GetGitHost_https h r :
  plain_host h → Forall (λ c, path_byte c = true) (explode r) →
  GetGitHost (https_url h r) = Ok h.
Proof.
  intros Hh Hr. unfold GitUrl.GetGitHost. rewrite no_at_https, Parse_https by done.
  cbn. by rewrite Hostname_plain.
Qed.

Lemma GetGitPath_https h r :
  plain_host h → plain_repo r → GetGitPath (https_url h r) = Ok r.
Proof.
  intros Hh (Hne & Hr & Hpre & Hsl & Hgit). unfold GitUrl.GetGitPath.
  assert (TrimSuffix (TrimSuffix (https_url h r) "/") ".git" = https_url h r) as ->.
  { rewrite (TrimSuffix_no _ "/").
    2: { unfold https_url. rewrite <-!app_assoc_str. by apply HasSuffix_app_last. }
    apply TrimSuffix_no. unfold https_url. rewrite <-!app_assoc_str.
    rewrite app_assoc_str. apply HasSuffix_slash_repo; [|done].
    rewrite !byte_in_cons. pose proof (byte_in_nil "/"). naive_solver. }
  rewrite no_at_https, Parse_https by done. cbn.
  f_equal. apply (TrimPrefix_app "/").
Qed.
End Properties.

(** ** Theorems *)

(** The platform is the first of [github], [gitlab] and [forge] that occurs
    in the host name, [forge] standing for [forgejo]; any other reference is an
    error. *)
Theorem GetGitPlatform_spec ip giturl p :
  GetGitPlatform ip giturl = Ok p ↔
  ∃ host, GetGitHost ip giturl = Ok host ∧
    ((p = "github" ∧ Contains host "github" = true) ∨
     (p = "gitlab" ∧ Contains host "github" = false ∧ Contains host "gitlab" = true) ∨
     (p = "forgejo" ∧ Contains host "github" = false ∧ Contains host "gitlab" = false ∧
      Contains host "forge" = true)).
Proof. apply GetGitPlatform_ok. Qed.

(** C37.  The HTTPS and the SSH spelling of a repository give the same host and the
    same repository path, so that both are known to the controller as one
    repository. *)
Theorem git_spellings_agree ip user h r :
  ¬ byte_in ":" user → ¬ byte_in "@" user → plain_host h → plain_repo r →
  let https := https_url h r in
  let ssh := user +:+ "@" +:+ h +:+ ":" +:+ r +:+ ".git" in
  GetGitHost ip https = Ok h ∧ GetGitHost ip ssh = Ok h ∧
  GetGitPath ip https = Ok r ∧ GetGitPath ip ssh = Ok r.
Proof.
  intros Hu Hu' Hh Hr. assert (¬ byte_in ":" h) as Hc
    by (destruct Hh as [_ Hh]; by eapply byte_class).
  split_and!.
  - apply GetGitHost_https; [done|apply Hr].
  - by apply GetGitHost_ssh.
  - by apply GetGitPath_https.
  - by apply GetGitPath_ssh.
Qed.

Lemma git_spellings_agree_witness :
  GetGitPath no_ip "https://gitlab.com/group/sub/repo" = Ok "group/sub/repo" ∧
  GetGitPath no_ip "git@gitlab.com:group/sub/repo.git" = Ok "group/sub/repo".
Proof.
  destruct (git_spellings_agree no_ip "git" "gitlab.com" "group/sub/repo") as (_ & _ & H1 & H2).
  - apply (bool_decide_unpack (¬ byte_in ":" "git")). vm_compute. exact I.
  - apply (bool_decide_unpack (¬ byte_in "@" "git")). vm_compute. exact I.
  - split; [done|]. by repeat constructor.
  - split_and!; try done. by repeat constructor.
  - split; [exact H1|exact H2].
Defined.

(** A reference with an at-sign after its first colon, such as an HTTPS URL
    that carries credentials, is refused as a malformed SSH reference. *)
Theorem GetGitHost_refuses_credentials ip a b :
  ¬ byte_in ":" a → ¬ byte_in "@" a → byte_in "@" b →
  GetGitHost ip (a +:+ ":" +:+ b) =
  Err (Errorf ("invalid SSH URL format: " +:+ a +:+ ":" +:+ b)).
Proof.
  intros Ha Ha' Hb. unfold GetGitHost.
  rewrite (proj2 (Contains_byte _ "@")).
  2: { rewrite !byte_in_app. auto. }
  rewrite (proj2 (SplitN2_pair (a +:+ ":" +:+ b) ":" a b)) by done.
  assert (SplitN2 a "@" = [a]) as ->; [|done].
  unfold SplitN2. by rewrite (proj2 (Cut_None a "@")).
Qed.

Lemma GetGitHost_refuses_credentials_witness :
  is_ok (GetGitHost no_ip "https://user:pw@gitlab.com/org/repo") = false.
Proof.
  change "https://user:pw@gitlab.com/org/repo"
    with ("https" +:+ ":" +:+ "//user:pw@gitlab.com/org/repo").
  rewrite (GetGitHost_refuses_credentials no_ip "https" "//user:pw@gitlab.com/org/repo");
    [reflexivity|..].
  - apply (bool_decide_unpack (¬ byte_in ":" "https")). vm_compute. exact I.
  - apply (bool_decide_unpack (¬ byte_in "@" "https")). vm_compute. exact I.
  - apply (bool_decide_unpack (byte_in "@" "//user:pw@gitlab.com/org/repo")). vm_compute. exact I.
Defined.
