(* ===== verification/GoJson.v ===== *)
(** * JSON texts and how they are written

    A JSON text up to spacing and escapes, and what [encoding/json] writes for it:
    strings with Go's escapes (HTML characters included), arrays and objects, without
    spaces ([json.Marshal], an [Encoder]) or indented ([json.MarshalIndent]). *)

From S2P Require Import Prelude GoStrings GoStrconv GoFloat.
From Stdlib Require Import Ascii.

(** ** UTF-8 *)

Definition byte_range (lo hi : nat) (c : ascii) : bool :=
  bool_decide (lo ≤ nat_of_ascii c ∧ nat_of_ascii c ≤ hi).

Definition cont : ascii → bool := byte_range 128 191.

(** [utf8.DecodeRune] of text that begins with a byte of 128 or more: the bytes of the
    character it begins with, or nothing when they are not a character. *)
Definition decode_rune (c : ascii) (rest : list ascii) : option (list ascii) :=
  match rest with
  | d :: rest1 =>
      if byte_range 194 223 c && cont d then Some [c; d]
      else match rest1 with
      | e :: rest2 =>
          if (bool_decide (nat_of_ascii c = 224) && byte_range 160 191 d ||
              byte_range 225 236 c && cont d ||
              bool_decide (nat_of_ascii c = 237) && byte_range 128 159 d ||
              byte_range 238 239 c && cont d) && cont e then Some [c; d; e]
          else match rest2 with
          | f :: _ =>
              if (bool_decide (nat_of_ascii c = 240) && byte_range 144 191 d ||
                  byte_range 241 243 c && cont d ||
                  bool_decide (nat_of_ascii c = 244) && byte_range 128 143 d) && cont e && cont f
              then Some [c; d; e; f] else None
          | [] => None
          end
      | [] => None
      end
  | [] => None
  end.

(** ** Strings *)

Definition hex_digit (n : nat) : ascii := ascii_of_nat (if n <? 10 then 48 + n else 87 + n).

Definition backslash : ascii := "\".
Definition dquote : ascii := "034".

(** The escape of a byte below 128, or the byte itself. *)
Definition escape (c : ascii) : list ascii :=
  let n := nat_of_ascii c in
  if decide (c = dquote ∨ c = backslash) then [backslash; c]
  else if decide (n = 8) then [backslash; "b"%char]
  else if decide (n = 12) then [backslash; "f"%char]
  else if decide (n = 10) then [backslash; "n"%char]
  else if decide (n = 13) then [backslash; "r"%char]
  else if decide (n = 9) then [backslash; "t"%char]
  else if decide (n < 32 ∨ c = "<"%char ∨ c = ">"%char ∨ c = "&"%char) then
    backslash :: explode "u00" ++ [hex_digit (n / 16); hex_digit (n mod 16)]
  else [c].

(** The line separators U+2028 and U+2029. *)
Definition line_separator (rune : list ascii) : option ascii :=
  match rune with
  | ["226"%char; "128"%char; "168"%char] => Some "8"%char
  | ["226"%char; "128"%char; "169"%char] => Some "9"%char
  | _ => None
  end.

(** A character of more than one byte. *)
Definition escape_rune (rune : list ascii) : list ascii :=
  match line_separator rune with
  | Some d => backslash :: explode "u202" ++ [d]
  | None => rune
  end.

(** The bytes of a string literal; [skip] counts the bytes left of a character that is
    written already. *)
Fixpoint escape_all (skip : nat) (s : list ascii) : list ascii :=
  match s with
  | [] => []
  | c :: s' =>
      match skip with
      | S skip' => escape_all skip' s'
      | 0 =>
          if nat_of_ascii c <? 128 then escape c ++ escape_all 0 s'
          else match decode_rune c s' with
               | Some rune => escape_rune rune ++ escape_all (length rune - 1) s'
               | None => backslash :: explode "ufffd" ++ escape_all 0 s'
               end
      end
  end.

Definition encode_string (s : string) : list ascii :=
  dquote :: escape_all 0 (explode s) ++ [dquote].

(** ** Arrays and objects *)

Fixpoint commas (l : list (list ascii)) : list ascii :=
  match l with
  | [] => []
  | [x] => x
  | x :: l' => x ++ ","%char :: commas l'
  end.

Definition encode_array (l : list (list ascii)) : list ascii :=
  "["%char :: commas l ++ ["]"%char].

Definition encode_object (fields : list (string * list ascii)) : list ascii :=
  "{"%char :: commas ((λ f, encode_string f.1 ++ ":"%char :: f.2) <$> fields) ++ ["}"%char].

Definition null : list ascii := explode "null".

(** ** Texts

    The members of an object in their order; a name may occur more than once. *)

Inductive jtext : Type :=
| TNull
| TBool (b : bool)
| TNumber (n : numeral)
| TString (s : string)
| TArray (l : list jtext)
| TObject (l : list (string * jtext)).

Definition bool_text (b : bool) : list ascii := explode (if b then "true" else "false").

(** Without spaces. *)
Fixpoint compact (v : jtext) : list ascii :=
  match v with
  | TNull => null
  | TBool b => bool_text b
  | TNumber n => numeral_text n
  | TString s => encode_string s
  | TArray l => encode_array (compact <$> l)
  | TObject l => encode_object ((λ m, (m.1, compact m.2)) <$> l)
  end.

(** With an empty prefix and two spaces of indentation: every element on a line of its own, but
    nothing between the brackets of an empty array or object.  *)
Definition new_line (depth : nat) : list ascii := "010"%char :: replicate (2 * depth) " "%char.

Fixpoint lines (depth : nat) (l : list (list ascii)) : list ascii :=
  match l with
  | [] => []
  | [x] => new_line depth ++ x
  | x :: l' => new_line depth ++ x ++ ","%char :: lines depth l'
  end.

Definition block (opening closing : ascii) (depth : nat) (l : list (list ascii)) : list ascii :=
  match l with
  | [] => [opening; closing]
  | _ => opening :: lines (S depth) l ++ new_line depth ++ [closing]
  end.

Fixpoint indent (depth : nat) (v : jtext) : list ascii :=
  match v with
  | TArray l => block "[" "]" depth (indent (S depth) <$> l)
  | TObject l =>
      block "{" "}" depth
        ((λ m, encode_string m.1 ++ ":"%char :: " "%char :: indent (S depth) m.2) <$> l)
  | _ => compact v
  end.

Section jtext_ind.
Context (P : jtext → Prop).
Hypothesis (Hnull : P TNull) (Hbool : ∀ b, P (TBool b)) (Hnumber : ∀ n, P (TNumber n)).
Hypothesis (Hstring : ∀ s, P (TString s)).
Hypothesis (Harray : ∀ l, Forall P l → P (TArray l)).
Hypothesis (Hobject : ∀ l, Forall (λ m, P m.2) l → P (TObject l)).

(** Induction that reaches the elements and members. *)
Fixpoint jtext_ind' (v : jtext) : P v :=
  match v with
  | TNull => Hnull
  | TBool b => Hbool b
  | TNumber n => Hnumber n
  | TString s => Hstring s
  | TArray l =>
      Harray l ((fix go l : Forall P l :=
        match l with [] => Forall_nil_2 _ | v :: l' => Forall_cons_2 _ v l' (jtext_ind' v) (go l') end) l)
  | TObject l =>
      Hobject l ((fix go l : Forall (λ m, P m.2) l :=
        match l with
        | [] => Forall_nil_2 _
        | m :: l' => Forall_cons_2 _ m l' (jtext_ind' m.2) (go l')
        end) l)
  end.
End jtext_ind.

Example encode_ex :
  encode_string "a&b" = dquote :: explode "a\u0026b" ++ [dquote] ∧
  encode_string (implode ["195"; "169"; "255"; "010"; "226"; "128"; "168"]%char) =
    dquote :: ["195"; "169"]%char ++ explode "\ufffd\n\u2028" ++ [dquote].
Proof. by vm_compute. Qed.

(** ** No control characters

    What the encoder writes has no control character, in particular no newline. *)

Definition printable (c : ascii) : bool := 32 <=? nat_of_ascii c.

Lemma escape_printable c : forallb printable (escape c) = true.
Proof. revert c. apply (ascii_forall (λ c, forallb printable (escape c))). vm_compute. reflexivity. Qed.

Lemma decode_rune_high c s rune :
  decode_rune c s = Some rune → (nat_of_ascii c <? 128) = false → forallb printable rune = true.
Proof.
  intros H Hc. apply Nat.ltb_ge in Hc.
  assert (∀ d lo hi, 128 ≤ lo → byte_range lo hi d = true → printable d = true) as Hr.
  { intros d lo hi Hlo. unfold byte_range, printable. rewrite bool_decide_eq_true, Nat.leb_le. lia. }
  assert (printable c = true) as Pc by (unfold printable; apply Nat.leb_le; lia).
  unfold decode_rune, cont in H.
  repeat match type of H with
         | context [match ?x with _ => _ end] => destruct x eqn:?; try done
         end; injection H as <-; simpl; rewrite Pc; simpl;
    repeat match goal with
           | H : _ && _ = true |- _ => apply andb_true_iff in H as [? ?]
           | H : _ || _ = true |- _ => apply orb_true_iff in H as [?|?]
           end;
    rewrite ?andb_true_iff; repeat split; try done; (eapply Hr; [|eassumption]); lia.
Qed.

Lemma escape_all_printable k s : forallb printable (escape_all k s) = true.
Proof.
  revert k. induction s as [|c s IH]; intros k; [done|]. cbn [escape_all].
  destruct k as [|k]; [|apply IH]. destruct (_ <? _) eqn:Hc.
  - rewrite forallb_app, escape_printable. apply IH.
  - destruct (decode_rune c s) as [rune|] eqn:Hr.
    + rewrite forallb_app, andb_true_iff. split; [|apply IH]. unfold escape_rune.
      destruct (line_separator rune) as [d|] eqn:Hd; [|by eapply decode_rune_high].
      assert (d = "8"%char ∨ d = "9"%char) as [-> | ->]; [|done..].
      unfold line_separator in Hd. repeat case_match; naive_solver.
    + cbn [forallb]. rewrite forallb_app. by rewrite IH.
Qed.

Lemma encode_string_printable s : forallb printable (encode_string s) = true.
Proof. unfold encode_string. cbn [forallb]. by rewrite forallb_app, escape_all_printable. Qed.

Lemma commas_printable l :
  Forall (λ x, forallb printable x = true) l → forallb printable (commas l) = true.
Proof.
  induction 1 as [|x l Hx Hl IH]; [done|]. destruct l as [|y l]; [done|].
  cbn [commas] in *. rewrite forallb_app, Hx. cbn [forallb]. by rewrite IH.
Qed.

Lemma encode_array_printable l :
  Forall (λ x, forallb printable x = true) l → forallb printable (encode_array l) = true.
Proof.
  intros H. unfold encode_array. cbn [forallb]. by rewrite forallb_app, commas_printable.
Qed.

Lemma encode_object_printable fields :
  Forall (λ f : string * list ascii, forallb printable f.2 = true) fields →
  forallb printable (encode_object fields) = true.
Proof.
  intros H. unfold encode_object. cbn [forallb]. rewrite forallb_app, commas_printable; [done|].
  apply Forall_fmap. eapply Forall_impl; [exact H|]. intros [k v] Hv. cbn [fst snd] in *. unfold compose. cbn [fst snd].
  rewrite forallb_app, encode_string_printable. cbn [forallb]. by rewrite Hv.
Qed.

Create HintDb json discriminated.
#[export] Hint Resolve encode_string_printable encode_array_printable encode_object_printable : json.
