(* ===== verification/GoJsonRead.v ===== *)
(** * Reading JSON

    What [encoding/json] makes of a text: its scanner ([checkValid]) and its unquoting of
    strings.  The text is cut into tokens, which a machine with a stack of open arrays
    and objects puts together. *)

From S2P Require Import Prelude GoStrings GoStrconv GoFloat GoJson.
From Stdlib Require Import Ascii.

(** ** Strings *)

Definition hex_value (c : ascii) : option Z :=
  let n := Z.of_nat (nat_of_ascii c) in
  if byte_range 48 57 c then Some (n - 48)%Z
  else if byte_range 97 102 c then Some (n - 87)%Z
  else if byte_range 65 70 c then Some (n - 55)%Z
  else None.

Definition hex4 (a b c d : ascii) : option Z :=
  a ← hex_value a; b ← hex_value b; c ← hex_value c; d ← hex_value d;
  Some (((a * 16 + b) * 16 + c) * 16 + d)%Z.

Definition byte_of (n : Z) : ascii := ascii_of_N (Z.to_N n).

(** [utf8.AppendRune] of a code point. *)
Definition encode_rune (n : Z) : list ascii :=
  (let tail k := byte_of (128 + Z.shiftr n k mod 64) in
   if n <? 128 then [byte_of n]
   else if n <? 2048 then [byte_of (192 + Z.shiftr n 6); tail 0]
   else if n <? 65536 then [byte_of (224 + Z.shiftr n 12); tail 6; tail 0]
   else [byte_of (240 + Z.shiftr n 18); tail 12; tail 6; tail 0])%Z.

(** [utf8.RuneError]. *)
Definition rune_error : list ascii := ["239"; "191"; "189"]%char.

Definition is_surrogate (n : Z) : bool := (55296 <=? n)%Z && (n <=? 57343)%Z.

(** [utf16.DecodeRune]. *)
Definition surrogate_pair (hi lo : Z) : option Z :=
  if ((55296 <=? hi) && (hi <=? 56319) && (56320 <=? lo) && (lo <=? 57343))%Z
  then Some ((hi - 55296) * 1024 + (lo - 56320) + 65536)%Z else None.

(** The character a backslash and a letter other than [u] stand for. *)
Definition unescape (c : ascii) : option ascii :=
  if decide (c = dquote ∨ c = backslash ∨ c = "/"%char) then Some c
  else if decide (c = "b"%char) then Some "008"%char
  else if decide (c = "f"%char) then Some "012"%char
  else if decide (c = "n"%char) then Some "010"%char
  else if decide (c = "r"%char) then Some "013"%char
  else if decide (c = "t"%char) then Some "009"%char
  else None.

(** Bytes put before what is read next. *)
Definition emit (l : list ascii) (o : option (list ascii * list ascii)) :
    option (list ascii * list ascii) :=
  match o with Some (s, rest) => Some (l ++ s, rest) | None => None end.

(** The contents of a string literal whose quote has been read, and what follows it;
    [skip] counts the bytes left of a character of several bytes. *)
Fixpoint scan_string (skip : nat) (s : list ascii) : option (list ascii * list ascii) :=
  match s with
  | [] => None
  | c :: s1 =>
      match skip with
      | S skip' => emit [c] (scan_string skip' s1)
      | 0 =>
          if decide (c = dquote) then Some ([], s1)
          else if decide (c = backslash) then
            match s1 with
            | [] => None
            | e :: s2 =>
                if decide (e = "u"%char) then
                  match s2 with
                  | a1 :: a2 :: a3 :: a4 :: s3 =>
                      match hex4 a1 a2 a3 a4 with
                      | None => None
                      | Some n =>
                          if is_surrogate n then
                            (* half of a pair, or an error *)
                            match s3 with
                            | b :: u :: b1 :: b2 :: b3 :: b4 :: s4 =>
                                match (if decide (b = backslash ∧ u = "u"%char)
                                       then hex4 b1 b2 b3 b4 ≫= surrogate_pair n else None) with
                                | Some r => emit (encode_rune r) (scan_string 0 s4)
                                | None => emit rune_error (scan_string 0 s3)
                                end
                            | _ => emit rune_error (scan_string 0 s3)
                            end
                          else emit (encode_rune n) (scan_string 0 s3)
                      end
                  | _ => None
                  end
                else match unescape e with
                     | Some d => emit [d] (scan_string 0 s2)
                     | None => None
                     end
            end
          else if nat_of_ascii c <? 32 then None
          else if nat_of_ascii c <? 128 then emit [c] (scan_string 0 s1)
          else match decode_rune c s1 with
               | Some rune => emit [c] (scan_string (length rune - 1) s1)
               | None => emit rune_error (scan_string 0 s1)
               end
      end
  end.

(** ** Numbers *)

Fixpoint span_digits (s : list ascii) : list ascii * list ascii :=
  match s with
  | c :: s' => if digit c then let '(l, rest) := span_digits s' in (c :: l, rest) else ([], s)
  | [] => ([], [])
  end.

(** A fraction or an exponent that has no digits is none; what is left then is no
    token. *)
Definition scan_fraction (s : list ascii) : list ascii * list ascii :=
  match s with
  | c :: s' =>
      if decide (c = "."%char) then
        match span_digits s' with ([], _) => ([], s) | (l, rest) => (l, rest) end
      else ([], s)
  | [] => ([], [])
  end.

Definition scan_sign (s : list ascii) : list ascii * list ascii :=
  match s with
  | c :: s' => if decide (c = "+"%char ∨ c = "-"%char) then ([c], s') else ([], s)
  | [] => ([], [])
  end.

Definition scan_exponent (s : list ascii) :
    option (ascii * list ascii * list ascii) * list ascii :=
  match s with
  | c :: s1 =>
      if decide (c = "e"%char ∨ c = "E"%char) then
        let '(sign, s2) := scan_sign s1 in
        match span_digits s2 with
        | ([], _) => (None, s)
        | (l, rest) => (Some (c, sign, l), rest)
        end
      else (None, s)
  | [] => (None, [])
  end.

Definition scan_int (s : list ascii) : list ascii * list ascii :=
  match s with
  | c :: s' => if decide (c = "0"%char) then ([c], s') else span_digits s
  | [] => ([], [])
  end.

Definition scan_numeral (s : list ascii) : option (numeral * list ascii) :=
  let '(neg, s1) :=
    match s with c :: s' => if decide (c = "-"%char) then (true, s') else (false, s) | [] => (false, s) end in
  match scan_int s1 with
  | ([], _) => None
  | (int, s2) =>
      let '(frac, s3) := scan_fraction s2 in
      let '(exp, s4) := scan_exponent s3 in
      Some (MkNumeral neg int frac exp, s4)
  end.

(** ** Tokens *)

Inductive token : Type :=
| BeginArray | EndArray | BeginObject | EndObject | Colon | Comma
| Null
| Bool (b : bool)
| Number (n : numeral)
| Str (s : string).

(** What follows [w], if the text begins with it. *)
Fixpoint after_word (w s : list ascii) : option (list ascii) :=
  match w, s with
  | [], _ => Some s
  | c :: w', d :: s' => if decide (c = d) then after_word w' s' else None
  | _, [] => None
  end.

Definition scan_word (s : list ascii) : option (token * list ascii) :=
  match after_word null s with
  | Some rest => Some (Null, rest)
  | None =>
      match after_word (bool_text true) s with
      | Some rest => Some (Bool true, rest)
      | None =>
          match after_word (bool_text false) s with
          | Some rest => Some (Bool false, rest)
          | None =>
              match scan_numeral s with
              | Some (n, rest) => Some (Number n, rest)
              | None => None
              end
          end
      end
  end.

Definition scan_token (c : ascii) (s : list ascii) : option (token * list ascii) :=
  if decide (c = "["%char) then Some (BeginArray, s)
  else if decide (c = "]"%char) then Some (EndArray, s)
  else if decide (c = "{"%char) then Some (BeginObject, s)
  else if decide (c = "}"%char) then Some (EndObject, s)
  else if decide (c = ":"%char) then Some (Colon, s)
  else if decide (c = ","%char) then Some (Comma, s)
  else if decide (c = dquote) then
    match scan_string 0 s with
    | Some (l, rest) => Some (Str (implode l), rest)
    | None => None
    end
  else scan_word (c :: s).

(** [isSpace]. *)
Definition is_space (c : ascii) : bool :=
  bool_decide (c = " "%char ∨ c = "009"%char ∨ c = "010"%char ∨ c = "013"%char).

(** The tokens of a text; every round takes a byte at least. *)
Fixpoint lex_loop (fuel : nat) (s : list ascii) : option (list token) :=
  match fuel with
  | 0 => None
  | S fuel =>
      match s with
      | [] => Some []
      | c :: s' =>
          if is_space c then lex_loop fuel s'
          else match scan_token c s' with
               | Some (t, rest) => cons t <$> lex_loop fuel rest
               | None => None
               end
      end
  end.

Definition lex (s : list ascii) : option (list token) := lex_loop (S (length s)) s.

(** ** Values *)

(** An array or object that is open, with what has been read of it, the last element
    first; an object also has the name of the member whose value is being read. *)
Inductive frame : Type :=
| InArray (done : list jtext)
| InObject (done : list (string * jtext)) (name : string).

(** What comes next: a value; the first element of an array, or its end; the name of a
    member, or the end of an empty object; the colon after a name; what follows a
    value. *)
Inductive mode : Type :=
| MValue
| MElement
| MName (done : list (string * jtext)) (first : bool)
| MColon (done : list (string * jtext)) (name : string)
| MAfter (v : jtext).

(** [maxNestingDepth]. *)
Definition max_nesting : N := 10000.

Definition open_value (t : token) (stack : list frame) : option (mode * list frame) :=
  match t with
  | Null => Some (MAfter TNull, stack)
  | Bool b => Some (MAfter (TBool b), stack)
  | Number n => Some (MAfter (TNumber n), stack)
  | Str s => Some (MAfter (TString s), stack)
  | BeginArray =>
      if decide (N.of_nat (length stack) < max_nesting)%N then Some (MElement, InArray [] :: stack) else None
  | BeginObject =>
      if decide (N.of_nat (length stack) < max_nesting)%N then Some (MName [] true, stack) else None
  | _ => None
  end.

Definition read_step (m : mode) (stack : list frame) (t : token) : option (mode * list frame) :=
  match m with
  | MValue => open_value t stack
  | MElement =>
      match t, stack with
      | EndArray, InArray done :: stack' => Some (MAfter (TArray (reverse done)), stack')
      | _, _ => open_value t stack
      end
  | MName done first =>
      match t with
      | Str name => Some (MColon done name, stack)
      | EndObject => if first then Some (MAfter (TObject (reverse done)), stack) else None
      | _ => None
      end
  | MColon done name =>
      match t with
      | Colon => Some (MValue, InObject done name :: stack)
      | _ => None
      end
  | MAfter v =>
      match t, stack with
      | Comma, InArray done :: stack' => Some (MValue, InArray (v :: done) :: stack')
      | EndArray, InArray done :: stack' => Some (MAfter (TArray (reverse (v :: done))), stack')
      | Comma, InObject done name :: stack' => Some (MName ((name, v) :: done) false, stack')
      | EndObject, InObject done name :: stack' =>
          Some (MAfter (TObject (reverse ((name, v) :: done))), stack')
      | _, _ => None
      end
  end.

Fixpoint read_loop (m : mode) (stack : list frame) (l : list token) : option jtext :=
  match l with
  | [] => match m, stack with MAfter v, [] => Some v | _, _ => None end
  | t :: l' =>
      match read_step m stack t with
      | Some (m', stack') => read_loop m' stack' l'
      | None => None
      end
  end.

Definition read_tokens (l : list token) : option jtext := read_loop MValue [] l.

Definition read_json (s : string) : option jtext := lex (explode s) ≫= read_tokens.
