(* ===== verification/GoJsonSyntax.v ===== *)
(** * The syntax of JSON

    The reader accepts exactly the token sequences of a value that is not nested too
    deeply, and reads them as that value. *)

From S2P Require Import Prelude GoStrings GoStrconv GoFloat GoJson GoJsonRead.
From Stdlib Require Import Ascii.

(** ** The tokens of a value *)

Fixpoint separated (l : list (list token)) : list token :=
  match l with
  | [] => []
  | [x] => x
  | x :: l' => x ++ Comma :: separated l'
  end.

Fixpoint tokens_of (v : jtext) : list token :=
  match v with
  | TNull => [Null]
  | TBool b => [Bool b]
  | TNumber n => [Number n]
  | TString s => [Str s]
  | TArray l => BeginArray :: separated (tokens_of <$> l) ++ [EndArray]
  | TObject l =>
      BeginObject :: separated ((λ m, Str m.1 :: Colon :: tokens_of m.2) <$> l) ++ [EndObject]
  end.

(** How many arrays and objects are open at most. *)
Fixpoint nesting (v : jtext) : N :=
  match v with
  | TArray l => (1 + foldr N.max 0 (nesting <$> l))%N
  | TObject l => (1 + foldr N.max 0 ((λ m, nesting m.2) <$> l))%N
  | _ => 0%N
  end.

Definition member_tokens (m : string * jtext) : list token := Str m.1 :: Colon :: tokens_of m.2.

Lemma separated_cons x l : l ≠ [] → separated (x :: l) = x ++ Comma :: separated l.
Proof. by destruct l. Qed.

Lemma separated_snoc l x :
  separated (l ++ [x]) = match l with [] => x | _ => separated l ++ Comma :: x end.
Proof.
  induction l as [|y l IH]; [done|]. cbn [app]. destruct l as [|z l].
  - done.
  - rewrite (separated_cons y) by (by destruct l). rewrite IH.
    change (separated (y :: z :: l)) with (y ++ Comma :: separated (z :: l)). by rewrite <-app_assoc.
Qed.

(** ** The reader reads tokens of a value *)

Definition comma_after {A} (l : list A) : list token := match l with [] => [] | _ => [Comma] end.

(** What has been read when a frame was pushed, the deepest frame first. *)
Fixpoint frames_tokens (stack : list frame) : list token :=
  match stack with
  | [] => []
  | InArray done :: stack' =>
      frames_tokens stack' ++ BeginArray :: separated (tokens_of <$> reverse done) ++ comma_after done
  | InObject done name :: stack' =>
      frames_tokens stack' ++
      BeginObject :: separated (member_tokens <$> reverse done) ++ comma_after done ++ [Str name; Colon]
  end.

(** Everything read so far. *)
Definition read_so_far (m : mode) (stack : list frame) : list token :=
  frames_tokens stack ++
  match m with
  | MValue | MElement => []
  | MName done _ => BeginObject :: separated (member_tokens <$> reverse done) ++ comma_after done
  | MColon done name =>
      BeginObject :: separated (member_tokens <$> reverse done) ++ comma_after done ++ [Str name]
  | MAfter v => tokens_of v
  end.

(** A name is asked for first only of an empty object, an element of an empty array. *)
Definition mode_ok (m : mode) (stack : list frame) : Prop :=
  match m with
  | MName done first => first = bool_decide (done = [])
  | MElement => ∃ stack', stack = InArray [] :: stack'
  | _ => True
  end.

Lemma comma_after_map {A B} (f : A → B) l : comma_after (f <$> l) = comma_after l.
Proof. by destruct l. Qed.

(** One more element of a list that is being read. *)
Lemma separated_reverse {A} (f : A → list token) (x : A) done :
  separated (f <$> reverse (x :: done)) = separated (f <$> reverse done) ++ comma_after done ++ f x.
Proof.
  rewrite reverse_cons, fmap_app. cbn [fmap list_fmap]. rewrite separated_snoc.
  destruct done as [|y done]; [done|]. rewrite reverse_cons, fmap_app.
  cbn [fmap list_fmap comma_after app]. by destruct (f <$> reverse done).
Qed.

Lemma tokens_array l : tokens_of (TArray l) = BeginArray :: separated (tokens_of <$> l) ++ [EndArray].
Proof. done. Qed.

Lemma tokens_object l :
  tokens_of (TObject l) = BeginObject :: separated (member_tokens <$> l) ++ [EndObject].
Proof. done. Qed.

Ltac solve_tokens :=
  rewrite ?tokens_array, ?tokens_object; cbn [frames_tokens];
  rewrite ?separated_reverse; cbn [frames_tokens comma_after app member_tokens fst snd];
  rewrite ?app_nil_r; repeat (rewrite <-?app_assoc; cbn [app]); reflexivity.

Lemma open_value_read t stack m' stack' :
  open_value t stack = Some (m', stack') →
  mode_ok m' stack' ∧ read_so_far m' stack' = frames_tokens stack ++ [t].
Proof.
  unfold open_value. destruct t; try done; [destruct (decide _); [|done]..| | | |]; intros [= <- <-];
    (split; [try done; by eexists|]); unfold read_so_far; try done; solve_tokens.
Qed.

Lemma read_step_read m stack t m' stack' :
  mode_ok m stack → read_step m stack t = Some (m', stack') →
  mode_ok m' stack' ∧ read_so_far m' stack' = read_so_far m stack ++ [t].
Proof.
  intros Hm Hs.
  assert (∀ m'' stack'', open_value t stack = Some (m'', stack'') → m = MValue ∨ m = MElement →
            mode_ok m'' stack'' ∧ read_so_far m'' stack'' = read_so_far m stack ++ [t]) as Hopen.
  { intros m'' stack'' Ho Hm'. destruct (open_value_read _ _ _ _ Ho) as [Ho1 Ho2]. split; [done|].
    rewrite Ho2. unfold read_so_far at 1. destruct Hm' as [-> | ->]; by rewrite app_nil_r. }
  destruct m as [| |sofar first|sofar name|v]; cbn [read_step] in Hs.
  - eauto.
  - destruct Hm as [st Est]. destruct t; eauto. subst stack. injection Hs as <- <-. split; [done|].
    unfold read_so_far. solve_tokens.
  - destruct t; try done.
    + destruct first; [|done]. injection Hs as <- <-. cbn in Hm. symmetry in Hm.
      apply bool_decide_eq_true in Hm as ->. split; [done|]. unfold read_so_far. solve_tokens.
    + injection Hs as <- <-. split; [done|]. unfold read_so_far. solve_tokens.
  - destruct t; try done. injection Hs as <- <-. split; [done|]. unfold read_so_far. solve_tokens.
  - destruct t; try discriminate Hs; destruct stack as [|[sofar|sofar name] stack]; try discriminate Hs;
      injection Hs as <- <-; (split; [done|]); unfold read_so_far; solve_tokens.
Qed.

Lemma read_loop_read l : ∀ m stack v,
  mode_ok m stack → read_loop m stack l = Some v → read_so_far m stack ++ l = tokens_of v.
Proof.
  induction l as [|t l IH]; intros m stack v Hm; cbn [read_loop].
  - rewrite app_nil_r. destruct m, stack; try done. by intros [= ->].
  - destruct (read_step m stack t) as [[m' stack']|] eqn:Hs; [|done].
    destruct (read_step_read _ _ _ _ _ Hm Hs) as [Hm' He]. intros Hv.
    rewrite <-(IH m' stack' v Hm' Hv), He. by rewrite <-app_assoc.
Qed.

(** *** No deeper than allowed *)

Definition deepest {A} (f : A → N) (l : list A) : N := foldr N.max 0%N (f <$> l).

Lemma deepest_cons {A} (f : A → N) x l : deepest f (x :: l) = N.max (f x) (deepest f l).
Proof. done. Qed.

Lemma deepest_reverse {A} (f : A → N) l : deepest f (reverse l) = deepest f l.
Proof.
  assert (∀ l x, deepest f (l ++ [x]) = N.max (f x) (deepest f l)) as Hsnoc.
  { intros l' x. induction l' as [|y l' IH]; cbn [app]; rewrite ?deepest_cons, ?IH; [done|lia]. }
  induction l as [|x l IH]; [done|]. by rewrite reverse_cons, Hsnoc, deepest_cons, IH.
Qed.

Definition member_nesting (m : string * jtext) : N := nesting m.2.

Lemma member_nesting_pair k v : member_nesting (k, v) = nesting v.
Proof. done. Qed.
Lemma nesting_array l : nesting (TArray l) = (1 + deepest nesting l)%N.
Proof. done. Qed.
Lemma nesting_object l : nesting (TObject l) = (1 + deepest member_nesting l)%N.
Proof. done. Qed.

Fixpoint stack_shallow (stack : list frame) : Prop :=
  match stack with
  | [] => True
  | InArray done :: stack' =>
      (N.of_nat (length stack) + deepest nesting done ≤ max_nesting)%N ∧ stack_shallow stack'
  | InObject done _ :: stack' =>
      (N.of_nat (length stack) + deepest member_nesting done ≤ max_nesting)%N ∧ stack_shallow stack'
  end.

Definition mode_shallow (m : mode) (stack : list frame) : Prop :=
  match m with
  | MName done _ | MColon done _ =>
      (N.of_nat (length stack) + 1 + deepest member_nesting done ≤ max_nesting)%N
  | MAfter v => (N.of_nat (length stack) + nesting v ≤ max_nesting)%N
  | _ => True
  end.

Lemma read_step_shallow m stack t m' stack' :
  mode_shallow m stack → stack_shallow stack → (N.of_nat (length stack) ≤ max_nesting)%N →
  read_step m stack t = Some (m', stack') →
  mode_shallow m' stack' ∧ stack_shallow stack' ∧ (N.of_nat (length stack') ≤ max_nesting)%N.
Proof.
  intros Hm Hs Hl.
  assert (open_value t stack = Some (m', stack') →
          mode_shallow m' stack' ∧ stack_shallow stack' ∧ (N.of_nat (length stack') ≤ max_nesting)%N) as Ho.
  { unfold open_value. destruct t; try done; [case_decide; [|done]..| | | |]; intros [= <- <-];
      cbn [mode_shallow stack_shallow length nesting] in *;
      change (deepest _ []) with 0%N; split_and!; try done; lia. }
  destruct m as [| |sofar first|sofar name|v]; cbn [read_step]; [done| | | |].
  - destruct t; try done. destruct stack as [|[sofar|] stack]; [done| |done]. intros [= <- <-].
    cbn [mode_shallow stack_shallow length] in *. rewrite nesting_array, deepest_reverse.
    destruct Hs. split_and!; [|done|]; lia.
  - destruct t; try done; [destruct first; [|done]|]; intros [= <- <-];
      cbn [mode_shallow] in *; rewrite ?nesting_object, ?deepest_reverse; split_and!; try done; lia.
  - destruct t; try done. intros [= <- <-]. cbn [mode_shallow stack_shallow length] in *.
    split_and!; try done; lia.
  - destruct t; try done; destruct stack as [|[sofar|sofar name] stack]; try done; intros [= <- <-];
      cbn [mode_shallow stack_shallow length] in *; destruct Hs;
      rewrite ?nesting_array, ?nesting_object, ?deepest_reverse, ?deepest_cons, ?member_nesting_pair;
      split_and!; try done; lia.
Qed.

Lemma read_loop_shallow l : ∀ m stack v,
  mode_shallow m stack → stack_shallow stack → (N.of_nat (length stack) ≤ max_nesting)%N →
  read_loop m stack l = Some v → (nesting v ≤ max_nesting)%N.
Proof.
  induction l as [|t l IH]; intros m stack v Hm Hs Hl; cbn [read_loop].
  - destruct m, stack; try done. by intros [= ->].
  - destruct (read_step m stack t) as [[m' stack']|] eqn:E; [|done].
    destruct (read_step_shallow _ _ _ _ _ Hm Hs Hl E) as (? & ? & ?). by apply IH.
Qed.

(** ** And every value *)

Lemma read_open m stack t l :
  m = MValue ∨ m = MElement → t ≠ EndArray →
  read_loop m stack (t :: l) =
  match open_value t stack with Some (m', stack') => read_loop m' stack' l | None => None end.
Proof. intros [-> | ->] Ht; [done|]. cbn [read_loop read_step]. by destruct t. Qed.

(** What reading [v] does, as far as the nesting allows it. *)
Definition reads (v : jtext) : Prop := ∀ stack m rest,
  m = MValue ∨ m = MElement → (N.of_nat (length stack) + nesting v ≤ max_nesting)%N →
  read_loop m stack (tokens_of v ++ rest) = read_loop (MAfter v) stack rest.

Lemma read_elements l stack rest : Forall reads l → ∀ done m,
  m = MValue ∨ m = MElement → l ≠ [] →
  (N.of_nat (length stack) + 1 + deepest nesting l ≤ max_nesting)%N →
  read_loop m (InArray done :: stack) (separated (tokens_of <$> l) ++ EndArray :: rest) =
  read_loop (MAfter (TArray (reverse done ++ l))) stack rest.
Proof.
  induction 1 as [|v l Hv HF IH]; intros sofar m Hm Hne Hd; [done|]. rewrite deepest_cons in Hd.
  assert (N.of_nat (length (InArray sofar :: stack)) + nesting v ≤ max_nesting)%N as Hdv
    by (cbn [length]; lia).
  cbn [fmap list_fmap]. destruct l as [|v' l].
  - cbn [separated]. rewrite (Hv _ _ _ Hm Hdv). cbn [read_loop read_step]. by rewrite reverse_cons.
  - rewrite separated_cons by done. rewrite <-app_assoc, (Hv _ _ _ Hm Hdv). cbn [app read_loop read_step].
    change (list_fmap _ _ tokens_of (v' :: l)) with (tokens_of <$> v' :: l).
    rewrite IH by (first [by left | done | lia]). by rewrite reverse_cons, <-app_assoc.
Qed.

Lemma read_members l stack rest : Forall (λ m, reads m.2) l → ∀ done first,
  l ≠ [] → (N.of_nat (length stack) + 1 + deepest member_nesting l ≤ max_nesting)%N →
  read_loop (MName done first) stack (separated (member_tokens <$> l) ++ EndObject :: rest) =
  read_loop (MAfter (TObject (reverse done ++ l))) stack rest.
Proof.
  induction 1 as [|[k v] l Hv HF IH]; intros sofar first Hne Hd; [done|].
  rewrite deepest_cons, member_nesting_pair in Hd. cbn [snd] in *.
  assert (N.of_nat (length (InObject sofar k :: stack)) + nesting v ≤ max_nesting)%N as Hdv
    by (cbn [length]; lia).
  cbn [fmap list_fmap]. destruct l as [|m' l].
  - change (separated _ ++ ?r) with (Str k :: Colon :: tokens_of v ++ r). cbn [read_loop read_step].
    rewrite (Hv _ _ _ ltac:(by left) Hdv). cbn [read_loop read_step]. by rewrite reverse_cons.
  - rewrite separated_cons by done. rewrite <-app_assoc.
    change (member_tokens (k, v) ++ ?r) with (Str k :: Colon :: tokens_of v ++ r). cbn [read_loop read_step].
    rewrite (Hv _ _ _ ltac:(by left) Hdv). cbn [app read_loop read_step].
    change (list_fmap _ _ member_tokens (m' :: l)) with (member_tokens <$> m' :: l).
    rewrite IH by (first [done | lia]). by rewrite reverse_cons, <-app_assoc.
Qed.

Lemma read_value v : reads v.
Proof.
  induction v as [| | | |l IH|l IH] using jtext_ind'; intros stack m rest Hm Hd;
    try (destruct Hm as [-> | ->]; reflexivity).
  - rewrite tokens_array. rewrite nesting_array in Hd. cbn [app]. rewrite <-app_assoc, read_open by done.
    unfold open_value. rewrite decide_True by lia.
    destruct l as [|v l]; [done|]. cbn [app]. apply read_elements; [done|by right|done|lia].
  - rewrite tokens_object. rewrite nesting_object in Hd. cbn [app]. rewrite <-app_assoc, read_open by done.
    unfold open_value. rewrite decide_True by lia.
    destruct l as [|m' l]; [done|]. cbn [app]. apply read_members; [done|done|lia].
Qed.

(** The reader accepts the tokens of the values that are not nested too deeply, and
    reads each as the value it is. *)
Theorem read_tokens_spec l v :
  read_tokens l = Some v ↔ l = tokens_of v ∧ (nesting v ≤ max_nesting)%N.
Proof.
  split.
  - intros Hv. split; [|eapply read_loop_shallow; [..|exact Hv]; done].
    symmetry. exact (eq_sym (read_loop_read l MValue [] v I Hv)).
  - intros [-> Hn]. unfold read_tokens. rewrite <-(app_nil_r (tokens_of v)).
    by rewrite (read_value v) by (try (by left); done).
Qed.
