(* ===== verification/GoJsonRound.v ===== *)
(** * Reading what was written

    Both spellings of a value, compact and indented, are read as that value, with the
    invalid bytes of its strings replaced. *)

From S2P Require Import Prelude GoStrings GoStrconv GoFloat GoJson GoJsonRead GoJsonSyntax.
From Stdlib Require Import Ascii.

(** ** Strings *)

(** Every byte that is not part of a character becomes U+FFFD. *)
Fixpoint to_valid (skip : nat) (s : list ascii) : list ascii :=
  match s with
  | [] => []
  | c :: s' =>
      match skip with
      | S skip' => c :: to_valid skip' s'
      | 0 =>
          if nat_of_ascii c <? 128 then c :: to_valid 0 s'
          else match decode_rune c s' with
               | Some rune => c :: to_valid (length rune - 1) s'
               | None => rune_error ++ to_valid 0 s'
               end
      end
  end.

Definition ToValidUTF8 (s : string) : string := implode (to_valid 0 (explode s)).

(** [utf8.ValidString]. *)
Definition ValidString (s : string) : bool := bool_decide (ToValidUTF8 s = s).

Lemma decode_rune_spec c s rune :
  decode_rune c s = Some rune →
  ∃ tail s', rune = c :: tail ∧ s = tail ++ s' ∧ tail ≠ [] ∧
    ∀ rest, decode_rune c (tail ++ rest) = Some rune.
Proof.
  unfold decode_rune. intros H. destruct s as [|d s]; [done|].
  destruct (byte_range 194 223 c && cont d) eqn:E1.
  { injection H as <-. exists [d], s. split_and!; try done. intros rest. cbn [app]. by rewrite E1. }
  destruct s as [|e s]; [done|].
  match type of H with (if ?b then _ else _) = _ => destruct b eqn:E2 end.
  { injection H as <-. exists [d; e], s. split_and!; try done. intros rest. cbn [app]. by rewrite E1, E2. }
  destruct s as [|f s]; [done|].
  match type of H with (if ?b then _ else _) = _ => destruct b eqn:E3 end; [|done].
  injection H as <-. exists [d; e; f], s. split_and!; try done. intros rest. cbn [app]. by rewrite E1, E2, E3.
Qed.

Lemma emit_emit a b o : emit a (emit b o) = emit (a ++ b) o.
Proof. destruct o as [[s rest]|]; [|done]. cbn. by rewrite app_assoc. Qed.

Lemma scan_string_skip tail s : scan_string (length tail) (tail ++ s) = emit tail (scan_string 0 s).
Proof.
  induction tail as [|c tail IH]; cbn [length app]; [by destruct (scan_string 0 s) as [[]|]|].
  cbn [scan_string]. by rewrite IH, emit_emit.
Qed.

Lemma to_valid_skip tail s : to_valid (length tail) (tail ++ s) = tail ++ to_valid 0 s.
Proof. induction tail as [|c tail IH]; [done|]. cbn [length app to_valid]. by rewrite IH. Qed.

Lemma escape_all_skip tail s : escape_all (length tail) (tail ++ s) = escape_all 0 s.
Proof. induction tail as [|c tail IH]; [done|]. cbn [length app escape_all]. by rewrite IH. Qed.

Lemma rune_tail {A} (c : A) tail : length (c :: tail) - 1 = length tail.
Proof. cbn [length]. lia. Qed.

Lemma scan_escape c s :
  (nat_of_ascii c <? 128) = true → scan_string 0 (escape c ++ s) = emit [c] (scan_string 0 s).
Proof. destruct c as [[] [] [] [] [] [] [] []]; intros Hc; [discriminate Hc || reflexivity..]. Qed.

(** A character of several bytes stands for itself. *)
Lemma scan_rune c tail s :
  (nat_of_ascii c <? 128) = false → decode_rune c (tail ++ s) = Some (c :: tail) →
  scan_string 0 (c :: tail ++ s) = emit (c :: tail) (scan_string 0 s).
Proof.
  intros Hc Hd. cbn [scan_string]. rewrite Hd, rune_tail, scan_string_skip, emit_emit.
  rewrite !decide_False by (intros ->; done).
  rewrite Hc. by rewrite (proj2 (Nat.ltb_ge _ 32)) by (apply Nat.ltb_ge in Hc; lia).
Qed.

Lemma scan_escape_rune rune d s :
  line_separator rune = Some d → scan_string 0 (escape_rune rune ++ s) = emit rune (scan_string 0 s).
Proof.
  unfold escape_rune. intros Hd. rewrite Hd. unfold line_separator in Hd.
  repeat case_match; simplify_eq; reflexivity.
Qed.

Lemma scan_escape_all rest n : ∀ s, length s ≤ n →
  scan_string 0 (escape_all 0 s ++ dquote :: rest) = Some (to_valid 0 s, rest).
Proof.
  induction n as [|n IH]; intros [|c s] Hn; cbn [length] in Hn; try lia; [done..|].
  cbn [escape_all to_valid]. destruct (nat_of_ascii c <? 128) eqn:Hc.
  - rewrite <-app_assoc, scan_escape, IH by (done || lia). done.
  - destruct (decode_rune c s) as [rune|] eqn:Hr.
    + destruct (decode_rune_spec _ _ _ Hr) as (tail & s' & -> & -> & Hne & Hd).
      rewrite rune_tail, escape_all_skip, to_valid_skip, <-app_assoc.
      rewrite length_app in Hn. assert (length s' ≤ n) as Hs' by lia.
      destruct (line_separator (c :: tail)) as [d|] eqn:Hl.
      * by rewrite (scan_escape_rune _ _ _ Hl), IH.
      * unfold escape_rune. rewrite Hl. cbn [app].
        by rewrite (scan_rune c tail), IH by done.
    + rewrite <-app_comm_cons, <-app_assoc.
      change (scan_string 0 (backslash :: explode "ufffd" ++ ?l)) with (emit rune_error (scan_string 0 l)).
      by rewrite IH by lia.
Qed.

Lemma scan_encode_string s rest :
  scan_string 0 (escape_all 0 (explode s) ++ dquote :: rest) = Some (explode (ToValidUTF8 s), rest).
Proof. unfold ToValidUTF8. rewrite explode_implode. by eapply scan_escape_all. Qed.

(** ** Numbers *)

(** What follows is not part of a number. *)
Definition stops (s : list ascii) : bool :=
  match s with
  | [] => true
  | c :: _ => negb (digit c) && bool_decide (c ∉ ["."; "e"; "E"]%char)
  end.

Lemma span_digits_stop l rest :
  forallb digit l = true → match rest with c :: _ => digit c = false | [] => True end →
  span_digits (l ++ rest) = (l, rest).
Proof.
  intros Hl Hr. induction l as [|c l IH]; cbn [app].
  - destruct rest as [|c rest]; [done|]. cbn [span_digits]. by rewrite Hr.
  - cbn [forallb] in Hl. apply andb_true_iff in Hl as [Hc Hl]. cbn [span_digits]. by rewrite Hc, IH.
Qed.

Lemma stops_digit rest : stops rest = true → match rest with c :: _ => digit c = false | [] => True end.
Proof. destruct rest; [done|]. cbn [stops]. rewrite andb_true_iff, negb_true_iff. naive_solver. Qed.

Lemma stops_letter c rest : stops (c :: rest) = true → c ≠ "."%char ∧ ¬ (c = "e"%char ∨ c = "E"%char).
Proof. cbn [stops]. rewrite andb_true_iff, bool_decide_eq_true. set_solver. Qed.

Lemma digit_cases c : digit c = true → c ∈ explode "0123456789".
Proof.
  assert (implb (digit c) (existsb (Ascii.eqb c) (explode "0123456789")) = true) as H.
  { apply (ascii_forall (λ c, implb (digit c) (existsb (Ascii.eqb c) (explode "0123456789")))).
    vm_compute. reflexivity. }
  intros Hc. rewrite Hc in H. apply existsb_exists in H as (d & Hd & ->%Ascii.eqb_eq).
  by apply list_elem_of_In.
Qed.

Lemma scan_exponent_text e rest :
  exponent_ok e = true → stops rest = true → scan_exponent (exponent_text e ++ rest) = (e, rest).
Proof.
  destruct e as [[[letter sign] digits]|]; cbn [exponent_ok exponent_text app]; intros He Hr.
  - rewrite !andb_true_iff, !bool_decide_eq_true in He. destruct He as [[[Hl Hs] Hd] Hn].
    cbn [scan_exponent]. rewrite decide_True by done. rewrite <-app_assoc.
    assert (scan_sign (sign ++ digits ++ rest) = (sign, digits ++ rest)) as ->.
    { destruct Hs as [-> |[-> | ->]]; [|done..]. cbn [app]. destruct digits as [|c digits]; [done|].
      cbn [forallb] in Hd. apply andb_true_iff in Hd as [Hc _]. cbn [app scan_sign].
      rewrite decide_False; [done|]. intros [-> | ->]; done. }
    rewrite span_digits_stop by (done || by apply stops_digit). by destruct digits.
  - destruct rest as [|c rest]; [done|]. cbn [scan_exponent].
    rewrite decide_False; [done|]. by eapply stops_letter.
Qed.

(** No digit, hence no fraction or exponent digit, begins what follows a number's part. *)
Lemma exponent_text_digit e rest :
  exponent_ok e = true → stops rest = true →
  match exponent_text e ++ rest with c :: _ => digit c = false ∧ c ≠ "."%char | [] => True end.
Proof.
  destruct e as [[[letter sign] digits]|]; cbn [exponent_ok exponent_text app]; intros He Hr.
  - rewrite !andb_true_iff, !bool_decide_eq_true in He.
    destruct He as [[[[-> | ->] _] _] _]; by split.
  - destruct rest as [|c rest]; [done|]. split; [by apply stops_digit in Hr|by eapply stops_letter].
Qed.

Lemma scan_fraction_text frac s :
  forallb digit frac = true →
  match s with c :: _ => digit c = false ∧ c ≠ "."%char | [] => True end →
  scan_fraction (fraction_text frac ++ s) = (frac, s).
Proof.
  intros Hf Hs. destruct frac as [|d frac].
  - cbn [fraction_text app]. destruct s as [|c s]; [done|]. cbn [scan_fraction]. by rewrite decide_False by naive_solver.
  - cbn [fraction_text app scan_fraction]. rewrite decide_True by done.
    change (d :: frac ++ s) with ((d :: frac) ++ s). rewrite span_digits_stop; [done..|].
    by destruct s; [|destruct Hs].
Qed.

Lemma scan_int_text int s :
  int_ok int = true → match s with c :: _ => digit c = false | [] => True end →
  scan_int (int ++ s) = (int, s).
Proof.
  unfold int_ok. rewrite !andb_true_iff, !bool_decide_eq_true. intros [[Hd Hn] H0] Hs.
  destruct int as [|c int]; [done|]. cbn [app scan_int]. case_decide as Hc.
  - subst c. by injection (H0 eq_refl) as ->.
  - change (c :: int ++ s) with ((c :: int) ++ s). by apply span_digits_stop.
Qed.

Lemma scan_numeral_text n rest :
  numeral_ok n = true → stops rest = true → scan_numeral (numeral_text n ++ rest) = Some (n, rest).
Proof.
  unfold numeral_ok. rewrite !andb_true_iff. intros [[Hi Hf] He] Hr. destruct n as [neg int frac e].
  cbn [num_neg num_int num_frac num_exp] in *. unfold numeral_text. cbn [num_neg num_int num_frac num_exp].
  pose proof (exponent_text_digit e rest He Hr) as Hed.
  assert (match fraction_text frac ++ exponent_text e ++ rest with c :: _ => digit c = false | [] => True end) as Hfd.
  { destruct frac; [|done]. cbn [fraction_text app]. by destruct (exponent_text e ++ rest); [|destruct Hed]. }
  assert (scan_int (int ++ fraction_text frac ++ exponent_text e ++ rest) =
          (int, fraction_text frac ++ exponent_text e ++ rest)) as Hint by by apply scan_int_text.
  assert (∃ d int', int = d :: int' ∧ d ≠ "-"%char) as (d & int' & Eint & Hd).
  { unfold int_ok in Hi. rewrite !andb_true_iff, !bool_decide_eq_true in Hi. destruct Hi as [[Hi Hn] _].
    destruct int as [|d int']; [done|]. exists d, int'. split; [done|]. intros ->. done. }
  unfold scan_numeral. rewrite <-!app_assoc. rewrite Eint in *.
  destruct neg; cbn [app] in *; [rewrite decide_True by done|rewrite decide_False by done];
    rewrite Hint, scan_fraction_text, scan_exponent_text by done; done.
Qed.

(** ** Tokens

    Every token takes a byte at least, so that the rounds of the tokenizer are enough. *)

Lemma emit_Some l o s rest :
  emit l o = Some (s, rest) → ∃ s', o = Some (s', rest).
Proof. destruct o as [[s' rest']|]; [|done]. intros [= _ <-]. eauto. Qed.

Lemma scan_string_shorter n : ∀ skip s l rest,
  length s ≤ n → scan_string skip s = Some (l, rest) → length rest < length s.
Proof.
  induction n as [|n IH]; intros skip s l rest Hn; (destruct s as [|c s]; [done|]); cbn [length] in *; [lia|].
  assert (∀ skip' s' l' a, length s' ≤ length s → emit a (scan_string skip' s') = Some (l', rest) →
            length rest < S (length s)) as Hs.
  { intros skip' s' l' a Hs' (s'' & H)%emit_Some. apply IH in H; lia. }
  cbn [scan_string]. intros H.
  repeat match type of H with
         | Some _ = Some _ => injection H as _ <-
         | emit _ _ = Some _ => eapply Hs in H; [exact H|cbn [length]; lia]
         | context [match ?x with _ => _ end] => destruct x; try done
         end; cbn [length]; lia.
Qed.

Lemma span_digits_shorter s : length (span_digits s).2 ≤ length s.
Proof.
  induction s as [|c s IH]; [done|]. cbn [span_digits]. destruct (digit c); [|done].
  destruct (span_digits s) as [l rest]. cbn [snd length] in *. lia.
Qed.

Lemma scan_fraction_shorter s : length (scan_fraction s).2 ≤ length s.
Proof.
  destruct s as [|c s]; [done|]. cbn [scan_fraction]. case_decide; [|done].
  pose proof (span_digits_shorter s). destruct (span_digits s) as [[|d l] rest]; cbn [snd length] in *; lia.
Qed.

Lemma scan_exponent_shorter s : length (scan_exponent s).2 ≤ length s.
Proof.
  destruct s as [|c s]; [done|]. cbn [scan_exponent]. case_decide; [|done].
  assert (length (scan_sign s).2 ≤ length s) as Hs.
  { destruct s as [|d s]; [done|]. cbn [scan_sign]. case_decide; cbn [snd length]; lia. }
  destruct (scan_sign s) as [sign s2]. pose proof (span_digits_shorter s2).
  destruct (span_digits s2) as [[|d l] rest]; cbn [snd length] in *; lia.
Qed.

Lemma scan_int_shorter s l rest : scan_int s = (l, rest) → l ≠ [] → length rest < length s.
Proof.
  destruct s as [|c s]; cbn [scan_int]; [by intros [= <- _]|]. case_decide; [by intros [= _ <-] _; cbn; lia|].
  cbn [span_digits]. pose proof (span_digits_shorter s) as H1.
  destruct (digit c); [|by intros [= <- _]]. destruct (span_digits s) as [l' rest'].
  intros [= _ <-] _. cbn [snd length] in *. lia.
Qed.

Lemma scan_numeral_shorter s n rest : scan_numeral s = Some (n, rest) → length rest < length s.
Proof.
  unfold scan_numeral.
  set (start := match s with c :: s' => _ | [] => _ end).
  assert (length start.2 ≤ length s) as H0.
  { destruct s as [|c s]; [done|]. unfold start. case_decide; cbn [snd length]; lia. }
  destruct start as [neg s1]. cbn [snd] in H0.
  destruct (scan_int s1) as [[|d l] s2] eqn:E1; [done|]. apply scan_int_shorter in E1; [|done].
  pose proof (scan_fraction_shorter s2). destruct (scan_fraction s2) as [frac s3].
  pose proof (scan_exponent_shorter s3). destruct (scan_exponent s3) as [e s4].
  cbn [snd] in *. intros [= _ <-]. lia.
Qed.

Lemma after_word_app w rest : after_word w (w ++ rest) = Some rest.
Proof. induction w as [|c w IH]; [by destruct rest|]. cbn [app after_word]. by rewrite decide_True. Qed.

Lemma after_word_spec w s rest : after_word w s = Some rest → s = w ++ rest.
Proof.
  revert s. induction w as [|c w IH]; intros s; [destruct s; by intros [= <-]|].
  destruct s as [|d s]; [done|]. cbn [after_word]. case_decide; [|done]. subst d. intros H%IH. by subst s.
Qed.

Lemma scan_token_shorter c s t rest : scan_token c s = Some (t, rest) → length rest ≤ length s.
Proof.
  unfold scan_token. repeat (case_decide; [first [by intros [= _ <-] | idtac]|]).
  - destruct (scan_string 0 s) as [[l rest']|] eqn:E; [|done]. intros [= _ <-].
    apply (scan_string_shorter (length s)) in E; lia.
  - unfold scan_word. intros Hw.
    assert (length rest < length (c :: s)); [|cbn [length] in *; lia].
    repeat match type of Hw with
           | context [match after_word ?w ?x with _ => _ end] =>
               destruct (after_word w x) eqn:E;
                 [injection Hw as _ <-; apply after_word_spec in E as ->; rewrite length_app; cbn; lia|clear E]
           end.
    destruct (scan_numeral (c :: s)) as [[n rest']|] eqn:E; [|done]. injection Hw as _ <-.
    by apply scan_numeral_shorter in E.
Qed.

Theorem lex_loop_enough n : ∀ m s, length s < n → length s < m → lex_loop n s = lex_loop m s.
Proof.
  induction n as [|n IH]; intros [|m] s Hn Hm; try lia. cbn [lex_loop].
  destruct s as [|c s]; [done|]. cbn [length] in *. destruct (is_space c); [apply IH; lia|].
  destruct (scan_token c s) as [[t rest]|] eqn:E; [|done]. apply scan_token_shorter in E.
  rewrite (IH m); [done|lia..].
Qed.

Lemma lex_space c s : is_space c = true → lex (c :: s) = lex s.
Proof. intros Hc. unfold lex. cbn [length lex_loop]. by rewrite Hc. Qed.

Lemma lex_cons c s t rest :
  is_space c = false → scan_token c s = Some (t, rest) → lex (c :: s) = cons t <$> lex rest.
Proof.
  intros Hc Ht. pose proof (scan_token_shorter _ _ _ _ Ht).
  unfold lex. rewrite (lex_loop_enough (S (length rest)) (S (length s)) rest) by lia.
  change (lex_loop (S (length (c :: s))) (c :: s)) with
    (if is_space c then lex_loop (S (length s)) s
     else match scan_token c s with
          | Some (t, rest) => cons t <$> lex_loop (S (length s)) rest | None => None end).
  by rewrite Hc, Ht.
Qed.

(** *** Texts that spell tokens, whatever ends them *)

Definition spells (text : list ascii) (l : list token) : Prop := ∀ rest,
  stops rest = true → lex (text ++ rest) = app l <$> lex rest.

Lemma app_fmap (a b : list token) (o : option (list token)) :
  app a <$> (app b <$> o) = app (a ++ b) <$> o.
Proof. destruct o; [|done]. cbn. by rewrite app_assoc. Qed.

Lemma spells_app x y a b :
  spells x a → spells y b → (∀ rest, stops rest = true → stops (y ++ rest) = true) → spells (x ++ y) (a ++ b).
Proof. intros Hx Hy Hs rest Hr. rewrite <-app_assoc, Hx, Hy by auto. apply app_fmap. Qed.

Lemma spells_space c x l : is_space c = true → spells x l → spells (c :: x) l.
Proof. intros Hc Hx rest Hr. rewrite <-app_comm_cons, lex_space by done. by apply Hx. Qed.

Lemma spells_spaces x y l : forallb is_space x = true → spells y l → spells (x ++ y) l.
Proof.
  intros Hx Hy. induction x as [|c x IH]; [done|]. cbn [forallb] in Hx.
  apply andb_true_iff in Hx as [Hc Hx]. cbn [app]. by apply spells_space; [|apply IH].
Qed.

(** A mark, whatever follows it. *)
Definition mark (c : ascii) (t : token) : Prop :=
  is_space c = false ∧ (∀ s, scan_token c s = Some (t, s)) ∧ digit c = false ∧ c ∉ ["."; "e"; "E"]%char.

Lemma mark_intro c t :
  (∀ s, scan_token c s = Some (t, s)) → is_space c = false → digit c = false →
  bool_decide (c ∉ ["."; "e"; "E"]%char) = true → mark c t.
Proof. intros ? ? ? ?%bool_decide_eq_true. by split_and!. Qed.

Ltac mark := apply mark_intro; reflexivity.

Lemma marks :
  mark "[" BeginArray ∧ mark "]" EndArray ∧ mark "{" BeginObject ∧ mark "}" EndObject ∧
  mark ":" Colon ∧ mark "," Comma.
Proof. split_and!; mark. Qed.

Lemma mark_stops c t s : mark c t → stops (c :: s) = true.
Proof.
  intros (_ & _ & Hd & Hc). cbn [stops]. rewrite Hd. by rewrite bool_decide_eq_true_2.
Qed.

Lemma spells_mark c t x l : mark c t → spells x l → spells (c :: x) (t :: l).
Proof.
  intros Hm Hx rest Hr. rewrite <-app_comm_cons. destruct Hm as (Hs & Ht & _).
  rewrite (lex_cons _ _ _ _ Hs (Ht _)), Hx by done. by destruct (lex rest).
Qed.

Lemma spells_before_mark x l c t y k :
  spells x l → mark c t → spells y k → spells (x ++ c :: y) (l ++ t :: k).
Proof.
  intros Hx Hm Hy. apply spells_app; [done|by apply spells_mark|].
  intros rest _. by eapply mark_stops.
Qed.

Lemma spells_nil : spells [] [].
Proof. intros rest _. cbn [app]. by destruct (lex rest). Qed.

Lemma spells_token c x t :
  is_space c = false → (∀ rest, stops rest = true → scan_token c (x ++ rest) = Some (t, rest)) →
  spells (c :: x) [t].
Proof.
  intros Hc Ht rest Hr. rewrite <-app_comm_cons, (lex_cons _ _ _ _ Hc (Ht rest Hr)). by destruct (lex rest).
Qed.

Lemma spells_string s : spells (encode_string s) [Str (ToValidUTF8 s)].
Proof.
  apply (spells_token dquote (escape_all 0 (explode s) ++ [dquote])); [done|]. intros rest _.
  rewrite <-app_assoc. cbn [app].
  change (scan_token dquote ?x) with
    (match scan_string 0 x with Some (l, rest) => Some (Str (implode l), rest) | None => None end).
  by rewrite scan_encode_string, implode_explode.
Qed.

Lemma spells_word b : spells (bool_text b) [Bool b] ∧ spells null [Null].
Proof.
  split.
  - destruct b; [apply (spells_token "t" (explode "rue"))|apply (spells_token "f" (explode "alse"))]; done.
  - by apply (spells_token "n" (explode "ull")).
Qed.

Lemma spells_number n : numeral_ok n = true → spells (numeral_text n) [Number n].
Proof.
  intros Hn rest Hr. pose proof (scan_numeral_text n rest Hn Hr) as Hs.
  assert (∃ c s, numeral_text n = c :: s ∧ c ∈ explode "-0123456789") as (c & s & E & Hc).
  { unfold numeral_text, numeral_ok, int_ok in *. rewrite !andb_true_iff, !bool_decide_eq_true in Hn.
    destruct Hn as [[[[Hd Hi] _] _] _]. destruct n as [[] [|d int] frac e]; cbn in *; try done.
    - eexists _, _. split; [done|]. by left.
    - eexists _, _. split; [done|]. apply andb_true_iff in Hd as [Hd _]. right. by apply digit_cases. }
  rewrite E in *. rewrite <-app_comm_cons in *.
  assert (is_space c = false ∧ scan_token c (s ++ rest) = Some (Number n, rest)) as [H1 H2].
  { cbn in Hc. unfold scan_token, scan_word.
    repeat (apply elem_of_cons in Hc as [-> |Hc];
      [split; [reflexivity|]; rewrite Hs; reflexivity|]). by apply elem_of_nil in Hc. }
  rewrite (lex_cons _ _ _ _ H1 H2). done.
Qed.

(** ** Values *)

(** The numbers are written as the grammar asks. *)
Fixpoint numbers_ok (v : jtext) : bool :=
  match v with
  | TNumber n => numeral_ok n
  | TArray l => forallb numbers_ok l
  | TObject l => forallb (λ m, numbers_ok m.2) l
  | _ => true
  end.

(** The value that is read back. *)
Fixpoint valid_text (v : jtext) : jtext :=
  match v with
  | TString s => TString (ToValidUTF8 s)
  | TArray l => TArray (valid_text <$> l)
  | TObject l => TObject ((λ m, (ToValidUTF8 m.1, valid_text m.2)) <$> l)
  | _ => v
  end.

Lemma spells_commas {A} (f : A → list ascii) (g : A → list token) l :
  Forall (λ a, spells (f a) (g a)) l → spells (commas (f <$> l)) (separated (g <$> l)).
Proof.
  induction 1 as [|a l Ha HF IH]; [apply spells_nil|]. destruct l as [|b l]; [exact Ha|].
  cbn [fmap list_fmap]. change (commas (f a :: ?x)) with (f a ++ ","%char :: commas x).
  rewrite separated_cons by done. apply spells_before_mark; [done|mark|exact IH].
Qed.

Lemma spells_new_line d x l : spells x l → spells (new_line d ++ x) l.
Proof.
  apply spells_spaces. change (forallb is_space (replicate (2 * d) " "%char) = true).
  by induction (2 * d).
Qed.

Lemma spells_lines {A} (f : A → list ascii) (g : A → list token) d l :
  Forall (λ a, spells (f a) (g a)) l → spells (lines d (f <$> l)) (separated (g <$> l)).
Proof.
  induction 1 as [|a l Ha HF IH]; [apply spells_nil|].
  destruct l as [|b l]; [by apply spells_new_line|].
  cbn [fmap list_fmap]. change (lines d (f a :: ?x)) with (new_line d ++ f a ++ ","%char :: lines d x).
  rewrite separated_cons by done. apply spells_new_line, spells_before_mark; [done|mark|exact IH].
Qed.

(** Brackets around a list. *)
Lemma spells_brackets c d t u x l :
  mark c t → mark d u → spells x l → spells (c :: x ++ [d]) (t :: l ++ [u]).
Proof.
  intros Hc Hd Hx. apply spells_mark; [done|]. apply spells_before_mark; [done..|apply spells_nil].
Qed.

Lemma spells_block {A} (f : A → list ascii) (g : A → list token) c d t u n l :
  mark c t → mark d u → Forall (λ a, spells (f a) (g a)) l →
  spells (block c d n (f <$> l)) (t :: separated (g <$> l) ++ [u]).
Proof.
  intros Hc Hd Hl. destruct l as [|a l].
  - by apply (spells_brackets c d t u [] [] Hc Hd spells_nil).
  - change (block c d n (f <$> a :: l)) with (c :: lines (S n) (f <$> a :: l) ++ new_line n ++ [d]).
    apply spells_mark; [done|]. apply spells_app.
    + by apply spells_lines.
    + by apply spells_new_line, spells_mark; [|apply spells_nil].
    + done.
Qed.

(** A member: its name, a colon, and its value. *)
Lemma spells_member (k : string) x v :
  spells x (tokens_of v) → spells (encode_string k ++ ":"%char :: x) (member_tokens (ToValidUTF8 k, v)).
Proof.
  intros Hx. apply (spells_before_mark _ [Str (ToValidUTF8 k)]); [apply spells_string|mark|done].
Qed.

Lemma fmap_compose {A B C} (f : A → B) (g : B → C) (l : list A) : g <$> (f <$> l) = (λ a, g (f a)) <$> l.
Proof. by rewrite <-list_fmap_compose. Qed.

Lemma forallb_Forall_2 {A} (p : A → bool) (P : A → Prop) l :
  Forall (λ a, p a = true → P a) l → forallb p l = true → Forall P l.
Proof.
  induction 1 as [|a l Ha HF IH]; [done|]. cbn [forallb]. rewrite andb_true_iff. intros [??].
  constructor; auto.
Qed.

Theorem spells_compact v : numbers_ok v = true → spells (compact v) (tokens_of (valid_text v)).
Proof.
  induction v as [|b|n|s|l IH|l IH] using jtext_ind'; cbn [numbers_ok compact valid_text].
  - intros _. apply (spells_word true).
  - intros _. apply spells_word.
  - apply spells_number.
  - intros _. apply spells_string.
  - intros Hn. rewrite tokens_array, fmap_compose. unfold encode_array.
    apply spells_brackets; [mark..|]. apply spells_commas. by eapply forallb_Forall_2.
  - intros Hn. rewrite tokens_object, fmap_compose. unfold encode_object. rewrite fmap_compose.
    apply spells_brackets; [mark..|]. apply spells_commas.
    apply (forallb_Forall_2 _ (λ m, spells (compact m.2) (tokens_of (valid_text m.2))) l IH) in Hn.
    eapply Forall_impl; [exact Hn|]. intros m Hm. by apply spells_member.
Qed.

Theorem spells_indent v : ∀ d, numbers_ok v = true → spells (indent d v) (tokens_of (valid_text v)).
Proof.
  induction v as [| | | |l IH|l IH] using jtext_ind'; intros d;
    [by apply (spells_compact TNull)|by apply (spells_compact (TBool b))|by apply (spells_compact (TNumber n))|
     by apply (spells_compact (TString s))|..]; cbn [numbers_ok indent valid_text]; intros Hn.
  - rewrite tokens_array, fmap_compose. apply spells_block; [mark..|].
    eapply forallb_Forall_2; [|exact Hn]. eapply Forall_impl; [exact IH|]. naive_solver.
  - rewrite tokens_object, fmap_compose. apply spells_block; [mark..|].
    apply (forallb_Forall_2 _ (λ m, ∀ d, spells (indent d m.2) (tokens_of (valid_text m.2))) l) in Hn;
      [|eapply Forall_impl; [exact IH|]; naive_solver].
    eapply Forall_impl; [exact Hn|]. intros m Hm. apply spells_member. by apply spells_space.
Qed.

Lemma numeral_printable n : numeral_ok n = true → forallb printable (numeral_text n) = true.
Proof.
  assert (∀ l, forallb digit l = true → forallb printable l = true) as Hd.
  { intros l. rewrite !forallb_forall. intros H c Hc. specialize (H c Hc).
    assert (implb (digit c) (printable c) = true) as Hi; [|by rewrite H in Hi].
    apply (ascii_forall (λ c, implb (digit c) (printable c))). vm_compute. reflexivity. }
  unfold numeral_ok, int_ok, numeral_text. rewrite !andb_true_iff. intros [[[[Hi _] _] Hf] He].
  rewrite !forallb_app, !andb_true_iff. split_and!.
  - by destruct (num_neg n).
  - by apply Hd.
  - destruct (num_frac n) as [|c l] eqn:E; [done|]. exact (Hd _ Hf).
  - destruct (num_exp n) as [[[letter sign] digits]|]; [|done]. cbn [exponent_ok exponent_text] in *.
    rewrite !andb_true_iff, !bool_decide_eq_true in He. destruct He as [[[Hl Hs] Hdig] _].
    cbn [forallb]. rewrite forallb_app, !andb_true_iff. split_and!; [..|by apply Hd].
    + by destruct Hl as [-> | ->].
    + by destruct Hs as [-> |[-> | ->]].
Qed.

(** What is written without indentation is one line. *)
Lemma compact_printable v : numbers_ok v = true → forallb printable (compact v) = true.
Proof.
  induction v as [|b|n|s|l IH|l IH] using jtext_ind'; cbn [numbers_ok compact]; intros Hn.
  - done.
  - by destruct b.
  - by apply numeral_printable.
  - apply encode_string_printable.
  - apply encode_array_printable, Forall_fmap. exact (forallb_Forall_2 _ _ _ IH Hn).
  - apply encode_object_printable, Forall_fmap. exact (forallb_Forall_2 _ _ _ IH Hn).
Qed.

Lemma nesting_valid v : nesting (valid_text v) = nesting v.
Proof.
  induction v as [| | | |l IH|l IH] using jtext_ind'; try done; cbn [valid_text nesting]; f_equal;
    rewrite fmap_compose; f_equal; apply list_fmap_ext; intros i x Hx; cbn [snd];
    by apply (Forall_lookup_1 _ _ _ _ IH Hx).
Qed.

Lemma read_spelled text v :
  spells text (tokens_of v) → (nesting v ≤ max_nesting)%N → read_json (implode text) = Some v.
Proof.
  intros Hs Hv. unfold read_json. rewrite explode_implode, <-(app_nil_r text), Hs by done.
  change (lex []) with (Some (@nil token)). cbn. rewrite app_nil_r. by apply read_tokens_spec.
Qed.

(** What is written, compact or indented, is read back. *)
Theorem read_json_written v :
  numbers_ok v = true → (nesting v ≤ max_nesting)%N →
  read_json (implode (compact v)) = Some (valid_text v) ∧
  read_json (implode (indent 0 v)) = Some (valid_text v).
Proof.
  intros Hn Hd. rewrite <-nesting_valid in Hd.
  split; (apply read_spelled; [|done]); [by apply spells_compact|by apply spells_indent].
Qed.
