(* ===== verification/GoJsonDecode.v ===== *)
(** * Decoding JSON into Go types

    [json.Unmarshal] for a target of a given type.  A target may be written more than
    once, when an object has a member twice: a struct, a slice and a map keep what is not
    written again.  A decoder therefore gives the value of a target from all the JSON
    values it has been given, in their order; and which JSON values fit the type.  One
    that does not fit is an error of the whole call. *)

From S2P Require Import Prelude GoStrings GoStrconv GoFloat GoJson GoJsonRead GoJsonSyntax GoJsonRound.
From Stdlib Require Import Ascii.

Record decoder (A : Type) := MkDecoder {
  fits : jtext → bool;
  value_of : list jtext → A
}.
Arguments MkDecoder {_} _ _.
Arguments fits {_} _ _.
Arguments value_of {_} _ _.

Definition syntax_error : error := Errorf "invalid JSON".
Definition type_error : error := Errorf "json: cannot unmarshal value into Go value".

(** [json.Unmarshal(data, &v)] for a zero [v]. *)
Definition Unmarshal {A} (d : decoder A) (data : string) : error + A :=
  match read_json data with
  | None => inl syntax_error
  | Some v => if fits d v then inr (value_of d [v]) else inl type_error
  end.

(** ** Strings and booleans

    A null changes nothing. *)

Definition d_string : decoder string :=
  MkDecoder (λ v, match v with TNull | TString _ => true | _ => false end)
    (foldl (λ s v, match v with TString s' => s' | _ => s end) "").

Definition d_bool : decoder bool :=
  MkDecoder (λ v, match v with TNull | TBool _ => true | _ => false end)
    (foldl (λ b v, match v with TBool b' => b' | _ => b end) false).

(** ** Pointers

    Null makes the pointer nil; other values go into what it points to. *)

Definition since_null (h : list jtext) : option (list jtext) :=
  foldl (λ acc v, match v with TNull => None | _ => Some (default [] acc ++ [v]) end) None h.

Definition d_pointer {A} (d : decoder A) : decoder (option A) :=
  MkDecoder (λ v, match v with TNull => true | _ => fits d v end)
    (λ h, value_of d <$> since_null h).

(** ** Slices

    Null and an empty array start afresh.  Another array writes into the elements the
    slice has, those beyond its length included as far as its memory goes, and sets its
    length. *)

Definition arrays (h : list jtext) : list (list jtext) :=
  foldl (λ acc v, match v with TNull | TArray [] => [] | TArray l => acc ++ [l] | _ => acc end) [] h.

Definition d_slice {A} (d : decoder A) : decoder (list A) :=
  MkDecoder (λ v, match v with TNull => true | TArray l => forallb (fits d) l | _ => false end)
    (λ h, let ls := arrays h in
          imap (λ i _, value_of d (omap (λ l, l !! i) ls)) (default [] (last ls))).

(** ** Maps

    Null makes the map nil.  A value for a key is decoded afresh, and replaces the one
    before. *)

Definition members_since_null (h : list jtext) : option (list (string * jtext)) :=
  foldl (λ acc v, match v with
                  | TNull => None
                  | TObject l => Some (default [] acc ++ l)
                  | _ => acc
                  end) None h.

Definition map_of {A} (f : jtext → A) (l : list (string * jtext)) : gmap string A :=
  foldl (λ m kv, <[kv.1 := f kv.2]> m) ∅ l.

Definition d_map {A} (d : decoder A) : decoder (gomap A) :=
  MkDecoder (λ v, match v with TNull => true | TObject l => forallb (λ m, fits d m.2) l | _ => false end)
    (λ h, map_of (λ v, value_of d [v]) <$> members_since_null h).

(** ** Structs

    A member goes to the field of its name, else to the first one whose name is the same
    but for case: U+017F folds to S and U+212A to K.  Members without a field are
    skipped, as is null for a struct. *)

Definition upper_byte (c : ascii) : ascii :=
  if byte_range 97 122 c then ascii_of_nat (nat_of_ascii c - 32) else c.

(** [foldName]. *)
Fixpoint foldName (l : list ascii) : list ascii :=
  match l with
  | [] => []
  | c :: l1 =>
      match l1 with
      | [] => [upper_byte c]
      | d :: l2 =>
          if decide (c = "197"%char ∧ d = "191"%char) then "S"%char :: foldName l2
          else match l2 with
               | [] => upper_byte c :: foldName l1
               | e :: l3 =>
                   if decide (c = "226"%char ∧ d = "132"%char ∧ e = "170"%char)
                   then "K"%char :: foldName l3 else upper_byte c :: foldName l1
               end
      end
  end.

Definition field_named (names : list string) (key : string) : option string :=
  if decide (key ∈ names) then Some key
  else List.find (λ n, bool_decide (foldName (explode n) = foldName (explode key))) names.

(** The values a field is given. *)
Definition field_values (names : list string) (name : string) (h : list jtext) : list jtext :=
  h ≫= λ v, match v with
            | TObject l => snd <$> List.filter (λ m, bool_decide (field_named names m.1 = Some name)) l
            | _ => []
            end.

(** What fits each field, and the struct made of the values given to the fields. *)
Definition d_struct {A} (fields : list (string * (jtext → bool)))
    (build : (string → list jtext) → A) : decoder A :=
  let names := fst <$> fields in
  MkDecoder
    (λ v, match v with
          | TNull => true
          | TObject l =>
              forallb (λ m, forallb (λ f, negb (bool_decide (field_named names m.1 = Some f.1)) || f.2 m.2) fields) l
          | _ => false
          end)
    (λ h, build (λ name, field_values names name h)).

(** A struct of one field. *)
Definition d_field {A} (name : string) (d : decoder A) : decoder A :=
  d_struct [(name, fits d)] (λ get, value_of d (get name)).

(** ** Values that were written once *)

Lemma Unmarshal_read {A} (d : decoder A) data v :
  read_json data = Some v → fits d v = true → Unmarshal d data = inr (value_of d [v]).
Proof. intros Hr Hf. unfold Unmarshal. by rewrite Hr, Hf. Qed.

(** Whatever decodes fits; what is not JSON, or does not fit, is an error. *)
Lemma Unmarshal_ok {A} (d : decoder A) data a :
  Unmarshal d data = inr a ↔ ∃ v, read_json data = Some v ∧ fits d v = true ∧ a = value_of d [v].
Proof.
  unfold Unmarshal. destruct (read_json data) as [v|]; split.
  - destruct (fits d v) eqn:E; [|done]. intros [= <-]. eauto.
  - intros (v' & [= ->] & -> & ->). done.
  - done.
  - by intros (v' & ? & _).
Qed.

Lemma value_of_slice {A} (d : decoder A) l :
  value_of (d_slice d) [TArray l] = (λ v, value_of d [v]) <$> l.
Proof.
  cbn [value_of d_slice]. unfold arrays. cbn [foldl]. destruct l as [|v l]; [done|].
  apply list_eq. intros i. rewrite list_lookup_imap, list_lookup_fmap.
  change (default [] _) with (v :: l). destruct ((v :: l) !! i) as [x|] eqn:E; [|done].
  cbn [fmap option_fmap option_map omap list_omap app]. by rewrite E.
Qed.

Lemma value_of_pointer {A} (d : decoder A) v :
  v ≠ TNull → value_of (d_pointer d) [v] = Some (value_of d [v]).
Proof. by destruct v. Qed.

Lemma fits_pointer {A} (d : decoder A) v : fits d v = true → fits (d_pointer d) v = true.
Proof. by destruct v. Qed.

Lemma value_of_map {A} (d : decoder A) l :
  value_of (d_map d) [TObject l] = Some (map_of (λ v, value_of d [v]) l).
Proof. done. Qed.

(** A later member of the same name wins. *)
Lemma map_of_lookup {A} (f : jtext → A) l k :
  map_of f l !! k = (λ m, f m.2) <$> last (List.filter (λ m, bool_decide (m.1 = k)) l).
Proof.
  unfold map_of. induction l as [|[k' v] l IH] using rev_ind; [exact (lookup_empty k)|].
  rewrite foldl_app, List.filter_app. cbn [foldl fst snd List.filter].
  rewrite lookup_insert. case_bool_decide as Hk.
  - rewrite decide_True by done. by rewrite last_snoc.
  - rewrite decide_False by done. by rewrite app_nil_r.
Qed.
