(* ===== verification/Json.v ===== *)
(** * JSON values

    The values [encoding/json] decodes into an [interface{}], and how it writes them. *)

From S2P Require Import Prelude GoStrings GoStrconv GoFloat GoJson GoJsonRead GoJsonSyntax.
From S2P Require Import GoJsonRound GoJsonDecode.
From Stdlib Require Import Ascii SpecFloat.

(** Numbers are float64. *)
Inductive json : Type :=
| JNull
| JBool (b : bool)
| JNumber (x : spec_float)
| JString (s : string)
| JArray (l : list json)
| JObject (m : gmap string json).

Definition of_sum {A} (x : error + A) : result A :=
  match x with inl e => Err e | inr a => Ok a end.

Lemma of_sum_no_panic {A} (x : error + A) p : of_sum x ≠ Panic p.
Proof. by destruct x. Qed.

(** ** Decoding *)

(** [valueInterface]. *)
Fixpoint to_json (v : jtext) : json :=
  match v with
  | TNull => JNull
  | TBool b => JBool b
  | TNumber n => JNumber (numeral_float n)
  | TString s => JString s
  | TArray l => JArray (to_json <$> l)
  | TObject l => JObject (list_to_map (reverse ((λ m, (m.1, to_json m.2)) <$> l)))
  end.

(** No number is beyond the range of a float64. *)
Fixpoint numbers_in_range (v : jtext) : bool :=
  match v with
  | TNumber n => is_finite (numeral_float n)
  | TArray l => forallb numbers_in_range l
  | TObject l => forallb (λ m, numbers_in_range m.2) l
  | _ => true
  end.

(** Into an [interface{}]: the last value. *)
Definition d_interface : decoder json :=
  MkDecoder numbers_in_range (foldl (λ _ v, to_json v) JNull).

(** [json.Unmarshal(data, &m)] for a nil [map[string]interface{}]: [null] leaves the
    map nil. *)
Definition Unmarshal_map (data : string) : result (gomap json) :=
  of_sum (Unmarshal (d_map d_interface) data).

(** [json.Unmarshal(data, &m)] for a [map[string]map[string]map[string]string], the
    shape of a docker configuration. *)
Definition Unmarshal_docker (data : string) : result (gomap (gomap (gomap string))) :=
  of_sum (Unmarshal (d_map (d_map (d_map d_string))) data).

(** ** Encoding

    The members of an object are sorted by name, byte by byte. *)

Definition name_le (a b : string * jtext) : Prop := String.leb a.1 b.1 = true.

#[export] Instance name_le_dec : RelDecision name_le.
Proof. intros a b. unfold name_le. apply _. Defined.

#[export] Instance name_le_total : Total name_le.
Proof. intros a b. unfold name_le. destruct (String.leb_total a.1 b.1); auto. Qed.

(** The text of a value; [null] stands for the numbers that cannot be encoded. *)
Fixpoint json_text (j : json) : jtext :=
  match j with
  | JNull => TNull
  | JBool b => TBool b
  | JNumber x => match float_numeral x with Some n => TNumber n | None => TNull end
  | JString s => TString s
  | JArray l => TArray (json_text <$> l)
  | JObject m => TObject (merge_sort name_le (map_fold (λ k v l, (k, json_text v) :: l) [] m))
  end.

(** Whether every number can be encoded: an infinity or a NaN is an error. *)
Fixpoint encodable (j : json) : bool :=
  match j with
  | JNumber x => is_finite x
  | JArray l => forallb encodable l
  | JObject m => map_fold (λ _ v b, encodable v && b) true m
  | _ => true
  end.

Definition unsupported_value : error := Errorf "json: unsupported value".

(** [json.Marshal(v)]. *)
Definition json_Marshal (j : json) : error + string :=
  if encodable j then inr (implode (compact (json_text j))) else inl unsupported_value.

(** [json.MarshalIndent], with an empty prefix and two spaces. *)
Definition json_MarshalIndent (j : json) : error + string :=
  if encodable j then inr (implode (indent 0 (json_text j))) else inl unsupported_value.

(** [m, ok := v.(map[string]interface{})] on an element of a decoded map. *)
Definition as_map (j : option json) : option (gmap string json) :=
  match j with Some (JObject m) => Some m | _ => None end.

(** ** Induction that reaches the members of an object *)

Fixpoint json_size (j : json) : nat :=
  match j with
  | JArray l => S (sum_list (json_size <$> l))
  | JObject m => S (map_fold (λ _ v n, json_size v + n) 0 m)
  | _ => 0
  end.

Lemma map_fold_size {A} (f : A → nat) (m : gmap string A) k v :
  m !! k = Some v → f v ≤ map_fold (λ _ v n, f v + n) 0 m.
Proof.
  intros Hk. rewrite (map_fold_delete_L _ _ k v m); [lia| |done].
  intros. lia.
Qed.

Lemma sum_list_elem l n : n ∈ l → n ≤ sum_list l.
Proof. induction 1; cbn; lia. Qed.

Section json_ind.
Context (P : json → Prop).
Hypothesis (Hnull : P JNull) (Hbool : ∀ b, P (JBool b)) (Hnumber : ∀ x, P (JNumber x)).
Hypothesis (Hstring : ∀ s, P (JString s)).
Hypothesis (Harray : ∀ l, Forall P l → P (JArray l)).
Hypothesis (Hobject : ∀ m, map_Forall (λ _, P) m → P (JObject m)).

Lemma json_ind' j : P j.
Proof.
  remember (json_size j) as n eqn:Hn. assert (json_size j < S n) as Hlt by lia. clear Hn.
  revert Hlt. generalize (S n). clear n. intros n. revert j.
  induction n as [|n IH]; intros j Hlt; [lia|]. destruct j as [| | | |l|m]; auto.
  - apply Harray, Forall_forall. intros j Hj. apply IH. cbn [json_size] in Hlt.
    assert (json_size j ≤ sum_list (json_size <$> l)); [|lia].
    apply sum_list_elem. apply list_elem_of_fmap. eauto.
  - apply Hobject. intros k j Hj. apply IH. cbn [json_size] in Hlt.
    pose proof (map_fold_size json_size m k j Hj). lia.
Qed.
End json_ind.

(** ** Reading back what was written *)

Lemma map_fold_cons {A B} (f : A → B) (m : gmap string A) :
  map_fold (λ k v l, (k, f v) :: l) [] m = map_to_list (f <$> m).
Proof. unfold map_to_list. by rewrite map_fold_fmap. Qed.

Lemma map_fold_forallb {A} (p : string → A → bool) (m : gmap string A) :
  map_fold (λ k v b, p k v && b) true m = true ↔ map_Forall (λ k v, p k v = true) m.
Proof.
  induction m as [|k v m Hk Hf IH] using map_first_key_ind.
  - rewrite map_fold_empty. split; [intros _; apply map_Forall_empty|done].
  - rewrite map_fold_insert_first_key by done. rewrite andb_true_iff, IH.
    rewrite map_Forall_insert by done. done.
Qed.

(** The members of a written object, in their order. *)
Definition members (m : gmap string json) : list (string * jtext) :=
  merge_sort name_le (map_to_list (json_text <$> m)).

Lemma json_text_object m : json_text (JObject m) = TObject (members m).
Proof. cbn [json_text]. by rewrite map_fold_cons. Qed.

Lemma members_perm m : members m ≡ₚ map_to_list (json_text <$> m).
Proof. apply merge_sort_Permutation. Qed.

Lemma members_sorted m : Sorted name_le (members m).
Proof. apply Sorted_merge_sort, _. Qed.

Lemma members_NoDup m : NoDup (members m).*1.
Proof. rewrite members_perm. apply NoDup_fst_map_to_list. Qed.

Lemma elem_of_members m k v : (k, v) ∈ members m ↔ ∃ j, m !! k = Some j ∧ v = json_text j.
Proof. rewrite members_perm, elem_of_map_to_list, lookup_fmap, fmap_Some. naive_solver. Qed.

(** An object whose members have different names, in any order. *)
Lemma list_to_map_members {A} (f : jtext → A) (g : json → A) m :
  map_Forall (λ _ j, f (json_text j) = g j) m →
  list_to_map (reverse ((λ kv, (kv.1, f kv.2)) <$> members m)) = g <$> m.
Proof.
  intros Hm. transitivity (list_to_map (M := gmap string A) (map_to_list (g <$> m)));
    [|apply list_to_map_to_list].
  apply list_to_map_proper.
  - rewrite reverse_Permutation, <-list_fmap_compose. apply members_NoDup.
  - rewrite reverse_Permutation, members_perm, !map_to_list_fmap, <-list_fmap_compose.
    erewrite list_fmap_ext; [reflexivity|]. intros i [k j] Hj.
    apply list_elem_of_lookup_2, elem_of_map_to_list in Hj. cbn. by rewrite (Hm _ _ Hj).
Qed.

(** A later member replaces an earlier one, as in a list that is read from its end. *)
Lemma map_of_list_to_map {A} (f : jtext → A) l :
  map_of f l = list_to_map (reverse ((λ m, (m.1, f m.2)) <$> l)).
Proof.
  unfold map_of. induction l as [|[k v] l IH] using rev_ind; [done|].
  rewrite foldl_app, fmap_app, reverse_app. cbn. by rewrite IH.
Qed.

(** A value whose strings are UTF-8 and whose numbers are read back as they are. *)
Fixpoint portable (j : json) : bool :=
  match j with
  | JNumber x => reads_back x
  | JString s => ValidString s
  | JArray l => forallb portable l
  | JObject m => map_fold (λ k v b, (ValidString k && portable v) && b) true m
  | _ => true
  end.

Lemma portable_object m :
  portable (JObject m) = true ↔ map_Forall (λ k j, ValidString k = true ∧ portable j = true) m.
Proof.
  cbn [portable]. rewrite (map_fold_forallb (λ k v, ValidString k && portable v)).
  split; intros Hm k j Hj; apply andb_true_iff, (Hm k j Hj).
Qed.

Lemma reads_back_numeral x :
  reads_back x = true →
  ∃ n, float_numeral x = Some n ∧ numeral_ok n = true ∧ numeral_float n = x ∧ is_finite x = true.
Proof.
  unfold reads_back. destruct (float_numeral x) as [n|] eqn:E; [|done].
  rewrite andb_true_iff, bool_decide_eq_true. intros [Hn Hx]. exists n. split_and!; [done..|].
  by destruct x.
Qed.

Lemma forallb_fmap {A B} (f : A → B) (p : B → bool) l : forallb p (f <$> l) = forallb (λ a, p (f a)) l.
Proof. induction l as [|a l IH]; [done|]. cbn. by rewrite IH. Qed.

Lemma forallb_Forall {A} (p : A → bool) l : forallb p l = true ↔ Forall (λ a, p a = true) l.
Proof.
  induction l as [|a l IH]; [by split|]. cbn [forallb]. by rewrite andb_true_iff, IH, Forall_cons.
Qed.

(** What the text of a value needs in order to be written and read back. *)
Record readable (j : json) : Prop := MkReadable {
  rd_encodable : encodable j = true;
  rd_numbers : numbers_ok (json_text j) = true;
  rd_range : numbers_in_range (json_text j) = true;
  rd_valid : valid_text (json_text j) = json_text j;
  rd_value : to_json (json_text j) = j
}.

Lemma Forall_fmap_id {A} (f : A → A) l : Forall (λ a, f a = a) l → f <$> l = l.
Proof. induction 1 as [|a l Ha HF IH]; [done|]. cbn. rewrite Ha. f_equal. exact IH. Qed.

Lemma Forall_members (P : string * jtext → Prop) m :
  map_Forall (λ k j, P (k, json_text j)) m → Forall P (members m).
Proof.
  intros Hm. apply Forall_forall. intros [k v] Hv. apply elem_of_members in Hv as (j & Hj & ->).
  by apply Hm.
Qed.

Lemma readable_object m :
  map_Forall (λ k j, ValidString k = true ∧ readable j) m → readable (JObject m).
Proof.
  intros Hm. split; rewrite ?json_text_object; cbn [encodable numbers_ok numbers_in_range valid_text to_json].
  - apply (map_fold_forallb (λ _ j, encodable j)). intros k j Hj. by destruct (Hm k j Hj) as [_ []].
  - apply forallb_Forall, Forall_members. intros k j Hj. by destruct (Hm k j Hj) as [_ []].
  - apply forallb_Forall, Forall_members. intros k j Hj. by destruct (Hm k j Hj) as [_ []].
  - f_equal. apply (Forall_fmap_id (λ m, (ToValidUTF8 m.1, valid_text m.2))), Forall_members.
    intros k j Hj. destruct (Hm k j Hj) as [Hk []]. apply bool_decide_eq_true in Hk.
    change ((ToValidUTF8 k, valid_text (json_text j)) = (k, json_text j)). congruence.
  - f_equal. rewrite (list_to_map_members to_json id); [by rewrite map_fmap_id|].
    intros k j Hj. by destruct (Hm k j Hj) as [_ []].
Qed.

Lemma portable_readable j : portable j = true → readable j.
Proof.
  induction j as [|b|x|s|l IH|m IH] using json_ind'; [done..| | | |].
  - intros (n & E & Hn & Hx & Hf)%reads_back_numeral.
    assert (json_text (JNumber x) = TNumber n) as Ht by (cbn [json_text]; by rewrite E).
    split; rewrite ?Ht; [done..|by rewrite <-Hx in Hf|done|]. cbn [to_json]. by rewrite Hx.
  - intros Hs. cbn [portable] in Hs. apply bool_decide_eq_true in Hs. split; try done. cbn. by rewrite Hs.
  - cbn [portable]. rewrite forallb_Forall. intros Hp.
    assert (Forall readable l) as Hl.
    { eapply Forall_impl; [exact (proj2 (Forall_and _ _) (conj IH Hp))|]. cbn. naive_solver. }
    split; cbn [encodable json_text numbers_ok numbers_in_range valid_text to_json];
      rewrite ?forallb_fmap, ?forallb_Forall;
      [eapply Forall_impl; [exact Hl|]; by intros j []..| |].
    + f_equal. apply Forall_fmap_id, Forall_fmap. eapply Forall_impl; [exact Hl|]. by intros j [].
    + f_equal. rewrite <-list_fmap_compose. apply (Forall_fmap_id (to_json ∘ json_text)).
      eapply Forall_impl; [exact Hl|]. by intros j [].
  - intros Hp%portable_object. apply readable_object. intros k j Hj.
    destruct (Hp k j Hj) as [Hk Hpj]. split; [done|]. by apply (IH k j Hj).
Qed.

(** How deeply arrays and objects are nested. *)
Definition json_nesting (j : json) : N := nesting (json_text j).

Lemma read_Marshal j :
  portable j = true → (json_nesting j ≤ max_nesting)%N →
  (∃ text, json_Marshal j = inr text ∧ read_json text = Some (json_text j)) ∧
  (∃ text, json_MarshalIndent j = inr text ∧ read_json text = Some (json_text j)).
Proof.
  intros Hp Hn. destruct (portable_readable j Hp) as [He Hnum _ Hv _].
  destruct (read_json_written (json_text j) Hnum Hn) as [H1 H2]. rewrite Hv in H1, H2.
  unfold json_Marshal, json_MarshalIndent. rewrite He. split; by eexists.
Qed.

Lemma Unmarshal_map_members data m :
  read_json data = Some (json_text (JObject m)) → readable (JObject m) → Unmarshal_map data = Ok (Some m).
Proof.
  intros Hr [_ _ Hrange _ Hv]. unfold Unmarshal_map. rewrite json_text_object in *.
  rewrite (Unmarshal_read _ _ _ Hr) by done. rewrite value_of_map. cbn [of_sum].
  rewrite map_of_list_to_map. cbn [to_json] in Hv. injection Hv as Hv. by rewrite <-Hv at 2.
Qed.

(** A map that is written, compact or indented, is read back. *)
Theorem Marshal_Unmarshal m :
  portable (JObject m) = true → (json_nesting (JObject m) ≤ max_nesting)%N →
  (∃ text, json_Marshal (JObject m) = inr text ∧ Unmarshal_map text = Ok (Some m)) ∧
  (∃ text, json_MarshalIndent (JObject m) = inr text ∧ Unmarshal_map text = Ok (Some m)).
Proof.
  intros Hp Hn. pose proof (portable_readable _ Hp) as Hr.
  destruct (read_Marshal _ Hp Hn) as [(t1 & E1 & R1) (t2 & E2 & R2)].
  split; eexists; (split; [eassumption|]); by apply Unmarshal_map_members.
Qed.

(** ** What was decoded can be encoded *)

Lemma to_json_encodable v : numbers_in_range v = true → encodable (to_json v) = true.
Proof.
  induction v as [| | | |l IH|l IH] using jtext_ind'; try done; cbn [numbers_in_range to_json encodable].
  - rewrite forallb_fmap, !forallb_Forall. intros Hl.
    eapply Forall_impl; [exact (proj2 (Forall_and _ _) (conj IH Hl))|]. cbn. naive_solver.
  - rewrite forallb_Forall. intros Hl. apply (map_fold_forallb (λ _ j, encodable j)). intros k j Hj.
    apply elem_of_list_to_map_2, elem_of_reverse, list_elem_of_fmap in Hj as ([k' v] & [= -> ->] & Hv).
    rewrite Forall_forall in IH, Hl. exact (IH _ Hv (Hl _ Hv)).
Qed.

Lemma Unmarshal_map_encodable data m :
  Unmarshal_map data = Ok m → encodable (JObject (go_make_if_nil m)) = true.
Proof.
  unfold Unmarshal_map. destruct (Unmarshal _ _) as [|m'] eqn:E; [done|]. intros [= ->].
  apply Unmarshal_ok in E as (v & _ & Hf & ->). destruct v; try done.
  cbn [fits d_map d_interface] in Hf. rewrite value_of_map, map_of_list_to_map.
  by apply (to_json_encodable (TObject l)).
Qed.

Lemma encodable_insert k j m :
  encodable j = true → encodable (JObject m) = true → encodable (JObject (<[k := j]> m)) = true.
Proof.
  cbn [encodable]. rewrite !(map_fold_forallb (λ _ j, encodable j)). intros Hj Hm.
  by apply map_Forall_insert_2.
Qed.

Lemma encodable_union m1 m2 :
  encodable (JObject m1) = true → encodable (JObject m2) = true → encodable (JObject (m1 ∪ m2)) = true.
Proof.
  cbn [encodable]. rewrite !(map_fold_forallb (λ _ j, encodable j)). intros H1 H2.
  by apply map_Forall_union_2.
Qed.

(** What survives being written and read: UTF-8 strings, numbers that read back, and no
    deeper nesting than the reader allows. *)
Definition survives (m : gmap string json) : Prop :=
  portable (JObject m) = true ∧ (json_nesting (JObject m) ≤ max_nesting)%N.

Lemma MarshalIndent_survives m text :
  json_MarshalIndent (JObject m) = inr text → survives m → Unmarshal_map text = Ok (Some m).
Proof.
  intros Ht [Hp Hn]. destruct (read_Marshal _ Hp Hn) as [_ (t & E & R)].
  rewrite Ht in E. injection E as <-. by apply Unmarshal_map_members, portable_readable.
Qed.

Lemma Marshal_survives m text :
  json_Marshal (JObject m) = inr text → survives m → Unmarshal_map text = Ok (Some m).
Proof.
  intros Ht [Hp Hn]. destruct (read_Marshal _ Hp Hn) as [(t & E & R) _].
  rewrite Ht in E. injection E as <-. by apply Unmarshal_map_members, portable_readable.
Qed.

Lemma Marshal_encodable j :
  encodable j = true → (∃ text, json_Marshal j = inr text) ∧ (∃ text, json_MarshalIndent j = inr text).
Proof. intros He. unfold json_Marshal, json_MarshalIndent. rewrite He. eauto. Qed.
