(* ===== verification/Kube.v ===== *)
(** * Kubernetes, Tekton and Konflux objects

    The API objects the controllers read and write, with the fields the program
    uses, and the constants of [internal/constant/constants.go].  The types of
    the DependencyUpdateCheck resource are those of
    [api/v1alpha1/dependencyupdatecheck_types.go]; the others belong to the API
    libraries.  A Go pointer is an [option], a Go map a [gomap]. *)

From S2P Require Import Prelude.

(** ** Constants *)

Definition MintMakerNamespaceName : string := "mintmaker".
Definition MintMakerProcessedAnnotationName : string := "mintmaker.appstudio.redhat.com/processed".
Definition MintMakerDisabledAnnotationName : string := "mintmaker.appstudio.redhat.com/disabled".
Definition KiteTokenSecretLabel : string := "mintmaker.appstudio.redhat.com/kite-token".
Definition MintMakerRepoBranchHashLabel : string := "mintmaker.appstudio.redhat.com/repo-branch-hash".
Definition RenovateImageEnvName : string := "RENOVATE_IMAGE".
Definition DefaultRenovateImageURL : string := "quay.io/konflux-ci/mintmaker-renovate-image:latest".
Definition LeakTKImageEnvName : string := "LEAKTK_IMAGE".
Definition DefaultLeakTKImageURL : string := "quay.io/leaktk/leaktk:latest".

(** ** Metadata *)

Record NamespacedName := MkKey { key_Namespace : string; key_Name : string }.

#[export] Instance NamespacedName_eq_dec : EqDecision NamespacedName.
Proof. solve_decision. Defined.
#[export] Instance NamespacedName_countable : Countable NamespacedName.
Proof.
  refine (inj_countable' (λ k, (key_Namespace k, key_Name k)) (λ p, MkKey p.1 p.2) _).
  by intros [].
Defined.

Record ObjectMeta := MkMeta {
  Name : string;
  Namespace : string;
  Labels : gomap string;
  Annotations : gomap string;
  OwnerReferences : list NamespacedName;
  Finalizers : list string
}.

Definition key_of (m : ObjectMeta) : NamespacedName := MkKey (Namespace m) (Name m).

(** [metav1.ObjectMeta{Name: name, Namespace: namespace}]. *)
Definition new_meta (name namespace : string) : ObjectMeta :=
  MkMeta name namespace None None [] [].

Definition set_Labels (l : gomap string) (m : ObjectMeta) : ObjectMeta :=
  MkMeta (Name m) (Namespace m) l (Annotations m) (OwnerReferences m) (Finalizers m).
Definition set_Annotations (a : gomap string) (m : ObjectMeta) : ObjectMeta :=
  MkMeta (Name m) (Namespace m) (Labels m) a (OwnerReferences m) (Finalizers m).
Definition set_Finalizers (f : list string) (m : ObjectMeta) : ObjectMeta :=
  MkMeta (Name m) (Namespace m) (Labels m) (Annotations m) (OwnerReferences m) f.

(** ** Core objects *)

Definition SecretTypeOpaque : string := "Opaque".
Definition SecretTypeBasicAuth : string := "kubernetes.io/basic-auth".
Definition SecretTypeDockerConfigJson : string := "kubernetes.io/dockerconfigjson".
Definition DockerConfigJsonKey : string := ".dockerconfigjson".
Definition BasicAuthPasswordKey : string := "password".

Record Secret := MkSecret {
  sec_meta : ObjectMeta;
  sec_Type : string;
  sec_Data : gomap string;
  sec_StringData : gomap string
}.

Record ConfigMap := MkConfigMap { cm_meta : ObjectMeta; cm_Data : gomap string }.

(** The names of the secrets a service account refers to. *)
Record ServiceAccount := MkServiceAccount { sa_meta : ObjectMeta; sa_Secrets : list string }.

Record KeyToPath := MkKeyToPath { ktp_Key : string; ktp_Path : string }.

Record VolumeProjection := MkProjection {
  proj_Name : string;                 (* the ConfigMap or Secret *)
  proj_Items : list KeyToPath;
  proj_Optional : option bool;
  proj_DefaultMode : option Z
}.

Record Volume := MkVolume {
  vol_Name : string;
  vol_ConfigMap : option VolumeProjection;
  vol_Secret : option VolumeProjection
}.

Record Pod := MkPod { pod_meta : ObjectMeta; pod_Volumes : list Volume }.

Record ObjectReference := MkRef { ref_Kind : string; ref_Namespace : string; ref_Name : string }.

Record Event := MkEvent {
  ev_meta : ObjectMeta;
  ev_InvolvedObject : ObjectReference;
  ev_Message : string;
  ev_Reason : string
}.

(** ** Konflux components *)

Record GitSource := MkGitSource { gs_URL : string; gs_Revision : string }.

Record ComponentSource := MkSource {
  src_GitSource : option GitSource;   (* the old model *)
  src_GitURL : string;                (* the new model *)
  src_Versions : list string          (* the revisions of its versions *)
}.

Record Component := MkComponent {
  comp_meta : ObjectMeta;
  comp_Application : string;
  comp_Source : ComponentSource
}.

(** ** DependencyUpdateCheck *)

(** [ApplicationSpec]. *)
Record ApplicationSpec := MkApplicationSpec {
  as_Application : string;
  as_Components : list string
}.

(** [NamespaceSpec]. *)
Record NamespaceSpec := MkNamespaceSpec {
  ns_Namespace : string;
  ns_Applications : list ApplicationSpec
}.

(** [DependencyUpdateCheck], with its spec's only field. *)
Record DependencyUpdateCheck := MkDUC {
  duc_meta : ObjectMeta;
  duc_Namespaces : list NamespaceSpec
}.

(** ** Tekton PipelineRuns *)

Record VolumeMount := MkVolumeMount {
  vm_Name : string; vm_MountPath : string; vm_ReadOnly : bool
}.

(** A value, or a field of the pod for the downward API. *)
Record EnvVar := MkEnvVar { env_Name : string; env_Value : string; env_FieldPath : option string }.

Record SecurityContext := MkSecurityContext {
  sc_CapabilitiesDrop : list string;
  sc_RunAsNonRoot : option bool;
  sc_RunAsUser : option Z;
  sc_AllowPrivilegeEscalation : option bool
}.

Record Resources := MkResources {
  rs_Requests : list (string * string); rs_Limits : list (string * string)
}.

Record Step := MkStep {
  step_Name : string;
  step_Image : string;
  step_Script : string;
  step_SecurityContext : SecurityContext;
  step_Resources : option Resources;
  step_Env : list EnvVar;
  step_VolumeMounts : list VolumeMount
}.

Definition set_VolumeMounts (vms : list VolumeMount) (s : Step) : Step :=
  MkStep (step_Name s) (step_Image s) (step_Script s) (step_SecurityContext s)
    (step_Resources s) (step_Env s) vms.

Record TaskSpec := MkTaskSpec {
  ts_Workspaces : list string; ts_Volumes : list Volume; ts_Steps : list Step
}.

Record PipelineTask := MkTask {
  task_Name : string;
  task_Workspaces : list (string * string);
  task_TaskSpec : option TaskSpec
}.

Record TimeoutFields := MkTimeouts {
  to_Pipeline : option Z; to_Tasks : option Z; to_Finally : option Z
}.

Record PipelineRunSpec := MkPRSpec {
  prs_Workspaces : list string;            (* bound to empty directories *)
  prs_PipelineWorkspaces : list string;    (* declared by the pipeline *)
  prs_Tasks : list PipelineTask;
  prs_Params : list (string * string);
  prs_Timeouts : option TimeoutFields;
  prs_ServiceAccountName : string;
  prs_Status : string
}.

Record Condition := MkCondition {
  cond_Type : string; cond_Status : string; cond_Reason : string; cond_Message : string
}.

Record PipelineRunStatus := MkPRStatus {
  st_Conditions : list Condition;
  st_CompletionTime : option Z
}.

Record PipelineRun := MkPipelineRun {
  pr_meta : ObjectMeta;
  pr_Spec : PipelineRunSpec;
  pr_Status : PipelineRunStatus
}.

Definition PipelineRunSpecStatusCancelled : string := "Cancelled".
Definition PipelineRunReasonCancelled : string := "Cancelled".

#[export] Instance KeyToPath_eq_dec : EqDecision KeyToPath.
Proof. solve_decision. Defined.
#[export] Instance VolumeProjection_eq_dec : EqDecision VolumeProjection.
Proof. solve_decision. Defined.
#[export] Instance VolumeMount_eq_dec : EqDecision VolumeMount.
Proof. solve_decision. Defined.
#[export] Instance Volume_eq_dec : EqDecision Volume.
Proof. solve_decision. Defined.

(** ** Kinds *)

Inductive Kind :=
| KSecret | KConfigMap | KServiceAccount | KPod | KEvent | KComponent
| KDependencyUpdateCheck | KPipelineRun.

Definition obj (k : Kind) : Type :=
  match k with
  | KSecret => Secret
  | KConfigMap => ConfigMap
  | KServiceAccount => ServiceAccount
  | KPod => Pod
  | KEvent => Event
  | KComponent => Component
  | KDependencyUpdateCheck => DependencyUpdateCheck
  | KPipelineRun => PipelineRun
  end.

Definition obj_meta (k : Kind) : obj k → ObjectMeta :=
  match k with
  | KSecret => sec_meta
  | KConfigMap => cm_meta
  | KServiceAccount => sa_meta
  | KPod => pod_meta
  | KEvent => ev_meta
  | KComponent => comp_meta
  | KDependencyUpdateCheck => duc_meta
  | KPipelineRun => pr_meta
  end.

#[export] Instance Kind_eq_dec : EqDecision Kind.
Proof. solve_decision. Defined.

(** [client.ListOptions]: a namespace, empty for all of them, and labels to match. *)
Record ListOptions := MkListOptions {
  lo_Namespace : string; lo_MatchingLabels : list (string * string)
}.
