(* ===== verification/Metrics.v ===== *)
(** * internal/metrics

    The probes that count scheduled PipelineRuns ([backend_probe.go]) and the
    package state around them ([common.go]): a probe is created at its first
    event, counts in a wrapping 32-bit integer, and is read and cleared by the
    periodic check.  The two halves of a check are separate atomic operations, so
    its interleavings with new events are modelled as steps. *)

From S2P Require Import Prelude.
Local Open Scope Z_scope.

(** ** 32-bit counters *)

(** The value of a Go [int32] after wrapping around. *)
Definition wrap32 (z : Z) : Z := (z + 2^31) mod 2^32 - 2^31.

Lemma wrap32_id z : -2^31 ≤ z < 2^31 → wrap32 z = z.
Proof. intros H. unfold wrap32. rewrite Z.mod_small by lia. lia. Qed.

Lemma wrap32_range z : -2^31 ≤ wrap32 z < 2^31.
Proof. unfold wrap32. pose proof (Z.mod_pos_bound (z + 2^31) (2^32)). lia. Qed.

(** [BackendProbe]: the value of [scheduledRuns]. *)
Record BackendProbe := MkProbe { scheduledRuns : Z }.

(** [NewBackendProbe]. *)
Definition NewBackendProbe : BackendProbe := MkProbe 0.

(** [AddEvent]: [q.scheduledRuns.Add(1)]. *)
Definition AddEvent (q : BackendProbe) : BackendProbe := MkProbe (wrap32 (scheduledRuns q + 1)).

(** [CheckEvents] run without interference: the count, and the cleared probe. *)
Definition CheckEvents (q : BackendProbe) : Z * BackendProbe := (scheduledRuns q, MkProbe 0).

(** ** The package's state *)

Record Metrics := MkMetrics {
  probeSuccess : option BackendProbe;
  probeFailure : option BackendProbe;
  controllerAvailabilityVec : gmap string Z;                          (* by status *)
  dependencyUpdateCheckCreationTime : gmap (string * string) Z        (* by namespace, name *)
}.

Definition no_metrics : Metrics := MkMetrics None None ∅ ∅.

Definition CountScheduledRunSuccess (m : Metrics) : Metrics :=
  let q := default NewBackendProbe (probeSuccess m) in
  MkMetrics (Some (AddEvent q)) (probeFailure m) (controllerAvailabilityVec m)
    (dependencyUpdateCheckCreationTime m).

Definition CountScheduledRunFailure (m : Metrics) : Metrics :=
  let q := default NewBackendProbe (probeFailure m) in
  MkMetrics (probeSuccess m) (Some (AddEvent q)) (controllerAvailabilityVec m)
    (dependencyUpdateCheckCreationTime m).

Definition RecordDependencyUpdateCheckCreation (namespace name : string) (now : Z) (m : Metrics)
    : Metrics :=
  MkMetrics (probeSuccess m) (probeFailure m) (controllerAvailabilityVec m)
    (<[(namespace, name) := now]> (dependencyUpdateCheckCreationTime m)).

(** [checkProbes]: each existing probe is read into its gauge and cleared. *)
Definition checkProbes (m : Metrics) : Metrics :=
  let m1 :=
    match probeSuccess m with
    | Some q =>
        let '(n, q') := CheckEvents q in
        MkMetrics (Some q') (probeFailure m) (<["success" := n]> (controllerAvailabilityVec m))
          (dependencyUpdateCheckCreationTime m)
    | None => m
    end in
  match probeFailure m1 with
  | Some q =>
      let '(n, q') := CheckEvents q in
      MkMetrics (probeSuccess m1) (Some q') (<["failure" := n]> (controllerAvailabilityVec m1))
        (dependencyUpdateCheckCreationTime m1)
  | None => m1
  end.

(** ** Checks between events *)

Definition success_count (m : Metrics) : Z :=
  from_option scheduledRuns 0 (probeSuccess m).

Lemma success_count_iter n m :
  success_count m + Z.of_nat n < 2^31 → 0 ≤ success_count m →
  success_count (Nat.iter n CountScheduledRunSuccess m) = success_count m + Z.of_nat n.
Proof.
  induction n as [|n IH]; intros Hn Hm; [simpl; lia|]. simpl.
  assert (success_count (CountScheduledRunSuccess (Nat.iter n CountScheduledRunSuccess m)) =
          wrap32 (success_count (Nat.iter n CountScheduledRunSuccess m) + 1)) as ->.
  { unfold success_count at 1, CountScheduledRunSuccess at 1. simpl.
    unfold success_count. by destruct (probeSuccess _). }
  rewrite IH by lia. rewrite wrap32_id by lia. lia.
Qed.

(** A check that nothing interrupts publishes exactly the number of runs
    scheduled since the previous check, and starts again from zero. *)
Theorem checkProbes_counts m n :
  (0 < n)%nat → success_count m = 0 → Z.of_nat n < 2^31 →
  let m' := checkProbes (Nat.iter n CountScheduledRunSuccess m) in
  controllerAvailabilityVec m' !! "success" = Some (Z.of_nat n) ∧ success_count m' = 0.
Proof.
  intros Hn Hm Hlt. assert (success_count (Nat.iter n CountScheduledRunSuccess m) = Z.of_nat n)
    as Hc by (rewrite success_count_iter; lia).
  destruct n as [|n]; [lia|].
  assert (is_Some (probeSuccess (Nat.iter (S n) CountScheduledRunSuccess m))) as [q Hq]
    by (simpl; eauto).
  unfold success_count in Hc. rewrite Hq in Hc. simpl in Hc.
  unfold checkProbes. rewrite Hq. cbn [CheckEvents probeFailure].
  destruct (probeFailure (Nat.iter (S n) _ m)) as [q'|];
    cbn [controllerAvailabilityVec success_count probeSuccess from_option scheduledRuns].
  - rewrite lookup_insert_ne, lookup_insert_eq by done. by rewrite Hc.
  - rewrite lookup_insert_eq. by rewrite Hc.
Qed.

Lemma checkProbes_counts_witness :
  controllerAvailabilityVec
    (checkProbes (Nat.iter 3 CountScheduledRunSuccess no_metrics)) !! "success" = Some 3.
Proof. apply (checkProbes_counts no_metrics 3); [lia|reflexivity|reflexivity]. Defined.

(** ** Checks that overlap events

    [CheckEvents] loads the counter, and its deferred call stores zero after the
    returned value has been computed. *)

Inductive probe_op := OpAdd | OpLoad | OpStore.

Record probe_run := MkRun {
  run_probe : BackendProbe;
  run_loaded : option Z;        (* a check has loaded this and not yet cleared *)
  run_reported : Z              (* what the finished checks reported, summed *)
}.

Inductive probe_step : probe_run → probe_op → probe_run → Prop :=
| step_add q l r : probe_step (MkRun q l r) OpAdd (MkRun (AddEvent q) l r)
| step_load q r : probe_step (MkRun q None r) OpLoad (MkRun q (Some (scheduledRuns q)) r)
| step_store q n r : probe_step (MkRun q (Some n) r) OpStore (MkRun (MkProbe 0) None (r + n)).

Inductive probe_steps : probe_run → list probe_op → probe_run → Prop :=
| steps_nil s : probe_steps s [] s
| steps_cons s op s' ops s'' :
    probe_step s op s' → probe_steps s' ops s'' → probe_steps s (op :: ops) s''.

(** The events of a schedule, and those that fall inside a check. *)
Fixpoint count_adds (ops : list probe_op) : Z :=
  match ops with
  | [] => 0
  | OpAdd :: ops' => 1 + count_adds ops'
  | _ :: ops' => count_adds ops'
  end.

Fixpoint inside_adds (checking : bool) (ops : list probe_op) : Z :=
  match ops with
  | [] => 0
  | OpAdd :: ops' => (if checking then 1 else 0) + inside_adds checking ops'
  | OpLoad :: ops' => inside_adds true ops'
  | OpStore :: ops' => inside_adds false ops'
  end.

(** What a state still owes to the reports: the loaded value during a check, the
    counter otherwise. *)
Definition outstanding (s : probe_run) : Z :=
  default (scheduledRuns (run_probe s)) (run_loaded s).

Lemma count_adds_nonneg ops : 0 ≤ count_adds ops.
Proof. induction ops as [|[] ops IH]; simpl; lia. Qed.

Lemma probe_steps_account s ops s' :
  probe_steps s ops s' →
  0 ≤ scheduledRuns (run_probe s) → scheduledRuns (run_probe s) + count_adds ops < 2^31 →
  run_reported s' + outstanding s' + inside_adds (bool_decide (is_Some (run_loaded s))) ops =
  run_reported s + outstanding s + count_adds ops.
Proof.
  intros Hs. induction Hs as [s|s op s1 ops s2 Hstep Hsteps IH]; intros H0 Hb; [simpl; lia|].
  pose proof (count_adds_nonneg ops).
  destruct Hstep as [q l r|q r|q n r]; simpl in *.
  - rewrite wrap32_id in IH by lia. specialize (IH ltac:(lia) ltac:(lia)).
    unfold outstanding in *. simpl in *.
    destruct l; simpl in *; [lia|rewrite wrap32_id in IH by lia; lia].
  - specialize (IH H0 Hb). unfold outstanding in *. simpl in *. lia.
  - specialize (IH ltac:(lia) ltac:(lia)). unfold outstanding in *. simpl in *. lia.
Qed.

(** C40.  Whatever the interleaving, the events reported by the finished checks
    and those still counted add up to the events added, except for those added
    between the load and the store of a check, which are lost. *)
Theorem probe_account ops q r :
  probe_steps (MkRun NewBackendProbe None 0) ops (MkRun q None r) →
  count_adds ops < 2^31 →
  r + scheduledRuns q = count_adds ops - inside_adds false ops.
Proof.
  intros Hs Hb. pose proof (probe_steps_account _ _ _ Hs ltac:(done) Hb) as H.
  unfold outstanding in H. simpl in H. lia.
Qed.

Lemma probe_account_witness :
  1 + scheduledRuns (MkProbe 1) = 3 - inside_adds false [OpAdd; OpLoad; OpAdd; OpStore; OpAdd].
Proof.
  apply (probe_account [OpAdd; OpLoad; OpAdd; OpStore; OpAdd] (MkProbe 1) 1); [|reflexivity].
  change (MkProbe 1) with (AddEvent (MkProbe 0)). repeat econstructor.
Defined.

(** A check that an event interrupts loses it: after one event, counted
    nowhere, the probe reads zero and nothing was reported. *)
Theorem probe_loses_event :
  probe_steps (MkRun NewBackendProbe None 0) [OpLoad; OpAdd; OpStore]
    (MkRun NewBackendProbe None 0).
Proof. apply (steps_cons _ _ (MkRun NewBackendProbe (Some 0) 0)); repeat econstructor. Qed.

(** ** The periodic check

    [RegisterCommonMetrics] registers the two gauges and starts a goroutine that checks
    the probes at every tick until its context is done. *)

Definition RegisterCommonMetrics (availability creationTime : option error) : result unit :=
  match availability with
  | Some err => Err (wrap "failed to register metrics: " err)
  | None =>
      match creationTime with
      | Some err => Err (wrap "failed to register metrics: " err)
      | None => Ok tt
      end
  end.

(** What happens to the package: a tick of the ticker, the end of the context, or a run
    that was scheduled or failed to be. *)
Inductive metrics_event := Tick | ContextDone | Scheduled | FailedToSchedule.

(** The state of the goroutine (running or returned) and of the package. *)
Definition metrics_step (s : bool * Metrics) (e : metrics_event) : bool * Metrics :=
  let '(running, m) := s in
  match e with
  | Tick => (running, if running then checkProbes m else m)
  | ContextDone => (false, m)
  | Scheduled => (running, CountScheduledRunSuccess m)
  | FailedToSchedule => (running, CountScheduledRunFailure m)
  end.

Definition metrics_loop : bool * Metrics → list metrics_event → bool * Metrics :=
  foldl metrics_step.

Definition successes (events : list metrics_event) : Z :=
  Z.of_nat (length (List.filter (λ e, match e with Scheduled => true | _ => false end) events)).

Definition quiet (e : metrics_event) : Prop := e = Scheduled ∨ e = FailedToSchedule.

Lemma checkProbes_clears m : success_count (checkProbes m) = 0.
Proof.
  unfold checkProbes, success_count. destruct (probeSuccess m) as [q|] eqn:Hs.
  - by destruct (probeFailure m); simpl.
  - destruct (probeFailure m); simpl; by rewrite Hs.
Qed.

Lemma checkProbes_gauge m :
  is_Some (probeSuccess m) → controllerAvailabilityVec (checkProbes m) !! "success" = Some (success_count m).
Proof.
  intros [q Hq]. unfold checkProbes, success_count. rewrite Hq. cbn [CheckEvents probeFailure].
  destruct (probeFailure m); cbn [controllerAvailabilityVec from_option].
  - by rewrite lookup_insert_ne, lookup_insert_eq.
  - by rewrite lookup_insert_eq.
Qed.

Lemma quiet_loop running m events :
  Forall quiet events → 0 ≤ success_count m → success_count m + successes events < 2^31 →
  ∃ m', metrics_loop (running, m) events = (running, m') ∧
    success_count m' = success_count m + successes events ∧
    (is_Some (probeSuccess m) ∨ 0 < successes events → is_Some (probeSuccess m')).
Proof.
  intros HF. revert m. induction HF as [|e events He _ IH]; intros m Hm Hb.
  - exists m. unfold successes. simpl. split_and!; [done|lia|]. intros [?|?]; [done|lia].
  - assert (0 ≤ successes events) by (unfold successes; lia).
    destruct He as [-> | ->]; unfold metrics_loop; cbn [foldl metrics_step].
    + assert (successes (Scheduled :: events) = 1 + successes events) as Hs
        by (unfold successes; simpl; lia). rewrite Hs in *.
      assert (success_count (CountScheduledRunSuccess m) = success_count m + 1) as Hc.
      { unfold success_count, CountScheduledRunSuccess in *. simpl.
        destruct (probeSuccess m); simpl in *; rewrite wrap32_id; lia. }
      destruct (IH (CountScheduledRunSuccess m)) as (m' & H1 & H2 & H3); [lia..|].
      exists m'. split_and!; [exact H1|lia|]. intros _. apply H3. left. by eexists.
    + change (successes (FailedToSchedule :: events)) with (successes events) in *.
      destruct (IH (CountScheduledRunFailure m)) as (m' & H1 & H2 & H3); [done..|].
      exists m'. by split_and!.
Qed.

(** As long as the context is not done, every tick publishes the number of runs
    scheduled since the tick before it, failures in between or not. *)
Theorem metrics_loop_gauge m before events :
  (∀ e, e ∈ before → e ≠ ContextDone) → Forall quiet events → 0 < successes events < 2^31 →
  controllerAvailabilityVec (metrics_loop (true, m) (before ++ Tick :: events ++ [Tick])).2 !! "success" =
  Some (successes events).
Proof.
  intros Hb HF Hs. unfold metrics_loop. rewrite foldl_app.
  assert (∃ m1, foldl metrics_step (true, m) before = (true, m1)) as [m1 Hm1].
  { clear -Hb. revert m. induction before as [|e before IH]; intros m; [by eexists|]. cbn [foldl].
    pose proof (Hb e ltac:(left)) as He.
    destruct e; [| done |..]; apply IH; intros e' H'; apply Hb; by right. }
  rewrite Hm1. cbn [foldl metrics_step]. rewrite foldl_app.
  destruct (quiet_loop true (checkProbes m1) events HF) as (m' & H1 & H2 & H3);
    rewrite ?checkProbes_clears in *; [lia..|].
  fold metrics_loop. unfold metrics_loop at 1 in H1. unfold metrics_loop. rewrite H1. cbn [foldl metrics_step snd].
  rewrite checkProbes_gauge by (apply H3; lia). by rewrite H2.
Qed.

Lemma metrics_loop_gauge_witness :
  controllerAvailabilityVec
    (metrics_loop (true, no_metrics)
       ([Scheduled; Tick] ++ Tick :: [Scheduled; FailedToSchedule; Scheduled] ++ [Tick])).2 !! "success" = Some 2.
Proof.
  apply (metrics_loop_gauge no_metrics [Scheduled; Tick] [Scheduled; FailedToSchedule; Scheduled]).
  - intros e H ->. by repeat (apply elem_of_cons in H as [[=]|H]); apply elem_of_nil in H.
  - repeat (apply Forall_cons; split; [by first [left; reflexivity|right; reflexivity]|]). by apply Forall_nil.
  - split; reflexivity.
Defined.

(** Once the context is done the gauges keep their values. *)
Theorem metrics_loop_stops m events :
  controllerAvailabilityVec (metrics_loop (true, m) (ContextDone :: events)).2 =
  controllerAvailabilityVec m.
Proof.
  unfold metrics_loop. cbn [foldl metrics_step]. revert m. induction events as [|e events IH]; intros m; [done|].
  cbn [foldl]. by destruct e; cbn [metrics_step]; rewrite IH.
Qed.
