(* ===== verification/Config.v ===== *)
(** * internal/config

    The operator configuration: defaults, parsing, validation and the global
    instance loaded once.  Durations are nanoseconds.  The file system and the
    process environment are parameters. *)

From S2P Require Import Prelude GoStrings GoDuration GoJson GoJsonRead GoJsonSyntax GoJsonRound.
From S2P Require Import GoJsonDecode.
Local Open Scope Z_scope.

Definition Minute : Z := 60 * 1000000000.

Definition defaultConfigPath : string := "/etc/mintmaker/config.json".
Definition configPathEnvVar : string := "MINTMAKER_CONFIG_PATH".
Definition defaultTokenTTL : Z := 60 * Minute.
Definition defaultTokenMinValidity : Z := 30 * Minute.

Record GitHubConfig := MkGitHubConfig { TokenTTL : Z; TokenMinValidity : Z }.
Record KiteConfig := MkKiteConfig { Enabled : bool; APIURL : string }.
Record Config := MkConfig { GitHub : GitHubConfig; Kite : KiteConfig }.

(** The structure of the configuration file. *)
Record fileConfig := MkFileConfig {
  fc_TokenTTL : string;
  fc_TokenMinValidity : string;
  fc_Enabled : bool;
  fc_APIURL : string
}.

(** Its decoding: the tags of the Go structure. *)
Definition d_fileConfig : decoder fileConfig :=
  let github := d_struct [("token-ttl", fits d_string); ("token-min-validity", fits d_string)]
    (λ get, (value_of d_string (get "token-ttl"), value_of d_string (get "token-min-validity"))) in
  let kite := d_struct [("enabled", fits d_bool); ("api-url", fits d_string)]
    (λ get, (value_of d_bool (get "enabled"), value_of d_string (get "api-url"))) in
  d_struct [("github", fits github); ("kite", fits kite)]
    (λ get, let '(ttl, validity) := value_of github (get "github") in
            let '(enabled, apiURL) := value_of kite (get "kite") in
            MkFileConfig ttl validity enabled apiURL).

Definition Unmarshal_fileConfig : string → error + fileConfig := Unmarshal d_fileConfig.

(** A file with a given content. *)
Definition fileConfig_text (fc : fileConfig) : jtext :=
  TObject
    [("github", TObject [("token-ttl", TString (fc_TokenTTL fc));
                         ("token-min-validity", TString (fc_TokenMinValidity fc))]);
     ("kite", TObject [("enabled", TBool (fc_Enabled fc)); ("api-url", TString (fc_APIURL fc))])].

Lemma Unmarshal_fileConfig_text fc data :
  read_json data = Some (fileConfig_text fc) → Unmarshal_fileConfig data = inr fc.
Proof. intros Hr. unfold Unmarshal_fileConfig. rewrite (Unmarshal_read _ _ _ Hr) by done. by destruct fc. Qed.

Lemma Unmarshal_fileConfig_written fc :
  Forall (λ s, ValidString s = true) [fc_TokenTTL fc; fc_TokenMinValidity fc; fc_APIURL fc] →
  Unmarshal_fileConfig (implode (compact (fileConfig_text fc))) = inr fc.
Proof.
  intros Hv. apply Unmarshal_fileConfig_text.
  destruct (read_json_written (fileConfig_text fc)) as [-> _]; [done..|].
  rewrite !Forall_cons in Hv. destruct Hv as (H1 & H2 & H3 & _).
  unfold ValidString in *. rewrite bool_decide_eq_true in H1, H2, H3.
  cbn [fileConfig_text valid_text fmap list_fmap fst snd]. by rewrite H1, H2, H3.
Qed.

#[export] Instance Config_eq_dec : EqDecision Config.
Proof.
  assert (EqDecision GitHubConfig) by solve_decision.
  assert (EqDecision KiteConfig) by solve_decision.
  solve_decision.
Defined.

Section Config.
Context (Getenv : string → string).
Context (ReadFile : string → error + string).

Definition defaultConfig : Config :=
  MkConfig (MkGitHubConfig defaultTokenTTL defaultTokenMinValidity)
           (MkKiteConfig false (Getenv "KITE_API_URL")).

(** [if d, err := time.ParseDuration(s); err == nil && d > 0 { field = d }]. *)
Definition duration_or (s : string) (field : Z) : Z :=
  match ParseDuration s with
  | inr d => if decide (0 < d) then d else field
  | inl _ => field
  end.

(** [validate]: whether the configuration is accepted. *)
Definition validate (c : Config) : bool :=
  negb (bool_decide (TokenTTL (GitHub c) ≤ TokenMinValidity (GitHub c))).

Definition parse (data : string) : Config :=
  match Unmarshal_fileConfig data with
  | inl _ => defaultConfig
  | inr fc =>
      let cfg := defaultConfig in
      let ttl := duration_or (fc_TokenTTL fc) (TokenTTL (GitHub cfg)) in
      let minValidity := duration_or (fc_TokenMinValidity fc) (TokenMinValidity (GitHub cfg)) in
      let apiURL :=
        if decide (fc_APIURL fc = "") then APIURL (Kite cfg) else fc_APIURL fc in
      let cfg := MkConfig (MkGitHubConfig ttl minValidity)
                          (MkKiteConfig (fc_Enabled fc) apiURL) in
      if validate cfg then cfg else defaultConfig
  end.

Definition load (path : string) : Config :=
  match ReadFile path with
  | inl _ => defaultConfig
  | inr data => parse data
  end.

(** [Get]: the first call loads the configuration, later calls return it. *)
Definition Get : GoM (option Config) Config := λ instance,
  match instance with
  | Some c => (Ok c, instance)
  | None =>
      let path := Getenv configPathEnvVar in
      let path := if decide (path = "") then defaultConfigPath else path in
      let c := load path in
      (Ok c, Some c)
  end.

(** ** Every configuration is usable *)

(** What the token cache relies on. *)
Definition usable (c : Config) : Prop :=
  0 < TokenMinValidity (GitHub c) < TokenTTL (GitHub c).

Lemma usable_default : usable defaultConfig.
Proof. unfold usable. vm_compute. auto. Qed.

Lemma duration_or_pos s field : 0 < field → 0 < duration_or s field.
Proof. intros H. unfold duration_or. destruct (ParseDuration s); [done|]. by case_decide. Qed.

Lemma usable_parse data : usable (parse data).
Proof.
  unfold parse. destruct (Unmarshal_fileConfig data) as [|fc]; [apply usable_default|].
  cbn zeta. destruct (validate _) eqn:Hv; [|apply usable_default].
  unfold validate in Hv. rewrite negb_true_iff, bool_decide_eq_false in Hv.
  unfold usable. simpl in *. split; [apply duration_or_pos; done|lia].
Qed.

Lemma usable_load path : usable (load path).
Proof. unfold load. destruct (ReadFile path); [apply usable_default|apply usable_parse]. Qed.

(** Whatever the file holds, the configuration in use has a positive minimum
    validity that is smaller than the token lifetime. *)
Theorem load_usable path : usable (load path).
Proof. apply usable_load. Qed.

(** C38.  A decodable file is applied field by field: each duration when it parses
    and is positive, else its default; the Kite switch; the Kite address unless it
    is empty.  When the resulting pair of durations is inconsistent the whole file
    is dropped, the Kite settings too. *)
Theorem parse_spec data fc :
  Unmarshal_fileConfig data = inr fc →
  let ttl := duration_or (fc_TokenTTL fc) defaultTokenTTL in
  let minv := duration_or (fc_TokenMinValidity fc) defaultTokenMinValidity in
  (minv < ttl →
   parse data = MkConfig (MkGitHubConfig ttl minv)
     (MkKiteConfig (fc_Enabled fc)
        (if decide (fc_APIURL fc = "") then Getenv "KITE_API_URL" else fc_APIURL fc))) ∧
  (ttl ≤ minv → parse data = defaultConfig ∧ Enabled (Kite (parse data)) = false).
Proof.
  intros Hfc. unfold parse. rewrite Hfc. cbn zeta. unfold validate. cbn [GitHub TokenTTL
    TokenMinValidity defaultConfig Kite APIURL].
  split; intros H.
  - by rewrite bool_decide_eq_false_2 by lia.
  - by rewrite bool_decide_eq_true_2 by lia.
Qed.

(** The configuration is loaded once: after a first call every call returns
    the same value and leaves the instance alone. *)
Theorem Get_once instance c instance' :
  Get instance = (Ok c, instance') →
  instance' = Some c ∧ Get instance' = (Ok c, instance') ∧
  (instance = None ∨ instance = instance').
Proof. unfold Get. destruct instance; intros [= <- <-]; auto. Qed.
End Config.

(** Two configuration files to evaluate with. *)
Definition sample_file (ttl validity : string) : string :=
  implode (indent 0 (fileConfig_text (MkFileConfig ttl validity true "https://kite.test"))).

Lemma parse_spec_witness :
  Enabled (Kite (parse (λ _, "") (sample_file "45m" "15m"))) = true ∧
  Enabled (Kite (parse (λ _, "") (sample_file "15m" "45m"))) = false.
Proof.
  split.
  - destruct (parse_spec (λ _, "") (sample_file "45m" "15m")
                (MkFileConfig "45m" "15m" true "https://kite.test")) as [H _]; [vm_compute; reflexivity|].
    rewrite H; [reflexivity|vm_compute; reflexivity].
  - apply (parse_spec (λ _, "") (sample_file "15m" "45m")
             (MkFileConfig "15m" "45m" true "https://kite.test")); [vm_compute; reflexivity|].
    vm_compute. discriminate.
Defined.

Lemma Get_once_witness :
  Get (λ _, "") (λ _, inl (NotFound "")) (Some (defaultConfig (λ _, ""))) =
  (Ok (defaultConfig (λ _, "")), Some (defaultConfig (λ _, ""))).
Proof.
  apply (Get_once (λ _, "") (λ _, inl (NotFound "")) None).
  reflexivity.
Defined.
