(* ===== verification/Timestamp.v ===== *)
(** * The time stamp in PipelineRun names

    [time.Now().UTC().Format("01021504")]: month, day, hour and minute of a Unix
    time in the proleptic Gregorian calendar, two digits each. *)

From S2P Require Import Prelude GoStrings Sanitize.
From Stdlib Require Import Ascii.
Local Open Scope Z_scope.

(** The month and day of a number of days since 1970-01-01.  Days are counted
    from 0000-03-01 in 400-year eras of 146097 days, so that the leap day is the
    last of its year; [mp] is the month counted from March. *)
Definition month_day_of_era (doe : Z) : Z * Z :=
  let yoe := (doe - doe / 1460 + doe / 36524 - doe / 146096) / 365 in
  let doy := doe - (365 * yoe + yoe / 4 - yoe / 100) in
  let mp := (5 * doy + 2) / 153 in
  (if mp <? 10 then mp + 3 else mp - 9, doy - (153 * mp + 2) / 5 + 1).

Definition month_day (days : Z) : Z * Z := month_day_of_era ((days + 719468) mod 146097).

Definition digit (n : Z) : ascii := ascii_of_nat (48 + Z.to_nat n).
Definition pad2 (n : Z) : string := implode [digit (n / 10); digit (n mod 10)].

(** [t.Format("01021504")] for a Unix time in seconds. *)
Definition format_MMDDhhmm (unix : Z) : string :=
  let '(month, day) := month_day (unix / 86400) in
  let sec := unix mod 86400 in
  pad2 month +:+ pad2 day +:+ pad2 (sec / 3600) +:+ pad2 (sec mod 3600 / 60).

(** 2024-02-29T23:59:00Z. *)
Example format_ex : format_MMDDhhmm 1709251140 = "02292359".
Proof. vm_compute. reflexivity. Qed.

(** Every day of an era falls in a year of at most 366 days, and every day of such
    a year has a month and a day of the month in range. *)
Lemma day_of_year_range doe :
  0 ≤ doe < 146097 →
  let yoe := (doe - doe / 1460 + doe / 36524 - doe / 146096) / 365 in
  0 ≤ doe - (365 * yoe + yoe / 4 - yoe / 100) ≤ 365.
Proof. intros H. cbn zeta. Z.to_euclidean_division_equations; lia. Qed.

Lemma month_of_year_range doy :
  0 ≤ doy ≤ 365 →
  let mp := (5 * doy + 2) / 153 in
  0 ≤ mp ≤ 11 ∧ 1 ≤ doy - (153 * mp + 2) / 5 + 1 ≤ 31.
Proof.
  intros H. cbn zeta. set (mp := (5 * doy + 2) / 153).
  assert (153 * mp ≤ 5 * doy + 2 < 153 * mp + 153) as Hmp
    by (unfold mp; Z.to_euclidean_division_equations; lia).
  split; [lia|]. Z.to_euclidean_division_equations; lia.
Qed.

Lemma month_day_range days m d : month_day days = (m, d) → 1 ≤ m ≤ 12 ∧ 1 ≤ d ≤ 31.
Proof.
  unfold month_day, month_day_of_era. intros [= <- <-].
  pose proof (day_of_year_range _ (Z.mod_pos_bound (days + 719468) 146097 ltac:(lia))) as H.
  cbn zeta in H. pose proof (month_of_year_range _ H) as [Hmp Hd]. cbn zeta in Hmp, Hd.
  split; [|exact Hd]. case_match; lia.
Qed.

Lemma digit_is_digit n : 0 ≤ n < 10 → in_range 48 57 (digit n) = true.
Proof.
  intros H. unfold digit, in_range. rewrite nat_ascii_embedding by lia.
  apply bool_decide_eq_true. lia.
Qed.

Lemma pad2_digits n :
  0 ≤ n < 100 → Forall (λ c, in_range 48 57 c = true) (explode (pad2 n)).
Proof.
  intros H. unfold pad2. rewrite explode_implode. repeat constructor; apply digit_is_digit.
  - split; [apply Z.div_pos; lia|apply Z.div_lt_upper_bound; lia].
  - apply Z.mod_pos_bound. lia.
Qed.

Lemma format_digits unix :
  String.length (format_MMDDhhmm unix) = 8%nat ∧
  Forall (λ c, in_range 48 57 c = true) (explode (format_MMDDhhmm unix)).
Proof.
  unfold format_MMDDhhmm. destruct (month_day (unix / 86400)) as [m d] eqn:E.
  apply month_day_range in E. pose proof (Z.mod_pos_bound unix 86400 ltac:(lia)).
  split; [by rewrite !length_app_str|].
  rewrite !explode_app. repeat apply Forall_app_2; apply pad2_digits; try lia.
  - split; [apply Z.div_pos; lia|]. apply Z.div_lt_upper_bound; lia.
  - pose proof (Z.mod_pos_bound (unix mod 86400) 3600 ltac:(lia)).
    split; [apply Z.div_pos; lia|]. apply Z.div_lt_upper_bound; lia.
Qed.
