(* ===== verification/TokenCache.v ===== *)
(** * internal/component/github: the installation token cache

    [TokenInfo] and [TokenCache] of [cache.go].  Times and durations are
    nanoseconds; the mutex makes every operation atomic. *)

From S2P Require Import Prelude Config.
Local Open Scope Z_scope.

Record TokenInfo := MkTokenInfo { Token : string; ExpiresAt : Z }.
Record TokenCache := MkTokenCache { entries : gomap TokenInfo }.

(** [time.Until(t)] at the instant [now]: a 64-bit duration that saturates. *)
Definition Until (now t : Z) : Z := ((t - now) `max` (- 2^63)) `min` (2^63 - 1).

(** [Set]: assigning to the nil map panics. *)
Definition Set_ (key : string) (tokenInfo : TokenInfo) (c : TokenCache) : result TokenCache :=
  m ← go_assign (entries c) key tokenInfo; Ok (MkTokenCache m).

(** [Get] at the instant [now], under a configuration. *)
Definition Get (cfg : Config) (now : Z) (key : string) (c : TokenCache) : option TokenInfo :=
  match go_lookup (entries c) key with
  | None => None
  | Some entry =>
      if decide (Until now (ExpiresAt entry) < TokenMinValidity (GitHub cfg)) then None
      else Some entry
  end.

(** [if entries == nil { entries = make(...) }]. *)
Definition init_entries (c : TokenCache) : TokenCache :=
  MkTokenCache (Some (go_make_if_nil (entries c))).

(** ** What the cache serves *)

Lemma Get_Some cfg now key c info :
  Get cfg now key c = Some info ↔
  go_lookup (entries c) key = Some info ∧
  TokenMinValidity (GitHub cfg) ≤ Until now (ExpiresAt info).
Proof.
  unfold Get. destruct (go_lookup (entries c) key) as [e|]; [|naive_solver].
  case_decide; naive_solver lia.
Qed.

Lemma Until_ge now t d : d ≤ Until now t → 0 < d → d ≤ t - now.
Proof. unfold Until. lia. Qed.

Lemma Until_exact now t : -2^63 ≤ t - now < 2^63 → Until now t = t - now.
Proof. unfold Until. lia. Qed.

(** A token served from the cache is the one stored under the key and stays
    valid for at least the configured minimum. *)
Theorem Get_valid_long_enough cfg now key c info :
  usable cfg → Get cfg now key c = Some info →
  go_lookup (entries c) key = Some info ∧
  now + TokenMinValidity (GitHub cfg) ≤ ExpiresAt info.
Proof.
  intros [Hpos _] [Hl Hv]%Get_Some. split; [done|].
  apply Until_ge in Hv; lia.
Qed.

(** A token stored with the configured lifetime is served from then on until
    its remaining validity drops below the minimum, and not after; no other key is
    affected. *)
Theorem Set_then_Get cfg t0 now key key' tok c :
  usable cfg → TokenTTL (GitHub cfg) < 2^63 → t0 ≤ now < t0 + 2^62 →
  ∃ c', Set_ key (MkTokenInfo tok (t0 + TokenTTL (GitHub cfg))) (init_entries c) = Ok c' ∧
    (Get cfg now key c' = Some (MkTokenInfo tok (t0 + TokenTTL (GitHub cfg))) ↔
     now ≤ t0 + (TokenTTL (GitHub cfg) - TokenMinValidity (GitHub cfg))) ∧
    (key' ≠ key → Get cfg now key' c' = Get cfg now key' c).
Proof.
  intros [Hpos Hlt] Hb Hnow. eexists. split; [reflexivity|]. split.
  - rewrite Get_Some. cbn [entries go_lookup ExpiresAt]. rewrite lookup_insert_eq.
    rewrite Until_exact by lia. split; [intros [_ ?]; lia|intros; split; [done|lia]].
  - intros Hne. unfold Get. cbn [entries go_lookup init_entries].
    rewrite lookup_insert_ne, go_lookup_make by done. done.
Qed.

Lemma Get_valid_long_enough_witness :
  let cfg := defaultConfig (λ _, "") in
  10 + 30 * Minute ≤ ExpiresAt (MkTokenInfo "t" (60 * Minute)).
Proof.
  intros cfg.
  apply (Get_valid_long_enough cfg 10 "k"
    (MkTokenCache (Some {["k" := MkTokenInfo "t" (60 * Minute)]}))).
  - apply usable_default.
  - vm_compute. reflexivity.
Defined.

Lemma Set_then_Get_witness :
  let cfg := defaultConfig (λ _, "") in
  ∃ c', Set_ "k" (MkTokenInfo "t" (5 + 60 * Minute)) (init_entries (MkTokenCache None)) = Ok c' ∧
        Get cfg (5 + 30 * Minute) "k" c' = Some (MkTokenInfo "t" (5 + 60 * Minute)).
Proof.
  intros cfg.
  destruct (Set_then_Get cfg 5 (5 + 30 * Minute) "k" "other" "t" (MkTokenCache None))
    as (c' & H1 & H2 & _).
  - apply usable_default.
  - vm_compute. reflexivity.
  - split; vm_compute; [discriminate|reflexivity].
  - exists c'. split; [exact H1|]. apply H2. vm_compute. discriminate.
Defined.
