(* ===== verification/World.v ===== *)
(** * The controller process and its surroundings

    The state every handler runs in: the outside world behind the Kubernetes
    client, the clock and the random source; the process's global variables; and
    the trace of the requests made so far, which the theorems speak about.

    The outside world is a parameter: an [Environment] over an arbitrary state
    type answers every request in whatever way it likes, so what is proved holds
    for any API server, any clock and any order of a map iteration.  Two more
    interfaces are parameters: the functions of the API machinery and Tekton
    libraries ([Libraries]), and the process environment. *)

From S2P Require Import Prelude Json Kube Metrics Config TokenCache.
From Stdlib Require Import Ascii.

(** ** Interfaces to code outside the repository *)

(** The calls made through the clients of the git forges, with the type of the
    answer.  A response carries what the program reads of it: the identifiers or
    names listed, the number of the next page (0 at the end), the status code of a
    failed request when there was a response. *)
Inductive ApiRequest : Type → Type :=
(* gitlab.NewClient(token, WithBaseURL(url)), and the client's methods *)
| GitlabNewClient (token baseUrl : string) : ApiRequest (error + unit)
| GitlabGetBranch (token baseUrl repository branch : string) : ApiRequest (error + unit)
| GitlabGetProject (token baseUrl repository : string) : ApiRequest (error + option string)
(* gitea.NewClient(url, SetToken(token)) *)
| GiteaNewClient (token baseURL : string) : ApiRequest (error + unit)
| GiteaGetRepoBranch (token baseURL owner repo branch : string) : ApiRequest (error + unit)
| GiteaGetRepo (token baseURL owner repo : string) : ApiRequest (error + option string)
(* ghinstallation.NewAppsTransport and New, and the clients made from them *)
| GithubAppsTransport (appID : Z) (key : option string) : ApiRequest (error + unit)
| GithubInstallationTransport (appID installationID : Z) (key : option string) :
    ApiRequest (error + unit)
| GithubInstallationToken (appID installationID : Z) (key : option string) :
    ApiRequest (error + string)
| GithubNewClient : ApiRequest (error + unit)
| GithubAppsGet (appID : Z) (key : option string) : ApiRequest (error + string)
| GithubListInstallations (appID : Z) (key : option string) (page : Z) :
    ApiRequest ((error * option Z) + (list Z * Z))
| GithubListRepos (appID installationID : Z) (key : option string) (page : Z) :
    ApiRequest (error + (list string * Z))
| GithubUsersGet (username : string) : ApiRequest (error + Z)
| GithubGetBranch (token owner repo branch : string) : ApiRequest (error + unit)
| GithubGetRepository (token owner repo : string) : ApiRequest (error + option string).

Record Environment (E : Type) := MkEnvironment {
  env_Get : ∀ k : Kind, NamespacedName → E → (error + obj k) * E;
  env_List : ∀ k : Kind, ListOptions → E → (error + list (obj k)) * E;
  env_Create : ∀ k : Kind, obj k → E → (error + obj k) * E;
  env_Update : ∀ k : Kind, obj k → E → (error + obj k) * E;
  env_Delete : ∀ k : Kind, NamespacedName → E → (error + unit) * E;
  (* the changed object, and the original the patch is computed against *)
  env_Patch : ∀ k : Kind, obj k → obj k → E → (error + obj k) * E;
  env_rand : nat → E → (error + list ascii) * E;
  (* nanoseconds since 1970 *)
  env_now : E → Z * E;
  (* the order in which one iteration over a map visits its entries *)
  env_range : ∀ A : Type, list A → E → list A * E;
  env_api : ∀ A : Type, ApiRequest A → E → A * E
}.
Existing Class Environment.
Arguments MkEnvironment {_}.
Arguments env_Get {_ _}.
Arguments env_List {_ _}.
Arguments env_Create {_ _}.
Arguments env_Update {_ _}.
Arguments env_Delete {_ _}.
Arguments env_Patch {_ _}.
Arguments env_rand {_ _}.
Arguments env_now {_ _}.
Arguments env_range {_ _} {_}.
Arguments env_api {_ _} {_}.

(** Documented behaviour of the surroundings: an iteration over a map visits every
    entry once, the random source fills the buffer it is given, and the object a
    create or an update answers with has the name it was sent with. *)
Class EnvironmentLaws (E : Type) `{Environment E} : Prop := {
  env_range_perm A (l : list A) e : (env_range l e).1 ≡ₚ l;
  env_rand_length n e bytes : (env_rand n e).1 = inr bytes → length bytes = n;
  env_Create_key k o e o' :
    (env_Create k o e).1 = inr o' → key_of (obj_meta k o') = key_of (obj_meta k o);
  env_Update_key k o e o' :
    (env_Update k o e).1 = inr o' → key_of (obj_meta k o') = key_of (obj_meta k o)
}.

Class Libraries := {
  (* controllerutil.SetOwnerReference(owner, object, scheme) *)
  SetOwnerReference : PipelineRun → ∀ k : Kind, obj k → error + obj k;
  (* controllerutil.AddFinalizer *)
  AddFinalizer : ObjectMeta → string → ObjectMeta;
  (* MarkFailed(reason, message) of a PipelineRun's status *)
  MarkFailed : string → string → PipelineRunStatus → PipelineRunStatus;
  (* os.Getenv and os.ReadFile *)
  Getenv : string → string;
  ReadFile : string → error + string;
  (* net/netip's check of a bracketed host *)
  parseIPLiteral : string → result string
}.

(** ** Requests *)

Inductive call : Type :=
| CGet (k : Kind) (key : NamespacedName) (answer : error + obj k)
| CList (k : Kind) (o : ListOptions) (answer : error + list (obj k))
| CCreate (k : Kind) (o : obj k) (answer : error + obj k)
| CUpdate (k : Kind) (o : obj k) (answer : error + obj k)
| CDelete (k : Kind) (key : NamespacedName) (answer : error + unit)
| CPatch (k : Kind) (o : obj k) (answer : error + obj k).

Definition is_write (c : call) : bool :=
  match c with
  | CGet _ _ _ | CList _ _ _ => false
  | CCreate _ _ _ | CUpdate _ _ _ | CDelete _ _ _ | CPatch _ _ _ => true
  end.

(** The requests that change the cluster. *)
Definition writes (tr : list call) : list call := List.filter is_write tr.

Lemma writes_app tr tr' : writes (tr ++ tr') = writes tr ++ writes tr'.
Proof. apply List.filter_app. Qed.

(** ** Global variables *)

(** [AppInstallation] of [github.go]. *)
Record AppInstallation := MkInstallation { InstallationID : Z; Repositories : list string }.

(** The installations cache as a single caller at a time sees it; its refresh function
    is the closure of the component that made it. *)
Record InstallationsCache := MkInstallationsCache {
  ic_owner : Z * option string;         (* that component's application and key *)
  ic_data : gmap string (list AppInstallation);
  ic_expiry : Z;
  ic_refreshInProgress : option string  (* the key a background refresh is pending for *)
}.

(** The package variables of [github.go]. *)
Record GithubState := MkGithubState {
  ghAppInstallationsCache : option InstallationsCache;
  ghAppInstallationTokenCache : TokenCache;
  ghAppID : Z;
  ghAppPrivateKey : option string;
  ghUserID : Z;
  ghAppSlug : string
}.

Definition github_init : GithubState := MkGithubState None (MkTokenCache None) 0 None 0 "".

Record World (E : Type) := MkWorld {
  w_env : E;
  w_trace : list call;
  w_metrics : Metrics;
  w_config : option Config;              (* config.instance *)
  renovateBaseConfig : gomap json;       (* base.renovateBaseConfig *)
  w_github : GithubState
}.
Arguments MkWorld {_}.
Arguments w_env {_}.
Arguments w_trace {_}.
Arguments w_metrics {_}.
Arguments w_config {_}.
Arguments renovateBaseConfig {_}.
Arguments w_github {_}.

Definition set_metrics {E} (f : Metrics → Metrics) (w : World E) : World E :=
  MkWorld (w_env w) (w_trace w) (f (w_metrics w)) (w_config w) (renovateBaseConfig w) (w_github w).
Definition set_config {E} (c : option Config) (w : World E) : World E :=
  MkWorld (w_env w) (w_trace w) (w_metrics w) c (renovateBaseConfig w) (w_github w).
Definition set_base {E} (b : gomap json) (w : World E) : World E :=
  MkWorld (w_env w) (w_trace w) (w_metrics w) (w_config w) b (w_github w).
Definition set_github {E} (g : GithubState → GithubState) (w : World E) : World E :=
  MkWorld (w_env w) (w_trace w) (w_metrics w) (w_config w) (renovateBaseConfig w) (g (w_github w)).
Definition set_env {E} (e : E) (w : World E) : World E :=
  MkWorld e (w_trace w) (w_metrics w) (w_config w) (renovateBaseConfig w) (w_github w).
Definition log_call {E} (c : call) (w : World E) : World E :=
  MkWorld (w_env w) (w_trace w ++ [c]) (w_metrics w) (w_config w) (renovateBaseConfig w)
    (w_github w).

Abbreviation M E A := (GoM (World E) A).

(** ** The client *)

Section Client.
Context {E : Type} `{Environment E}.

(** A request: the environment answers, and the trace records it. *)
Definition request {A} (ask : E → (error + A) * E) (c : error + A → call) : M E A := λ w,
  let '(r, e') := ask (w_env w) in (of_sum r, log_call (c r) (set_env e' w)).

Definition client_Get (k : Kind) (key : NamespacedName) : M E (obj k) :=
  request (env_Get k key) (CGet k key).
Definition client_List (k : Kind) (o : ListOptions) : M E (list (obj k)) :=
  request (env_List k o) (CList k o).
Definition client_Create (k : Kind) (o : obj k) : M E (obj k) :=
  request (env_Create k o) (CCreate k o).
Definition client_Update (k : Kind) (o : obj k) : M E (obj k) :=
  request (env_Update k o) (CUpdate k o).
Definition client_Delete (k : Kind) (key : NamespacedName) : M E unit :=
  request (env_Delete k key) (CDelete k key).
Definition client_Patch (k : Kind) (o original : obj k) : M E (obj k) :=
  request (env_Patch k o original) (CPatch k o).

(** [rand.Read], [time.Now] and the order of a map iteration. *)
Definition rand_Read (n : nat) : M E (list ascii) := λ w,
  let '(r, e') := env_rand n (w_env w) in (of_sum r, set_env e' w).
Definition time_Now : M E Z := λ w,
  let '(t, e') := env_now (w_env w) in (Ok t, set_env e' w).
Definition range {A} (l : list A) : M E (list A) := λ w,
  let '(l', e') := env_range l (w_env w) in (Ok l', set_env e' w).
Definition api {A} (q : ApiRequest A) : M E A := λ w,
  let '(a, e') := env_api q (w_env w) in (Ok a, set_env e' w).
(* a call that returns a value and an error *)
Definition api_call {A} (q : ApiRequest (error + A)) : M E A :=
  let! r := api q in go_lift (of_sum r).

(** [config.Get()]. *)
Definition config_Get `{Libraries} : M E Config := λ w,
  let '(r, c) := Config.Get Getenv ReadFile (w_config w) in
  (r, set_config c w).
End Client.

(** ** Frames

    [trace_grows P]: the code only adds requests to the trace, all of them
    satisfying [P].  Most statements about what a handler may do to the cluster
    are of this form. *)

Definition trace_grows {E} (P : call → Prop) (w w' : World E) : Prop :=
  ∃ tr, w_trace w' = w_trace w ++ tr ∧ Forall P tr.

#[export] Instance trace_grows_preorder {E} P : PreOrder (trace_grows (E:=E) P).
Proof.
  split.
  - intros w. exists []. by rewrite app_nil_r.
  - intros w1 w2 w3 (t1 & H1 & F1) (t2 & H2 & F2). exists (t1 ++ t2).
    rewrite H2, H1, app_assoc. split; [done|]. by apply Forall_app.
Qed.

Lemma trace_grows_impl {E} (P Q : call → Prop) (w w' : World E) :
  (∀ c, P c → Q c) → trace_grows P w w' → trace_grows Q w w'.
Proof. intros H (tr & Ht & HF). exists tr. split; [done|]. by eapply Forall_impl. Qed.

(** Reading only: every request is a get or a list. *)
Abbreviation read_only := (Preserves (trace_grows (λ c, is_write c = false))).

Section Frames.
Context {E : Type} `{Environment E} (P : call → Prop).
Abbreviation Frame := (Preserves (trace_grows (E:=E) P)).

Lemma request_frame {A} (ask : E → (error + A) * E) c :
  (∀ e, P (c e)) → Frame (request ask c).
Proof.
  intros Hc w. unfold request. destruct (ask (w_env w)) as [r e']. simpl.
  exists [c r]. simpl. auto.
Qed.

Lemma get_frame k key : (∀ e, P (CGet k key e)) → Frame (client_Get k key).
Proof. apply request_frame. Qed.
Lemma list_frame k o : (∀ e, P (CList k o e)) → Frame (client_List k o).
Proof. apply request_frame. Qed.
Lemma create_frame k o : (∀ e, P (CCreate k o e)) → Frame (client_Create k o).
Proof. apply request_frame. Qed.
Lemma update_frame k o : (∀ e, P (CUpdate k o e)) → Frame (client_Update k o).
Proof. apply request_frame. Qed.
Lemma delete_frame k key : (∀ e, P (CDelete k key e)) → Frame (client_Delete k key).
Proof. apply request_frame. Qed.
Lemma patch_frame k o original : (∀ e, P (CPatch k o e)) → Frame (client_Patch k o original).
Proof. apply request_frame. Qed.

Lemma silent_frame {A} (m : M E A) : (∀ w, w_trace (m w).2 = w_trace w) → Frame m.
Proof. intros Hm w. exists []. by rewrite Hm, app_nil_r. Qed.

#[export] Instance rand_Read_frame n : Frame (rand_Read n).
Proof. apply silent_frame. intros w. unfold rand_Read. by destruct (env_rand _ _). Qed.
#[export] Instance time_Now_frame : Frame time_Now.
Proof. apply silent_frame. intros w. unfold time_Now. by destruct (env_now _). Qed.
#[export] Instance range_frame {A} (l : list A) : Frame (range l).
Proof. apply silent_frame. intros w. unfold range. by destruct (env_range _ _). Qed.
#[export] Instance api_frame {A} (q : ApiRequest A) : Frame (api q).
Proof. apply silent_frame. intros w. unfold api. by destruct (env_api _ _). Qed.
#[export] Instance api_call_frame {A} (q : ApiRequest (error + A)) : Frame (api_call q).
Proof. unfold api_call. apply _. Qed.
#[export] Instance config_Get_frame `{Libraries} : Frame config_Get.
Proof. apply silent_frame. intros w. unfold config_Get. by destruct (Config.Get _ _ _). Qed.
#[export] Instance set_metrics_frame f : Frame (go_modify (set_metrics f)).
Proof. by apply silent_frame. Qed.
#[export] Instance set_base_frame b : Frame (go_modify (set_base b)).
Proof. by apply silent_frame. Qed.
#[export] Instance set_github_frame g : Frame (go_modify (set_github g)).
Proof. by apply silent_frame. Qed.
End Frames.

#[export] Instance get_read_only {E} `{Environment E} k key : read_only (client_Get k key).
Proof. by apply get_frame. Qed.
#[export] Instance list_read_only {E} `{Environment E} k o : read_only (client_List k o).
Proof. by apply list_frame. Qed.

Lemma read_only_frame {E A} (C : call → Prop) (m : M E A) :
  read_only m → (∀ c, is_write c = false → C c) → Preserves (trace_grows C) m.
Proof. intros Hm HC w. eapply trace_grows_impl; [exact HC|apply Hm]. Qed.

Lemma reads_writes tr : Forall (λ c, is_write c = false) tr → writes tr = [].
Proof. induction 1 as [|c tr Hc _ IH]; [done|]. cbn. by rewrite Hc. Qed.

Lemma read_only_writes {E A} (m : M E A) w :
  read_only m → writes (w_trace (m w).2) = writes (w_trace w).
Proof.
  intros Hm. destruct (Hm w) as (tr & -> & HF).
  by rewrite writes_app, (reads_writes tr HF), app_nil_r.
Qed.

(** Moving the surroundings only: no global variable changes and nothing is asked of
    the cluster. *)
Definition env_moves {E} (w w' : World E) : Prop := ∃ e', w' = set_env e' w.

#[export] Instance env_moves_preorder {E} : PreOrder (env_moves (E:=E)).
Proof.
  split.
  - intros w. exists (w_env w). by destruct w.
  - intros w1 w2 w3 [e1 ->] [e2 ->]. by exists e2.
Qed.

Section Moves.
Context {E : Type} `{Environment E}.

#[export] Instance range_moves {A} (l : list A) : Preserves env_moves (range (E:=E) l).
Proof. intros w. unfold range. destruct (env_range _ _) as [x e']. by exists e'. Qed.
#[export] Instance time_Now_moves : Preserves env_moves (time_Now (E:=E)).
Proof. intros w. unfold time_Now. destruct (env_now _) as [x e']. by exists e'. Qed.
#[export] Instance api_moves {A} (q : ApiRequest A) : Preserves env_moves (api (E:=E) q).
Proof. intros w. unfold api. destruct (env_api _ _) as [x e']. by exists e'. Qed.
#[export] Instance api_call_moves {A} (q : ApiRequest (error + A)) :
  Preserves env_moves (api_call (E:=E) q).
Proof. unfold api_call. apply _. Qed.

Lemma moves_run {A} (m : M E A) (w : World E) :
  Preserves env_moves m → ∃ r e', m w = (r, set_env e' w).
Proof. intros Hm. destruct (Hm w) as [e' He']. destruct (m w) as [r w']. simpl in He'. subst. eauto. Qed.
End Moves.

(** Proving a frame: decompose the code, splitting its tests. *)
Ltac frame_step :=
  match goal with
  | |- ∀ _, _ => intros
  | |- Preserves _ (match ?x with _ => _ end) => destruct x
  | |- Preserves _ (go_bind _ _) => apply preserves_bind; [apply _| |]
  | |- Preserves _ (go_try _ _) => apply preserves_try; [apply _| |]
  | |- Preserves _ (go_wrap _ _) => apply preserves_wrap; [apply _|]
  | |- Preserves _ (go_defer _ _) => apply preserves_defer; [apply _| |]
  | |- Preserves _ (go_for _ _) => apply preserves_for; [apply _|]
  | |- Preserves _ (go_fold _ _ _) => apply preserves_fold; [apply _|]
  | |- Preserves _ (let '_ := _ in _) => cbv zeta
  | |- Preserves _ _ => apply _
  end.
Ltac solve_frame := repeat (cbv beta zeta; frame_step).
