(* ===== verification/TraceLogic.v ===== *)
(** * Reasoning about the requests of a handler

    A small program logic for the world monad.  An assertion speaks about the
    requests made since a fixed moment; [triple P m Q] says that if [P] holds of
    them when [m] starts, [Q] holds of the outcome of [m] and of the requests when it
    ends, however it ends.  Code that only makes requests of some class keeps every
    assertion closed under such requests ([triple_frame]). *)

From S2P Require Import Prelude World.

Section Triple.
Context {E : Type}.

Definition triple {A} (P : list call → Prop) (m : M E A) (Q : result A → list call → Prop) : Prop :=
  ∀ t0 w tr, w_trace w = t0 ++ tr → P tr →
  ∃ tr', w_trace (m w).2 = t0 ++ tr' ∧ Q (m w).1 tr'.

Lemma triple_weaken {A} (P P' : list call → Prop) (m : M E A) Q Q' :
  triple P' m Q' → (∀ tr, P tr → P' tr) → (∀ r tr, Q' r tr → Q r tr) → triple P m Q.
Proof.
  intros Hm HP HQ t0 w tr Hw Htr. destruct (Hm t0 w tr Hw (HP _ Htr)) as (tr' & ? & ?). eauto.
Qed.

Lemma triple_post {A} (P : list call → Prop) (m : M E A) Q Q' :
  triple P m Q' → (∀ r tr, Q' r tr → Q r tr) → triple P m Q.
Proof. intros Hm HQ. by eapply triple_weaken. Qed.

Lemma triple_pure {A} (φ : Prop) (P : list call → Prop) (m : M E A) Q :
  (φ → triple P m Q) → triple (λ tr, φ ∧ P tr) m Q.
Proof. intros Hm t0 w tr Hw [Hφ Htr]. by eapply Hm. Qed.

Lemma triple_ret {A} (P : list call → Prop) (a : A) Q :
  (∀ tr, P tr → Q (Ok a) tr) → triple P (go_ret a) Q.
Proof. intros HQ t0 w tr Hw Htr. exists tr. simpl. auto. Qed.

Lemma triple_fail {A} (P : list call → Prop) e (Q : result A → list call → Prop) :
  (∀ tr, P tr → Q (Err e) tr) → triple P (go_fail e) Q.
Proof. intros HQ t0 w tr Hw Htr. exists tr. simpl. auto. Qed.

(** What is left of a failure that is passed on. *)
Definition propagate {A B} (Q : A → list call → Prop) (R : result B → list call → Prop)
    (r : result A) (tr : list call) : Prop :=
  match r with
  | Ok a => Q a tr
  | Err e => R (Err e) tr
  | Panic p => R (Panic p) tr
  end.

Lemma triple_bind {A B} P (m : M E A) (k : A → M E B) Q R :
  triple P m (propagate Q R) → (∀ a, triple (Q a) (k a) R) → triple P (go_bind m k) R.
Proof.
  intros Hm Hk t0 w tr Hw Htr. destruct (Hm t0 w tr Hw Htr) as (tr' & Htr' & HQ).
  unfold go_bind. destruct (m w) as [[a|e|p] w']; simpl in *; [by eapply Hk|eauto..].
Qed.

(** After a call whose error is inspected. *)
Definition inspect {A B} (Q : error + A → list call → Prop) (R : result B → list call → Prop)
    (r : result A) (tr : list call) : Prop :=
  match r with
  | Ok a => Q (inr a) tr
  | Err e => Q (inl e) tr
  | Panic p => R (Panic p) tr
  end.

Lemma triple_try {A B} P (m : M E A) (k : error + A → M E B) Q R :
  triple P m (inspect Q R) → (∀ a, triple (Q a) (k a) R) → triple P (go_try m k) R.
Proof.
  intros Hm Hk t0 w tr Hw Htr. destruct (Hm t0 w tr Hw Htr) as (tr' & Htr' & HQ).
  unfold go_try. destruct (m w) as [[a|e|p] w']; simpl in *; [by eapply Hk..|eauto].
Qed.

(** An invariant of a loop: [I x] holds whenever the local variable is [x], also
    when the loop is left by a failure. *)
Definition kept {X} (I : X → list call → Prop) (r : result X) (tr : list call) : Prop :=
  match r with Ok x => I x tr | _ => ∃ x, I x tr end.

Lemma triple_fold {A X} (l : list A) x (body : A → X → M E X) I :
  (∀ a x, a ∈ l → triple (I x) (body a x) (kept I)) → triple (I x) (go_fold l x body) (kept I).
Proof.
  revert x. induction l as [|a l IH]; intros x Hb; simpl.
  - by apply triple_ret.
  - eapply (triple_bind _ _ _ I).
    + eapply triple_post; [apply Hb; left|]. by intros [x'|e|p] tr.
    + intros x'. apply IH. intros a' x'' Ha. apply Hb. by right.
Qed.

Lemma triple_frame {A} (C : call → Prop) (P : list call → Prop) (m : M E A) :
  Preserves (trace_grows C) m → (∀ tr seg, P tr → Forall C seg → P (tr ++ seg)) →
  triple P m (λ _, P).
Proof.
  intros Hm HP t0 w tr Hw Htr. destruct (Hm w) as (seg & Hseg & HF).
  exists (tr ++ seg). rewrite Hseg, Hw, app_assoc. auto.
Qed.

Lemma triple_run {A} P (m : M E A) Q w :
  triple P m Q → P [] → ∃ tr, w_trace (m w).2 = w_trace w ++ tr ∧ Q (m w).1 tr.
Proof. intros Hm HP. apply (Hm (w_trace w) w []); [by rewrite app_nil_r|done]. Qed.
End Triple.
