(* ===== verification/GitComponent.v ===== *)
(** * internal/component: the interface of a git component

    [GitComponent] of [component.go], as the record of its methods, and the factory
    the controllers are given.  [GitComponentLaws] and [FactoryLaws] are what the
    controllers' theorems assume of an implementation; the packages gitlab, forgejo
    and github discharge them. *)

From S2P Require Import Prelude Json Kube World.

Record GitComponent (E : Type) := MkGitComponent {
  GetName : string;
  GetNamespace : string;
  GetApplication : string;
  GetPlatform : string;
  GetHost : string;
  GetGitURL : string;
  GetRepository : string;
  GetToken : M E string;
  GetBranches : M E (list string);
  GetAPIEndpoint : result string;
  GetRenovateConfig : option Secret → string → M E string;
  (* the activation key and the organisation *)
  GetRPMActivationKey : M E (string * string)
}.
Arguments MkGitComponent {_}.
Arguments GetName {_}.
Arguments GetNamespace {_}.
Arguments GetApplication {_}.
Arguments GetPlatform {_}.
Arguments GetHost {_}.
Arguments GetGitURL {_}.
Arguments GetRepository {_}.
Arguments GetToken {_}.
Arguments GetBranches {_}.
Arguments GetAPIEndpoint {_}.
Arguments GetRenovateConfig {_}.
Arguments GetRPMActivationKey {_}.

Definition GitComponentFactory (E : Type) : Type := Component → M E (GitComponent E).

(** A component only reads from the cluster. *)
Class GitComponentLaws {E} (gc : GitComponent E) : Prop := {
  gc_token_reads :: read_only (GetToken gc);
  gc_branches_reads :: read_only (GetBranches gc);
  gc_config_reads secret branch :: read_only (GetRenovateConfig gc secret branch);
  gc_rpm_reads :: read_only (GetRPMActivationKey gc)
}.

(** A factory only reads, and the component it makes carries the name of the
    resource it was made from. *)
Class FactoryLaws {E} (NewGitComponent : GitComponentFactory E) : Prop := {
  factory_reads comp :: read_only (NewGitComponent comp);
  factory_makes comp w gc w' :
    NewGitComponent comp w = (Ok gc, w') →
    GitComponentLaws gc ∧
    GetName gc = Name (comp_meta comp) ∧ GetNamespace gc = Namespace (comp_meta comp)
}.
