(* ===== verification/Sample.v ===== *)
(** * A cluster in memory

    A concrete [Environment] and concrete [Libraries], to evaluate the models on:
    objects are lists per kind, a request looks them up by name, a map iteration
    keeps the order it is given, random bytes come from a counter.  Nothing is
    proved from this file but examples and the witnesses that hypotheses about the
    surroundings can hold. *)

From S2P Require Import Prelude GoStrings GoJson Json Kube Metrics Config TokenCache Sanitize GitUrl.
From S2P Require Import World GitComponent.
From Stdlib Require Import Ascii.

(** ** Objects with their metadata replaced *)

Definition with_meta (k : Kind) : ObjectMeta → obj k → obj k :=
  match k with
  | KSecret => λ m o, MkSecret m (sec_Type o) (sec_Data o) (sec_StringData o)
  | KConfigMap => λ m o, MkConfigMap m (cm_Data o)
  | KServiceAccount => λ m o, MkServiceAccount m (sa_Secrets o)
  | KPod => λ m o, MkPod m (pod_Volumes o)
  | KEvent => λ m o, MkEvent m (ev_InvolvedObject o) (ev_Message o) (ev_Reason o)
  | KComponent => λ m o, MkComponent m (comp_Application o) (comp_Source o)
  | KDependencyUpdateCheck => λ m o, MkDUC m (duc_Namespaces o)
  | KPipelineRun => λ m o, MkPipelineRun m (pr_Spec o) (pr_Status o)
  end.

(** The API server moves a secret's string data into its data. *)
Definition stored (k : Kind) : obj k → obj k :=
  match k with
  | KSecret => λ o,
      MkSecret (sec_meta o) (sec_Type o)
        (match sec_StringData o with
         | Some sd => Some (sd ∪ go_make_if_nil (sec_Data o))
         | None => sec_Data o
         end) None
  | _ => λ o, o
  end.

(** ** The cluster *)

Record Cluster := MkCluster {
  cl_objs : ∀ k : Kind, list (obj k);
  cl_seed : nat;
  cl_now : Z;
  cl_api : ∀ A : Type, ApiRequest A → A
}.

Definition upd (k : Kind) (l : list (obj k)) (f : ∀ k : Kind, list (obj k)) :
    ∀ k : Kind, list (obj k) :=
  λ j, match decide (k = j) with
       | left H => match H in _ = j return list (obj j) with eq_refl => l end
       | right _ => f j
       end.

Definition set_objs (k : Kind) (l : list (obj k)) (c : Cluster) : Cluster :=
  MkCluster (upd k l (cl_objs c)) (cl_seed c) (cl_now c) (cl_api c).

Definition has_key (k : Kind) (key : NamespacedName) (o : obj k) : bool :=
  bool_decide (key_of (obj_meta k o) = key).

Definition has_labels (want : list (string * string)) (m : ObjectMeta) : bool :=
  forallb (λ kv : string * string, bool_decide (go_lookup (Labels m) kv.1 = Some kv.2)) want.

Definition not_found : error := NotFound "not found".

Definition cluster_Get (k : Kind) (key : NamespacedName) (c : Cluster) : (error + obj k) * Cluster :=
  (match List.find (has_key k key) (cl_objs c k) with
   | Some o => inr o
   | None => inl not_found
   end, c).

Definition cluster_List (k : Kind) (o : ListOptions) (c : Cluster) :
    (error + list (obj k)) * Cluster :=
  (inr (List.filter (λ x, (bool_decide (lo_Namespace o = "")
                           || bool_decide (Namespace (obj_meta k x) = lo_Namespace o))
                          && has_labels (lo_MatchingLabels o) (obj_meta k x)) (cl_objs c k)), c).

Definition cluster_Create (k : Kind) (o : obj k) (c : Cluster) : (error + obj k) * Cluster :=
  if existsb (has_key k (key_of (obj_meta k o))) (cl_objs c k)
  then (inl (Errorf "already exists"), c)
  else (inr (stored k o), set_objs k (cl_objs c k ++ [stored k o]) c).

Definition cluster_Update (k : Kind) (o : obj k) (c : Cluster) : (error + obj k) * Cluster :=
  let key := key_of (obj_meta k o) in
  if existsb (has_key k key) (cl_objs c k)
  then (inr (stored k o),
        set_objs k ((λ x, if has_key k key x then stored k o else x) <$> cl_objs c k) c)
  else (inl not_found, c).

Definition cluster_Delete (k : Kind) (key : NamespacedName) (c : Cluster) : (error + unit) * Cluster :=
  if existsb (has_key k key) (cl_objs c k)
  then (inr tt, set_objs k (List.filter (λ x, negb (has_key k key x)) (cl_objs c k)) c)
  else (inl not_found, c).

#[export] Instance cluster_env : Environment Cluster := {|
  env_Get := cluster_Get;
  env_List := cluster_List;
  env_Create := cluster_Create;
  env_Update := cluster_Update;
  env_Delete := cluster_Delete;
  env_Patch := λ k o _, cluster_Update k o;
  env_rand := λ n c, (inr (replicate n (ascii_of_nat (cl_seed c))),
                      MkCluster (cl_objs c) (S (cl_seed c)) (cl_now c) (cl_api c));
  env_now := λ c, (cl_now c, c);
  env_range := λ A l c, (l, c);
  env_api := λ A q c, (cl_api c A q, c)
|}.

Lemma stored_key k o : key_of (obj_meta k (stored k o)) = key_of (obj_meta k o).
Proof. by destruct k. Qed.

#[export] Instance cluster_env_laws : EnvironmentLaws Cluster.
Proof.
  split.
  - done.
  - intros n e bytes [= <-]. apply length_replicate.
  - intros k o e o'. simpl. unfold cluster_Create.
    destruct (existsb _ _); simpl; intros [= <-]. apply stored_key.
  - intros k o e o'. simpl. unfold cluster_Update.
    destruct (existsb _ _); simpl; intros [= <-]. apply stored_key.
Qed.

(** ** The libraries *)

(** JSON texts, as they may be stored in secrets and config maps. *)
Definition text_of (j : json) : string := implode (compact (json_text j)).

Definition renovate_json : string :=
  text_of (JObject {["onboarding" := JBool false; "platform" := JNull]}).
Definition self_hosted_json : string := text_of (JObject {["onboarding" := JBool true]}).
Definition docker_json : string :=
  text_of (JObject {["auths" := JObject {["quay.io" := JObject {["auth" := JString "dXNlcjpwYXNz"]}]}]}).

#[export] Instance sample_libs : Libraries := {|
  SetOwnerReference := λ owner k o,
    let m := obj_meta k o in
    inr (with_meta k (MkMeta (Name m) (Namespace m) (Labels m) (Annotations m)
                        (OwnerReferences m ++ [key_of (pr_meta owner)]) (Finalizers m)) o);
  AddFinalizer := λ m f, set_Finalizers (Finalizers m ++ [f]) m;
  MarkFailed := λ reason msg st,
    MkPRStatus [MkCondition "Succeeded" "False" reason msg] (st_CompletionTime st);
  Getenv := λ _, "";
  ReadFile := λ _, inl (Errorf "no such file");
  parseIPLiteral := no_ip
|}.

(** Every forge answers with an error. *)
Definition no_api (A : Type) (q : ApiRequest A) : A :=
  match q with
  | GitlabNewClient _ _ | GitlabGetBranch _ _ _ _ | GitlabGetProject _ _ _
  | GiteaNewClient _ _ | GiteaGetRepoBranch _ _ _ _ _ | GiteaGetRepo _ _ _ _
  | GithubAppsTransport _ _ | GithubInstallationTransport _ _ _
  | GithubInstallationToken _ _ _ | GithubNewClient | GithubAppsGet _ _
  | GithubListRepos _ _ _ _ | GithubUsersGet _ | GithubGetBranch _ _ _ _
  | GithubGetRepository _ _ _ => inl (Errorf "connection refused")
  | GithubListInstallations _ _ _ => inl (Errorf "connection refused", None)
  end.

Definition no_objs (k : Kind) : list (obj k) := [].

Definition cluster_with (f : ∀ k : Kind, list (obj k)) : Cluster :=
  MkCluster f 0 0 no_api.

(** A process that has just started, in a given cluster. *)
Definition start (c : Cluster) : World Cluster :=
  MkWorld c [] no_metrics None None github_init.

(** ** A git component *)

Definition sample_component (c : Component) : GitComponent Cluster :=
  {| GetName := Name (comp_meta c);
     GetNamespace := Namespace (comp_meta c);
     GetApplication := comp_Application c;
     GetPlatform := "gitlab";
     GetHost := "gitlab.com";
     GetGitURL := "https://gitlab.com/team/repo";
     GetRepository := "team/repo";
     GetToken := go_ret "token";
     GetBranches := go_ret ["main"; "main"; "dev"];
     GetAPIEndpoint := Ok "https://gitlab.com/api/v4/";
     GetRenovateConfig := λ _ _, go_ret "config";
     GetRPMActivationKey := go_fail (Errorf "no key") |}.

Definition sample_factory : GitComponentFactory Cluster := λ c, go_ret (sample_component c).

#[export] Instance sample_component_laws c : GitComponentLaws (sample_component c).
Proof. split; intros; apply _. Qed.

#[export] Instance sample_factory_laws : FactoryLaws sample_factory.
Proof.
  split.
  - intros c. apply preserves_ret. apply _.
  - intros c w gc w' [= <- _]. split; [apply _|done].
Qed.

Definition component_resource (name : string) (annotations : gomap string) : Component :=
  MkComponent (MkMeta name "tenant" None annotations [] []) "app" (MkSource None "" []).

(** Three components, one of them disabled, and a check for all of them. *)
Definition three_components (k : Kind) : list (obj k) :=
  match k with
  | KComponent =>
      [component_resource "one" None;
       component_resource "two" (Some {[MintMakerDisabledAnnotationName := "true"]});
       component_resource "three" None]
  | KDependencyUpdateCheck => [MkDUC (new_meta "check" "mintmaker") []]
  | _ => []
  end.
