(* ===== verification/SecretSelect.v ===== *)
(** * Choosing a credential secret for a repository

    [GetRPMActivationKey] of [base.go] and [lookupSecret] of [gitlab.go] and
    [forgejo.go] choose among the secrets of a host in the same way: a secret
    whose annotation names the repository, else the one with the best wildcard,
    else the first without an annotation.  The choice is modelled as the code
    writes it, with the map of potential matches and its iteration order, and
    then shown to implement the specification [Selected]. *)

From S2P Require Import Prelude GoStrings Slices Json Kube World.
From Stdlib Require Import Ascii.

Definition RepositoryAnnotation : string := "appstudio.redhat.com/scm.repository".

(** The annotation split at the commas, each part without a leading or trailing
    slash. *)
Definition secretRepositories (label : string) : list string :=
  (λ repository, TrimPrefix (TrimSuffix repository "/") "/") <$> Split label ","%char.

(** The number of path parts a wildcard shares with the component's repository. *)
Definition wildcard_parts (repository repo : string) : nat :=
  Intersection (Split repository "/"%char) (Split (TrimSuffix repo "*") "/"%char).

(** One wildcard: the entry of the secret's index is raised. *)
Definition wildcard_step (repository : string) (index : nat) (potentialMatches : gmap nat nat)
    (repo : string) : gmap nat nat :=
  let i := wildcard_parts repository repo in
  if bool_decide (0 < i) && bool_decide (default 0 (potentialMatches !! index) < i)
  then <[index := i]> potentialMatches else potentialMatches.

Inductive scan_result :=
| ExactMatch (secret : Secret)
| Candidates (hostOnlySecrets : list Secret) (potentialMatches : gmap nat nat).

(** The loop over the secrets. *)
Fixpoint scan (repository : string) (index : nat) (secrets : list Secret)
    (hostOnlySecrets : list Secret) (potentialMatches : gmap nat nat) : scan_result :=
  match secrets with
  | [] => Candidates hostOnlySecrets potentialMatches
  | secret :: rest =>
      match go_lookup (Annotations (sec_meta secret)) RepositoryAnnotation with
      | None | Some "" =>
          scan repository (S index) rest (hostOnlySecrets ++ [secret]) potentialMatches
      | Some repositoryLabel =>
          let repos := secretRepositories repositoryLabel in
          if bool_decide (repository ∈ repos) then ExactMatch secret
          else scan repository (S index) rest hostOnlySecrets
                 (foldl (wildcard_step repository index) potentialMatches
                    (Filter repos (λ s, HasSuffix s "*")))
      end
  end.

(** The loop over [potentialMatches], in the order its iteration takes. *)
Definition best_step (best : nat * nat) (entry : nat * nat) : nat * nat :=
  if bool_decide (best.2 < entry.2) then entry else best.
Definition bestIndex (order : list (nat * nat)) : nat := (foldl best_step (0, 0) order).1.

(** The choice; [None] when no secret is a candidate. *)
Definition select_secret {E} `{Environment E} (repository : string) (secrets : list Secret)
    : M E (option Secret) :=
  match scan repository 0 secrets [] ∅ with
  | ExactMatch secret => go_ret (Some secret)
  | Candidates hostOnlySecrets potentialMatches =>
      if bool_decide (size potentialMatches = 0) then go_ret (head hostOnlySecrets)
      else
        let! order := range (map_to_list potentialMatches) in
        match secrets !! bestIndex order with
        | Some secret => go_ret (Some secret)
        | None => go_panic "index out of range"
        end
  end.

(** ** Specification *)

Section Spec.
Context (repository : string).

Definition secret_label (s : Secret) : string :=
  go_index "" (Annotations (sec_meta s)) RepositoryAnnotation.

Definition host_only (s : Secret) : bool := bool_decide (secret_label s = "").

(** The secret's annotation names the repository. *)
Definition exact (s : Secret) : bool :=
  negb (host_only s) && bool_decide (repository ∈ secretRepositories (secret_label s)).

(** The best of the secret's wildcards. *)
Definition score (s : Secret) : nat :=
  if host_only s then 0
  else max_list (wildcard_parts repository <$>
         List.filter (λ r, HasSuffix r "*") (secretRepositories (secret_label s))).

Inductive Selected (secrets : list Secret) : option Secret → Prop :=
| sel_exact pre s post :
    secrets = pre ++ s :: post → exact s = true → Forall (λ s', exact s' = false) pre →
    Selected secrets (Some s)
| sel_wildcard s :
    Forall (λ s', exact s' = false) secrets →
    s ∈ secrets → 0 < score s → Forall (λ s', score s' ≤ score s) secrets →
    Selected secrets (Some s)
| sel_host_only pre s post :
    Forall (λ s', exact s' = false) secrets → Forall (λ s', score s' = 0) secrets →
    secrets = pre ++ s :: post → host_only s = true → Forall (λ s', host_only s' = false) pre →
    Selected secrets (Some s)
| sel_none :
    Forall (λ s', exact s' = false ∧ score s' = 0 ∧ host_only s' = false) secrets →
    Selected secrets None.

(** ** The loops *)

Definition raise_entry (index : nat) (m : gmap nat nat) (n : nat) : gmap nat nat :=
  if bool_decide (default 0 (m !! index) < n) then <[index := n]> m else m.

Lemma wildcard_step_eq index m r :
  wildcard_step repository index m r = raise_entry index m (wildcard_parts repository r).
Proof.
  unfold wildcard_step, raise_entry.
  repeat case_bool_decide; simpl; try done; lia.
Qed.

Lemma raise_entry_twice index m a b :
  raise_entry index (raise_entry index m a) b = raise_entry index m (a `max` b).
Proof.
  unfold raise_entry. destruct (m !! index) as [c|] eqn:E; simpl;
    repeat (case_bool_decide; simplify_map_eq/=; try lia);
    try (rewrite insert_insert, decide_True by done); f_equal; lia.
Qed.

Lemma raise_entry_0 index m : raise_entry index m 0 = m.
Proof. unfold raise_entry. rewrite bool_decide_eq_false_2; [done|lia]. Qed.

Lemma wildcard_fold index m l :
  foldl (wildcard_step repository index) m l =
  raise_entry index m (max_list (wildcard_parts repository <$> l)).
Proof.
  revert m. induction l as [|r l IH]; intros m; cbn -[raise_entry].
  - by rewrite raise_entry_0.
  - by rewrite IH, wildcard_step_eq, raise_entry_twice.
Qed.

(** The map of potential matches holds the positive scores, by index. *)
Fixpoint raise_all (index : nat) (secrets : list Secret) (m : gmap nat nat) : gmap nat nat :=
  match secrets with
  | [] => m
  | s :: rest => raise_all (S index) rest (raise_entry index m (score s))
  end.

Lemma scan_step index s rest h m :
  scan repository index (s :: rest) h m =
  if exact s then ExactMatch s
  else scan repository (S index) rest (h ++ (if host_only s then [s] else []))
         (raise_entry index m (score s)).
Proof.
  cbn [scan]. unfold exact, score, host_only, secret_label, go_index.
  destruct (go_lookup _ _) as [[|c l]|]; cbn [default from_option id].
  - by rewrite raise_entry_0.
  - rewrite (bool_decide_eq_false_2 (String c l = "")) by done. simpl negb. simpl andb. cbv iota.
    rewrite Filter_is_filter, wildcard_fold, app_nil_r. done.
  - by rewrite raise_entry_0.
Qed.

Lemma scan_exact pre s post index h m :
  Forall (λ s', exact s' = false) pre → exact s = true →
  scan repository index (pre ++ s :: post) h m = ExactMatch s.
Proof.
  intros Hpre Hs. revert index h m.
  induction Hpre as [|a pre Ha _ IH]; intros index h m; simpl app; rewrite scan_step.
  - by rewrite Hs.
  - rewrite Ha. apply IH.
Qed.

Lemma scan_candidates secrets index h m :
  Forall (λ s', exact s' = false) secrets →
  scan repository index secrets h m =
  Candidates (h ++ List.filter host_only secrets) (raise_all index secrets m).
Proof.
  intros Hs. revert index h m.
  induction Hs as [|s secrets Hx _ IH]; intros index h m; [by rewrite app_nil_r|].
  rewrite scan_step, Hx, IH. simpl. rewrite <-app_assoc. by destruct (host_only s).
Qed.

Lemma raise_all_below secrets index m k :
  k < index → raise_all index secrets m !! k = m !! k.
Proof.
  revert index m. induction secrets as [|s l IH]; intros index m Hk; simpl; [done|].
  rewrite IH by lia. unfold raise_entry. case_bool_decide; [|done].
  by rewrite lookup_insert_ne by lia.
Qed.

Lemma raise_all_lookup secrets index m k c :
  (∀ j, index ≤ j → m !! j = None) → index ≤ k →
  raise_all index secrets m !! k = Some c ↔
  ∃ s, secrets !! (k - index) = Some s ∧ score s = c ∧ 0 < c.
Proof.
  revert index m. induction secrets as [|s l IH]; intros index m Hm Hk; simpl.
  - rewrite Hm by done. split; [done|]. by intros (? & ? & _).
  - destruct (decide (k = index)) as [->|Hne].
    + rewrite raise_all_below, Nat.sub_diag by lia. simpl. unfold raise_entry.
      rewrite Hm by done. simpl. case_bool_decide.
      * rewrite lookup_insert_eq. naive_solver.
      * rewrite Hm by done. split; [done|]. intros (? & [= ->] & <- & ?). lia.
    + rewrite IH; [|intros j Hj|lia].
      * replace (k - index) with (S (k - S index)) by lia. done.
      * unfold raise_entry. case_bool_decide; [rewrite lookup_insert_ne by lia|]; apply Hm; lia.
Qed.

Lemma potential_spec secrets k c :
  raise_all 0 secrets ∅ !! k = Some c ↔ ∃ s, secrets !! k = Some s ∧ score s = c ∧ 0 < c.
Proof. rewrite raise_all_lookup by (intros; try apply lookup_empty; lia). by rewrite Nat.sub_0_r. Qed.

Lemma potential_empty secrets :
  size (raise_all 0 secrets ∅) = 0 ↔ Forall (λ s, score s = 0) secrets.
Proof.
  rewrite map_size_empty_iff. split.
  - intros He. apply Forall_forall. intros s [k Hk]%list_elem_of_lookup.
    destruct (score s) as [|n] eqn:Hn; [done|].
    assert (raise_all 0 secrets ∅ !! k = Some (S n)) as Hc
      by (apply potential_spec; exists s; repeat split; [done..|lia]).
    by rewrite He in Hc.
  - intros HF. apply map_empty. intros k.
    destruct (raise_all 0 secrets ∅ !! k) as [c|] eqn:Hc; [|done].
    apply potential_spec in Hc as (s & Hs & <- & Hpos).
    rewrite Forall_forall in HF. rewrite (HF s) in Hpos by (by eapply list_elem_of_lookup_2). lia.
Qed.
End Spec.

Lemma best_step_spec b x :
  best_step b x ∈ [b; x] ∧ b.2 ≤ (best_step b x).2 ∧ x.2 ≤ (best_step b x).2.
Proof. unfold best_step. case_bool_decide; repeat split; rewrite ?elem_of_cons; auto; lia. Qed.

Lemma best_fold order b :
  foldl best_step b order ∈ b :: order ∧
  Forall (λ x, x.2 ≤ (foldl best_step b order).2) (b :: order).
Proof.
  revert b. induction order as [|x l IH]; intros b; simpl.
  - split; [set_solver|]. by repeat constructor.
  - destruct (IH (best_step b x)) as [Hin Hall].
    apply Forall_cons in Hall as [Hb Hl].
    destruct (best_step_spec b x) as (Hbx & Hb' & Hx').
    split; [|repeat constructor; [lia|lia|done]].
    apply elem_of_cons in Hin as [->|Hin]; rewrite !elem_of_cons; [|by auto].
    rewrite !elem_of_cons in Hbx. destruct Hbx as [->|[->|Hbx]]; [by auto..|].
    by apply not_elem_of_nil in Hbx.
Qed.

Lemma best_fold_positive order :
  order ≠ [] → Forall (λ x : nat * nat, 0 < x.2) order →
  foldl best_step (0, 0) order ∈ order ∧
  Forall (λ x, x.2 ≤ (foldl best_step (0, 0) order).2) order.
Proof.
  intros Hne Hpos. destruct (best_fold order (0, 0)) as [Hin Hall].
  apply Forall_cons in Hall as [_ Hall]. split; [|done].
  apply elem_of_cons in Hin as [Heq|]; [|done]. exfalso.
  destruct order as [|x l]; [done|].
  apply Forall_cons in Hpos as [Hx _]. apply Forall_cons in Hall as [Hx' _].
  rewrite Heq in Hx'. simpl in Hx'. lia.
Qed.

Lemma first_split {A} (f : A → bool) (l : list A) :
  Forall (λ x, f x = false) l ∨
  ∃ pre x post, l = pre ++ x :: post ∧ f x = true ∧ Forall (λ y, f y = false) pre.
Proof.
  induction l as [|a l IH]; [by left|].
  destruct (f a) eqn:Ha; [right; exists [], a, l; by repeat split|].
  destruct IH as [?|(pre & x & post & -> & Hx & Hpre)]; [left; by constructor|].
  right. exists (a :: pre), x, post. repeat split; [done|]. by constructor.
Qed.

Lemma filter_none {A} (f : A → bool) (l : list A) :
  Forall (λ x, f x = false) l → List.filter f l = [].
Proof. induction 1 as [|x l Hx _ IH]; simpl; [done|]. by rewrite Hx. Qed.

(** ** The refinement *)

Lemma select_secret_frame {E} `{Environment E} P repository secrets :
  Preserves (trace_grows (E:=E) P) (select_secret repository secrets).
Proof. unfold select_secret. solve_frame. Qed.

#[export] Hint Extern 0 (Preserves _ (select_secret _ _)) =>
  apply select_secret_frame : typeclass_instances.

Lemma select_secret_Selected {E} `{EnvironmentLaws E} repository secrets (w : World E) :
  ∃ r e', select_secret repository secrets w = (Ok r, set_env e' w) ∧
          Selected repository secrets r.
Proof.
  unfold select_secret.
  destruct (first_split (exact repository) secrets) as [Hno|(pre & s & post & -> & Hs & Hpre)].
  2: { rewrite scan_exact by done. exists (Some s), (w_env w).
       split; [by destruct w|]. by eapply sel_exact. }
  rewrite scan_candidates by done. cbn [app].
  case_bool_decide as Hsize.
  - apply potential_empty in Hsize.
    exists (head (List.filter host_only secrets)), (w_env w). split; [by destruct w|].
    destruct (first_split host_only secrets) as [Hnone|(pre & s & post & -> & Hs & Hpre)].
    + rewrite filter_none by done. apply sel_none. rewrite !Forall_forall in *. naive_solver.
    + rewrite List.filter_app, filter_none by done. simpl. rewrite Hs. simpl.
      by eapply sel_host_only.
  - unfold go_bind, range. pose proof (env_range_perm _ (map_to_list (raise_all repository 0 secrets ∅)) (w_env w)) as Hperm.
    destruct (env_range _ _) as [order e'] eqn:Hr. simpl in Hperm.
    assert (∀ k c, (k, c) ∈ order ↔ ∃ s, secrets !! k = Some s ∧ score repository s = c ∧ 0 < c)
      as Hin. { intros k c. rewrite Hperm, elem_of_map_to_list. apply potential_spec. }
    destruct (best_fold_positive order) as [Hb Hmax].
    { intros ->. apply Permutation_nil_l in Hperm. by rewrite <-length_map_to_list, <-Hperm in Hsize. }
    { apply Forall_forall. intros [k c] Hk%Hin. naive_solver. }
    unfold bestIndex. destruct (foldl best_step (0, 0) order) as [k c]. simpl in *.
    apply Hin in Hb as (s & Hs & <- & Hpos). rewrite Hs.
    exists (Some s), e'. split; [done|]. apply sel_wildcard; [done|by eapply list_elem_of_lookup_2|done|].
    apply Forall_forall. intros s' [j Hj]%list_elem_of_lookup.
    destruct (score repository s') as [|n] eqn:Hn; [lia|].
    rewrite Forall_forall in Hmax. apply (Hmax (j, S n)), Hin. exists s'. repeat split; [done..|lia].
Qed.
