(* ===== verification/Base.v ===== *)
(** * internal/component/base

    [BaseComponent] of [base.go]: the host rules of a registry secret, the cached
    Renovate configuration, and the RPM activation key. *)

From S2P Require Import Prelude GoStrings GoBase64 Slices Json Kube World GitComponent Sample.
From S2P Require Import SecretSelect.
From Stdlib Require Import Ascii.

Record BaseComponent := MkBase {
  bc_Name : string;
  bc_Namespace : string;
  bc_Application : string;
  bc_Platform : string;
  bc_Host : string;
  bc_GitURL : string;
  bc_Repository : string;
  bc_Versions : list string;
  bc_OldCRDVersion : bool
}.

Abbreviation HostRule := (gmap string string).

Section Base.
Context {E : Type} `{Environment E} `{Libraries}.

(** ** Host rules *)

(** One registry of the docker configuration. *)
Definition host_rule (registry : string) (credentials : gomap string) : result HostRule :=
  match go_lookup credentials "auth" with
  | None => Ok {["matchHost" := registry]}
  | Some auth =>
      match DecodeString auth with
      | inl e => Err e
      | inr auth_plain =>
          match Cut auth_plain ":"%char with
          | None => Err (Errorf "could not find delimiter in auth")
          | Some (username, password) =>
              Ok (<["hostType" := "docker"]> (<["password" := password]>
                   (<["username" := username]> {["matchHost" := registry]})))
          end
      end
  end.

Definition GetHostRules (registrySecret : Secret) : M E (list HostRule) :=
  match go_lookup (sec_Data registrySecret) DockerConfigJsonKey with
  | None =>
      go_fail (Errorf ("secret " +:+ Name (sec_meta registrySecret) +:+ " is missing the "
                       +:+ DockerConfigJsonKey +:+ " key"))
  | Some data =>
      let! secrets := go_lift (Unmarshal_docker data) in
      let! auths := range (map_to_list (go_make_if_nil (go_index None secrets "auths"))) in
      go_fold auths [] (λ entry hostRules,
        let! hostRule := go_lift (host_rule entry.1 entry.2) in
        go_ret (hostRules ++ [hostRule]))
  end.

(** ** The cached Renovate configuration

    A Go map is a reference: what [GetRenovateBaseConfig] returns is always the map
    in the package variable [renovateBaseConfig], so the model reads and writes it
    there. *)

Definition baseconfig_key : NamespacedName := MkKey "mintmaker" "renovate-config".

(** [config[k] = v] on the map just decoded. *)
Definition merge_entry (entry : string * json) (config : gomap json) : M E (gomap json) :=
  go_lift (go_assign config entry.1 entry.2).

Definition GetRenovateBaseConfig : M E unit :=
  let! cached := go_gets renovateBaseConfig in
  match cached with
  | Some _ => go_ret tt
  | None =>
      let! baseConfig := client_Get KConfigMap baseconfig_key in
      let! config := go_wrap (errorf_v "error unmarshaling Renovate config: ")
                       (go_lift (Unmarshal_map (go_index "" (cm_Data baseConfig) "renovate.json"))) in
      let! selfHostedConfig :=
        go_wrap (errorf_v "error unmarshaling Renovate self-hosted config: ")
          (go_lift (Unmarshal_map (go_index "" (cm_Data baseConfig) "self_hosted.json"))) in
      let! entries := range (map_to_list (go_make_if_nil selfHostedConfig)) in
      let! config' := go_fold entries config merge_entry in
      go_modify (set_base config')
  end.

(** [baseConfig[k] = v] on the map [GetRenovateBaseConfig] returned. *)
Definition base_assign (k : string) (v : json) : M E unit :=
  let! config := go_gets renovateBaseConfig in
  let! config' := go_lift (go_assign config k v) in
  go_modify (set_base config').

(** The [hostRules] a configuration gets from a registry secret: none when the rules
    cannot be read. *)
Definition json_of_rules (hostRules : list HostRule) : json :=
  JArray ((λ rule : HostRule, JObject (JString <$> rule)) <$> hostRules).

Definition add_host_rules (registrySecret : option Secret) : M E unit :=
  match registrySecret with
  | None => go_ret tt
  | Some secret =>
      try! hostRules := GetHostRules secret in
      match hostRules with
      | inr (r :: rs) => base_assign "hostRules" (json_of_rules (r :: rs))
      | _ => go_ret tt
      end
  end.

(** [repositories], the same for every platform. *)
Definition repositories_entry (currentBranch repository : string) : json :=
  JArray [JObject (<["baseBranchPatterns" := JArray [JString currentBranch]]>
                     {["repository" := JString repository]})].

(** ** The RPM activation key *)

Definition getActivationKeyFromSecret (secret : option Secret) : result (string * string) :=
  match secret with
  | None => Err (Errorf "no viable activation key secret has been found")
  | Some secret =>
      let activationKey := go_index "" (sec_Data secret) "activationkey" in
      let org := go_index "" (sec_Data secret) "org" in
      if bool_decide (activationKey = "") || bool_decide (org = "")
      then Err (Errorf ("secret " +:+ Name (sec_meta secret)
                        +:+ " doesn't contain activation key or org"))
      else Ok (activationKey, org)
  end.

Definition rpm_secret_key (c : BaseComponent) : NamespacedName :=
  MkKey (bc_Namespace c) "activation-key".

Definition rpm_list_options (c : BaseComponent) : ListOptions :=
  MkListOptions (bc_Namespace c)
    [("appstudio.redhat.com/credentials", "rpm"); ("appstudio.redhat.com/scm.host", bc_Host c)].

Definition rpm_secret_usable (secret : Secret) : bool :=
  bool_decide (sec_Type secret = SecretTypeOpaque) && bool_decide (0 < go_len (sec_Data secret)).

Definition GetRPMActivationKey (c : BaseComponent) : M E (string * string) :=
  try! got := client_Get KSecret (rpm_secret_key c) in
  let defaultSecret := match got with inl _ => None | inr secret => Some secret end in
  try! listed := client_List KSecret (rpm_list_options c) in
  match listed with
  | inl _ => go_lift (getActivationKeyFromSecret defaultSecret)
  | inr items =>
      match Filter items rpm_secret_usable with
      | [] => go_lift (getActivationKeyFromSecret defaultSecret)
      | secrets =>
          let! selected := select_secret (bc_Repository c) secrets in
          go_lift (getActivationKeyFromSecret
            (match selected with Some secret => Some secret | None => defaultSecret end))
      end
  end.

(** A component that embeds a [BaseComponent]: it has its getters and its key, and methods
    of its own for the rest. *)
Definition embed_base (c : BaseComponent) (GetToken : M E string) (GetBranches : M E (list string))
    (GetAPIEndpoint : result string) (GetRenovateConfig : option Secret → string → M E string) :
    GitComponent E :=
  MkGitComponent (bc_Name c) (bc_Namespace c) (bc_Application c) (bc_Platform c) (bc_Host c)
    (bc_GitURL c) (bc_Repository c) GetToken GetBranches GetAPIEndpoint GetRenovateConfig
    (GetRPMActivationKey c).
End Base.

(** ** Lemmas *)

Section BaseProofs.
Context {E : Type} `{Environment E} `{Libraries}.

#[export] Instance GetHostRules_frame P secret :
  Preserves (trace_grows (E:=E) P) (GetHostRules secret).
Proof. unfold GetHostRules. solve_frame. Qed.

#[export] Instance base_assign_frame P k v : Preserves (trace_grows (E:=E) P) (base_assign k v).
Proof. unfold base_assign. solve_frame. Qed.

#[export] Instance add_host_rules_frame P secret :
  Preserves (trace_grows (E:=E) P) (add_host_rules secret).
Proof. unfold add_host_rules. solve_frame. Qed.

#[export] Instance GetRenovateBaseConfig_read_only : read_only (GetRenovateBaseConfig (E:=E)).
Proof. unfold GetRenovateBaseConfig, merge_entry. solve_frame. Qed.

#[export] Instance GetRPMActivationKey_read_only c : read_only (GetRPMActivationKey (E:=E) c).
Proof. unfold GetRPMActivationKey. solve_frame. Qed.

(** A loop that computes one value per element. *)
Lemma go_fold_map {St A B} (f : A → result B) l acc (s : St) :
  go_fold l acc (λ a bs, let! b := go_lift (f a) in go_ret (bs ++ [b])) s =
  ((λ bs, acc ++ bs) <$> mapM f l, s).
Proof.
  revert acc. induction l as [|a l IH]; intros acc; simpl.
  - unfold go_ret. by rewrite app_nil_r.
  - unfold go_bind at 1 2, go_lift. destruct (f a) as [b|e|m]; [|done..].
    simpl. rewrite IH. destruct (mapM f l); simpl; [|done..]. by rewrite <-app_assoc.
Qed.

Lemma mapM_ok {A B} (f : A → result B) l bs :
  mapM f l = Ok bs → Forall2 (λ a b, f a = Ok b) l bs.
Proof.
  revert bs. induction l as [|a l IH]; simpl; intros bs.
  - by intros [= <-].
  - intros (b & Hb & (bs' & Hbs & [= <-])%bind_ok)%bind_ok. auto.
Qed.

Lemma mapM_not_ok {A B} (f : A → result B) l :
  match mapM f l with
  | Ok _ => True
  | Err e => ∃ a, a ∈ l ∧ f a = Err e
  | Panic p => ∃ a, a ∈ l ∧ f a = Panic p
  end.
Proof.
  induction l as [|a l IH]; simpl; [done|].
  destruct (f a) as [b|e|p] eqn:Hf; simpl; [|exists a; split; [left|done]..].
  destruct (mapM f l); simpl; [done|..]; destruct IH as (x & ? & ?); exists x; by split; [right|].
Qed.

Lemma merge_fold (l : list (string * json)) (m : gmap string json) (w : World E) :
  NoDup l.*1 →
  go_fold l (Some m) merge_entry w = (Ok (Some (list_to_map l ∪ m)), w).
Proof.
  revert m. induction l as [|[k v] l IH]; intros m Hnd; simpl.
  - unfold go_ret. by rewrite map_empty_union.
  - apply NoDup_cons in Hnd as [Hk Hnd]. unfold go_bind, merge_entry, go_lift. simpl.
    rewrite IH by done. do 3 f_equal.
    symmetry. rewrite <-insert_union_l.
    apply insert_union_r. by apply not_elem_of_list_to_map_1.
Qed.

(** ** Theorems *)

(** The registries of a docker configuration, decoded. *)
Definition docker_auths (secrets : gomap (gomap (gomap string))) : gmap string (gomap string) :=
  go_make_if_nil (go_index None secrets "auths").

(** Reading the host rules of a registry secret gives exactly one rule per
    registry of its docker configuration, in some order, and changes nothing; it
    fails only if the configuration has a registry whose credentials cannot be
    read, and never panics. *)
Theorem GetHostRules_spec `{!EnvironmentLaws E} secret data secrets (w : World E) :
  go_lookup (sec_Data secret) DockerConfigJsonKey = Some data →
  Unmarshal_docker data = Ok secrets →
  ∃ r e', GetHostRules secret w = (r, set_env e' w) ∧
  match r with
  | Ok hostRules =>
      length hostRules = size (docker_auths secrets) ∧
      ∀ rule, rule ∈ hostRules ↔ ∃ registry credentials,
        docker_auths secrets !! registry = Some credentials ∧
        host_rule registry credentials = Ok rule
  | Err e => ∃ registry credentials,
      docker_auths secrets !! registry = Some credentials ∧ host_rule registry credentials = Err e
  | Panic _ => False
  end.
Proof.
  intros Hd Hs. unfold GetHostRules. rewrite Hd, Hs. unfold go_bind at 1 2, go_lift at 1, range.
  fold (docker_auths secrets).
  pose proof (env_range_perm _ (map_to_list (docker_auths secrets)) (w_env w)) as Hperm.
  destruct (env_range _ _) as [order e']. simpl in Hperm. cbv beta iota.
  rewrite (go_fold_map (λ x : string * gomap string, host_rule x.1 x.2)).
  set (f := λ x : string * gomap string, host_rule x.1 x.2).
  assert (∀ k c, (k, c) ∈ order ↔ docker_auths secrets !! k = Some c) as Hin.
  { intros k c. by rewrite Hperm, elem_of_map_to_list. }
  eexists _, e'. split; [reflexivity|].
  pose proof (mapM_not_ok f order) as Hbad. destruct (mapM f order) as [rules|e|p] eqn:Hm; simpl.
  - apply mapM_ok in Hm. split.
    { by rewrite <-(Forall2_length _ _ _ Hm), Hperm, length_map_to_list. }
    intros rule. split.
    + intros [i Hi]%list_elem_of_lookup.
      destruct (Forall2_lookup_r _ _ _ _ _ Hm Hi) as ([k c] & Hk & Hr).
      exists k, c. split; [|done]. by apply Hin, list_elem_of_lookup_2 with i.
    + intros (k & c & Hk & Hr). apply Hin in Hk as [i Hi]%list_elem_of_lookup.
      destruct (Forall2_lookup_l _ _ _ _ _ Hm Hi) as (rule' & Hi' & Hr').
      change (host_rule k c = Ok rule') in Hr'. rewrite Hr in Hr'. injection Hr' as <-.
      by apply list_elem_of_lookup_2 with i.
  - destruct Hbad as ([k c] & Hk%Hin & Hr). by exists k, c.
  - destruct Hbad as ([k c] & _ & Hr). unfold f, host_rule in Hr. simpl in Hr.
    by repeat case_match.
Qed.

(** Reading the host rules moves the surroundings only, and never panics. *)
Lemma GetHostRules_run secret (w : World E) :
  ∃ r e', GetHostRules secret w = (r, set_env e' w) ∧ ∀ p, r ≠ Panic p.
Proof.
  assert (set_env (w_env w) w = w) as Hw by by destruct w.
  unfold GetHostRules. destruct (go_lookup _ _) as [data|].
  2: { eexists _, (w_env w). unfold go_fail. by rewrite Hw. }
  unfold go_bind at 1, go_lift at 1.
  destruct (Unmarshal_docker data) as [secrets|e|p] eqn:Hs.
  2: { eexists _, (w_env w). by rewrite Hw. }
  2: { exfalso. exact (of_sum_no_panic _ _ Hs). }
  unfold go_bind at 1, range. destruct (env_range _ _) as [order e'].
  rewrite (go_fold_map (λ x : string * gomap string, host_rule x.1 x.2)).
  eexists _, e'. split; [reflexivity|]. intros p Hp.
  match type of Hp with context [mapM ?f order] => pose proof (mapM_not_ok f order) as Hbad;
    destruct (mapM f order) as [rules|e|p'] end; [done..|].
  destruct Hbad as ([k c] & _ & Hr). unfold host_rule in Hr. simpl in Hr. by repeat case_match.
Qed.

(** The rules found in an optional registry secret. *)
Definition registry_rules (registrySecret : option Secret) (w : World E) : list HostRule :=
  match registrySecret with
  | None => []
  | Some secret => match (GetHostRules secret w).1 with Ok rules => rules | _ => [] end
  end.

(** A configuration gets the rules there are, and keeps what it had when there are none. *)
Definition with_rules (rules : list HostRule) (config : gmap string json) : gmap string json :=
  match rules with
  | [] => config
  | _ => <["hostRules" := json_of_rules rules]> config
  end.

Lemma add_host_rules_cached secret (w : World E) m :
  renovateBaseConfig w = Some m →
  ∃ w1, add_host_rules secret w = (Ok tt, w1) ∧ w_trace w1 = w_trace w ∧ w_github w1 = w_github w ∧
        renovateBaseConfig w1 = Some (with_rules (registry_rules secret w) m).
Proof.
  intros Hm. unfold add_host_rules, registry_rules. destruct secret as [secret|]; [|by eauto].
  destruct (GetHostRules_run secret w) as (r & e' & Hr & Hp). unfold go_try. rewrite Hr. simpl.
  destruct r as [[|r rs]|e|p]; [eexists; by split| |eexists; by split|by destruct (Hp p)].
  unfold base_assign, go_bind, go_gets, go_lift, go_modify. cbn [renovateBaseConfig set_env].
  rewrite Hm. simpl. eexists. by split.
Qed.

(** *** What is cached can be written

    Everything the configuration is made of was decoded from JSON or is made of
    strings. *)

Lemma json_of_rules_encodable rules : encodable (json_of_rules rules) = true.
Proof.
  unfold json_of_rules. cbn [encodable]. rewrite forallb_fmap. apply forallb_Forall, Forall_true.
  intros rule. cbn [encodable]. apply (map_fold_forallb (λ _ j, encodable j)).
  intros k j Hj. rewrite lookup_fmap in Hj. by destruct (rule !! k) as [s|]; [injection Hj as <-|].
Qed.

Lemma repositories_entry_encodable branch repository :
  encodable (repositories_entry branch repository) = true.
Proof. reflexivity. Qed.

Lemma with_rules_encodable rules m :
  encodable (JObject m) = true → encodable (JObject (with_rules rules m)) = true.
Proof.
  intros Hm. unfold with_rules. destruct rules; [done|]. apply encodable_insert; [|done].
  apply json_of_rules_encodable.
Qed.

Definition base_writable (w : World E) : Prop :=
  match renovateBaseConfig w with Some m => encodable (JObject m) = true | None => True end.

(** The first successful call merges the two documents of the config map, the
    self-hosted one winning whatever order its members are visited in, and caches
    the result; every later call asks nothing of the cluster and keeps it. *)
Theorem GetRenovateBaseConfig_merges `{!EnvironmentLaws E} (w : World E) baseConfig config selfHosted :
  renovateBaseConfig w = None →
  (env_Get KConfigMap baseconfig_key (w_env w)).1 = inr baseConfig →
  Unmarshal_map (go_index "" (cm_Data baseConfig) "renovate.json") = Ok (Some config) →
  Unmarshal_map (go_index "" (cm_Data baseConfig) "self_hosted.json") = Ok selfHosted →
  ∃ w', GetRenovateBaseConfig w = (Ok tt, w') ∧
        renovateBaseConfig w' = Some (go_make_if_nil selfHosted ∪ config) ∧
        GetRenovateBaseConfig w' = (Ok tt, w').
Proof.
  intros Hnone Hget Hc Hs. unfold GetRenovateBaseConfig at 1.
  unfold go_bind, go_gets, client_Get, request, range. rewrite Hnone.
  destruct (env_Get _ _ _) as [? e1] eqn:Hg. simpl in Hget. subst. cbn [of_sum].
  unfold go_wrap, go_try, go_lift. rewrite Hc, Hs. unfold go_ret. cbv beta iota.
  match goal with |- context [env_range ?l ?e] => pose proof (env_range_perm _ l e) as Hperm;
    destruct (env_range l e) as [order e2] end.
  simpl in Hperm. cbv beta iota. rewrite merge_fold.
  2: { rewrite Hperm. apply NoDup_fst_map_to_list. }
  rewrite (list_to_map_proper order _ ltac:(by rewrite Hperm; apply NoDup_fst_map_to_list) Hperm),
    list_to_map_to_list.
  unfold go_modify. eexists. split; [reflexivity|]. split; [done|].
  reflexivity.
Qed.

(** C26.  The RPM activation key comes from the secret the selection rule picks
    among the usable secrets listed for the component's host (an exact repository
    match, else the best wildcard, else the first without a repository), and only
    when there is none from the namespace's default secret.  A failed request
    counts as "no such secret", and nothing panics. *)
Theorem GetRPMActivationKey_spec `{!EnvironmentLaws E} c (w : World E) :
  let got := env_Get KSecret (rpm_secret_key c) (w_env w) in
  let listed := env_List KSecret (rpm_list_options c) got.2 in
  let defaultSecret := match got.1 with inr secret => Some secret | inl _ => None end in
  let usable := match listed.1 with inr items => Filter items rpm_secret_usable | inl _ => [] end in
  ∃ selected w',
    Selected (bc_Repository c) usable selected ∧
    GetRPMActivationKey c w =
      (getActivationKeyFromSecret
         (match selected with Some secret => Some secret | None => defaultSecret end), w').
Proof.
  intros got listed defaultSecret usable. unfold GetRPMActivationKey, client_Get, client_List, request.
  unfold go_try. subst defaultSecret usable listed. subst got.
  destruct (env_Get _ _ _) as [g e1].
  assert (Selected (bc_Repository c) [] None) as Hnil by by apply sel_none.
  destruct g as [e|d]; cbn [of_sum fst snd w_env log_call set_env];
    (destruct (env_List _ _ _) as [[e'|items] e2]; cbn [of_sum fst snd];
     [exists None; eexists; split; [done|reflexivity]|]);
    (destruct (Filter items rpm_secret_usable) as [|s l] eqn:Hl;
     [exists None; eexists; split; [done|reflexivity]|]);
    unfold go_bind;
    match goal with |- context [select_secret _ _ ?w0] =>
      destruct (select_secret_Selected (bc_Repository c) (s :: l) w0) as (r & e3 & -> & Hsel) end;
    exists r; eexists; (split; [done|reflexivity]).
Qed.
End BaseProofs.

(** ** Examples *)

Definition docker_secret : Secret :=
  MkSecret (new_meta "registry" "tenant") SecretTypeDockerConfigJson
    (Some {[DockerConfigJsonKey := docker_json]}) None.

Lemma GetHostRules_spec_witness :
  (GetHostRules docker_secret (start (cluster_with no_objs))).1 =
    Ok [<["hostType" := "docker"]> (<["password" := "pass"]>
         (<["username" := "user"]> {["matchHost" := "quay.io"]}))] ∧
  ∃ r e', GetHostRules docker_secret (start (cluster_with no_objs)) = (r, e').
Proof.
  split; [vm_compute; reflexivity|].
  destruct (GetHostRules_spec docker_secret docker_json
    (Some {["auths" := Some {["quay.io" := Some {["auth" := "dXNlcjpwYXNz"]}]}]})
    (start (cluster_with no_objs))) as (r & e' & Hr & _); [vm_compute; reflexivity..|].
  exists r. eexists. exact Hr.
Defined.

Definition renovate_cm : ConfigMap :=
  MkConfigMap (new_meta "renovate-config" "mintmaker")
    (Some {["renovate.json" := renovate_json; "self_hosted.json" := self_hosted_json]}).

Definition base_objs (k : Kind) : list (obj k) :=
  match k with
  | KConfigMap => [renovate_cm]
  | _ => []
  end.

Lemma GetRenovateBaseConfig_merges_witness :
  ∃ w', GetRenovateBaseConfig (start (cluster_with base_objs)) = (Ok tt, w') ∧
        renovateBaseConfig w' = Some {["onboarding" := JBool true; "platform" := JNull]}.
Proof.
  destruct (GetRenovateBaseConfig_merges (start (cluster_with base_objs)) renovate_cm
    {["onboarding" := JBool false; "platform" := JNull]}
    (Some {["onboarding" := JBool true]})) as (w' & Hw & Hb & _); [vm_compute; reflexivity..|].
  exists w'. split; [exact Hw|]. rewrite Hb. vm_compute. reflexivity.
Defined.

Definition rpm_secret (name repository key : string) : Secret :=
  MkSecret
    (MkMeta name "tenant"
       (Some {["appstudio.redhat.com/credentials" := "rpm";
               "appstudio.redhat.com/scm.host" := "gitlab.com"]})
       (Some {[RepositoryAnnotation := repository]}) [] [])
    SecretTypeOpaque (Some {["activationkey" := key; "org" := "acme"]}) None.

Definition rpm_objs (k : Kind) : list (obj k) :=
  match k with
  | KSecret => [rpm_secret "wild" "team/*" "k1"; rpm_secret "deeper" "team/group/*" "k2";
                rpm_secret "other" "elsewhere/repo" "k3"]
  | _ => []
  end.

Definition rpm_component : BaseComponent :=
  MkBase "comp" "tenant" "app" "gitlab" "gitlab.com" "https://gitlab.com/team/group/repo"
    "team/group/repo" [] false.

Lemma GetRPMActivationKey_spec_witness :
  (GetRPMActivationKey rpm_component (start (cluster_with rpm_objs))).1 = Ok ("k2", "acme") ∧
  ∃ selected w', GetRPMActivationKey rpm_component (start (cluster_with rpm_objs)) =
    (getActivationKeyFromSecret selected, w').
Proof.
  split; [vm_compute; reflexivity|].
  destruct (GetRPMActivationKey_spec rpm_component (start (cluster_with rpm_objs)))
    as (selected & w' & _ & H).
  eexists _, w'. exact H.
Defined.
