(* ===== verification/Scm.v ===== *)
(** * internal/component/gitlab and forgejo: what the two packages share

    The packages [gitlab] and [forgejo] have the same code for their constructor, for
    the secret of a host and for most of the Renovate configuration; it is modelled
    once, and each package's file composes it as its source does. *)

From S2P Require Import Prelude GoStrings Slices Json Kube World GitComponent Sample GitUrl.
From S2P Require Import SecretSelect Base.
From Stdlib Require Import Ascii.

(** [%q] of a text with no character to escape. *)
Definition fmt_q (s : string) : string :=
  String "034"%char (s +:+ String "034"%char EmptyString).

Section Scm.
Context {E : Type} `{Environment E} `{Libraries}.

(** [NewComponent]: the git url is taken apart. *)
Definition new_base (comp : Component) (giturl : string) (versions : list string)
    (oldCRDVersion : bool) : result BaseComponent :=
  platform ← GetGitPlatform parseIPLiteral giturl;
  host ← GetGitHost parseIPLiteral giturl;
  repository ← GetGitPath parseIPLiteral giturl;
  Ok (MkBase (Name (comp_meta comp)) (Namespace (comp_meta comp)) (comp_Application comp)
        platform host giturl repository versions oldCRDVersion).

Definition scm_list_options (c : BaseComponent) : ListOptions :=
  MkListOptions (bc_Namespace c)
    [("appstudio.redhat.com/credentials", "scm"); ("appstudio.redhat.com/scm.host", bc_Host c)].

Definition scm_secret_usable (secret : Secret) : bool :=
  bool_decide (sec_Type secret = SecretTypeBasicAuth) && bool_decide (0 < go_len (sec_Data secret)).

Definition lookupSecret (c : BaseComponent) : M E Secret :=
  let! items :=
    go_wrap (wrap ("failed to list scm secrets in namespace " +:+ bc_Namespace c +:+ ": "))
      (client_List KSecret (scm_list_options c)) in
  match Filter items scm_secret_usable with
  | [] => go_fail (Errorf ("no secrets available for git host " +:+ bc_Host c))
  | secrets =>
      let! selected := select_secret (bc_Repository c) secrets in
      match selected with
      | Some secret => go_ret secret
      | None => go_fail (Errorf "no secrets available for component")
      end
  end.

Definition scm_GetToken (c : BaseComponent) : M E string :=
  let! secret := lookupSecret c in
  go_ret (go_index "" (sec_Data secret) BasicAuthPasswordKey).

(** The loop over the versions: those the forge knows as branches. *)
Definition existing_branches (versions : list string) (GetBranch : string → M E unit)
    : M E (list string) :=
  go_fold versions [] (λ version branches,
    try! r := GetBranch version in
    go_ret (match r with inr _ => branches ++ [version] | inl _ => branches end)).

Definition no_branches : error :=
  Errorf "no versions found or all versions are tags (not branches)".

Definition some_branches (branches : list string) : M E (list string) :=
  match branches with
  | [] => go_fail no_branches
  | _ => go_ret branches
  end.

(** The entries set in the base configuration, then its text. *)
Definition scm_config (c : BaseComponent) (GetAPIEndpoint : result string)
    (registrySecret : option Secret) (currentBranch : string) : M E string :=
  let! _ := GetRenovateBaseConfig in
  let! _ := add_host_rules registrySecret in
  let! _ := base_assign "platform" (JString (bc_Platform c)) in
  let! endpoint := go_lift GetAPIEndpoint in
  let! _ := base_assign "endpoint" (JString endpoint) in
  let! _ := base_assign "username" (JString "") in
  let! _ := base_assign "gitAuthor" (JString "") in
  let! _ := base_assign "repositories" (repositories_entry currentBranch (bc_Repository c)) in
  let! baseConfig := go_gets renovateBaseConfig in
  go_wrap (errorf_v "error marshaling updated Renovate config: ")
    (go_lift (of_sum (json_MarshalIndent (JObject (go_make_if_nil baseConfig))))).

#[export] Instance lookupSecret_reads c : read_only (lookupSecret c).
Proof. unfold lookupSecret. solve_frame. Qed.
#[export] Instance scm_GetToken_reads c : read_only (scm_GetToken c).
Proof. unfold scm_GetToken. solve_frame. Qed.
#[export] Instance existing_branches_reads versions GetBranch :
  (∀ v, read_only (GetBranch v)) → read_only (existing_branches versions GetBranch).
Proof. intros Hb. unfold existing_branches. solve_frame. Qed.
#[export] Instance some_branches_reads branches : read_only (some_branches branches).
Proof. unfold some_branches. solve_frame. Qed.
#[export] Instance scm_config_reads c endpoint secret branch :
  read_only (scm_config c endpoint secret branch).
Proof. unfold scm_config. solve_frame. Qed.

(** ** Branches *)

(** A request that tells whether a branch exists, to a forge that has the branches
    [known] as long as [P] holds of it, which asking does not change. *)
Definition forge_knows (P : E → Prop) (known : string → bool)
    (ask : string → ApiRequest (error + unit)) : Prop :=
  ∀ version e, P e →
    P (env_api (ask version) e).2 ∧
    match (env_api (ask version) e).1 with
    | inr _ => known version = true
    | inl _ => known version = false
    end.

(** The answer of such a forge. *)
Definition found_branches (versions : list string) (known : string → bool) : result (list string) :=
  match Filter versions known with
  | [] => Err no_branches
  | branches => Ok branches
  end.

(** The loop keeps exactly the versions the forge knows, in their order. *)
Lemma existing_branches_known P known ask versions (w : World E) :
  forge_knows P known ask → P (w_env w) →
  (existing_branches versions (λ v, api_call (ask v)) w).1 = Ok (Filter versions known).
Proof.
  intros Hf. unfold existing_branches. rewrite Filter_is_filter.
  change (List.filter known versions) with ([] ++ List.filter known versions).
  set (acc := []) at 1 3. clearbody acc. revert w acc.
  induction versions as [|v vs IH]; intros w acc HP; simpl.
  - unfold go_ret. by rewrite app_nil_r.
  - destruct (Hf v _ HP) as [HP' Hk].
    unfold go_bind at 1, go_try, api_call, go_bind, api, go_lift.
    destruct (env_api (ask v) (w_env w)) as [[x|[]] e']; simpl in *; rewrite Hk;
      unfold go_ret; rewrite IH by done; [done|by rewrite <-app_assoc].
Qed.

Lemma branches_loop P known ask versions (w : World E) :
  forge_knows P known ask → P (w_env w) →
  ((let! branches := existing_branches versions (λ v, api_call (ask v)) in
    some_branches branches) w).1 = found_branches versions known.
Proof.
  intros Hf HP. pose proof (existing_branches_known P known ask versions w Hf HP) as He.
  unfold go_bind, found_branches. destruct (existing_branches _ _ w) as [r w'].
  simpl in He. subst r. by destruct (Filter versions known).
Qed.

(** ** The Renovate configuration *)

Definition config_entries (c : BaseComponent) (endpoint currentBranch : string)
    (config : gmap string json) : gmap string json :=
  <["repositories" := repositories_entry currentBranch (bc_Repository c)]>
  (<["gitAuthor" := JString ""]> (<["username" := JString ""]>
  (<["endpoint" := JString endpoint]> (<["platform" := JString (bc_Platform c)]> config)))).

Lemma base_assign_eq k v (w : World E) m :
  renovateBaseConfig w = Some m →
  base_assign k v w = (Ok tt, set_base (Some (<[k := v]> m)) w).
Proof. intros Hm. unfold base_assign, go_bind, go_gets, go_lift, go_modify. by rewrite Hm. Qed.

Lemma GetRenovateBaseConfig_cached (w : World E) m :
  renovateBaseConfig w = Some m → GetRenovateBaseConfig w = (Ok tt, w).
Proof. intros Hm. unfold GetRenovateBaseConfig, go_bind, go_gets. by rewrite Hm. Qed.

Lemma config_entries_encodable c endpoint branch m :
  encodable (JObject m) = true → encodable (JObject (config_entries c endpoint branch m)) = true.
Proof.
  intros Hm. unfold config_entries. do 5 (apply encodable_insert; [reflexivity|]). exact Hm.
Qed.

Lemma scm_config_cached c endpoint secret branch (w : World E) m :
  renovateBaseConfig w = Some m → encodable (JObject m) = true →
  let config := config_entries c endpoint branch (with_rules (registry_rules secret w) m) in
  ∃ text w', scm_config c (Ok endpoint) secret branch w = (Ok text, w') ∧
    json_MarshalIndent (JObject config) = inr text ∧
    renovateBaseConfig w' = Some config ∧ encodable (JObject config) = true.
Proof.
  intros Hm He config. destruct (add_host_rules_cached secret w m Hm) as (w1 & Hrules & _ & _ & Hm1).
  assert (encodable (JObject config) = true) as Hec by by apply config_entries_encodable, with_rules_encodable.
  destruct (Marshal_encodable _ Hec) as [_ [text Ht]].
  exists text, (set_base (Some config) w1). split_and!; [|done..]. unfold scm_config.
  unfold go_bind at 1. rewrite (GetRenovateBaseConfig_cached w m Hm).
  unfold go_bind at 1. rewrite Hrules.
  unfold go_bind at 1. rewrite (base_assign_eq _ _ _ _ Hm1).
  unfold go_bind at 1, go_lift at 1. cbv beta iota.
  do 4 (unfold go_bind at 1; erewrite base_assign_eq by reflexivity).
  unfold go_bind, go_gets, go_wrap, go_try, go_lift, go_make_if_nil.
  cbv beta iota. change (json_MarshalIndent _) with (json_MarshalIndent (JObject config)). by rewrite Ht.
Qed.

(** ** The token *)

Lemma scm_GetToken_spec_aux `{!EnvironmentLaws E} c (w : World E) :
  match (env_List KSecret (scm_list_options c) (w_env w)).1 with
  | inl e => ∃ e', (scm_GetToken c w).1 = Err e'
  | inr items =>
      ∃ selected, Selected (bc_Repository c) (Filter items scm_secret_usable) selected ∧
        match selected with
        | Some secret =>
            (scm_GetToken c w).1 = Ok (go_index "" (sec_Data secret) BasicAuthPasswordKey)
        | None => ∃ e', (scm_GetToken c w).1 = Err e'
        end
  end.
Proof.
  unfold scm_GetToken, lookupSecret, go_wrap, client_List, request, go_bind, go_try, go_ret, go_fail.
  destruct (env_List KSecret (scm_list_options c) (w_env w)) as [[e|items] e1];
    cbn [of_sum fst]; [eauto|].
  destruct (Filter items scm_secret_usable) as [|s l] eqn:Hl.
  - exists None. split; [by apply sel_none|]. simpl. eauto.
  - match goal with |- context [select_secret _ _ ?w0] =>
      destruct (select_secret_Selected (bc_Repository c) (s :: l) w0) as (r & e3 & -> & HS) end.
    exists r. split; [done|]. destruct r as [secret|]; simpl; eauto.
Qed.

(** The token of a GitLab or Forgejo component is the password of the secret the
    selection rule picks among the basic-auth secrets of the host; without one, and
    when the secrets cannot be listed, the call fails. *)
Theorem scm_GetToken_spec `{!EnvironmentLaws E} c (w : World E) :
  match (env_List KSecret (scm_list_options c) (w_env w)).1 with
  | inl e => ∃ e', (scm_GetToken c w).1 = Err e'
  | inr items =>
      ∃ selected, Selected (bc_Repository c) (Filter items scm_secret_usable) selected ∧
        match selected with
        | Some secret =>
            (scm_GetToken c w).1 = Ok (go_index "" (sec_Data secret) BasicAuthPasswordKey)
        | None => ∃ e', (scm_GetToken c w).1 = Err e'
        end
  end.
Proof. apply scm_GetToken_spec_aux. Qed.
End Scm.

(** ** Example *)

Definition scm_secret (name repository token : string) : Secret :=
  MkSecret
    (MkMeta name "tenant"
       (Some {["appstudio.redhat.com/credentials" := "scm";
               "appstudio.redhat.com/scm.host" := "gitlab.com"]})
       (Some {[RepositoryAnnotation := repository]}) [] [])
    SecretTypeBasicAuth (Some {[BasicAuthPasswordKey := token]}) None.

Definition scm_objs (k : Kind) : list (obj k) :=
  match k with
  | KSecret => [scm_secret "anywhere" "" "t0"; scm_secret "wild" "team/*" "t1";
                scm_secret "exact" "team/group/repo/,/else/where" "t2"]
  | _ => []
  end.

Lemma scm_GetToken_spec_witness :
  (scm_GetToken rpm_component (start (cluster_with scm_objs))).1 = Ok "t2" ∧
  ∃ selected, Selected (bc_Repository rpm_component) (Filter (scm_objs KSecret) scm_secret_usable)
                (Some selected) ∧
              Ok "t2" = Ok (go_index "" (sec_Data selected) BasicAuthPasswordKey).
Proof.
  assert ((scm_GetToken rpm_component (start (cluster_with scm_objs))).1 = Ok "t2") as Ht
    by (vm_compute; reflexivity).
  split; [exact Ht|].
  pose proof (scm_GetToken_spec rpm_component (start (cluster_with scm_objs))) as H.
  assert ((env_List KSecret (scm_list_options rpm_component)
             (w_env (start (cluster_with scm_objs)))).1 = inr (scm_objs KSecret)) as Hl
    by (vm_compute; reflexivity).
  rewrite Hl, Ht in H. destruct H as ([selected|] & Hsel & Hr).
  - exists selected. exact (conj Hsel Hr).
  - destruct Hr as (e' & He'). discriminate He'.
Defined.
