(* ===== verification/Gitlab.v ===== *)
(** * internal/component/gitlab

    The GitLab component of [gitlab.go]: its branches, its token and its Renovate
    configuration. *)

From S2P Require Import Prelude GoStrings Slices Json Kube World GitComponent Sample GoUrl GitUrl.
From S2P Require Import SecretSelect Base Scm.
From Stdlib Require Import Ascii.

Section Gitlab.
Context {E : Type} `{Environment E} `{Libraries}.

Definition GetAPIEndpoint (c : BaseComponent) : string := "https://" +:+ bc_Host c +:+ "/api/v4/".

(** The client, as the token and the address it was made with. *)
Definition getClient (c : BaseComponent) : M E (string * string) :=
  let! token := go_wrap (wrap "failed to get GitLab token: ") (scm_GetToken c) in
  let! u := go_wrap (wrap "failed to parse git url: ") (go_lift (Parse parseIPLiteral (bc_GitURL c))) in
  let baseUrl := Scheme u +:+ "://" +:+ bc_Host c in
  let! _ := go_wrap (wrap "failed to create GitLab client: ")
              (api_call (GitlabNewClient token baseUrl)) in
  go_ret (token, baseUrl).

Definition getDefaultBranch (c : BaseComponent) : M E string :=
  let! client := go_wrap (wrap "failed to get GitLab client: ") (getClient c) in
  let! project := api_call (GitlabGetProject client.1 client.2 (bc_Repository c)) in
  match project with
  | None => go_fail (Errorf "project info is empty in GitLab API response")
  | Some defaultBranch => go_ret defaultBranch
  end.

Definition GetBranches (c : BaseComponent) : M E (list string) :=
  if bool_decide (bc_Versions c = []) && bc_OldCRDVersion c then
    let! defaultBranch :=
      go_wrap (wrap "component does not have a branch specified and failed to get default branch: ")
        (getDefaultBranch c) in
    go_ret [defaultBranch]
  else
    let! client := go_wrap (wrap "failed to get GitLab client: ") (getClient c) in
    let! branches := existing_branches (bc_Versions c) (λ version,
      api_call (GitlabGetBranch client.1 client.2 (bc_Repository c) version)) in
    some_branches branches.

Definition GetRenovateConfig (c : BaseComponent) (registrySecret : option Secret)
    (currentBranch : string) : M E string :=
  scm_config c (Ok (GetAPIEndpoint c)) registrySecret currentBranch.

Definition gitlab_component (c : BaseComponent) : GitComponent E :=
  embed_base c (scm_GetToken c) (GetBranches c) (Ok (GetAPIEndpoint c)) (GetRenovateConfig c).

Definition NewComponent (comp : Component) (giturl : string) (versions : list string)
    (oldCRDVersion : bool) : M E (GitComponent E) :=
  let! c := go_lift (new_base comp giturl versions oldCRDVersion) in
  go_ret (gitlab_component c).

#[export] Instance getClient_reads c : read_only (getClient c).
Proof. unfold getClient. solve_frame. Qed.
#[export] Instance getDefaultBranch_reads c : read_only (getDefaultBranch c).
Proof. unfold getDefaultBranch. solve_frame. Qed.
#[export] Instance GetBranches_reads c : read_only (GetBranches c).
Proof. unfold GetBranches. solve_frame. Qed.
#[export] Instance GetRenovateConfig_reads c secret branch : read_only (GetRenovateConfig c secret branch).
Proof. unfold GetRenovateConfig. apply _. Qed.

#[export] Instance gitlab_component_laws c : GitComponentLaws (gitlab_component c).
Proof. split; intros; simpl; apply _. Qed.

(** ** Theorems *)

(** A component whose URL is in the SSH form [user@host:path], which the rest of
    the code accepts, never gets a client: the URL is parsed as an HTTP one, and that
    fails.  Hence no branch of such a component is ever processed. *)
Theorem ssh_component_has_no_branches c user path (w : World E) branches :
  bc_GitURL c = user +:+ "@" +:+ bc_Host c +:+ ":" +:+ path →
  plain_host user → plain_host (bc_Host c) → Forall (λ b, path_byte b = true) (explode path) →
  (GetBranches c w).1 ≠ Ok branches.
Proof.
  intros Hurl Hu Hh Hp Hb.
  destruct (Parse_ssh_fails parseIPLiteral user (bc_Host c) path Hu Hh Hp) as (e & He).
  rewrite <-Hurl in He.
  assert (∀ w cl w', getClient c w ≠ (Ok cl, w')) as Hno.
  { intros w0 cl w' (token & w1 & _ & H1)%go_bind_ok.
    apply go_bind_ok in H1 as (u & w2 & H2 & _).
    unfold go_wrap, go_try, go_lift in H2. rewrite He in H2. discriminate H2. }
  destruct (GetBranches c w) as [r w'] eqn:HG. simpl in Hb. subst r.
  unfold GetBranches in HG. destruct (bool_decide _ && _).
  - apply go_bind_ok in HG as (b & w1 & HG & _). unfold go_wrap, go_try in HG.
    destruct (getDefaultBranch c w) as [[d| |] w2] eqn:HD; [|done..].
    apply go_bind_ok in HD as (cl & w3 & HD & _). unfold go_wrap, go_try in HD.
    destruct (getClient c w) as [[cl'| |] w4] eqn:HC; [|done..]. by apply Hno in HC.
  - apply go_bind_ok in HG as (cl & w1 & HG & _). unfold go_wrap, go_try in HG.
    destruct (getClient c w) as [[cl'| |] w4] eqn:HC; [|done..]. by apply Hno in HC.
Qed.

(** The branches of a component that names its versions, or uses the new form of
    the resource: those of its versions the forge knows, in the order and with the
    repetitions of the resource; an error when there is none. *)
Theorem gitlab_GetBranches_spec P known c client (w w1 : World E) :
  bc_Versions c ≠ [] ∨ bc_OldCRDVersion c = false →
  getClient c w = (Ok client, w1) → P (w_env w1) →
  forge_knows P known (GitlabGetBranch client.1 client.2 (bc_Repository c)) →
  (GetBranches c w).1 = found_branches (bc_Versions c) known.
Proof.
  intros Hv Hc HP Hforge. unfold GetBranches.
  replace (bool_decide _ && bc_OldCRDVersion c) with false.
  2: { symmetry. apply andb_false_iff. destruct Hv as [Hv|Hv]; [left|by right].
       by apply bool_decide_eq_false_2. }
  unfold go_bind at 1, go_wrap, go_try at 1. rewrite Hc. unfold go_ret at 1. cbv beta iota.
  by apply (branches_loop P).
Qed.

(** C28.  The Renovate configuration, once the cluster's is cached: the cached entries
    with those of the component on top, and the host rules of the registry secret if
    it has any.  It is always written, it is also the new value of the cache, and who
    reads the text finds the same entries. *)
Theorem GetRenovateConfig_spec c secret branch (w : World E) m :
  renovateBaseConfig w = Some m → encodable (JObject m) = true →
  ∃ config text w',
    GetRenovateConfig c secret branch w = (Ok text, w') ∧
    (survives config → Unmarshal_map text = Ok (Some config)) ∧
    renovateBaseConfig w' = Some config ∧ encodable (JObject config) = true ∧
    config !! "platform" = Some (JString (bc_Platform c)) ∧
    config !! "endpoint" = Some (JString ("https://" +:+ bc_Host c +:+ "/api/v4/")) ∧
    config !! "repositories" = Some (repositories_entry branch (bc_Repository c)) ∧
    config !! "hostRules" =
      match registry_rules secret w with
      | [] => m !! "hostRules"
      | rules => Some (json_of_rules rules)
      end ∧
    ∀ k, k ∉ ["platform"; "endpoint"; "username"; "gitAuthor"; "repositories"; "hostRules"] →
         config !! k = m !! k.
Proof.
  intros Hm He.
  destruct (scm_config_cached c (GetAPIEndpoint c) secret branch w m Hm He) as (text & w' & Hw & Ht & Hb & Hec).
  eexists _, text, w'. split; [exact Hw|]. split; [by apply MarshalIndent_survives|].
  split; [exact Hb|]. split; [exact Hec|]. unfold config_entries.
  split_and!; [by simplify_map_eq..| |].
  - rewrite !lookup_insert_ne by done. unfold with_rules.
    by destruct (registry_rules secret w); simplify_map_eq.
  - intros k Hk. rewrite !lookup_insert_ne by set_solver. unfold with_rules.
    destruct (registry_rules secret w); [done|]. by rewrite lookup_insert_ne by set_solver.
Qed.

End Gitlab.

(** ** Examples *)

Definition ssh_component : BaseComponent :=
  MkBase "comp" "tenant" "app" "gitlab" "gitlab.com" "git@gitlab.com:team/repo.git" "team/repo"
    ["main"] false.

Lemma ssh_component_has_no_branches_witness :
  GetGitHost parseIPLiteral (bc_GitURL ssh_component) = Ok "gitlab.com" ∧
  (GetBranches ssh_component (start (cluster_with scm_objs))).1 ≠ Ok ["main"].
Proof.
  split; [vm_compute; reflexivity|].
  apply (ssh_component_has_no_branches ssh_component "git" "team/repo.git").
  - reflexivity.
  - split; [discriminate|repeat constructor].
  - split; [discriminate|repeat constructor].
  - repeat constructor.
Defined.

(** A GitLab that knows the branches [main] and [dev]. *)
Definition known_branch (version : string) : bool :=
  bool_decide (version = "main") || bool_decide (version = "dev").

Definition gitlab_api (A : Type) (q : ApiRequest A) : A :=
  match q in ApiRequest A return A with
  | GitlabNewClient _ _ => inr tt
  | GitlabGetBranch _ _ _ branch =>
      if known_branch branch then inr tt else inl (Errorf "404 Branch Not Found")
  | q => no_api _ q
  end.

Definition gitlab_start : World Cluster :=
  set_base (Some ∅) (start (MkCluster scm_objs 0 0 gitlab_api)).

Definition versions_component : BaseComponent :=
  MkBase "comp" "tenant" "app" "gitlab" "gitlab.com" "https://gitlab.com/team/repo" "team/repo"
    ["main"; "v1.0"; "dev"] false.

Lemma gitlab_GetBranches_spec_witness :
  (GetBranches versions_component gitlab_start).1 = Ok ["main"; "dev"].
Proof.
  destruct (getClient versions_component gitlab_start) as [r w1] eqn:Hc.
  assert (r = Ok ("t1", "https://gitlab.com")) as Hr
    by (change r with ((r, w1).1); rewrite <-Hc; vm_compute; reflexivity).
  assert (cl_api (w_env w1) = gitlab_api) as Hw
    by (change w1 with ((r, w1).2); rewrite <-Hc; vm_compute; reflexivity).
  subst r. rewrite (gitlab_GetBranches_spec (λ e, cl_api e = gitlab_api) known_branch versions_component
                      ("t1", "https://gitlab.com") gitlab_start w1).
  - vm_compute. reflexivity.
  - left. discriminate.
  - exact Hc.
  - exact Hw.
  - intros version e He. split; [exact He|]. cbn. rewrite He. cbn.
    destruct (known_branch version); reflexivity.
Defined.

Lemma GetRenovateConfig_spec_witness :
  ∃ config text w',
    GetRenovateConfig versions_component (Some docker_secret) "main" gitlab_start = (Ok text, w') ∧
    renovateBaseConfig w' = Some config.
Proof.
  destruct (GetRenovateConfig_spec versions_component (Some docker_secret) "main" gitlab_start ∅)
    as (config & text & w' & Hw & _ & Hb & _); [reflexivity..|].
  exists config, text, w'. exact (conj Hw Hb).
Defined.

