(* ===== verification/Forgejo.v ===== *)
(** * internal/component/forgejo

    The Forgejo component of [forgejo.go]. *)

From S2P Require Import Prelude GoStrings Slices Json Kube World GitComponent Sample GoUrl GitUrl.
From S2P Require Import SecretSelect Base Scm.
From Stdlib Require Import Ascii.

Section Forgejo.
Context {E : Type} `{Environment E} `{Libraries}.

(** The package's own copies of the code the two packages share. *)
Definition lookupSecret (c : BaseComponent) : M E Secret := Scm.lookupSecret c.
Definition GetToken (c : BaseComponent) : M E string := scm_GetToken c.

#[export] Instance GetToken_reads c : read_only (GetToken c).
Proof. unfold GetToken. apply _. Qed.

Definition scheme (c : BaseComponent) : result string :=
  match Parse parseIPLiteral (bc_GitURL c) with
  | Ok u => Ok (if decide (Scheme u = "") then "https" else Scheme u)
  | Err _ => Ok "https"
  | Panic p => Panic p
  end.

Definition GetAPIEndpoint (c : BaseComponent) : result string :=
  s ← scheme c; Ok (s +:+ "://" +:+ bc_Host c +:+ "/api/v1/").

Definition getClient (c : BaseComponent) : M E (string * string) :=
  let! token := go_wrap (wrap "failed to get Forgejo token: ") (GetToken c) in
  let! s := go_lift (scheme c) in
  let baseURL := s +:+ "://" +:+ bc_Host c in
  let! _ := go_wrap (wrap "failed to create Forgejo client: ")
              (api_call (GiteaNewClient token baseURL)) in
  go_ret (token, baseURL).

Definition getOwnerAndRepo (c : BaseComponent) : result (string * string) :=
  match SplitN2 (bc_Repository c) "/"%char with
  | [owner; repo] =>
      if bool_decide (owner = "") || bool_decide (repo = "")
      then Err (Errorf ("invalid repository format " +:+ fmt_q (bc_Repository c)
                        +:+ " (expected owner/repo)"))
      else Ok (owner, repo)
  | _ => Err (Errorf ("invalid repository format " +:+ fmt_q (bc_Repository c)
                      +:+ " (expected owner/repo)"))
  end.

Definition getDefaultBranch (c : BaseComponent) : M E string :=
  let! client := go_wrap (wrap "failed to get Forgejo client: ") (getClient c) in
  let! or := go_lift (getOwnerAndRepo c) in
  let! repository := go_wrap (wrap "failed to get repo: ")
                       (api_call (GiteaGetRepo client.1 client.2 or.1 or.2)) in
  match repository with
  | None | Some "" => go_fail (Errorf "repository or default branch is empty in Forgejo API response")
  | Some defaultBranch => go_ret defaultBranch
  end.

Definition GetBranches (c : BaseComponent) : M E (list string) :=
  if bool_decide (bc_Versions c = []) && bc_OldCRDVersion c then
    let! defaultBranch :=
      go_wrap (wrap "component does not have a branch specified and failed to get default branch: ")
        (getDefaultBranch c) in
    go_ret [defaultBranch]
  else
    let! client := go_wrap (wrap "GetBranches: failed to get Forgejo client: ") (getClient c) in
    let! or := go_wrap (wrap "GetBranches: failed to get owner and repository: ")
                 (go_lift (getOwnerAndRepo c)) in
    let! branches := existing_branches (bc_Versions c) (λ version,
      api_call (GiteaGetRepoBranch client.1 client.2 or.1 or.2 version)) in
    some_branches branches.

Definition GetRenovateConfig (c : BaseComponent) (registrySecret : option Secret)
    (currentBranch : string) : M E string :=
  scm_config c (GetAPIEndpoint c) registrySecret currentBranch.

Definition forgejo_component (c : BaseComponent) : GitComponent E :=
  embed_base c (GetToken c) (GetBranches c) (GetAPIEndpoint c) (GetRenovateConfig c).

Definition NewComponent (comp : Component) (giturl : string) (versions : list string)
    (oldCRDVersion : bool) : M E (GitComponent E) :=
  let! c := go_lift (new_base comp giturl versions oldCRDVersion) in
  go_ret (forgejo_component c).

#[export] Instance getClient_reads c : read_only (getClient c).
Proof. unfold getClient. solve_frame. Qed.
#[export] Instance getDefaultBranch_reads c : read_only (getDefaultBranch c).
Proof. unfold getDefaultBranch. solve_frame. Qed.
#[export] Instance GetBranches_reads c : read_only (GetBranches c).
Proof. unfold GetBranches. solve_frame. Qed.
#[export] Instance GetRenovateConfig_reads c secret branch : read_only (GetRenovateConfig c secret branch).
Proof. unfold GetRenovateConfig. apply _. Qed.

#[export] Instance forgejo_component_laws c : GitComponentLaws (forgejo_component c).
Proof. split; intros; simpl; apply _. Qed.

(** ** Theorems *)

(** The repositories [GetOwnerAndRepo] takes apart: a name, a slash, a name that may
    contain more slashes. *)
Lemma getOwnerAndRepo_ok c owner repo :
  getOwnerAndRepo c = Ok (owner, repo) ↔
  owner ≠ "" ∧ repo ≠ "" ∧ ¬ byte_in "/" owner ∧ bc_Repository c = owner +:+ "/" +:+ repo.
Proof.
  unfold getOwnerAndRepo, SplitN2.
  destruct (Cut (bc_Repository c) "/") as [[o r]|] eqn:Hcut.
  - apply Cut_Some in Hcut as [Hs Ho]. rewrite Hs.
    destruct (bool_decide (o = "") || bool_decide (r = "")) eqn:Hb.
    + split; [done|]. intros (H1 & H2 & Hn & [-> ->]%app_sep_inj); [|done..].
      apply orb_true_iff in Hb as [Hb|Hb]; by apply bool_decide_eq_true in Hb.
    + apply orb_false_iff in Hb as [Hb1%bool_decide_eq_false Hb2%bool_decide_eq_false].
      split; [by intros [= -> ->]|].
      by intros (H1 & H2 & Hn & [-> ->]%app_sep_inj).
  - apply Cut_None in Hcut. split; [done|]. intros (_ & _ & _ & Hs).
    destruct Hcut. rewrite Hs, !byte_in_app, byte_in_cons. auto.
Qed.

(** An SSH-style URL does not fail: the forge is then spoken to over HTTPS. *)
Theorem ssh_component_endpoint c user path :
  bc_GitURL c = user +:+ "@" +:+ bc_Host c +:+ ":" +:+ path →
  plain_host user → plain_host (bc_Host c) → Forall (λ b, path_byte b = true) (explode path) →
  GetAPIEndpoint c = Ok ("https://" +:+ bc_Host c +:+ "/api/v1/").
Proof.
  intros Hurl Hu Hh Hp.
  destruct (Parse_ssh_fails parseIPLiteral user (bc_Host c) path Hu Hh Hp) as (e & He).
  unfold GetAPIEndpoint, scheme. by rewrite Hurl, He.
Qed.

(** The branches of a component that names its versions, or uses the new form of
    the resource: those of its versions the forge knows, asked for as the owner and the
    name the repository path starts with. *)
Theorem forgejo_GetBranches_spec P known c client owner repo (w w1 : World E) :
  bc_Versions c ≠ [] ∨ bc_OldCRDVersion c = false →
  getClient c w = (Ok client, w1) → P (w_env w1) →
  getOwnerAndRepo c = Ok (owner, repo) →
  forge_knows P known (GiteaGetRepoBranch client.1 client.2 owner repo) →
  (GetBranches c w).1 = found_branches (bc_Versions c) known.
Proof.
  intros Hv Hc HP Hor Hforge. unfold GetBranches.
  replace (bool_decide _ && bc_OldCRDVersion c) with false.
  2: { symmetry. apply andb_false_iff. destruct Hv as [Hv|Hv]; [left|by right].
       by apply bool_decide_eq_false_2. }
  unfold go_bind at 1, go_wrap, go_try at 1. rewrite Hc. unfold go_ret at 1. cbv beta iota.
  unfold go_bind at 1, go_try at 1, go_lift. rewrite Hor. unfold go_ret at 1. cbv beta iota.
  by apply (branches_loop P).
Qed.
End Forgejo.

(** ** Examples *)

Definition forgejo_ssh_component : BaseComponent :=
  MkBase "comp" "tenant" "app" "forgejo" "forge.example.com" "git@forge.example.com:team/repo.git"
    "team/repo" ["main"; "v1.0"; "dev"] false.

Lemma ssh_component_endpoint_witness :
  GetAPIEndpoint forgejo_ssh_component = Ok "https://forge.example.com/api/v1/".
Proof.
  apply (ssh_component_endpoint forgejo_ssh_component "git" "team/repo.git").
  - reflexivity.
  - split; [discriminate|repeat constructor].
  - split; [discriminate|repeat constructor].
  - repeat constructor.
Defined.

Definition forgejo_objs (k : Kind) : list (obj k) :=
  match k with
  | KSecret =>
      [MkSecret
        (MkMeta "forge" "tenant"
           (Some {["appstudio.redhat.com/credentials" := "scm";
                   "appstudio.redhat.com/scm.host" := "forge.example.com"]}) None [] [])
        SecretTypeBasicAuth (Some {[BasicAuthPasswordKey := "t"]}) None]
  | _ => []
  end.

Definition gitea_branch (version : string) : bool := bool_decide (version = "main").

Definition gitea_api (A : Type) (q : ApiRequest A) : A :=
  match q in ApiRequest A return A with
  | GiteaNewClient _ _ => inr tt
  | GiteaGetRepoBranch _ _ _ _ branch =>
      if gitea_branch branch then inr tt else inl (Errorf "404 Not Found")
  | q => no_api _ q
  end.

Definition forgejo_start : World Cluster := start (MkCluster forgejo_objs 0 0 gitea_api).

Lemma forgejo_GetBranches_spec_witness :
  (GetBranches forgejo_ssh_component forgejo_start).1 = Ok ["main"].
Proof.
  destruct (getClient forgejo_ssh_component forgejo_start) as [r w1] eqn:Hc.
  assert (r = Ok ("t", "https://forge.example.com")) as Hr
    by (change r with ((r, w1).1); rewrite <-Hc; vm_compute; reflexivity).
  assert (cl_api (w_env w1) = gitea_api) as Hw
    by (change w1 with ((r, w1).2); rewrite <-Hc; vm_compute; reflexivity).
  subst r. rewrite (forgejo_GetBranches_spec (λ e, cl_api e = gitea_api) gitea_branch forgejo_ssh_component
                      ("t", "https://forge.example.com") "team" "repo" forgejo_start w1).
  - vm_compute. reflexivity.
  - left. discriminate.
  - exact Hc.
  - exact Hw.
  - vm_compute. reflexivity.
  - intros version e He. split; [exact He|]. cbn. rewrite He. cbn.
    destruct (gitea_branch version); reflexivity.
Defined.
