(* ===== verification/Github.v ===== *)
(** * internal/component/github

    The GitHub component of [github.go]: the application's identity, the installation
    a repository belongs to, the installation token, and what the other packages do too.

    The installations cache appears here as one caller at a time sees it: a caller that
    finds expired data leaves a background refresh behind, which runs at some later
    point between two operations ([background]), at the latest when another caller waits
    for it.  StaleCache models the interleavings inside the cache, and CacheRefinement
    shows that what one caller sees is what an interleaving gives.

    The two loops over the pages of a listing end when the forge says so; they are
    given [page_fuel] rounds, and running out is a panic that the code does not have. *)

From S2P Require Import Prelude GoStrings GoStrconv Slices Json Kube Metrics Config TokenCache.
From S2P Require Import World GitComponent Sample GitUrl SecretSelect Base Scm.
From Stdlib Require Import Ascii.

(** The application, as the credentials every request to the API is made with. *)
Abbreviation App := (Z * option string)%type.

Record Component := MkComponent { base : BaseComponent; AppID : Z; AppPrivateKey : option string }.
Definition app_of (c : Component) : App := (AppID c, AppPrivateKey c).

(** ** Assignments to the package variables *)

Definition set_cache (c : InstallationsCache) (g : GithubState) : GithubState :=
  MkGithubState (Some c) (ghAppInstallationTokenCache g) (ghAppID g) (ghAppPrivateKey g)
    (ghUserID g) (ghAppSlug g).
Definition set_tokens (c : TokenCache) (g : GithubState) : GithubState :=
  MkGithubState (ghAppInstallationsCache g) c (ghAppID g) (ghAppPrivateKey g) (ghUserID g)
    (ghAppSlug g).
Definition set_app (app : App) (g : GithubState) : GithubState :=
  MkGithubState (ghAppInstallationsCache g) (ghAppInstallationTokenCache g) app.1 app.2
    (ghUserID g) (ghAppSlug g).
Definition set_UserID (id : Z) (g : GithubState) : GithubState :=
  MkGithubState (ghAppInstallationsCache g) (ghAppInstallationTokenCache g) (ghAppID g)
    (ghAppPrivateKey g) id (ghAppSlug g).
Definition set_AppSlug (slug : string) (g : GithubState) : GithubState :=
  MkGithubState (ghAppInstallationsCache g) (ghAppInstallationTokenCache g) (ghAppID g)
    (ghAppPrivateKey g) (ghUserID g) slug.

(** Fields of the cache. *)
Definition ic_store (key : string) (data : list AppInstallation) (c : InstallationsCache) :
    InstallationsCache :=
  MkInstallationsCache (ic_owner c) (<[key := data]> (ic_data c)) (ic_expiry c)
    (ic_refreshInProgress c).
Definition ic_set_expiry (t : Z) (c : InstallationsCache) : InstallationsCache :=
  MkInstallationsCache (ic_owner c) (ic_data c) t (ic_refreshInProgress c).
Definition ic_set_refresh (r : option string) (c : InstallationsCache) : InstallationsCache :=
  MkInstallationsCache (ic_owner c) (ic_data c) (ic_expiry c) r.

Definition refreshPeriod : Z := 120 * Minute.
Definition installations_key : string := "installations".

(** A repository of an installation, without a slash at either end. *)
Definition trim_slashes (repo : string) : string := TrimSuffix (TrimPrefix repo "/") "/".

Section Github.
Context {E : Type} `{Environment E} `{Libraries}.
Context (page_fuel : nat).

(** ** The application *)

Definition app_secret_key : NamespacedName := MkKey "mintmaker" "pipelines-as-code-secret".

Definition getAppIDAndKey : M E App :=
  let! g := go_gets w_github in
  if bool_decide (ghAppID g ≠ 0%Z) && bool_decide (is_Some (ghAppPrivateKey g))
  then go_ret (ghAppID g, ghAppPrivateKey g)
  else
    let! appSecret := client_Get KSecret app_secret_key in
    let! num := go_wrap (wrap "failed to parse GitHub APP ID: ")
                  (go_lift (ParseInt (go_index "" (sec_Data appSecret) "github-application-id"))) in
    let app := (num, go_lookup (sec_Data appSecret) "github-private-key") in
    let! _ := go_modify (set_github (set_app app)) in
    go_ret app.

(** ** Listing the installations *)

(** The repositories of an installation; a failed request ends the listing. *)
Fixpoint list_repos (fuel : nat) (app : App) (installationID page : Z)
    (repositories : list string) : M E (list string) :=
  match fuel with
  | O => go_panic "out of fuel"
  | S fuel =>
      let! r := api (GithubListRepos app.1 installationID app.2 page) in
      match r with
      | inl _ => go_ret repositories
      | inr (names, NextPage) =>
          let repositories := repositories ++ names in
          if decide (NextPage = 0%Z) then go_ret repositories
          else list_repos fuel app installationID NextPage repositories
      end
  end.

Definition fetch_installation (app : App) (installationID : Z) : M E AppInstallation :=
  let! _ := go_wrap (wrap "error creating installation transport: ")
              (api_call (GithubInstallationTransport app.1 installationID app.2)) in
  let! _ := go_wrap (wrap "failed to create GitHub installation client: ")
              (api_call GithubNewClient) in
  let! repositories := list_repos page_fuel app installationID 0 [] in
  go_ret (MkInstallation installationID repositories).

Definition installations_error (e : error) (StatusCode : option Z) : error :=
  match StatusCode with
  | Some 401%Z => Errorf "GitHub Application private key does not match Application ID"
  | Some 404%Z => Errorf "GitHub Application with given ID does not exist"
  | _ => wrap "error getting GitHub Application installations: " e
  end.

Fixpoint fetch_pages (fuel : nat) (app : App) (page : Z)
    (appInstallations : list AppInstallation) : M E (list AppInstallation) :=
  match fuel with
  | O => go_panic "out of fuel"
  | S fuel =>
      let! r := api (GithubListInstallations app.1 app.2 page) in
      match r with
      | inl (e, StatusCode) => go_fail (installations_error e StatusCode)
      | inr (installations, NextPage) =>
          let! appInstallations :=
            go_fold installations appInstallations (λ id appInstallations,
              let! appInstall := fetch_installation app id in
              go_ret (appInstallations ++ [appInstall])) in
          if decide (NextPage = 0%Z) then go_ret appInstallations
          else fetch_pages fuel app NextPage appInstallations
      end
  end.

Definition fetchAppInstallations (app : App) : M E (list AppInstallation) :=
  let! _ := api_call (GithubAppsTransport app.1 app.2) in
  let! _ := go_wrap (wrap "failed to create GitHub client: ") (api_call GithubNewClient) in
  let! _ := go_wrap (wrap "failed to load GitHub app metadata, ")
              (api_call (GithubAppsGet app.1 app.2)) in
  fetch_pages page_fuel app 0 [].

(** ** The cache of the installations *)

(** The cache, which exists when its methods are called. *)
Definition get_cache : M E InstallationsCache :=
  let! g := go_gets w_github in
  match ghAppInstallationsCache g with
  | Some c => go_ret c
  | None => go_panic "invalid memory address or nil pointer dereference"
  end.

Definition modify_cache (f : InstallationsCache → InstallationsCache) : M E unit :=
  let! c := get_cache in
  go_modify (set_github (set_cache (f c))).

Definition NewStaleAllowedCache (owner : App) : M E InstallationsCache :=
  let! now := time_Now in
  go_ret (MkInstallationsCache owner ∅ (now + refreshPeriod) None).

(** [refreshFunc], and the stores of its result when it succeeds. *)
Definition refresh (key : string) : M E (option (list AppInstallation)) :=
  let! c := get_cache in
  try! newData := fetchAppInstallations (ic_owner c) in
  match newData with
  | inl _ => go_ret None
  | inr data =>
      let! _ := modify_cache (ic_store key data) in
      let! now := time_Now in
      let! _ := modify_cache (ic_set_expiry (now + refreshPeriod)) in
      go_ret (Some data)
  end.

(** [refreshInProgress = false], and the channel that tells so. *)
Definition cleanup : M E unit := modify_cache (ic_set_refresh None).

(** The goroutine of a background refresh, if there is one. *)
Definition background : M E unit :=
  let! g := go_gets w_github in
  match ghAppInstallationsCache g with
  | Some c =>
      match ic_refreshInProgress c with
      | Some key => go_defer (let! _ := refresh key in go_ret tt) cleanup
      | None => go_ret tt
      end
  | None => go_ret tt
  end.

Definition cache_load (key : string) : M E (option (list AppInstallation)) :=
  let! c := get_cache in go_ret (ic_data c !! key).

(** [time.Now().After(expiry)]. *)
Definition expired : M E bool :=
  let! c := get_cache in
  let! now := time_Now in
  go_ret (bool_decide (ic_expiry c < now)%Z).

Definition getWithRefresh (key : string) : M E (option (list AppInstallation)) :=
  let! c := get_cache in
  match ic_refreshInProgress c with
  | Some _ =>
      let! _ := background in
      cache_load key
  | None =>
      let! value := cache_load key in
      match value with
      | Some _ =>
          let! old := expired in
          if negb old then go_ret value
          else
            let! _ := modify_cache (ic_set_refresh (Some key)) in
            go_ret value
      | None =>
          let! _ := modify_cache (ic_set_refresh (Some key)) in
          go_defer (refresh key) cleanup
      end
  end.

Definition cache_Get (key : string) : M E (option (list AppInstallation)) :=
  let! value := cache_load key in
  match value with
  | None => getWithRefresh key
  | Some _ =>
      let! old := expired in
      if negb old then go_ret value else getWithRefresh key
  end.

Definition getAppInstallations (c : Component) : M E (list AppInstallation) :=
  let! g := go_gets w_github in
  let! _ := match ghAppInstallationsCache g with
            | Some _ => go_ret tt
            | None =>
                let! cache := NewStaleAllowedCache (app_of c) in
                go_modify (set_github (set_cache cache))
            end in
  let! data := cache_Get installations_key in
  match data with
  | None => go_fail (Errorf "failed to get GitHub app installations")
  | Some appInstallations => go_ret appInstallations
  end.

(** The loops of [getInstallationID]. *)
Fixpoint find_installation (appInstallations : list AppInstallation) (repository : string) :
    option Z :=
  match appInstallations with
  | [] => None
  | installation :: rest =>
      if existsb (λ repo, bool_decide (trim_slashes repo = repository)) (Repositories installation)
      then Some (InstallationID installation)
      else find_installation rest repository
  end.

Definition getInstallationID (c : Component) : M E Z :=
  let! appInstallations := getAppInstallations c in
  match find_installation appInstallations (bc_Repository (base c)) with
  | None => go_fail (Errorf ("repository " +:+ bc_Repository (base c)
                             +:+ " not found in any GitHub App installation"))
  | Some installationID => go_ret installationID
  end.

(** ** Tokens *)

Definition tokenKey (installationID : Z) : string := "installation_" +:+ fmt_d installationID.

Definition modify_tokens (f : TokenCache → result TokenCache) : M E unit :=
  let! g := go_gets w_github in
  let! tokens := go_lift (f (ghAppInstallationTokenCache g)) in
  go_modify (set_github (set_tokens tokens)).

(** [TokenCache.Get]: the configuration and the clock are read for an entry only. *)
Definition token_Get (key : string) : M E (option TokenInfo) :=
  let! g := go_gets w_github in
  match go_lookup (entries (ghAppInstallationTokenCache g)) key with
  | None => go_ret None
  | Some _ =>
      let! cfg := config_Get in
      let! now := time_Now in
      go_ret (TokenCache.Get cfg now key (ghAppInstallationTokenCache g))
  end.

Definition new_token (c : Component) (installationID : Z) : M E string :=
  let! _ := go_wrap (wrap "error creating installation transport: ")
              (api_call (GithubInstallationTransport (AppID c) installationID (AppPrivateKey c))) in
  go_wrap (wrap "error getting installation token: ")
    (api_call (GithubInstallationToken (AppID c) installationID (AppPrivateKey c))).

(** The rest of [GetToken], for the installation found. *)
Definition installation_token (c : Component) (installationID : Z) : M E string :=
  let key := tokenKey installationID in
  let! cfg := config_Get in
  let! _ := modify_tokens (λ t, Ok (init_entries t)) in
  let! found := token_Get key in
  match found with
  | Some tokenInfo => go_ret (Token tokenInfo)
  | None =>
      let! token := new_token c installationID in
      let! now := time_Now in
      let tokenInfo := MkTokenInfo token (now + TokenTTL (GitHub cfg)) in
      let! _ := modify_tokens (Set_ key tokenInfo) in
      go_ret (Token tokenInfo)
  end.

Definition GetToken (c : Component) : M E string :=
  let! installationID := go_wrap (wrap "failed to get installation ID: ") (getInstallationID c) in
  installation_token c installationID.

(** The client, as the token it was made with. *)
Definition getClient (c : Component) : M E string :=
  let! token := go_wrap (wrap "failed to get GitHub token: ") (GetToken c) in
  let! _ := go_wrap (wrap "failed to create GitHub client: ") (api_call GithubNewClient) in
  go_ret token.

(** ** Branches *)

Definition getOwnerAndRepo (c : Component) : result (string * string) :=
  match Split (bc_Repository (base c)) "/"%char with
  | [owner; repo] => Ok (owner, repo)
  | _ => Err (Errorf ("invalid repository format: " +:+ bc_Repository (base c)))
  end.

Definition getDefaultBranch (c : Component) : M E string :=
  let! client := go_wrap (wrap "failed to get GitHub client: ") (getClient c) in
  let! or := go_wrap (wrap "failed to get owner and repository: ") (go_lift (getOwnerAndRepo c)) in
  let! repositoryInfo := go_wrap (wrap "failed to get repository information: ")
                           (api_call (GithubGetRepository client or.1 or.2)) in
  match repositoryInfo with
  | None => go_fail (Errorf "repository default branch is nil")
  | Some defaultBranch => go_ret defaultBranch
  end.

Definition GetBranches (c : Component) : M E (list string) :=
  if bool_decide (bc_Versions (base c) = []) && bc_OldCRDVersion (base c) then
    let! defaultBranch :=
      go_wrap (wrap "component does not have a branch specified and failed to get default branch: ")
        (getDefaultBranch c) in
    go_ret [defaultBranch]
  else
    let! client := go_wrap (wrap "GetBranches: failed to get GitHub client: ") (getClient c) in
    let! or := go_wrap (wrap "GetBranches: failed to get owner and repository: ")
                 (go_lift (getOwnerAndRepo c)) in
    let! branches := existing_branches (bc_Versions (base c)) (λ version,
      api_call (GithubGetBranch client or.1 or.2 version)) in
    some_branches branches.

(** ** The Renovate configuration *)

Definition GetAPIEndpoint (c : Component) : string := "https://api." +:+ bc_Host (base c) +:+ "/".

Definition getAppSlug : M E string :=
  let! g := go_gets w_github in
  if decide (ghAppSlug g ≠ "") then go_ret (ghAppSlug g)
  else
    let! app := getAppIDAndKey in
    let! _ := api_call (GithubAppsTransport app.1 app.2) in
    let! _ := go_wrap (wrap "failed to create GitHub client: ") (api_call GithubNewClient) in
    let! slug := go_wrap (wrap "failed to load GitHub app metadata, ")
                   (api_call (GithubAppsGet app.1 app.2)) in
    let! _ := go_modify (set_github (set_AppSlug slug)) in
    go_ret slug.

Definition getUserId (username : string) : M E Z :=
  let! g := go_gets w_github in
  if decide (ghUserID g ≠ 0%Z) then go_ret (ghUserID g)
  else
    let! _ := go_wrap (wrap "failed to create GitHub client: ") (api_call GithubNewClient) in
    let! id := go_wrap (wrap "failed to get user information: ")
                 (api_call (GithubUsersGet username)) in
    let! _ := go_modify (set_github (set_UserID id)) in
    go_ret id.

Definition gitAuthor (appSlug : string) (botId : Z) : string :=
  appSlug +:+ " <" +:+ fmt_d botId +:+ "+" +:+ appSlug +:+ "[bot]@users.noreply.github.com>".

Definition GetRenovateConfig (c : Component) (registrySecret : option Secret)
    (currentBranch : string) : M E string :=
  let! _ := GetRenovateBaseConfig in
  let! _ := add_host_rules registrySecret in
  let! appSlug := getAppSlug in
  let! botId := getUserId (appSlug +:+ "[bot]") in
  let! _ := base_assign "gitAuthor" (JString (gitAuthor appSlug botId)) in
  let! _ := base_assign "username" (JString (appSlug +:+ "[bot]")) in
  let! _ := base_assign "platform" (JString (bc_Platform (base c))) in
  let! _ := base_assign "endpoint" (JString (GetAPIEndpoint c)) in
  let! _ := base_assign "repositories" (repositories_entry currentBranch (bc_Repository (base c))) in
  let! baseConfig := go_gets renovateBaseConfig in
  go_lift (of_sum (json_MarshalIndent (JObject (go_make_if_nil baseConfig)))).

(** ** The component *)

Definition github_component (c : Component) : GitComponent E :=
  embed_base (base c) (GetToken c) (GetBranches c) (Ok (GetAPIEndpoint c)) (GetRenovateConfig c).

Definition NewComponent (comp : Kube.Component) (giturl : string) (versions : list string)
    (oldCRDVersion : bool) : M E (GitComponent E) :=
  let! app := go_wrap (wrap "failed to get GitHub APP ID and private key: ") getAppIDAndKey in
  let! b := go_lift (new_base comp giturl versions oldCRDVersion) in
  go_ret (github_component (MkComponent b app.1 app.2)).

(** ** Frames *)

#[export] Instance getAppIDAndKey_reads : read_only getAppIDAndKey.
Proof. unfold getAppIDAndKey. solve_frame. Qed.
#[export] Instance list_repos_reads fuel app id page repos :
  read_only (list_repos fuel app id page repos).
Proof. revert page repos. induction fuel as [|fuel IH]; intros page repos; simpl; solve_frame. Qed.
#[export] Instance fetch_installation_reads app id : read_only (fetch_installation app id).
Proof. unfold fetch_installation. solve_frame. Qed.
#[export] Instance fetch_pages_reads fuel app page l : read_only (fetch_pages fuel app page l).
Proof. revert page l. induction fuel as [|fuel IH]; intros page l; simpl; solve_frame. Qed.
#[export] Instance fetchAppInstallations_reads app : read_only (fetchAppInstallations app).
Proof. unfold fetchAppInstallations. solve_frame. Qed.
#[export] Instance get_cache_reads : read_only get_cache.
Proof. unfold get_cache. solve_frame. Qed.
#[export] Instance modify_cache_reads f : read_only (modify_cache f).
Proof. unfold modify_cache. solve_frame. Qed.
#[export] Instance refresh_reads key : read_only (refresh key).
Proof. unfold refresh. solve_frame. Qed.
#[export] Instance background_reads : read_only background.
Proof. unfold background, cleanup. solve_frame. Qed.
#[export] Instance cache_load_reads key : read_only (cache_load key).
Proof. unfold cache_load. solve_frame. Qed.
#[export] Instance expired_reads : read_only expired.
Proof. unfold expired. solve_frame. Qed.
#[export] Instance getWithRefresh_reads key : read_only (getWithRefresh key).
Proof. unfold getWithRefresh, cleanup. solve_frame. Qed.
#[export] Instance cache_Get_reads key : read_only (cache_Get key).
Proof. unfold cache_Get. solve_frame. Qed.
#[export] Instance getAppInstallations_reads c : read_only (getAppInstallations c).
Proof. unfold getAppInstallations, NewStaleAllowedCache. solve_frame. Qed.
#[export] Instance getInstallationID_reads c : read_only (getInstallationID c).
Proof. unfold getInstallationID. solve_frame. Qed.
#[export] Instance modify_tokens_reads f : read_only (modify_tokens f).
Proof. unfold modify_tokens. solve_frame. Qed.
#[export] Instance token_Get_reads key : read_only (token_Get key).
Proof. unfold token_Get. solve_frame. Qed.
#[export] Instance installation_token_reads c id : read_only (installation_token c id).
Proof. unfold installation_token, new_token. solve_frame. Qed.
#[export] Instance GetToken_reads c : read_only (GetToken c).
Proof. unfold GetToken. solve_frame. Qed.
#[export] Instance getClient_reads c : read_only (getClient c).
Proof. unfold getClient. solve_frame. Qed.
#[export] Instance getDefaultBranch_reads c : read_only (getDefaultBranch c).
Proof. unfold getDefaultBranch. solve_frame. Qed.
#[export] Instance GetBranches_reads c : read_only (GetBranches c).
Proof. unfold GetBranches. solve_frame. Qed.
#[export] Instance getAppSlug_reads : read_only getAppSlug.
Proof. unfold getAppSlug. solve_frame. Qed.
#[export] Instance getUserId_reads username : read_only (getUserId username).
Proof. unfold getUserId. solve_frame. Qed.
#[export] Instance GetRenovateConfig_reads c secret branch :
  read_only (GetRenovateConfig c secret branch).
Proof. unfold GetRenovateConfig. solve_frame. Qed.

#[export] Instance github_component_laws c : GitComponentLaws (github_component c).
Proof. split; intros; simpl; apply _. Qed.
End Github.
