(* ===== verification/GithubFetch.v ===== *)
(** * internal/component/github: listing the installations

    The two nested page loops of [fetchAppInstallations], against a GitHub that serves
    its listings in pages: with enough fuel they end, and the result has every
    installation of every page with the repositories of all its pages.  The choice of
    the installation of a repository follows. *)

From S2P Require Import Prelude GoStrings Json Kube Config TokenCache World GitComponent Sample.
From S2P Require Import Base Scm Github.
From Stdlib Require Import Ascii.

(** ** Pages *)

(** Page [page] of a listing: its entries, and the number of the next page, 0 at the
    end.  Page 0 is another name of page 1. *)
Definition paged {X} (pages : list (list X)) (page : Z) : list X * Z :=
  let i := Z.to_nat (page - 1) in
  (default [] (pages !! i), if bool_decide (S i < length pages) then Z.of_nat (S (S i)) else 0%Z).

(** What an application can see: its installations, in pages, and the repositories of
    each, or nothing when it lacks the permission. *)
Record Hub := MkHub {
  hub_installations : list (list Z);
  hub_repos : Z → option (list (list string))
}.

Definition hub_listing (hub : Hub) : list AppInstallation :=
  (λ id, MkInstallation id (concat (default [] (hub_repos hub id)))) <$> concat (hub_installations hub).

(** The rounds its longest listing takes. *)
Definition enough_fuel (hub : Hub) (fuel : nat) : Prop :=
  0 < fuel ∧ length (hub_installations hub) ≤ fuel ∧
  ∀ id pages, hub_repos hub id = Some pages → length pages ≤ fuel.

Section Fetch.
Context {E : Type} `{Environment E} `{Libraries}.

(** As long as [P] holds of the surroundings, which no request changes, GitHub answers
    the requests of an application from [hub]. *)
Record github_serves (P : E → Prop) (app : App) (hub : Hub) : Prop := {
  serves_app e : P e →
    (env_api (GithubAppsTransport app.1 app.2) e).1 = inr tt ∧
    P (env_api (GithubAppsTransport app.1 app.2) e).2;
  serves_client e : P e →
    (env_api GithubNewClient e).1 = inr tt ∧ P (env_api GithubNewClient e).2;
  serves_metadata e : P e →
    (∃ slug, (env_api (GithubAppsGet app.1 app.2) e).1 = inr slug) ∧
    P (env_api (GithubAppsGet app.1 app.2) e).2;
  serves_installations e page : P e →
    (env_api (GithubListInstallations app.1 app.2 page) e).1 = inr (paged (hub_installations hub) page) ∧
    P (env_api (GithubListInstallations app.1 app.2 page) e).2;
  serves_transport e id : P e →
    (env_api (GithubInstallationTransport app.1 id app.2) e).1 = inr tt ∧
    P (env_api (GithubInstallationTransport app.1 id app.2) e).2;
  serves_repos e id page : P e →
    match hub_repos hub id with
    | Some pages => (env_api (GithubListRepos app.1 id app.2 page) e).1 = inr (paged pages page)
    | None => ∃ err, (env_api (GithubListRepos app.1 id app.2 page) e).1 = inl err
    end ∧
    P (env_api (GithubListRepos app.1 id app.2 page) e).2
}.

Context (P : E → Prop) (app : App) (hub : Hub) (Hs : github_serves P app hub).

(** Running code that only moves the surroundings, within [P]. *)
Definition quiet {A} (m : M E A) (w : World E) (r : result A) : Prop :=
  ∃ e', m w = (r, set_env e' w) ∧ P e'.

Lemma quiet_ret {A} (a : A) w : P (w_env w) → quiet (go_ret a) w (Ok a).
Proof. intros HP. exists (w_env w). by destruct w. Qed.

Lemma quiet_bind {A B} (m : M E A) (k : A → M E B) w a r :
  quiet m w (Ok a) → (∀ e', P e' → quiet (k a) (set_env e' w) r) → quiet (go_bind m k) w r.
Proof.
  intros (e1 & Hm & HP) Hk. destruct (Hk e1 HP) as (e2 & Hk' & HP2).
  exists e2. unfold go_bind. rewrite Hm. split; [exact Hk'|done].
Qed.

Lemma quiet_api {A} (q : ApiRequest A) w a :
  (env_api q (w_env w)).1 = a ∧ P (env_api q (w_env w)).2 → quiet (api q) w (Ok a).
Proof.
  intros [Ha HP]. unfold quiet, api. destruct (env_api q (w_env w)) as [x e']. simpl in *.
  exists e'. by subst.
Qed.

Lemma quiet_api_call {A} (q : ApiRequest (error + A)) w a :
  (env_api q (w_env w)).1 = inr a ∧ P (env_api q (w_env w)).2 → quiet (api_call q) w (Ok a).
Proof.
  intros Hq. unfold api_call. eapply quiet_bind; [by apply quiet_api|].
  intros e' HP'. exists e'. split; [|done]. unfold go_lift. simpl. by destruct w.
Qed.

Lemma quiet_wrap {A} f (m : M E A) w a : quiet m w (Ok a) → quiet (go_wrap f m) w (Ok a).
Proof. intros (e' & Hm & HP). exists e'. unfold go_wrap, go_try. by rewrite Hm. Qed.

(** ** The repositories of an installation *)

Lemma list_repos_pages id pages fuel i page acc w :
  P (w_env w) → hub_repos hub id = Some pages →
  i = Z.to_nat (page - 1) → 0 < fuel → length pages ≤ fuel + i →
  quiet (list_repos fuel app id page acc) w (Ok (acc ++ concat (drop i pages))).
Proof.
  intros HP Hid. revert i page acc w HP.
  induction fuel as [|fuel IH]; intros i page acc w HP Hi Hf Hlen; [lia|]. cbn [list_repos].
  destruct (serves_repos _ _ _ Hs _ id page HP) as [Hr HP']. rewrite Hid in Hr.
  eapply quiet_bind; [by apply quiet_api|]. intros e' He'. unfold paged. rewrite <-Hi.
  case_bool_decide as Hnext.
  - rewrite decide_False by lia.
    destruct (lookup_lt_is_Some_2 pages i) as [names Hn]; [lia|]. rewrite Hn. simpl default.
    rewrite (drop_S pages names i Hn), concat_cons, app_assoc.
    apply (IH (S i)); [done|lia|lia|lia].
  - rewrite decide_True by done. destruct (pages !! i) as [names|] eqn:Hn; simpl default.
    + rewrite (drop_S pages names i Hn), drop_ge by lia. simpl. rewrite app_nil_r. by apply quiet_ret.
    + rewrite drop_ge by by apply lookup_ge_None. by apply quiet_ret.
Qed.

Lemma list_repos_denied id fuel page acc w :
  P (w_env w) → hub_repos hub id = None → 0 < fuel →
  quiet (list_repos fuel app id page acc) w (Ok acc).
Proof.
  intros HP Hid Hf. destruct fuel as [|fuel]; [lia|]. cbn [list_repos].
  destruct (serves_repos _ _ _ Hs _ id page HP) as [Hr HP']. rewrite Hid in Hr.
  destruct Hr as [err Herr].
  eapply quiet_bind; [by apply quiet_api|]. intros e' He'. by apply quiet_ret.
Qed.

Lemma fetch_installation_listed fuel id w :
  P (w_env w) → enough_fuel hub fuel →
  quiet (fetch_installation fuel app id) w
    (Ok (MkInstallation id (concat (default [] (hub_repos hub id))))).
Proof.
  intros HP (Hpos & _ & Hrepos). unfold fetch_installation.
  eapply quiet_bind; [by apply quiet_wrap, quiet_api_call, Hs|]. intros e1 He1.
  eapply quiet_bind; [by apply quiet_wrap, quiet_api_call, Hs|]. intros e2 He2.
  eapply (quiet_bind _ _ _ (concat (default [] (hub_repos hub id)))); [|intros; by apply quiet_ret].
  destruct (hub_repos hub id) as [pages|] eqn:Hid.
  - apply (list_repos_pages id pages fuel 0 0 []); [done..|]. specialize (Hrepos _ _ Hid). lia.
  - by apply list_repos_denied.
Qed.

(** ** The installations *)

Abbreviation listed := (λ id, MkInstallation id (concat (default [] (hub_repos hub id)))).

Lemma fetch_each fuel ids acc w :
  P (w_env w) → enough_fuel hub fuel →
  quiet (go_fold ids acc (λ id appInstallations,
           let! appInstall := fetch_installation fuel app id in
           go_ret (appInstallations ++ [appInstall]))) w (Ok (acc ++ (listed <$> ids))).
Proof.
  intros HP Hf. revert acc w HP. induction ids as [|id ids IH]; intros acc w HP; simpl go_fold.
  - simpl. rewrite app_nil_r. by apply quiet_ret.
  - eapply (quiet_bind _ _ _ (acc ++ [listed id])).
    + eapply quiet_bind; [by apply fetch_installation_listed|]. intros. by apply quiet_ret.
    + intros e' He'. replace (acc ++ (listed <$> id :: ids))
        with ((acc ++ [listed id]) ++ (listed <$> ids)) by (by rewrite <-app_assoc).
      by apply IH.
Qed.

Lemma fetch_pages_listed full fuel i page acc w :
  P (w_env w) → enough_fuel hub full →
  i = Z.to_nat (page - 1) → 0 < fuel → length (hub_installations hub) ≤ fuel + i →
  quiet (fetch_pages full fuel app page acc) w
    (Ok (acc ++ (listed <$> concat (drop i (hub_installations hub))))).
Proof.
  intros HP Hfull. revert i page acc w HP.
  induction fuel as [|fuel IH]; intros i page acc w HP Hi Hf Hlen; [lia|]. cbn [fetch_pages].
  eapply quiet_bind; [apply quiet_api, (serves_installations _ _ _ Hs _ page HP)|].
  intros e1 He1. unfold paged at 1. rewrite <-Hi. set (pages := hub_installations hub) in *.
  eapply quiet_bind; [by apply fetch_each|]. intros e2 He2.
  case_bool_decide as Hnext.
  - rewrite decide_False by lia.
    destruct (lookup_lt_is_Some_2 pages i) as [ids Hn]; [lia|]. rewrite Hn. simpl default.
    rewrite (drop_S pages ids i Hn), concat_cons, fmap_app, app_assoc.
    apply (IH (S i)); [done|lia|lia|lia].
  - rewrite decide_True by done. destruct (pages !! i) as [ids|] eqn:Hn; simpl default.
    + rewrite (drop_S pages ids i Hn), drop_ge by lia. simpl. rewrite app_nil_r. by apply quiet_ret.
    + rewrite drop_ge by by apply lookup_ge_None. by apply quiet_ret.
Qed.

Lemma fetch_complete fuel (w : World E) :
  P (w_env w) → enough_fuel hub fuel →
  ∃ e', fetchAppInstallations fuel app w = (Ok (hub_listing hub), set_env e' w) ∧ P e'.
Proof.
  intros HP Hf. change (quiet (fetchAppInstallations fuel app) w (Ok (hub_listing hub))).
  unfold fetchAppInstallations.
  eapply quiet_bind; [by apply quiet_api_call, Hs|]. intros e1 He1.
  eapply quiet_bind; [by apply quiet_wrap, quiet_api_call, Hs|]. intros e2 He2.
  destruct (serves_metadata _ _ _ Hs e2 He2) as [[slug Hslug] He3].
  eapply quiet_bind; [by apply quiet_wrap, quiet_api_call|]. intros e4 He4.
  destruct Hf as (Hpos & Hlen & Hrepos).
  apply (fetch_pages_listed fuel fuel 0 0 []); [done|by split_and!|done|done|lia].
Qed.

(** C13.  With enough rounds for the longest listing, fetching the installations of an
    application ends and returns every installation GitHub lists, in order, each with
    the repositories of all its pages, and none for an installation that may not be
    looked into. *)
Theorem fetchAppInstallations_complete fuel (w : World E) :
  P (w_env w) → enough_fuel hub fuel →
  ∃ e', fetchAppInstallations fuel app w = (Ok (hub_listing hub), set_env e' w) ∧ P e'.
Proof. apply fetch_complete. Qed.
End Fetch.

(** ** The installation of a repository *)

Definition lists_repo (repository : string) (installation : AppInstallation) : Prop :=
  ∃ repo, repo ∈ Repositories installation ∧ trim_slashes repo = repository.

(** The installation of a repository is the first in the listing that has it, up
    to a slash at either end of its name; there is none exactly when no installation
    has it. *)
Theorem find_installation_spec appInstallations repository :
  match find_installation appInstallations repository with
  | Some id => ∃ before installation after,
      appInstallations = before ++ installation :: after ∧
      InstallationID installation = id ∧ lists_repo repository installation ∧
      Forall (λ i, ¬ lists_repo repository i) before
  | None => Forall (λ i, ¬ lists_repo repository i) appInstallations
  end.
Proof.
  induction appInstallations as [|i l IH]; simpl; [by constructor|].
  destruct (existsb _ _) eqn:Hex.
  - apply existsb_exists in Hex as (repo & Hin & Ht). apply bool_decide_eq_true in Ht.
    exists [], i, l. split_and!; try done. exists repo. by rewrite list_elem_of_In.
  - assert (¬ lists_repo repository i) as Hi.
    { intros (repo & Hin & Ht). apply not_true_iff_false in Hex as []. apply existsb_exists.
      exists repo. rewrite <-list_elem_of_In. by rewrite bool_decide_eq_true. }
    destruct (find_installation l repository) as [id|].
    + destruct IH as (before & inst & after & -> & Hid & Hl & HF).
      exists (i :: before), inst, after. split_and!; try done. by constructor.
    + by constructor.
Qed.

(** ** Examples *)

Definition sample_hub : Hub :=
  {| hub_installations := [[11%Z; 12%Z]; [13%Z]];
     hub_repos := λ id,
       if decide (id = 11%Z) then Some [["org/a"; "org/b"]; ["org/c"]]
       else if decide (id = 12%Z) then None
       else Some [["org/d/"; "org/a"]] |}.

Definition sample_app : App := (7%Z, Some "key").

Definition hub_api (A : Type) (q : ApiRequest A) : A :=
  match q in ApiRequest A return A with
  | GithubAppsTransport _ _ => inr tt
  | GithubInstallationTransport _ _ _ => inr tt
  | GithubNewClient => inr tt
  | GithubAppsGet _ _ => inr "mintmaker"
  | GithubUsersGet _ => inr 42%Z
  | GithubListInstallations _ _ page => inr (paged (hub_installations sample_hub) page)
  | GithubListRepos _ id _ page =>
      match hub_repos sample_hub id with
      | Some pages => inr (paged pages page)
      | None => inl (Errorf "403 Resource not accessible by integration")
      end
  | GithubInstallationToken _ id _ => inr ("token-" +:+ GoStrconv.fmt_d id)
  | q => no_api _ q
  end.

Definition hub_start : World Cluster := start (MkCluster no_objs 0 1000 hub_api).

Lemma hub_serves : github_serves (λ e : Cluster, cl_api e = hub_api) sample_app sample_hub.
Proof.
  split; intros; simpl;
    match goal with He : cl_api _ = _ |- _ => rewrite He end; simpl; (split; [|reflexivity]);
    try reflexivity.
  - by eexists.
  - repeat case_decide; [reflexivity|by eexists|reflexivity].
Qed.

Lemma hub_enough : enough_fuel sample_hub 2.
Proof.
  split; [lia|]. split; [simpl; lia|]. intros id pages. simpl.
  repeat case_decide; intros [= <-]; simpl; lia.
Qed.

Lemma fetchAppInstallations_complete_witness :
  ∃ e', fetchAppInstallations 2 sample_app hub_start =
    (Ok [MkInstallation 11 ["org/a"; "org/b"; "org/c"]; MkInstallation 12 [];
         MkInstallation 13 ["org/d/"; "org/a"]], set_env e' hub_start).
Proof.
  destruct (fetchAppInstallations_complete (λ e : Cluster, cl_api e = hub_api) sample_app sample_hub
              hub_serves 2 hub_start) as (e' & He & _).
  - reflexivity.
  - exact hub_enough.
  - exists e'. exact He.
Defined.
