(* ===== verification/GithubProofs.v ===== *)
(** * internal/component/github: the cache of installations and the tokens

    What the cache serves before its first load, while it is fresh and when it is out
    of date; which token a component gets; and that a token never crosses from one
    installation to another. *)

From S2P Require Import Prelude GoStrings GoStrconv Json Kube Metrics Config TokenCache World.
From S2P Require Import GitComponent Sample GitUrl SecretSelect Base Scm Github GithubFetch.
From Stdlib Require Import Ascii.

(** ** Frames *)

Section Frames.
Context {E : Type} `{Environment E} `{Libraries} (page_fuel : nat).

#[export] Instance list_repos_moves fuel app id page repos :
  Preserves env_moves (list_repos (E:=E) fuel app id page repos).
Proof. revert page repos. induction fuel as [|fuel IH]; intros page repos; simpl; solve_frame. Qed.
#[export] Instance fetch_installation_moves app id :
  Preserves env_moves (fetch_installation (E:=E) page_fuel app id).
Proof. unfold fetch_installation. solve_frame. Qed.
#[export] Instance fetch_pages_moves fuel app page l :
  Preserves env_moves (fetch_pages (E:=E) page_fuel fuel app page l).
Proof. revert page l. induction fuel as [|fuel IH]; intros page l; simpl; solve_frame. Qed.
#[export] Instance fetchAppInstallations_moves app :
  Preserves env_moves (fetchAppInstallations (E:=E) page_fuel app).
Proof. unfold fetchAppInstallations. solve_frame. Qed.
#[export] Instance new_token_moves c id : Preserves env_moves (new_token (E:=E) c id).
Proof. unfold new_token. solve_frame. Qed.

(** The operations of the installations cache leave the tokens and the configuration
    alone. *)
Definition keeps_tokens (w w' : World E) : Prop :=
  ghAppInstallationTokenCache (w_github w') = ghAppInstallationTokenCache (w_github w) ∧
  w_config w' = w_config w.

#[export] Instance keeps_tokens_preorder : PreOrder keeps_tokens.
Proof. split; [done|]. intros w1 w2 w3 [H1 H2] [H3 H4]. split; congruence. Qed.

Lemma moves_keeps_tokens {A} (m : M E A) : Preserves env_moves m → Preserves keeps_tokens m.
Proof. apply preserves_weaken. by intros w w' [e' ->]. Qed.

#[export] Instance time_Now_keeps : Preserves keeps_tokens time_Now.
Proof. apply moves_keeps_tokens, _. Qed.
#[export] Instance fetch_keeps app : Preserves keeps_tokens (fetchAppInstallations page_fuel app).
Proof. apply moves_keeps_tokens, _. Qed.
#[export] Instance set_cache_keeps c : Preserves keeps_tokens (go_modify (set_github (set_cache c))).
Proof. by intros w. Qed.
#[export] Instance get_cache_keeps : Preserves keeps_tokens get_cache.
Proof. unfold get_cache. solve_frame. Qed.
#[export] Instance modify_cache_keeps f : Preserves keeps_tokens (modify_cache f).
Proof. unfold modify_cache. solve_frame. Qed.
#[export] Instance refresh_keeps key : Preserves keeps_tokens (refresh page_fuel key).
Proof. unfold refresh. solve_frame. Qed.
#[export] Instance background_keeps : Preserves keeps_tokens (background page_fuel).
Proof. unfold background, cleanup. solve_frame. Qed.
#[export] Instance cache_load_keeps key : Preserves keeps_tokens (cache_load key).
Proof. unfold cache_load. solve_frame. Qed.
#[export] Instance expired_keeps : Preserves keeps_tokens expired.
Proof. unfold expired. solve_frame. Qed.
#[export] Instance getWithRefresh_keeps key : Preserves keeps_tokens (getWithRefresh page_fuel key).
Proof. unfold getWithRefresh, cleanup. solve_frame. Qed.
#[export] Instance cache_Get_keeps key : Preserves keeps_tokens (cache_Get page_fuel key).
Proof. unfold cache_Get. solve_frame. Qed.
#[export] Instance getAppInstallations_keeps c : Preserves keeps_tokens (getAppInstallations page_fuel c).
Proof. unfold getAppInstallations, NewStaleAllowedCache. solve_frame. Qed.
#[export] Instance getInstallationID_keeps c : Preserves keeps_tokens (getInstallationID page_fuel c).
Proof. unfold getInstallationID. solve_frame. Qed.
End Frames.

(** ** The cache of the installations *)

Section Cache.
Context {E : Type} `{Environment E} `{Libraries} (page_fuel : nat).

Abbreviation cache_is w c := (ghAppInstallationsCache (w_github w) = Some c).

Lemma get_cache_eq (w : World E) c : cache_is w c → get_cache w = (Ok c, w).
Proof. intros Hc. unfold get_cache, go_bind, go_gets. by rewrite Hc. Qed.

Lemma modify_cache_eq (w : World E) c f :
  cache_is w c → modify_cache f w = (Ok tt, set_github (set_cache (f c)) w).
Proof. intros Hc. unfold modify_cache, go_bind. by rewrite (get_cache_eq w c Hc). Qed.

Lemma cache_load_eq (w : World E) c key : cache_is w c → cache_load key w = (Ok (ic_data c !! key), w).
Proof. intros Hc. unfold cache_load, go_bind. by rewrite (get_cache_eq w c Hc). Qed.

Lemma expired_eq (w : World E) c :
  cache_is w c →
  expired w = (Ok (bool_decide (ic_expiry c < (env_now (w_env w)).1)%Z),
               set_env (env_now (w_env w)).2 w).
Proof.
  intros Hc. unfold expired, go_bind. rewrite (get_cache_eq w c Hc). unfold time_Now.
  by destruct (env_now (w_env w)).
Qed.

Lemma refresh_eq (w : World E) c key :
  cache_is w c →
  ∃ r e1, fetchAppInstallations page_fuel (ic_owner c) w = (r, set_env e1 w) ∧
  refresh page_fuel key w =
    match r with
    | Ok data =>
        (Ok (Some data),
         set_github (set_cache (ic_set_expiry ((env_now e1).1 + refreshPeriod) (ic_store key data c)))
           (set_env (env_now e1).2 w))
    | Err _ => (Ok None, set_env e1 w)
    | Panic p => (Panic p, set_env e1 w)
    end.
Proof.
  intros Hc. destruct (moves_run (fetchAppInstallations page_fuel (ic_owner c)) w _) as (r & e1 & Hf).
  exists r, e1. split; [done|]. unfold refresh. unfold go_bind at 1. rewrite (get_cache_eq w c Hc).
  unfold go_try. rewrite Hf. destruct r as [data|e|p]; [|done..].
  unfold go_bind at 1. rewrite (modify_cache_eq _ c) by done. unfold go_bind at 1, time_Now.
  cbn [w_env set_github set_env]. destruct (env_now e1) as [now e2]. cbn [fst snd].
  unfold go_bind at 1. by erewrite modify_cache_eq.
Qed.

(** A background refresh replaces the data and its expiry when the listing
    succeeds and leaves them when it fails; either way none is in progress after it. *)
Theorem background_spec (w : World E) c key :
  cache_is w c → ic_refreshInProgress c = Some key →
  ∃ r e1, fetchAppInstallations page_fuel (ic_owner c) w = (r, set_env e1 w) ∧
  match r with
  | Ok data =>
      background page_fuel w =
      (Ok tt, set_github (set_cache (ic_set_refresh None
                (ic_set_expiry ((env_now e1).1 + refreshPeriod) (ic_store key data c))))
                (set_env (env_now e1).2 w))
  | Err _ => background page_fuel w =
             (Ok tt, set_github (set_cache (ic_set_refresh None c)) (set_env e1 w))
  | Panic p => (background page_fuel w).1 = Panic p
  end.
Proof.
  intros Hc Hkey. destruct (refresh_eq w c key Hc) as (r & e1 & Hf & Hr).
  exists r, e1. split; [done|].
  assert (background page_fuel w =
          go_defer (let! _ := refresh page_fuel key in go_ret tt) cleanup w) as ->.
  { unfold background. unfold go_bind at 1, go_gets. by rewrite Hc, Hkey. }
  unfold go_defer, go_bind. rewrite Hr. unfold cleanup.
  destruct r as [data|e|p]; unfold go_ret; by erewrite modify_cache_eq.
Qed.

(** The first access waits for the listing of the component's application, returns
    it and keeps it. *)
Theorem getAppInstallations_first P c hub (w : World E) :
  github_serves P (app_of c) hub → enough_fuel hub page_fuel →
  (∀ e, P e → P (env_now e).2) → P (w_env w) →
  ghAppInstallationsCache (w_github w) = None →
  ∃ cache e', getAppInstallations page_fuel c w =
    (Ok (hub_listing hub), set_github (set_cache cache) (set_env e' w)) ∧
    ic_owner cache = app_of c ∧ ic_refreshInProgress cache = None ∧
    ic_data cache !! installations_key = Some (hub_listing hub).
Proof.
  intros Hs Hf HPnow HP Hnone. unfold getAppInstallations. unfold go_bind at 1, go_gets. rewrite Hnone.
  unfold go_bind at 1. unfold NewStaleAllowedCache, time_Now, go_bind at 1 2.
  specialize (HPnow _ HP). destruct (env_now (w_env w)) as [t0 e0]. simpl in HPnow.
  unfold go_ret at 1, go_modify.
  set (c0 := MkInstallationsCache (app_of c) ∅ (t0 + refreshPeriod) None).
  set (w0 := set_github (set_cache c0) (set_env e0 w)).
  assert (cache_is w0 c0) as Hc0 by done.
  unfold go_bind at 1, cache_Get. unfold go_bind at 1.
  rewrite (cache_load_eq w0 c0) by done. cbn [ic_data c0]. rewrite lookup_empty.
  unfold getWithRefresh. unfold go_bind at 1. rewrite (get_cache_eq w0 c0) by done.
  cbn [ic_refreshInProgress c0]. unfold go_bind at 1. rewrite (cache_load_eq w0 c0) by done.
  cbn [ic_data c0]. rewrite lookup_empty. unfold go_bind at 1. rewrite (modify_cache_eq w0 c0) by done.
  match goal with |- context [go_defer _ _ ?w1'] => set (w1 := w1') end.
  destruct (refresh_eq w1 _ installations_key eq_refl) as (r & e1 & Hfetch & Hr).
  destruct (fetch_complete P (app_of c) hub Hs page_fuel w1) as (e2 & He2 & _);
    [done..|].
  change (ic_owner (ic_set_refresh (Some installations_key) c0)) with (app_of c) in Hfetch.
  rewrite Hfetch in He2. injection He2 as -> _.
  unfold go_defer. rewrite Hr. unfold cleanup. erewrite modify_cache_eq by reflexivity.
  unfold go_ret. eexists _, _. split; [reflexivity|]. split_and!; [done..|]. simpl.
  by rewrite lookup_insert_eq.
Qed.

(** Until they expire, the installations are served from the cache, whether a
    refresh is in progress or not; nothing but the clock is asked. *)
Theorem getAppInstallations_fresh c cache data (w : World E) :
  cache_is w cache → ic_data cache !! installations_key = Some data →
  ((env_now (w_env w)).1 ≤ ic_expiry cache)%Z →
  getAppInstallations page_fuel c w = (Ok data, set_env (env_now (w_env w)).2 w).
Proof.
  intros Hc Hdata Ht. unfold getAppInstallations. unfold go_bind at 1, go_gets. rewrite Hc.
  unfold go_bind at 1, go_ret at 1. unfold go_bind at 1, cache_Get.
  unfold go_bind at 1. rewrite (cache_load_eq w cache), Hdata by done.
  unfold go_bind at 1. rewrite (expired_eq w cache), bool_decide_eq_false_2 by (done || lia).
  done.
Qed.

(** Expired installations are still served at once, and a refresh is left to the
    background. *)
Theorem getAppInstallations_stale P c cache data (w : World E) :
  cache_is w cache → ic_data cache !! installations_key = Some data →
  ic_refreshInProgress cache = None →
  (∀ e, P e → (ic_expiry cache < (env_now e).1)%Z ∧ P (env_now e).2) → P (w_env w) →
  ∃ e', getAppInstallations page_fuel c w =
    (Ok data, set_github (set_cache (ic_set_refresh (Some installations_key) cache)) (set_env e' w)) ∧
    P e'.
Proof.
  intros Hc Hdata Hno Ht HP. destruct (Ht _ HP) as [Ht1 HP1]. destruct (Ht _ HP1) as [Ht2 HP2].
  unfold getAppInstallations. unfold go_bind at 1, go_gets. rewrite Hc.
  unfold go_bind at 1, go_ret at 1. unfold go_bind at 1, cache_Get.
  unfold go_bind at 1. rewrite (cache_load_eq w cache), Hdata by done.
  unfold go_bind at 1. rewrite (expired_eq w cache), bool_decide_eq_true_2 by done. cbn [negb].
  unfold getWithRefresh. unfold go_bind at 1. rewrite (get_cache_eq _ cache), Hno by done.
  unfold go_bind at 1. rewrite (cache_load_eq _ cache), Hdata by done.
  unfold go_bind at 1. rewrite (expired_eq _ cache), bool_decide_eq_true_2 by done. cbn [negb].
  unfold go_bind at 1. rewrite (modify_cache_eq _ cache) by done.
  eexists. split; [reflexivity|done].
Qed.
End Cache.

(** ** Tokens *)

Section Tokens.
Context {E : Type} `{Environment E} `{Libraries} (page_fuel : nat).

(** The configuration, once loaded, is a usable one. *)
Definition config_ok (w : World E) : Prop := ∀ cfg, w_config w = Some cfg → usable cfg.

Definition tokens_of (w : World E) : gmap string TokenInfo :=
  go_make_if_nil (entries (ghAppInstallationTokenCache (w_github w))).

(** The configuration of the process: the one that was loaded, or else what the file
    holds that the environment names. *)
Definition config_of (w : World E) : Config :=
  let path := Getenv configPathEnvVar in
  default (load Getenv ReadFile (if decide (path = "") then defaultConfigPath else path)) (w_config w).

Lemma config_of_usable (w : World E) : config_ok w → usable (config_of w).
Proof. unfold config_ok, config_of. destruct (w_config w); [auto|]. intros _. apply usable_load. Qed.

Lemma config_Get_eq (w : World E) : config_Get w = (Ok (config_of w), set_config (Some (config_of w)) w).
Proof. unfold config_Get, Config.Get, config_of. by destruct (w_config w). Qed.

Lemma tokenKey_inj id id' : tokenKey id = tokenKey id' → id = id'.
Proof. unfold tokenKey. intros Hk%app_inj_l_str. by apply (inj fmt_d). Qed.

Lemma tokens_lookup (w : World E) key :
  go_lookup (entries (ghAppInstallationTokenCache (w_github w))) key = tokens_of w !! key.
Proof. unfold tokens_of. by rewrite go_lookup_make. Qed.

Lemma token_Get_eq (w : World E) key :
  token_Get key w =
  match tokens_of w !! key with
  | None => (Ok None, w)
  | Some info =>
      let '(now, e1) := env_now (w_env w) in
      (Ok (if decide (TokenMinValidity (GitHub (config_of w)) ≤ Until now (ExpiresAt info))%Z
           then Some info else None),
       set_env e1 (set_config (Some (config_of w)) w))
  end.
Proof.
  unfold token_Get. unfold go_bind at 1, go_gets. rewrite tokens_lookup.
  destruct (tokens_of w !! key) as [info|] eqn:Hl; [|done].
  unfold go_bind. rewrite config_Get_eq. unfold time_Now. cbn [w_env set_config].
  destruct (env_now (w_env w)) as [now e1]. cbn [go_ret]. unfold TokenCache.Get.
  rewrite tokens_lookup, Hl. repeat case_decide; (reflexivity || lia).
Qed.

Lemma modify_tokens_Set (w : World E) key info m :
  entries (ghAppInstallationTokenCache (w_github w)) = Some m →
  modify_tokens (Set_ key info) w =
  (Ok tt, set_github (set_tokens (MkTokenCache (Some (<[key := info]> m)))) w).
Proof.
  intros Hm. unfold modify_tokens, go_bind, go_gets, go_lift, Set_. by rewrite Hm.
Qed.

(** GitHub is asked for a token: for the transport of the installation, then through it. *)
Definition issue (c : Component) (id : Z) (e : E) : result string * E :=
  match env_api (GithubInstallationTransport (AppID c) id (AppPrivateKey c)) e with
  | (inl err, e1) => (Err (wrap "error creating installation transport: " err), e1)
  | (inr _, e1) =>
      match env_api (GithubInstallationToken (AppID c) id (AppPrivateKey c)) e1 with
      | (inl err, e2) => (Err (wrap "error getting installation token: " err), e2)
      | (inr tok, e2) => (Ok tok, e2)
      end
  end.

Lemma new_token_eq c id (w : World E) :
  new_token c id w = ((issue c id (w_env w)).1, set_env (issue c id (w_env w)).2 w).
Proof.
  unfold new_token, issue, go_bind, go_wrap, go_try, api_call, go_bind, api, go_lift.
  destruct (env_api (GithubInstallationTransport _ _ _) _) as [[e|[]] e1]; simpl; [done|].
  by destruct (env_api (GithubInstallationToken _ _ _) e1) as [[e|tok] e2].
Qed.

Lemma issue_token c id e tok e2 :
  issue c id e = (Ok tok, e2) →
  ∃ e1, (env_api (GithubInstallationToken (AppID c) id (AppPrivateKey c)) e1).1 = inr tok.
Proof.
  unfold issue. destruct (env_api (GithubInstallationTransport _ _ _) e) as [[err|[]] e1]; [done|].
  destruct (env_api (GithubInstallationToken _ _ _) e1) as [[err|t] e3] eqn:Ht; [done|].
  intros [= -> _]. exists e1. by rewrite Ht.
Qed.

(** What a call does that goes from [w] to [w'] with the result [r] and has to ask for a
    token, in the surroundings [e]: it returns a new token and keeps it for the configured
    lifetime, or returns the error and keeps everything. *)
Definition renews (c : Component) (id : Z) (e : E) (w : World E) (r : result string) (w' : World E) : Prop :=
  match issue c id e with
  | (Ok tok, e2) =>
      r = Ok tok ∧
      tokens_of w' = <[tokenKey id :=
        MkTokenInfo tok ((env_now e2).1 + TokenTTL (GitHub (config_of w)))]> (tokens_of w)
  | (Err err, _) => r = Err err ∧ tokens_of w' = tokens_of w
  | (Panic _, _) => False
  end.

(** What a call does from [w], with [e0] the surroundings once the installation is known. *)
Definition token_spec (c : Component) (id : Z) (e0 : E) (w : World E) (r : result string) (w' : World E) : Prop :=
  let '(now, e1) := env_now e0 in
  match tokens_of w !! tokenKey id with
  | None => renews c id e0 w r w'
  | Some info =>
      if decide (TokenMinValidity (GitHub (config_of w)) ≤ Until now (ExpiresAt info))%Z
      then r = Ok (Token info) ∧ tokens_of w' = tokens_of w ∧ w_env w' = e1
      else renews c id e1 w r w'
  end.

(** The part of the code that asks for a token. *)
Lemma renew_run c id cfg (w w0 : World E) :
  entries (ghAppInstallationTokenCache (w_github w)) = Some (tokens_of w0) → config_of w0 = cfg →
  let m := (let! token := new_token c id in
            let! now := time_Now in
            let tokenInfo := MkTokenInfo token (now + TokenTTL (GitHub cfg)) in
            let! _ := modify_tokens (Set_ (tokenKey id) tokenInfo) in
            go_ret (Token tokenInfo)) in
  renews c id (w_env w) w0 (m w).1 (m w).2.
Proof.
  intros Hg Hcfg m. unfold renews, m. rewrite (go_bind_run _ _ _ _ _ (new_token_eq c id w)).
  assert (∀ e, tokens_of (set_env e w) = tokens_of w0) as Ht
    by (intros e; unfold tokens_of; simpl; by rewrite Hg).
  destruct (issue c id (w_env w)) as [[tok|err|p] e2] eqn:Hi; cbn [fst snd]; [|by rewrite Ht|].
  2: { unfold issue in Hi. repeat case_match; done. }
  rewrite (go_bind_run time_Now _ _ (Ok (env_now e2).1) (set_env (env_now e2).2 w)).
  2: { unfold time_Now. simpl. by destruct (env_now e2). }
  erewrite go_bind_run by (apply modify_tokens_Set; simpl; by rewrite Hg).
  cbn [fst snd go_ret]. by rewrite Hcfg.
Qed.

Lemma GetToken_exact c (w w1 : World E) id :
  getInstallationID page_fuel c w = (Ok id, w1) →
  token_spec c id (w_env w1) w (GetToken page_fuel c w).1 (GetToken page_fuel c w).2.
Proof.
  intros Hid. destruct (getInstallationID_keeps page_fuel c w) as [Ht Hc].
  rewrite Hid in Ht, Hc. simpl in Ht, Hc.
  assert (GetToken page_fuel c w = installation_token c id w1) as ->.
  { unfold GetToken, go_bind, go_wrap, go_try. by rewrite Hid. }
  assert (tokens_of w1 = tokens_of w) as Htok by (unfold tokens_of; by rewrite Ht).
  assert (config_of w1 = config_of w) as Hcfg by (unfold config_of; by rewrite Hc).
  set (w2 := set_github (set_tokens (MkTokenCache (Some (tokens_of w1)))) (set_config (Some (config_of w)) w1)).
  assert (w_env w2 = w_env w1 ∧ config_of w2 = config_of w ∧ tokens_of w2 = tokens_of w) as (He2 & Hc2 & Ht2)
    by (split_and!; done).
  set (rest := λ found : option TokenInfo,
    match found with
    | Some tokenInfo => go_ret (Token tokenInfo)
    | None =>
        let! token := new_token c id in
        let! now := time_Now in
        let tokenInfo := MkTokenInfo token (now + TokenTTL (GitHub (config_of w))) in
        let! _ := modify_tokens (Set_ (tokenKey id) tokenInfo) in
        go_ret (Token tokenInfo)
    end).
  assert (installation_token c id w1 = go_bind (token_Get (tokenKey id)) rest w2) as ->.
  { unfold installation_token. cbv zeta. unfold go_bind at 1. rewrite config_Get_eq, Hcfg. unfold go_bind at 1.
    unfold modify_tokens at 1, go_bind at 1, go_gets, go_bind at 1, go_lift, go_modify. done. }
  unfold go_bind at 1 2. rewrite token_Get_eq, Ht2, He2, Hc2. unfold token_spec.
  destruct (env_now (w_env w1)) as [now e1].
  destruct (tokens_of w !! tokenKey id) as [info|] eqn:Hl.
  2: { replace (w_env w1) with (w_env w2). apply renew_run; [|done]. simpl. by rewrite Htok. }
  case_decide.
  - simpl. split_and!; [done| |done]. unfold tokens_of in *. simpl. done.
  - replace e1 with (w_env (set_env e1 (set_config (Some (config_of w)) w2))) at 1 by done.
    apply renew_run; [|done]. simpl. by rewrite Htok.
Qed.

(** C14.  The token of a component whose installation is known.  If a token is cached for
    the installation and what is left of its validity is not less than the minimum of the
    configuration of the process, it is returned, and nothing but the clock is asked; else
    GitHub is asked for a token of that installation, which is returned, and kept for the
    lifetime of that configuration.  No other installation's entry changes, a failure is
    returned and changes none, and nothing panics. *)
Theorem GetToken_spec c (w w1 : World E) id :
  getInstallationID page_fuel c w = (Ok id, w1) →
  token_spec c id (w_env w1) w (GetToken page_fuel c w).1 (GetToken page_fuel c w).2.
Proof. apply GetToken_exact. Qed.

(** Where a token that is returned comes from. *)
Lemma GetToken_cases c (w w1 w' : World E) id tok :
  getInstallationID page_fuel c w = (Ok id, w1) → GetToken page_fuel c w = (Ok tok, w') →
  (∃ info, tokens_of w !! tokenKey id = Some info ∧ tok = Token info ∧ tokens_of w' = tokens_of w) ∨
  ∃ e expires, (env_api (GithubInstallationToken (AppID c) id (AppPrivateKey c)) e).1 = inr tok ∧
    tokens_of w' = <[tokenKey id := MkTokenInfo tok expires]> (tokens_of w).
Proof.
  intros Hid Hget. pose proof (GetToken_exact c w w1 id Hid) as Hs. rewrite Hget in Hs. cbn [fst snd] in Hs.
  assert (∀ e, renews c id e w (Ok tok) w' → ∃ e expires,
    (env_api (GithubInstallationToken (AppID c) id (AppPrivateKey c)) e).1 = inr tok ∧
    tokens_of w' = <[tokenKey id := MkTokenInfo tok expires]> (tokens_of w)) as Hnew.
  { intros e. unfold renews. destruct (issue c id e) as [[t|err|p] e2] eqn:Hi; [|naive_solver..].
    intros [[= <-] Ht]. apply issue_token in Hi as [e1 Hi]. eauto. }
  unfold token_spec in Hs. destruct (env_now (w_env w1)) as [now e1].
  destruct (tokens_of w !! tokenKey id) as [info|] eqn:Hl; [|right; eauto].
  case_decide; [|right; eauto]. destruct Hs as ([= ->] & Ht & _). left. eauto.
Qed.

(** A property of tokens that GitHub guarantees of what it issues for an installation. *)
Definition issues (Issued : Z → string → Prop) (c : Component) : Prop :=
  ∀ id e tok, (env_api (GithubInstallationToken (AppID c) id (AppPrivateKey c)) e).1 = inr tok →
              Issued id tok.

Definition tokens_issued (Issued : Z → string → Prop) (w : World E) : Prop :=
  ∀ id info, tokens_of w !! tokenKey id = Some info → Issued id (Token info).

(** C8.  Tokens do not cross installations: whatever GitHub guarantees of the tokens it
    issues for an installation holds of the cached tokens and of every token a component
    gets, for the installation its repository was found in. *)
Theorem GetToken_isolates Issued c (w w' : World E) tok :
  issues Issued c → config_ok w → tokens_issued Issued w →
  GetToken page_fuel c w = (Ok tok, w') →
  tokens_issued Issued w' ∧
  ∃ id w1, getInstallationID page_fuel c w = (Ok id, w1) ∧ Issued id tok.
Proof.
  intros Hi Hok Hw Hget.
  assert (∃ id w1, getInstallationID page_fuel c w = (Ok id, w1)) as (id & w1 & Hid).
  { unfold GetToken, go_bind, go_wrap, go_try in Hget.
    destruct (getInstallationID page_fuel c w) as [[id| |] w1]; [by eauto|done..]. }
  destruct (GetToken_cases c w w1 w' id tok Hid Hget) as [(info & Hl & -> & Ht)|(e & expires & Htok & Ht)].
  - split; [by unfold tokens_issued; rewrite Ht|]. exists id, w1. eauto.
  - apply Hi in Htok as Hissued. split; [|by eauto].
    intros id' info. rewrite Ht. destruct (decide (id' = id)) as [->|Hne].
    + rewrite lookup_insert_eq. by intros [= <-].
    + rewrite lookup_insert_ne; [by apply Hw|]. intros Hk%tokenKey_inj. congruence.
Qed.
End Tokens.

(** ** Examples *)

(** Surroundings with a fixed clock in which GitHub serves the sample listing. *)
#[local] Instance hub_env : Environment unit := {|
  env_Get := λ k key e, (inl (NotFound "not found"), e);
  env_List := λ k o e, (inr [], e);
  env_Create := λ k o e, (inr o, e);
  env_Update := λ k o e, (inr o, e);
  env_Delete := λ k key e, (inr tt, e);
  env_Patch := λ k o _ e, (inr o, e);
  env_rand := λ n e, (inr (replicate n "0"%char), e);
  env_now := λ e, (1000%Z, e);
  env_range := λ A l e, (l, e);
  env_api := λ A q e, (hub_api A q, e)
|}.

Lemma hub_env_serves : github_serves (λ _ : unit, True) sample_app sample_hub.
Proof.
  split; intros; simpl; (split; [|exact I]); try reflexivity.
  - by eexists.
  - repeat case_decide; [reflexivity|by eexists|reflexivity].
Qed.

Definition github_sample : Github.Component :=
  MkComponent (MkBase "comp" "tenant" "app" "github" "github.com" "https://github.com/org/d" "org/d"
                 ["main"] false) 7 (Some "key").

(** A process with an installations cache. *)
Definition hub_world (cache : option InstallationsCache) : World unit :=
  set_github (λ g, MkGithubState cache (ghAppInstallationTokenCache g) 7 (Some "key") 0 "")
    (MkWorld tt [] no_metrics None None github_init).

Definition sample_cache (expiry : Z) (refreshing : option string) : InstallationsCache :=
  MkInstallationsCache sample_app {[installations_key := [MkInstallation 1 ["org/old"]]]} expiry
    refreshing.

Lemma getAppInstallations_first_witness :
  (getAppInstallations 2 github_sample (hub_world None)).1 = Ok (hub_listing sample_hub).
Proof.
  destruct (getAppInstallations_first 2 (λ _, True) github_sample sample_hub (hub_world None)
              hub_env_serves hub_enough) as (cache & e' & -> & _); [auto..|reflexivity].
Defined.

Lemma getAppInstallations_fresh_witness :
  (getAppInstallations 2 github_sample (hub_world (Some (sample_cache 2000 None)))).1 =
  Ok [MkInstallation 1 ["org/old"]].
Proof.
  rewrite (getAppInstallations_fresh 2 github_sample (sample_cache 2000 None)
             [MkInstallation 1 ["org/old"]]); [reflexivity..|].
  vm_compute. discriminate.
Defined.

Lemma getAppInstallations_stale_witness :
  (getAppInstallations 2 github_sample (hub_world (Some (sample_cache 500 None)))).1 =
  Ok [MkInstallation 1 ["org/old"]].
Proof.
  destruct (getAppInstallations_stale 2 (λ _, True) github_sample (sample_cache 500 None)
             [MkInstallation 1 ["org/old"]] (hub_world (Some (sample_cache 500 None))))
    as (e' & -> & _); [reflexivity..| |exact I|reflexivity].
  intros e _. split; [vm_compute; reflexivity|exact I].
Defined.

Lemma background_spec_witness :
  ∃ w', background 2 (hub_world (Some (sample_cache 500 (Some installations_key)))) = (Ok tt, w') ∧
        (getAppInstallations 2 github_sample w').1 = Ok (hub_listing sample_hub).
Proof.
  destruct (background_spec 2 (hub_world (Some (sample_cache 500 (Some installations_key))))
              (sample_cache 500 (Some installations_key)) installations_key) as (r & e1 & Hf & Hr);
    [reflexivity..|].
  assert (r = Ok (hub_listing sample_hub)) as ->
    by (change r with ((r, set_env e1 (hub_world (Some (sample_cache 500 (Some installations_key))))).1);
        rewrite <-Hf; vm_compute; reflexivity).
  eexists. split; [exact Hr|]. destruct e1. vm_compute. reflexivity.
Defined.

(** A cached token with little or much validity left, at the instant 1000. *)
Definition token_world (expires : Z) : World unit :=
  set_github (set_tokens (MkTokenCache (Some {[tokenKey 13 := MkTokenInfo "old" expires]})))
    (hub_world None).

Lemma token_world_cached expires :
  tokens_of (token_world expires) !! tokenKey 13 = Some (MkTokenInfo "old" expires).
Proof. vm_compute. reflexivity. Qed.

Lemma GetToken_spec_witness :
  (GetToken 2 github_sample (token_world (1000 + 30 * Minute))).1 = Ok "old" ∧
  (GetToken 2 github_sample (token_world (999 + 30 * Minute))).1 = Ok "token-13".
Proof.
  assert (∀ expires, ∃ w1, getInstallationID 2 github_sample (token_world expires) = (Ok 13%Z, w1)) as Hid
    by (intros expires; eexists; vm_compute; reflexivity).
  split.
  - destruct (Hid (1000 + 30 * Minute)%Z) as [w1 E1].
    pose proof (GetToken_spec 2 github_sample _ w1 13 E1) as Hs. unfold token_spec in Hs.
    rewrite token_world_cached in Hs. destruct (w_env w1). cbn [env_now hub_env] in Hs.
    rewrite decide_True in Hs by (vm_compute; discriminate). apply Hs.
  - destruct (Hid (999 + 30 * Minute)%Z) as [w1 E1].
    pose proof (GetToken_spec 2 github_sample _ w1 13 E1) as Hs. unfold token_spec in Hs.
    rewrite token_world_cached in Hs. destruct (w_env w1). cbn [env_now hub_env] in Hs.
    rewrite decide_False in Hs by (vm_compute; intros Hle; by apply Hle). apply Hs.
Defined.

Lemma GetToken_isolates_witness :
  ∃ w' id w1, GetToken 2 github_sample (hub_world None) = (Ok "token-13", w') ∧
    getInstallationID 2 github_sample (hub_world None) = (Ok id, w1) ∧
    "token-13" = "token-" +:+ fmt_d id.
Proof.
  destruct (GetToken 2 github_sample (hub_world None)) as [r w'] eqn:Hget.
  assert (r = Ok "token-13") as ->
    by (change r with ((r, w').1); rewrite <-Hget; vm_compute; reflexivity).
  destruct (GetToken_isolates 2 (λ id tok, tok = "token-" +:+ fmt_d id) github_sample (hub_world None)
              w' "token-13") as (_ & id & w1 & Hid & Htok).
  - intros id e tok [= <-]. reflexivity.
  - intros cfg Hcfg. discriminate Hcfg.
  - intros id info Hl. vm_compute in Hl. discriminate Hl.
  - exact Hget.
  - exists w', id, w1. exact (conj eq_refl (conj Hid Htok)).
Defined.
