(* ===== verification/StaleCache.v ===== *)
(** * internal/component/github: the stale-allowed cache under concurrency

    [StaleAllowedCache] of [cache.go] as a transition system.  A thread is one call of
    [Get] or one background refresh, at a point of its program; a step is one access to
    something shared: an operation on the sync.Map or the atomic expiry, the mutex, a
    field the mutex protects, or the channel that tells the end of a refresh.  Steps of
    different threads interleave freely, new calls start and the clock advances at any
    time, and the refresh function returns what it likes.

    Shown of every reachable state: one refresh at a time, no channel closed twice,
    nobody waits for a channel that nobody will close, some thread can always go on,
    and only data the refresh function returned is served. *)

From S2P Require Import Prelude.

Section StaleCache.
Context (V : Type) (refreshPeriod : Z).

(** ** State *)

Abbreviation chan := nat.
Abbreviation tid := nat.

Record StaleAllowedCache := MkCache {
  data : gmap string V;
  expiry : Z;
  refreshMutex : option tid;          (* who holds it *)
  refreshInProgress : bool;
  refreshDone : option chan;          (* nil before the first refresh *)
  (* the channels: those made so far are the numbers below [next_chan] *)
  closed : gset chan;
  next_chan : chan;
  panicked : bool;                    (* a closed channel was closed *)
  (* what the refresh function has returned so far *)
  returned : list V
}.

Definition NewStaleAllowedCache (now : Z) : StaleAllowedCache :=
  MkCache ∅ (now + refreshPeriod) None false None ∅ 0 false [].

Definition set_data d c := MkCache d (expiry c) (refreshMutex c) (refreshInProgress c)
  (refreshDone c) (closed c) (next_chan c) (panicked c) (returned c).
Definition set_expiry t c := MkCache (data c) t (refreshMutex c) (refreshInProgress c)
  (refreshDone c) (closed c) (next_chan c) (panicked c) (returned c).
Definition set_mutex m c := MkCache (data c) (expiry c) m (refreshInProgress c)
  (refreshDone c) (closed c) (next_chan c) (panicked c) (returned c).
Definition set_inProgress b c := MkCache (data c) (expiry c) (refreshMutex c) b
  (refreshDone c) (closed c) (next_chan c) (panicked c) (returned c).
(* make(chan struct{}) *)
Definition make_done c := MkCache (data c) (expiry c) (refreshMutex c) (refreshInProgress c)
  (Some (next_chan c)) (closed c) (S (next_chan c)) (panicked c) (returned c).
(* closing a closed channel panics *)
Definition close ch c := MkCache (data c) (expiry c) (refreshMutex c) (refreshInProgress c)
  (refreshDone c) ({[ch]} ∪ closed c) (next_chan c) (panicked c || bool_decide (ch ∈ closed c))
  (returned c).
Definition add_returned v c := MkCache (data c) (expiry c) (refreshMutex c) (refreshInProgress c)
  (refreshDone c) (closed c) (next_chan c) (panicked c) (returned c ++ [v]).

(** How a thread ends: a call returns a value and whether there is one, a goroutine
    returns nothing. *)
Inductive outcome := Value (value : option V) | Ended.

(** The points of the program. *)
Inductive pc :=
(* Get *)
| GetLoad (key : string)
| GetExpiry (key : string) (value : option V)
| GetNow (key : string) (value : option V) (expiryTime : Z)
(* getWithRefresh *)
| LockRefresh (key : string)
| ReadInProgress (key : string)
| ReadDone (key : string)
| UnlockWait (key : string) (done : option chan)
| WaitDone (key : string) (done : option chan)
| LoadAfter (key : string)
| Recheck (key : string)
| RecheckExpiry (key : string) (value : option V)
| RecheckNow (key : string) (value : option V) (expiryTime : Z)
| UnlockFresh (value : option V)
| SetInProgress (key : string) (value : option V)
| MakeDone (key : string) (value : option V)
| UnlockRefresh (key : string) (value : option V) (done : chan)
(* the refresh, of a call or of a goroutine *)
| Refresh (key : string) (done : chan) (background : bool)
| StoreData (key : string) (done : chan) (background : bool) (newData : V)
| ReadNow (done : chan) (o : outcome)
| StoreExpiry (done : chan) (o : outcome) (t : Z)
(* cleanup *)
| LockCleanup (done : chan) (o : outcome)
| ResetInProgress (done : chan) (o : outcome)
| CloseDone (done : chan) (o : outcome)
| UnlockCleanup (o : outcome)
| Finished (o : outcome).

(** What a refresh ends with. *)
Definition refreshed (background : bool) (newData : option V) : outcome :=
  if background then Ended else Value newData.

(** ** Steps

    [step now t p c p' c' spawned]: at time [now], thread [t] goes from [p] to [p'],
    changes the cache from [c] to [c'] and may start a goroutine. *)

Inductive step (now : Z) (t : tid) : pc → StaleAllowedCache → pc → StaleAllowedCache → option pc → Prop :=
| s_get_load key c :
    step now t (GetLoad key) c (GetExpiry key (data c !! key)) c None
| s_get_expiry key value c :
    step now t (GetExpiry key value) c (GetNow key value (expiry c)) c None
| s_get_now key value expiryTime c :
    let needsRefresh := negb (bool_decide (is_Some value)) || bool_decide (expiryTime < now)%Z in
    step now t (GetNow key value expiryTime) c
      (if needsRefresh then LockRefresh key else Finished (Value value)) c None
| s_lock_refresh key c :
    refreshMutex c = None →
    step now t (LockRefresh key) c (ReadInProgress key) (set_mutex (Some t) c) None
| s_in_progress key c :
    step now t (ReadInProgress key) c
      (if refreshInProgress c then ReadDone key else Recheck key) c None
| s_read_done key c :
    step now t (ReadDone key) c (UnlockWait key (refreshDone c)) c None
| s_unlock_wait key done c :
    step now t (UnlockWait key done) c (WaitDone key done) (set_mutex None c) None
| s_wait_done key ch c :
    ch ∈ closed c →
    step now t (WaitDone key (Some ch)) c (LoadAfter key) c None
| s_load_after key c :
    step now t (LoadAfter key) c (Finished (Value (data c !! key))) c None
| s_recheck key c :
    step now t (Recheck key) c (RecheckExpiry key (data c !! key)) c None
| s_recheck_expiry key value c :
    step now t (RecheckExpiry key value) c (RecheckNow key value (expiry c)) c None
| s_recheck_now key value expiryTime c :
    let fresh := bool_decide (is_Some value) && negb (bool_decide (expiryTime < now)%Z) in
    step now t (RecheckNow key value expiryTime) c
      (if fresh then UnlockFresh value else SetInProgress key value) c None
| s_unlock_fresh value c :
    step now t (UnlockFresh value) c (Finished (Value value)) (set_mutex None c) None
| s_set_in_progress key value c :
    step now t (SetInProgress key value) c (MakeDone key value) (set_inProgress true c) None
| s_make_done key value c :
    step now t (MakeDone key value) c (UnlockRefresh key value (next_chan c)) (make_done c) None
| s_unlock_background key value done c :
    step now t (UnlockRefresh key (Some value) done) c
      (Finished (Value (Some value))) (set_mutex None c) (Some (Refresh key done true))
| s_unlock_refresh key done c :
    step now t (UnlockRefresh key None done) c (Refresh key done false) (set_mutex None c) None
| s_refresh_ok key done background newData c :
    step now t (Refresh key done background) c
      (StoreData key done background newData) (add_returned newData c) None
| s_refresh_fails key done background c :
    step now t (Refresh key done background) c
      (LockCleanup done (refreshed background None)) c None
| s_store_data key done background newData c :
    step now t (StoreData key done background newData) c
      (ReadNow done (refreshed background (Some newData))) (set_data (<[key := newData]> (data c)) c) None
| s_read_now done o c :
    step now t (ReadNow done o) c (StoreExpiry done o (now + refreshPeriod)) c None
| s_store_expiry done o e c :
    step now t (StoreExpiry done o e) c (LockCleanup done o) (set_expiry e c) None
| s_lock_cleanup done o c :
    refreshMutex c = None →
    step now t (LockCleanup done o) c (ResetInProgress done o) (set_mutex (Some t) c) None
| s_reset done o c :
    step now t (ResetInProgress done o) c (CloseDone done o) (set_inProgress false c) None
| s_close done o c :
    step now t (CloseDone done o) c (UnlockCleanup o) (close done c) None
| s_unlock_cleanup o c :
    step now t (UnlockCleanup o) c (Finished o) (set_mutex None c) None.

(** The system: the clock, the threads and the cache. *)
Record system := MkSystem { now : Z; threads : gmap tid pc; cache : StaleAllowedCache }.

Definition initial (t0 : Z) : system := MkSystem t0 ∅ (NewStaleAllowedCache t0).

Inductive system_step : system → system → Prop :=
| sys_tick s t : (now s ≤ t)%Z → system_step s (MkSystem t (threads s) (cache s))
| sys_call s t key :
    threads s !! t = None →
    system_step s (MkSystem (now s) (<[t := GetLoad key]> (threads s)) (cache s))
| sys_step s t p p' c' :
    threads s !! t = Some p → step (now s) t p (cache s) p' c' None →
    system_step s (MkSystem (now s) (<[t := p']> (threads s)) c')
| sys_go s t p p' c' t' q :
    threads s !! t = Some p → step (now s) t p (cache s) p' c' (Some q) →
    threads s !! t' = None →
    system_step s (MkSystem (now s) (<[t' := q]> (<[t := p']> (threads s))) c').

Inductive reachable : system → Prop :=
| reach_init t0 : reachable (initial t0)
| reach_step s s' : reachable s → system_step s s' → reachable s'.

(** ** Phases

    What matters for the mutex and the channels of a point of the program. *)

Inductive phase :=
| Out | Locked | SawRefresh | Checking
| Leaving (done : option chan) | Waiting (done : option chan)
| Marked | Made (ch : chan) | Running (ch : chan) | Ending (ch : chan) | Closing (ch : chan).

Definition phase_of (p : pc) : phase :=
  match p with
  | GetLoad _ | GetExpiry _ _ | GetNow _ _ _ | LockRefresh _ | LoadAfter _ | Finished _ => Out
  | ReadInProgress _ | UnlockCleanup _ => Locked
  | ReadDone _ => SawRefresh
  | UnlockWait _ done => Leaving done
  | WaitDone _ done => Waiting done
  | Recheck _ | RecheckExpiry _ _ | RecheckNow _ _ _ | UnlockFresh _ | SetInProgress _ _ => Checking
  | MakeDone _ _ => Marked
  | UnlockRefresh _ _ ch => Made ch
  | Refresh _ ch _ | StoreData _ ch _ _ | ReadNow ch _ | StoreExpiry ch _ _ | LockCleanup ch _ =>
      Running ch
  | ResetInProgress ch _ => Ending ch
  | CloseDone ch _ => Closing ch
  end.

Definition holds (f : phase) : Prop :=
  match f with Out | Waiting _ | Running _ => False | _ => True end.

(** The refresh under way, from its mark to the closing of its channel. *)
Definition active (f : phase) : Prop :=
  match f with Marked | Made _ | Running _ | Ending _ | Closing _ => True | _ => False end.

Definition owns (f : phase) : option chan :=
  match f with Made ch | Running ch | Ending ch | Closing ch => Some ch | _ => None end.

(** What the thread of the refresh relies on. *)
Definition active_ok (c : StaleAllowedCache) (f : phase) : Prop :=
  match f with
  | Marked => refreshInProgress c = true
  | Made ch | Running ch | Ending ch =>
      refreshInProgress c = true ∧ refreshDone c = Some ch ∧ (ch ∉ closed c) ∧ ch < next_chan c
  | Closing ch => refreshInProgress c = false ∧ (ch ∉ closed c) ∧ ch < next_chan c
  | _ => False
  end.

(** What any other thread relies on; [owned] are the channels that will be closed. *)
Definition phase_ok (c : StaleAllowedCache) (owned : chan → Prop) (f : phase) : Prop :=
  match f with
  | SawRefresh => refreshInProgress c = true
  | Checking => refreshInProgress c = false
  | Leaving done | Waiting done => ∃ ch, done = Some ch ∧ (ch ∈ closed c ∨ owned ch)
  | _ => True
  end.

Abbreviation phases ths := (phase_of <$> (ths : gmap tid pc)).

(** The control invariant, [r] being the thread of the refresh. *)
Record control (fs : gmap tid phase) (c : StaleAllowedCache) (r : option tid) : Prop := {
  ctl_mutex t f : fs !! t = Some f → (holds f ↔ refreshMutex c = Some t);
  ctl_holder t : refreshMutex c = Some t → is_Some (fs !! t);
  ctl_active t f : fs !! t = Some f → (active f ↔ r = Some t);
  ctl_refresh t : r = Some t → ∃ f, fs !! t = Some f ∧ active_ok c f;
  ctl_none : r = None → refreshInProgress c = false;
  ctl_phase t f : fs !! t = Some f →
    phase_ok c (λ ch, ∃ t' f', r = Some t' ∧ fs !! t' = Some f' ∧ owns f' = Some ch) f;
  ctl_closed ch : ch ∈ closed c → ch < next_chan c;
  ctl_panicked : panicked c = false
}.

Lemma control_initial t0 : control ∅ (NewStaleAllowedCache t0) None.
Proof. split; try done; set_solver. Qed.

(** The fields the control invariant is about. *)
Definition same_control (c c' : StaleAllowedCache) : Prop :=
  refreshMutex c' = refreshMutex c ∧ refreshInProgress c' = refreshInProgress c ∧
  refreshDone c' = refreshDone c ∧ closed c' = closed c ∧ next_chan c' = next_chan c ∧
  panicked c' = panicked c.

Lemma control_same fs c c' r : same_control c c' → control fs c r → control fs c' r.
Proof.
  intros (Hm & Hp & Hd & Hc & Hn & Hpan) [H1 H2 H3 H4 H5 H6 H7 H8].
  split; rewrite ?Hm, ?Hp, ?Hc, ?Hn, ?Hpan; try done.
  - intros t Ht. destruct (H4 t Ht) as (f & Hf & Hok). exists f. split; [done|].
    destruct f; simpl in *; by rewrite ?Hp, ?Hd, ?Hc, ?Hn.
  - intros t f Hf. specialize (H6 t f Hf). destruct f; simpl in *; by rewrite ?Hp, ?Hc.
Qed.

(** One thread moves from phase [f] to [f'], the refresh going from [r] to [r']. *)
Record move_ok (t : tid) (f f' : phase) (c c' : StaleAllowedCache) (r r' : option tid) : Prop := {
  mv_holds : holds f' ↔ refreshMutex c' = Some t;
  mv_mutex t2 : t2 ≠ t → (refreshMutex c' = Some t2 ↔ refreshMutex c = Some t2);
  mv_active : active f' ↔ r' = Some t;
  mv_refresh t2 : t2 ≠ t → (r' = Some t2 ↔ r = Some t2);
  mv_ok : active f' → active_ok c' f';
  mv_other f2 : r ≠ Some t → (holds f → ¬ holds f2) → active_ok c f2 → active_ok c' f2;
  mv_none : r' = None → refreshInProgress c' = false;
  mv_self (owned : chan → Prop) :
    (holds f → ¬ active f → refreshInProgress c = true → ∃ ch, refreshDone c = Some ch ∧ owned ch) →
    phase_ok c owned f → phase_ok c' owned f';
  mv_progress : refreshInProgress c' = refreshInProgress c ∨ holds f;
  mv_closed : closed c ⊆ closed c';
  mv_owns ch : owns f = Some ch → ch ∈ closed c' ∨ owns f' = Some ch;
  mv_bound ch : ch ∈ closed c' → ch < next_chan c';
  mv_panicked : panicked c' = false
}.

Lemma control_move fs c r t f f' c' r' :
  control fs c r → fs !! t = Some f → move_ok t f f' c c' r r' → control (<[t := f']> fs) c' r'.
Proof.
  intros [H1 H2 H3 H4 H5 H6 H7 H8] Hf [M1 M2 M3 M4 M5 M6 M7 M8 M9 M10 M11 M12 M13].
  assert (∀ ch, (ch ∈ closed c' ∨ ∃ t' g, r = Some t' ∧ fs !! t' = Some g ∧ owns g = Some ch) →
    ch ∈ closed c' ∨ ∃ t' g, r' = Some t' ∧ <[t := f']> fs !! t' = Some g ∧ owns g = Some ch) as Howned.
  { intros ch [Hc|(t' & g & Hr & Hg & Hch)]; [by left|].
    destruct (decide (t' = t)) as [->|Hne].
    - rewrite Hf in Hg. injection Hg as <-. destruct (M11 ch Hch) as [|Hch']; [by left|].
      right. exists t, f'. rewrite lookup_insert_eq. split_and!; try done. apply M3.
      destruct f'; try done; exact I.
    - right. exists t', g. rewrite lookup_insert_ne by done. by rewrite (M4 t' Hne). }
  split; try done.
  - intros t2 g [[<- <-]|[Hne Hg]]%lookup_insert_Some; [done|]. rewrite M2 by done. auto.
  - intros t2 Ht2. destruct (decide (t2 = t)) as [->|Hne]; [by rewrite lookup_insert_eq|].
    rewrite lookup_insert_ne by done. apply H2. by apply M2.
  - intros t2 g [[<- <-]|[Hne Hg]]%lookup_insert_Some; [done|]. rewrite M4 by done. auto.
  - intros t2 Ht2. destruct (decide (t2 = t)) as [->|Hne].
    + exists f'. rewrite lookup_insert_eq. split; [done|]. apply M5. by apply M3.
    + apply M4 in Ht2; [|done]. destruct (H4 t2 Ht2) as (g & Hg & Hok).
      exists g. rewrite lookup_insert_ne by done. split; [done|]. apply M6; [congruence| |done].
      rewrite (H1 _ _ Hg), (H1 _ _ Hf). congruence.
  - intros t2 g [[<- <-]|[Hne Hg]]%lookup_insert_Some.
    + assert (phase_ok c' (λ ch, ∃ t' g, r = Some t' ∧ fs !! t' = Some g ∧ owns g = Some ch) f')
        as Hok.
      { apply M8; [|by apply (H6 t)]. intros Hh Ha Hprog.
        destruct r as [tr|]; [|by rewrite H5 in Hprog].
        destruct (H4 tr eq_refl) as (g & Hg & Hok).
        assert (tr ≠ t) as Hne by (intros ->; apply Ha; by apply (H3 _ _ Hf)).
        assert (¬ holds g) as Hng by (rewrite (H1 _ _ Hg); rewrite (H1 _ _ Hf) in Hh; congruence).
        destruct g; simpl in Hng, Hok; try tauto. destruct_and!. eauto 10. }
      destruct f'; simpl in *; try done; destruct Hok as (ch & -> & Hch); exists ch;
        (split; [done|]); by apply Howned.
    + specialize (H6 t2 g Hg).
      assert (holds g → refreshInProgress c' = refreshInProgress c) as Hp.
      { intros Hh. destruct M9 as [|Hhf]; [done|]. exfalso.
        apply (H1 _ _ Hg) in Hh. apply (H1 _ _ Hf) in Hhf. congruence. }
      destruct g; simpl in *; try done; rewrite ?Hp by done; try done;
        destruct H6 as (ch & -> & Hch); exists ch; (split; [done|]); apply Howned;
        (destruct Hch; [left; set_solver|by right]).
Qed.

(** A thread that has found no refresh under the mutex is right: there is none. *)
Lemma checking_alone fs c r t : control fs c r → fs !! t = Some Checking → r = None.
Proof.
  intros Hc Hf. destruct r as [tr|]; [exfalso|done].
  destruct (ctl_refresh _ _ _ Hc tr eq_refl) as (g & Hg & Hok).
  pose proof (ctl_phase _ _ _ Hc t _ Hf) as Hp. simpl in Hp.
  assert (holds g) as Hh by (destruct g; simpl in *; try done; destruct Hok as [Ht _]; congruence).
  apply (ctl_mutex _ _ _ Hc _ _ Hg) in Hh.
  assert (refreshMutex c = Some t) as Ht by by apply (ctl_mutex _ _ _ Hc _ _ Hf).
  assert (tr = t) as -> by congruence. rewrite Hf in Hg. injection Hg as <-. done.
Qed.

Ltac moves_to r' :=
  exists r'; eapply control_move; [eassumption..|];
  constructor; simpl in *; intros;
  first [done | tauto | congruence | by left | by right | by auto | intuition congruence | idtac].

(** Every step of a thread keeps the control invariant. *)
Lemma step_control fs now t p c p' c' r :
  control fs c r → fs !! t = Some (phase_of p) → step now t p c p' c' None →
  ∃ r', control (<[t := phase_of p']> fs) c' r'.
Proof.
  intros Hc Hf Hstep.
  pose proof (ctl_mutex _ _ _ Hc _ _ Hf) as Hm. pose proof (ctl_active _ _ _ Hc _ _ Hf) as Ha.
  pose proof (ctl_phase _ _ _ Hc _ _ Hf) as Hp. pose proof (ctl_closed _ _ _ Hc) as Hcl.
  pose proof (ctl_panicked _ _ _ Hc) as Hpan. pose proof (ctl_none _ _ _ Hc) as Hn.
  assert (r = Some t → active_ok c (phase_of p)) as Hok.
  { intros Hr. destruct (ctl_refresh _ _ _ Hc t Hr) as (f & Hf' & Hok). naive_solver. }
  inversion Hstep; subst; clear Hstep; simpl in Hm, Ha, Hp, Hok.
  all: try (exists r; eapply control_same; [|rewrite insert_id by exact Hf; eassumption]; done).
  - destruct (_ || _); exists r; by rewrite insert_id.
  - moves_to r.
  - destruct (refreshInProgress c') eqn:Hprog; moves_to r.
  - moves_to r. naive_solver.
  - moves_to r.
  - moves_to r.
  - destruct (_ && _); exists r; by rewrite insert_id.
  - moves_to r.
  - pose proof (checking_alone _ _ _ _ Hc Hf) as ->. moves_to (Some t).
    destruct f2; simpl in *; naive_solver.
  - moves_to r; [|by apply Nat.lt_lt_succ_r, Hcl].
    split_and!; [by apply Hok, Ha|done| |lia]. intros Hin%Hcl. lia.
  - moves_to r.
  - moves_to r.
  - moves_to r.
  - destruct Hok as (Hprog & Hnin & Hlt); [by apply Ha|]. moves_to (@None tid).
    + set_solver.
    + set_solver.
    + set_solver.
    + by rewrite Hpan, bool_decide_eq_false_2.
  - moves_to r.
Qed.

(** Starting a background refresh hands it the channel. *)
Lemma step_control_go fs now t p c p' c' t' q r :
  control fs c r → fs !! t = Some (phase_of p) → fs !! t' = None →
  step now t p c p' c' (Some q) →
  ∃ r', control (<[t' := phase_of q]> (<[t := phase_of p']> fs)) c' r'.
Proof.
  intros [H1 H2 H3 H4 H5 H6 H7 H8] Hf Hf' Hstep. inversion Hstep; subst; clear Hstep.
  simpl in Hf. exists (Some t').
  assert (t' ≠ t) as Hne by congruence.
  assert (r = Some t) as -> by (by apply (H3 _ _ Hf)).
  destruct (H4 t eq_refl) as (f & Hft & Hok). rewrite Hf in Hft. injection Hft as <-.
  split; simpl in *; try done.
  - intros t2 f [[<- <-]|[Hne2 [[<- <-]|[Hne3 Hf2]]%lookup_insert_Some]]%lookup_insert_Some.
    + done.
    + done.
    + rewrite (H1 _ _ Hf2). assert (refreshMutex c = Some t) as -> by (by apply (H1 _ _ Hf)).
      naive_solver.
  - intros t2 f [[<- <-]|[Hne2 [[<- <-]|[Hne3 Hf2]]%lookup_insert_Some]]%lookup_insert_Some.
    + done.
    + naive_solver.
    + rewrite (H3 _ _ Hf2). naive_solver.
  - intros t2 [= <-]. eexists. rewrite lookup_insert_eq. split; [reflexivity|done].
  - intros t2 f [[<- <-]|[Hne2 [[<- <-]|[Hne3 Hf2]]%lookup_insert_Some]]%lookup_insert_Some;
      [done..|].
    specialize (H6 t2 f Hf2). destruct f; simpl in *; try done;
      destruct H6 as (ch & -> & [Hch|(t3 & g & [= <-] & Hg & Hch)]);
      exists ch; (split; [done|]); [by left|right|by left|right];
      (exists t', (Running done); rewrite lookup_insert_eq; split_and!; [done..|];
       rewrite Hf in Hg; by injection Hg as <-).
Qed.

Lemma control_call fs c r t :
  control fs c r → fs !! t = None → control (<[t := Out]> fs) c r.
Proof.
  intros [H1 H2 H3 H4 H5 H6 H7 H8] Hf.
  assert (∀ t2, is_Some (fs !! t2) → t2 ≠ t) as Hne by (intros t2 [? ?]; congruence).
  split; try done.
  - intros t2 f [[<- <-]|[_ Hf2]]%lookup_insert_Some; [|by apply H1].
    simpl. split; [done|]. intros [? ?]%H2. congruence.
  - intros t2 Ht2. rewrite lookup_insert_ne by (symmetry; by apply Hne, H2). by apply H2.
  - intros t2 f [[<- <-]|[_ Hf2]]%lookup_insert_Some; [|by apply H3].
    simpl. split; [done|]. intros (g & ? & _)%H4. congruence.
  - intros t2 Ht2. destruct (H4 t2 Ht2) as (g & Hg & Hok). exists g.
    rewrite lookup_insert_ne by (symmetry; by apply Hne; eexists). done.
  - intros t2 f [[<- <-]|[_ Hf2]]%lookup_insert_Some; [done|].
    specialize (H6 t2 f Hf2). destruct f; simpl in *; try done;
      destruct H6 as (ch & -> & [Hch|(t3 & g & Hr & Hg & Hch)]);
      exists ch; (split; [done|]); [by left|right|by left|right];
      (exists t3, g; rewrite lookup_insert_ne by (symmetry; by apply Hne; eexists); done).
Qed.

Lemma reachable_control s : reachable s → ∃ r, control (phases (threads s)) (cache s) r.
Proof.
  induction 1 as [t0|s s' _ [r IH] Hstep].
  - exists None. simpl. rewrite fmap_empty. apply control_initial.
  - destruct Hstep as [s t Ht|s t key Ht|s t p p' c' Ht Hs|s t p p' c' t' q Ht Hs Ht']; simpl in *.
    + by exists r.
    + exists r. rewrite fmap_insert. apply control_call; [done|]. by rewrite lookup_fmap, Ht.
    + rewrite fmap_insert. eapply step_control; [done| |done]. by rewrite lookup_fmap, Ht.
    + rewrite !fmap_insert. eapply step_control_go; [done|..|done]; by rewrite lookup_fmap, ?Ht, ?Ht'.
Qed.

(** ** Safety *)

(** C9.  The refresh function never runs twice at the same time. *)
Theorem one_refresh_at_a_time s t1 key1 ch1 b1 t2 key2 ch2 b2 :
  reachable s →
  threads s !! t1 = Some (Refresh key1 ch1 b1) → threads s !! t2 = Some (Refresh key2 ch2 b2) →
  t1 = t2.
Proof.
  intros [r Hc]%reachable_control H1 H2.
  assert (r = Some t1) as Hr1.
  { apply (ctl_active _ _ _ Hc t1 (Running ch1)); [by rewrite lookup_fmap, H1|exact I]. }
  assert (r = Some t2) as Hr2.
  { apply (ctl_active _ _ _ Hc t2 (Running ch2)); [by rewrite lookup_fmap, H2|exact I]. }
  congruence.
Qed.

(** No channel is closed twice: the cleanup never panics. *)
Theorem never_panics s : reachable s → panicked (cache s) = false.
Proof. intros [r Hc]%reachable_control. apply Hc. Qed.

(** ** Progress *)

Definition finished (p : pc) : Prop := match p with Finished _ => True | _ => False end.

#[local] Instance finished_dec p : Decision (finished p).
Proof. destruct p; apply _. Defined.

(** A thread that is not at an end goes on, unless it is at the mutex and that is held, or
    waits for a channel that is open. *)
Lemma can_step now t p c :
  ¬ finished p →
  (refreshMutex c = None ∨ (holds (phase_of p) ∧ refreshMutex c = Some t)) ∨
    match p with LockRefresh _ | LockCleanup _ _ => False | _ => True end →
  match p with WaitDone _ (Some ch) => ch ∈ closed c | WaitDone _ None => False | _ => True end →
  ∃ p' c' q, step now t p c p' c' q.
Proof.
  intros Hf Hm Hw.
  destruct p; simpl in *; try (by eexists _, _, _; apply s_refresh_fails);
    try (by eexists _, _, _; constructor); try done.
  - destruct Hm as [[Hm|[[] _]]|[]]. by eexists _, _, _; constructor.
  - destruct done as [ch|]; [|done]. by eexists _, _, _; constructor.
  - destruct value; by eexists _, _, _; constructor.
  - destruct Hm as [[Hm|[[] _]]|[]]. by eexists _, _, _; constructor.
Qed.

Lemma never_stuck_aux s t p :
  reachable s → threads s !! t = Some p → ¬ finished p →
  ∃ t2 p2 p2' c' q, threads s !! t2 = Some p2 ∧ step (now s) t2 p2 (cache s) p2' c' q.
Proof.
  intros [r Hc]%reachable_control Ht Hf.
  destruct (refreshMutex (cache s)) as [h|] eqn:Hm.
  - (* the holder of the mutex goes on *)
    destruct (ctl_holder _ _ _ Hc h Hm) as [f Hh]. rewrite lookup_fmap in Hh.
    apply fmap_Some in Hh as (ph & Hph & ->).
    assert (holds (phase_of ph)) as Hhold
      by (apply (ctl_mutex _ _ _ Hc h); [by rewrite lookup_fmap, Hph|done]).
    destruct (can_step (now s) h ph (cache s)) as (p' & c' & q & Hs).
    + intros Hfin. by destruct ph.
    + left. right. done.
    + by destruct ph.
    + by exists h, ph, p', c', q.
  - assert (∀ t p, threads s !! t = Some p → ¬ finished p →
              match p with WaitDone _ (Some ch) => ch ∈ closed (cache s) | WaitDone _ None => False
                         | _ => True end →
              ∃ t2 p2 p2' c' q, threads s !! t2 = Some p2 ∧ step (now s) t2 p2 (cache s) p2' c' q)
      as Hgo.
    { intros t1 p1 Ht1 Hf1 Hw. destruct (can_step (now s) t1 p1 (cache s)) as (p' & c' & q & Hs);
        [done|by left; left|done|]. by exists t1, p1, p', c', q. }
    assert (phases (threads s) !! t = Some (phase_of p)) as Hph by by rewrite lookup_fmap, Ht.
    pose proof (ctl_phase _ _ _ Hc t _ Hph) as Hok.
    destruct p; try (by eapply Hgo).
    simpl in Hok. destruct Hok as (ch & -> & [Hch|(t3 & f & Hr & Ht3 & Hown)]); [by eapply Hgo|].
    rewrite lookup_fmap in Ht3. apply fmap_Some in Ht3 as (p3 & Ht3 & ->).
    eapply (Hgo t3 p3); [done|by destruct p3|by destruct p3].
Qed.

(** The cache never deadlocks: as long as some call has not returned, or some
    goroutine has not ended, some thread can take a step. *)
Theorem never_stuck s t p :
  reachable s → threads s !! t = Some p → ¬ finished p →
  ∃ t2 p2 p2' c' q, threads s !! t2 = Some p2 ∧ step (now s) t2 p2 (cache s) p2' c' q.
Proof. apply never_stuck_aux. Qed.

(** ** Termination *)

(** The steps a thread still has before it, and those of the goroutine it may start. *)
Definition rank (p : pc) : nat :=
  match p with
  | GetLoad _ => 30 | GetExpiry _ _ => 29 | GetNow _ _ _ => 28 | LockRefresh _ => 27
  | ReadInProgress _ => 26 | ReadDone _ => 25 | UnlockWait _ _ => 24 | WaitDone _ _ => 23
  | LoadAfter _ => 22 | Recheck _ => 25 | RecheckExpiry _ _ => 24 | RecheckNow _ _ _ => 23
  | UnlockFresh _ => 1 | SetInProgress _ _ => 22 | MakeDone _ _ => 21 | UnlockRefresh _ _ _ => 20
  | Refresh _ _ _ => 10 | StoreData _ _ _ _ => 9 | ReadNow _ _ => 8 | StoreExpiry _ _ _ => 7
  | LockCleanup _ _ => 6 | ResetInProgress _ _ => 5 | CloseDone _ _ => 4 | UnlockCleanup _ => 3
  | Finished _ => 0
  end.

Definition total (ths : gmap tid pc) : nat := map_fold (λ _ p n, rank p + n) 0 ths.

Lemma total_insert ths t p : ths !! t = None → total (<[t := p]> ths) = rank p + total ths.
Proof. intros Ht. unfold total. apply (map_fold_insert_L (λ _ p n, rank p + n)); [lia|done]. Qed.

Lemma total_update ths t p p' :
  ths !! t = Some p → total (<[t := p']> ths) + rank p = total ths + rank p'.
Proof.
  intros Ht. rewrite <-(insert_delete_id ths t p Ht) at 2. rewrite <-insert_delete_eq.
  rewrite !total_insert by apply lookup_delete_eq. lia.
Qed.

Lemma step_rank now t p c p' c' q :
  step now t p c p' c' q → rank p' + default 0 (rank <$> q) < rank p.
Proof. destruct 1; simpl; try lia; case_match; simpl; lia. Qed.

(** A step of a thread, the clock standing still and no call starting. *)
Inductive thread_step : system → system → Prop :=
| th_step s t p p' c' :
    threads s !! t = Some p → step (now s) t p (cache s) p' c' None →
    thread_step s (MkSystem (now s) (<[t := p']> (threads s)) c')
| th_go s t p p' c' t' q :
    threads s !! t = Some p → step (now s) t p (cache s) p' c' (Some q) →
    threads s !! t' = None →
    thread_step s (MkSystem (now s) (<[t' := q]> (<[t := p']> (threads s))) c').

Lemma thread_step_total s s' : thread_step s s' → total (threads s') < total (threads s).
Proof.
  destruct 1 as [s t p p' c' Ht Hs|s t p p' c' t' q Ht Hs Ht']; simpl; apply step_rank in Hs;
    simpl in Hs; pose proof (total_update _ t p p' Ht).
  - lia.
  - rewrite total_insert; [lia|]. rewrite lookup_insert_ne; [done|congruence].
Qed.

(** C10.  Every call returns: however the threads are scheduled, they take finitely many
    steps until a new call starts, and when none can take another, every call has
    returned and every refresh has ended. *)
Theorem every_call_returns s :
  reachable s →
  Acc (λ s2 s1, thread_step s1 s2) s ∧
  ((∀ s', ¬ thread_step s s') → ∀ t p, threads s !! t = Some p → finished p).
Proof.
  intros Hr. split.
  - clear Hr. remember (total (threads s)) as n eqn:E. revert s E.
    induction (lt_wf n) as [n _ IH]. intros s ->. constructor. intros s' Hs.
    eapply IH; [by apply thread_step_total|done].
  - intros Hstop t p Ht. destruct (decide (finished p)) as [|Hf]; [done|exfalso].
    destruct (never_stuck_aux s t p Hr Ht Hf) as (t2 & p2 & p2' & c' & q & Ht2 & Hs).
    destruct q as [q|].
    + apply (Hstop (MkSystem (now s) (<[fresh (dom (threads s)) := q]> (<[t2 := p2']> (threads s))) c')).
      eapply th_go; [done..|]. apply not_elem_of_dom, is_fresh.
    + eapply Hstop. by eapply th_step.
Qed.

(** ** What is served *)

(** The data a thread holds. *)
Definition held (p : pc) : option V :=
  match p with
  | GetExpiry _ value | GetNow _ value _ | RecheckExpiry _ value | RecheckNow _ value _
  | UnlockFresh value | SetInProgress _ value | MakeDone _ value | UnlockRefresh _ value _
  | ReadNow _ (Value value) | StoreExpiry _ (Value value) _ | LockCleanup _ (Value value)
  | ResetInProgress _ (Value value) | CloseDone _ (Value value) | UnlockCleanup (Value value)
  | Finished (Value value) => value
  | StoreData _ _ _ newData => Some newData
  | _ => None
  end.

Record provenance (s : system) : Prop := {
  prov_data key v : data (cache s) !! key = Some v → v ∈ returned (cache s);
  prov_held t p v : threads s !! t = Some p → held p = Some v → v ∈ returned (cache s)
}.

Lemma step_held now t p c p' c' q :
  step now t p c p' c' q →
  (∀ v, v ∈ returned c → v ∈ returned c') ∧ (∀ g, q = Some g → held g = None) ∧
  (∀ v, held p' = Some v → held p = Some v ∨ v ∈ returned c' ∨ ∃ key, data c !! key = Some v) ∧
  (∀ key v, data c' !! key = Some v → data c !! key = Some v ∨ held p = Some v).
Proof.
  destruct 1; simpl; split_and!; try (by auto); try (by naive_solver); try (by set_solver);
    repeat case_match; simpl; try (by naive_solver); try (by set_solver).
  - by destruct background; simplify_eq/=.
  - destruct background; simplify_eq/=. auto.
  - intros key0 v [[<- <-]|[_ Hv]]%lookup_insert_Some; auto.
Qed.

Lemma reachable_provenance s : reachable s → provenance s.
Proof.
  induction 1 as [t0|s s' _ [Hd Hh] Hstep]; [by split|].
  destruct Hstep as [s t Ht|s t key Ht|s t p p' c' Ht Hs|s t p p' c' t' q Ht Hs Ht']; simpl in *.
  - done.
  - split; simpl; [done|]. intros t2 p v [[<- <-]|[_ Ht2]]%lookup_insert_Some; [done|eauto].
  - destruct (step_held _ _ _ _ _ _ _ Hs) as (Hret & _ & Hp' & Hdata). split; simpl.
    + intros key v [Hv|Hv]%Hdata; eauto.
    + intros t2 p2 v [[<- <-]|[_ Ht2]]%lookup_insert_Some Hv; [|eauto].
      apply Hp' in Hv as [Hv|[Hv|[key Hv]]]; eauto.
  - destruct (step_held _ _ _ _ _ _ _ Hs) as (Hret & Hq & Hp' & Hdata). split; simpl.
    + intros key v [Hv|Hv]%Hdata; eauto.
    + intros t2 p2 v [[<- <-]|[_ [[<- <-]|[_ Ht2]]%lookup_insert_Some]]%lookup_insert_Some Hv; [| |eauto].
      * by rewrite (Hq q eq_refl) in Hv.
      * apply Hp' in Hv as [Hv|[Hv|[key Hv]]]; eauto.
Qed.

(** What a call returns is something the refresh function returned: never a value
    made up, nor half of one. *)
Theorem served_was_fetched s t v :
  reachable s → threads s !! t = Some (Finished (Value (Some v))) → v ∈ returned (cache s).
Proof. intros Hr Ht. by apply (prov_held _ (reachable_provenance s Hr) t _ v Ht). Qed.

(** ** Running a schedule

    The steps as a function, the refresh function answering [answer]. *)

Definition exec (answer : option V) (now : Z) (t : tid) (p : pc) (c : StaleAllowedCache) :
    option (pc * StaleAllowedCache * option pc) :=
  match p with
  | GetLoad key => Some (GetExpiry key (data c !! key), c, None)
  | GetExpiry key value => Some (GetNow key value (expiry c), c, None)
  | GetNow key value expiryTime =>
      Some (if negb (bool_decide (is_Some value)) || bool_decide (expiryTime < now)%Z
            then LockRefresh key else Finished (Value value), c, None)
  | LockRefresh key =>
      match refreshMutex c with
      | Some _ => None
      | None => Some (ReadInProgress key, set_mutex (Some t) c, None)
      end
  | ReadInProgress key =>
      Some (if refreshInProgress c then ReadDone key else Recheck key, c, None)
  | ReadDone key => Some (UnlockWait key (refreshDone c), c, None)
  | UnlockWait key done => Some (WaitDone key done, set_mutex None c, None)
  | WaitDone key done =>
      match done with
      | Some ch => if bool_decide (ch ∈ closed c) then Some (LoadAfter key, c, None) else None
      | None => None
      end
  | LoadAfter key => Some (Finished (Value (data c !! key)), c, None)
  | Recheck key => Some (RecheckExpiry key (data c !! key), c, None)
  | RecheckExpiry key value => Some (RecheckNow key value (expiry c), c, None)
  | RecheckNow key value expiryTime =>
      Some (if bool_decide (is_Some value) && negb (bool_decide (expiryTime < now)%Z)
            then UnlockFresh value else SetInProgress key value, c, None)
  | UnlockFresh value => Some (Finished (Value value), set_mutex None c, None)
  | SetInProgress key value => Some (MakeDone key value, set_inProgress true c, None)
  | MakeDone key value => Some (UnlockRefresh key value (next_chan c), make_done c, None)
  | UnlockRefresh key (Some value) done =>
      Some (Finished (Value (Some value)), set_mutex None c, Some (Refresh key done true))
  | UnlockRefresh key None done => Some (Refresh key done false, set_mutex None c, None)
  | Refresh key done background =>
      match answer with
      | Some newData => Some (StoreData key done background newData, add_returned newData c, None)
      | None => Some (LockCleanup done (refreshed background None), c, None)
      end
  | StoreData key done background newData =>
      Some (ReadNow done (refreshed background (Some newData)),
            set_data (<[key := newData]> (data c)) c, None)
  | ReadNow done o => Some (StoreExpiry done o (now + refreshPeriod), c, None)
  | StoreExpiry done o e => Some (LockCleanup done o, set_expiry e c, None)
  | LockCleanup done o =>
      match refreshMutex c with
      | Some _ => None
      | None => Some (ResetInProgress done o, set_mutex (Some t) c, None)
      end
  | ResetInProgress done o => Some (CloseDone done o, set_inProgress false c, None)
  | CloseDone done o => Some (UnlockCleanup o, close done c, None)
  | UnlockCleanup o => Some (Finished o, set_mutex None c, None)
  | Finished _ => None
  end.

Lemma exec_sound answer now t p c p' c' q :
  exec answer now t p c = Some (p', c', q) → step now t p c p' c' q.
Proof.
  destruct p; simpl; try (intros [= <- <- <-]; constructor; fail).
  - destruct (refreshMutex c) eqn:Hm; intros [= <- <- <-]. by constructor.
  - destruct done as [ch|]; [|done]. case_bool_decide; intros [= <- <- <-]. by constructor.
  - destruct value; intros [= <- <- <-]; constructor.
  - destruct answer; intros [= <- <- <-]; constructor.
  - destruct (refreshMutex c) eqn:Hm; intros [= <- <- <-]. by constructor.
Qed.

(** The steps of the threads of a schedule, one after the other; goroutines get the
    number after the thread that starts them. *)
Fixpoint run (answer : option V) (schedule : list tid) (s : system) : option system :=
  match schedule with
  | [] => Some s
  | t :: schedule =>
      p ← threads s !! t;
      '(p', c', q) ← exec answer (now s) t p (cache s);
      match q with
      | None => run answer schedule (MkSystem (now s) (<[t := p']> (threads s)) c')
      | Some q =>
          match threads s !! S t with
          | Some _ => None
          | None =>
              run answer schedule (MkSystem (now s) (<[S t := q]> (<[t := p']> (threads s))) c')
          end
      end
  end.

Lemma run_reachable answer schedule s s' :
  reachable s → run answer schedule s = Some s' → reachable s'.
Proof.
  revert s. induction schedule as [|t schedule IH]; simpl; intros s Hr; [by intros [= <-]|].
  intros (p & Hp & ([[p' c'] q] & He%exec_sound & Hrun)%bind_Some)%bind_Some.
  destruct q as [q|].
  - destruct (threads s !! S t) eqn:Hq; [done|]. eapply IH; [|exact Hrun].
    eapply reach_step; [exact Hr|]. by eapply sys_go.
  - eapply IH; [|exact Hrun]. eapply reach_step; [exact Hr|]. by eapply sys_step.
Qed.

(** Two first calls, for two keys. *)
Definition two_calls (key1 key2 : string) : system :=
  MkSystem 0 (<[1 := GetLoad key1]> (<[2 := GetLoad key2]> ∅)) (NewStaleAllowedCache 0).

Lemma two_calls_reachable key1 key2 : reachable (two_calls key1 key2).
Proof.
  apply (reach_step (MkSystem 0 (<[2 := GetLoad key2]> ∅) (NewStaleAllowedCache 0))).
  - eapply reach_step; [apply (reach_init 0%Z)|]. by apply (sys_call (initial 0) 2 key2).
  - unfold two_calls. exact (sys_call (MkSystem 0 (<[2 := GetLoad key2]> ∅) (NewStaleAllowedCache 0)) 1 key1 eq_refl).
Qed.

(** The first call goes up to its refresh, the second one up to its wait; the refresh
    succeeds and both go on. *)
Definition two_calls_schedule : list tid :=
  replicate 11 1 ++ replicate 7 2 ++ replicate 8 1 ++ replicate 2 2.

(** The first access to a key can fail although no refresh has failed: when the
    refresh of another key is under way it waits for that one, and then finds nothing.
    (The comment on [Get] promises that a first access blocks until data is available;
    the program only ever uses one key.) *)
Theorem first_access_waits_for_another_key (v : V) :
  ∃ s, run (Some v) two_calls_schedule (two_calls "key1" "key2") = Some s ∧ reachable s ∧
    next_chan (cache s) = 1 ∧ returned (cache s) = [v] ∧
    threads s !! 1 = Some (Finished (Value (Some v))) ∧
    threads s !! 2 = Some (Finished (Value None)).
Proof.
  destruct (run (Some v) two_calls_schedule (two_calls "key1" "key2")) as [s|] eqn:Hrun.
  - exists s. split; [done|]. split; [eapply run_reachable; [apply two_calls_reachable|exact Hrun]|].
    vm_compute in Hrun. injection Hrun as <-. vm_compute. auto.
  - exfalso. vm_compute in Hrun. discriminate.
Qed.
End StaleCache.

(** ** Examples *)

Definition cache_after (answer : option nat) (schedule : list nat) : system nat :=
  default (initial nat 60 0) (run nat 60 answer schedule (two_calls nat 60 "key" "key")).

Lemma cache_after_reachable answer schedule : reachable nat 60 (cache_after answer schedule).
Proof.
  unfold cache_after. destruct (run _ _ _ _ _) as [s|] eqn:Hrun; simpl.
  - eapply run_reachable; [apply two_calls_reachable|exact Hrun].
  - apply (reach_init nat 60 0%Z).
Qed.

Lemma one_refresh_at_a_time_witness :
  threads nat (cache_after None (replicate 11 1)) !! 1 = Some (Refresh nat "key" 0 false) ∧ 1 = 1.
Proof.
  split; [vm_compute; reflexivity|].
  apply (one_refresh_at_a_time nat 60 (cache_after None (replicate 11 1)) 1 "key" 0 false
           1 "key" 0 false).
  - apply cache_after_reachable.
  - vm_compute. reflexivity.
  - vm_compute. reflexivity.
Defined.

Lemma never_panics_witness :
  panicked nat (cache nat (cache_after (Some 5) two_calls_schedule)) = false.
Proof. apply (never_panics nat 60). apply cache_after_reachable. Defined.

Lemma never_stuck_witness :
  threads nat (cache_after None (replicate 11 1 ++ replicate 7 2)) !! 2 =
    Some (WaitDone nat "key" (Some 0)) ∧
  ∃ t p, threads nat (cache_after None (replicate 11 1 ++ replicate 7 2)) !! t = Some p.
Proof.
  assert (threads nat (cache_after None (replicate 11 1 ++ replicate 7 2)) !! 2 =
    Some (WaitDone nat "key" (Some 0))) as Hw by (vm_compute; reflexivity).
  split; [exact Hw|].
  destruct (never_stuck nat 60 (cache_after None (replicate 11 1 ++ replicate 7 2)) 2
              (WaitDone nat "key" (Some 0)) (cache_after_reachable _ _) Hw (λ H, H))
    as (t & p & _ & _ & _ & Ht & _).
  exists t, p. exact Ht.
Defined.

Lemma every_call_returns_witness :
  Acc (λ s2 s1, thread_step nat 60 s1 s2) (two_calls nat 60 "a" "b").
Proof. apply (every_call_returns nat 60). apply two_calls_reachable. Defined.

Lemma served_was_fetched_witness :
  5 ∈ returned nat (cache nat (cache_after (Some 5) two_calls_schedule)).
Proof.
  apply (served_was_fetched nat 60 (cache_after (Some 5) two_calls_schedule) 2 5).
  - apply cache_after_reachable.
  - vm_compute. reflexivity.
Defined.
