(* ===== verification/DrivenCache.v ===== *)
(** * The concurrent installations cache in its surroundings

    StaleCache lets the clock advance and the refresh function return what they like.
    Here the threads ask the surroundings of the process: a point of the program that
    reads the clock reads that of the environment, one that refreshes gets the answer of
    the refresh function there, and nothing else asks for anything.  A run is labelled
    with the calls that start and return in it.  When the clock never goes back, every
    such run is one of StaleCache. *)

From S2P Require Import Prelude World StaleCache.
From stdpp Require Import relations.

Section Driven.
Context {E : Type} `{Environment E} {V : Type} (period : Z).
(** The refresh function: what it returns, and the surroundings it leaves. *)
Context (fetch : E → result V * E).

Abbreviation system := (system V).

(** ** Steps *)

(** What a thread asks for at a point of its program: the time it sees, the answer to its
    refresh, and the surroundings then.  [time.Now()] is evaluated when there is a value
    only, as the conditions of the code are written.  A refresh that panics is not
    modelled. *)
Definition surroundings (p : pc V) (last : Z) (e : E) : option (Z * option V * E) :=
  match p with
  | GetNow _ _ (Some _) _ | RecheckNow _ _ (Some _) _ | ReadNow _ _ _ =>
      Some ((env_now e).1, None, (env_now e).2)
  | Refresh _ _ _ _ =>
      match fetch e with
      | (Ok newData, e') => Some (last, Some newData, e')
      | (Err _, e') => Some (last, None, e')
      | (Panic _, _) => None
      end
  | _ => Some (last, None, e)
  end.

Inductive label := Started (t : nat) (key : string) | Returned (t : nat) (value : option V).

Definition labels (t : nat) (p : pc V) : list label :=
  match p with Finished _ (Value _ value) => [Returned t value] | _ => [] end.

Inductive driven : E * system → list label → E * system → Prop :=
| driven_call e s t key :
    threads V s !! t = None →
    driven (e, s) [Started t key]
      (e, MkSystem V (now V s) (<[t := GetLoad V key]> (threads V s)) (cache V s))
| driven_step e s t p n answer e' p' c' :
    threads V s !! t = Some p → surroundings p (now V s) e = Some (n, answer, e') →
    exec V period answer n t p (cache V s) = Some (p', c', None) →
    driven (e, s) (labels t p') (e', MkSystem V n (<[t := p']> (threads V s)) c')
| driven_go e s t p n answer e' p' c' t' q :
    threads V s !! t = Some p → surroundings p (now V s) e = Some (n, answer, e') →
    exec V period answer n t p (cache V s) = Some (p', c', Some q) → threads V s !! t' = None →
    driven (e, s) (labels t p') (e', MkSystem V n (<[t' := q]> (<[t := p']> (threads V s))) c').

Inductive driven_run : E * system → list label → E * system → Prop :=
| driven_refl x : driven_run x [] x
| driven_cons x l1 y l2 z : driven x l1 y → driven_run y l2 z → driven_run x (l1 ++ l2) z.

Lemma driven_once x l y : driven x l y → driven_run x l y.
Proof. intros Hx. rewrite <-(app_nil_r l). by eapply driven_cons, driven_refl. Qed.

Lemma driven_trans x l1 y l2 z : driven_run x l1 y → driven_run y l2 z → driven_run x (l1 ++ l2) z.
Proof.
  induction 1 as [|x l1 y l1' y' Hx _ IH]; [done|]. intros Hy. rewrite <-app_assoc.
  eapply driven_cons; [exact Hx|by apply IH].
Qed.

(** Threads are never forgotten. *)
Lemma driven_absent x l y t : driven x l y → threads V y.2 !! t = None → threads V x.2 !! t = None.
Proof.
  intros Hx Hy. destruct Hx as [e s t1 key Ht1|e s t1 p n answer e' p' c' Ht1 _ _
    |e s t1 p n answer e' p' c' t2 q Ht1 _ _ _]; simpl in *;
    by repeat apply lookup_insert_None in Hy as [Hy _].
Qed.

Lemma driven_run_absent x l y t :
  driven_run x l y → threads V y.2 !! t = None → threads V x.2 !! t = None.
Proof. induction 1; eauto using driven_absent. Qed.

(** ** Runs of StaleCache *)

Section Monotonic.
Context (clock : E → Z).
Context (clock_now : ∀ e, (clock e ≤ (env_now e).1 ≤ clock (env_now e).2)%Z).
Context (clock_fetch : ∀ e, (clock e ≤ clock (fetch e).2)%Z).

Lemma surroundings_clock p last e n answer e' :
  surroundings p last e = Some (n, answer, e') → (last ≤ clock e)%Z → (last ≤ n ≤ clock e')%Z.
Proof.
  intros Hs Hl. pose proof (clock_now e) as Hn. pose proof (clock_fetch e) as Hf.
  unfold surroundings in Hs. destruct (fetch e) as [[v|err|m] e1]; cbn [snd] in Hf;
    repeat case_match; simplify_eq; lia.
Qed.

Lemma driven_system x l y :
  driven x l y → (now V x.2 ≤ clock x.1)%Z →
  rtc (system_step V period) x.2 y.2 ∧ (now V y.2 ≤ clock y.1)%Z.
Proof.
  intros Hx Hl. destruct Hx as [e s t key Ht|e s t p n answer e' p' c' Ht Hs Hx
    |e s t p n answer e' p' c' t' q Ht Hs Hx Ht']; cbn [fst snd now] in *.
  - split; [|done]. apply rtc_once. by constructor.
  - apply surroundings_clock in Hs as [Hn1 Hn2]; [|done]. split; [|done].
    eapply rtc_l; [by apply (sys_tick V period s n)|].
    apply rtc_once, (sys_step V period (MkSystem V n _ _) t p);
      [done|by eapply exec_sound].
  - apply surroundings_clock in Hs as [Hn1 Hn2]; [|done]. split; [|done].
    eapply rtc_l; [by apply (sys_tick V period s n)|]. apply rtc_once.
    eapply (sys_go V period (MkSystem V n _ _) t p); [done|by eapply exec_sound|done].
Qed.

Lemma driven_run_system x l y :
  driven_run x l y → (now V x.2 ≤ clock x.1)%Z → rtc (system_step V period) x.2 y.2.
Proof.
  induction 1 as [|x l1 y l2 z Hx _ IH]; intros Hl; [done|].
  destruct (driven_system _ _ _ Hx Hl) as [Hs Hy]. etrans; [exact Hs|by apply IH].
Qed.
End Monotonic.

(** ** Runs of one thread *)

(** [k] steps of a thread that starts no other, with the surroundings and the time. *)
Fixpoint solo (k : nat) (t : nat) (x : Z * E) (p : pc V) (c : StaleAllowedCache V) :
    option (Z * E * pc V * StaleAllowedCache V * list label) :=
  match k with
  | O => Some (x.1, x.2, p, c, [])
  | S k =>
      match surroundings p x.1 x.2 with
      | Some (n, answer, e') =>
          match exec V period answer n t p c with
          | Some (p', c', None) =>
              match solo k t (n, e') p' c' with
              | Some (n'', e'', p'', c'', ls) => Some (n'', e'', p'', c'', labels t p' ++ ls)
              | None => None
              end
          | _ => None
          end
      | None => None
      end
  end.

Lemma solo_run k t e p n' e' p' c' ls (s : system) :
  threads V s !! t = Some p → solo k t (now V s, e) p (cache V s) = Some (n', e', p', c', ls) →
  driven_run (e, s) ls (e', MkSystem V n' (<[t := p']> (threads V s)) c').
Proof.
  revert s e p ls. induction k as [|k IH]; intros s e p ls Ht; cbn [solo fst snd].
  { intros [= <- <- <- <- <-]. rewrite insert_id by done. destruct s. constructor. }
  destruct (surroundings p (now V s) e) as [[[n answer] e1]|] eqn:Hs; [|done].
  destruct (exec V period answer n t p (cache V s)) as [[[p1 c1] [q|]]|] eqn:Hx; [done| |done].
  destruct (solo k t (n, e1) p1 c1) as [[[[[n2 e2] p2] c2] ls2]|] eqn:Hk; [|done].
  intros [= <- <- <- <- <-]. eapply driven_cons; [by eapply driven_step|].
  specialize (IH (MkSystem V n (<[t := p1]> (threads V s)) c1) e1 p1 ls2). cbn [threads cache now] in IH.
  rewrite insert_insert_eq in IH. apply IH; [apply lookup_insert_eq|exact Hk].
Qed.

(** ** The parts of a call *)

Section Parts.
Context (t : nat) (key : string) (n : Z) (e : E).
Abbreviation clock_read := ((env_now e).1).
Abbreviation after_read := ((env_now e).2).

(** A call that finds fresh data. *)
Lemma solo_hit value c :
  data V c !! key = Some value → (clock_read ≤ expiry V c)%Z →
  solo 3 t (n, e) (GetLoad V key) c =
    Some (clock_read, after_read, Finished V (Value V (Some value)), c, [Returned t (Some value)]).
Proof. intros Hd He. cbn. rewrite Hd. cbn. by rewrite bool_decide_eq_false_2 by lia. Qed.

(** A call that finds no data, or data that has expired, goes on to the mutex. *)
Lemma solo_no_data c :
  data V c !! key = None →
  solo 3 t (n, e) (GetLoad V key) c = Some (n, e, LockRefresh V key, c, []).
Proof. intros Hd. cbn. by rewrite Hd. Qed.

Lemma solo_old value c :
  data V c !! key = Some value → (expiry V c < clock_read)%Z →
  solo 3 t (n, e) (GetLoad V key) c = Some (clock_read, after_read, LockRefresh V key, c, []).
Proof. intros Hd He. cbn. rewrite Hd. cbn. by rewrite bool_decide_eq_true_2 by lia. Qed.

(** Behind the mutex: a refresh is under way, and it waits. *)
Lemma solo_to_wait c :
  refreshMutex V c = None → refreshInProgress V c = true →
  solo 4 t (n, e) (LockRefresh V key) c =
    Some (n, e, WaitDone V key (refreshDone V c), set_mutex V None (set_mutex V (Some t) c), []).
Proof. intros Hm Hp. cbn. rewrite Hm. cbn. by rewrite Hp. Qed.

Lemma solo_waited ch c :
  ch ∈ closed V c →
  solo 2 t (n, e) (WaitDone V key (Some ch)) c =
    Some (n, e, Finished V (Value V (data V c !! key)), c, [Returned t (data V c !! key)]).
Proof. intros Hch. cbn. by rewrite bool_decide_eq_true_2. Qed.

(** No refresh is under way: the data is looked at again, and found to be fresh; or to
    have expired, and a refresh is started for another thread to run; or to be missing,
    and the call refreshes. *)
Definition marked (c : StaleAllowedCache V) : StaleAllowedCache V :=
  make_done V (set_inProgress V true (set_mutex V (Some t) c)).

Lemma solo_fresh value c :
  refreshMutex V c = None → refreshInProgress V c = false →
  data V c !! key = Some value → (clock_read ≤ expiry V c)%Z →
  solo 6 t (n, e) (LockRefresh V key) c =
    Some (clock_read, after_read, Finished V (Value V (Some value)),
          set_mutex V None (set_mutex V (Some t) c), [Returned t (Some value)]).
Proof.
  intros Hm Hp Hd He. cbn. rewrite Hm. cbn. rewrite Hp. cbn. rewrite Hd. cbn.
  by rewrite bool_decide_eq_false_2 by lia.
Qed.

Lemma solo_stale value c :
  refreshMutex V c = None → refreshInProgress V c = false →
  data V c !! key = Some value → (expiry V c < clock_read)%Z →
  solo 7 t (n, e) (LockRefresh V key) c =
    Some (clock_read, after_read, UnlockRefresh V key (Some value) (next_chan V c), marked c, []).
Proof.
  intros Hm Hp Hd He. cbn. rewrite Hm. cbn. rewrite Hp. cbn. rewrite Hd. cbn.
  by rewrite bool_decide_eq_true_2 by lia.
Qed.

Lemma solo_missing c :
  refreshMutex V c = None → refreshInProgress V c = false → data V c !! key = None →
  solo 8 t (n, e) (LockRefresh V key) c =
    Some (n, e, Refresh V key (next_chan V c) false, set_mutex V None (marked c), []).
Proof. intros Hm Hp Hd. cbn. rewrite Hm. cbn. rewrite Hp. cbn. by rewrite Hd. Qed.

(** A refresh, and the cache when it has ended. *)
Definition unmarked (ch : nat) (c : StaleAllowedCache V) : StaleAllowedCache V :=
  set_mutex V None (close V ch (set_inProgress V false (set_mutex V (Some t) c))).

Lemma solo_refresh_failed ch background c err e1 :
  refreshMutex V c = None → fetch e = (Err err, e1) →
  solo 5 t (n, e) (Refresh V key ch background) c =
    Some (n, e1, Finished V (refreshed V background None), unmarked ch c,
          labels t (Finished V (refreshed V background None))).
Proof. intros Hm Hf. cbn. rewrite Hf. cbn. rewrite Hm. cbn. by destruct background. Qed.

Lemma solo_refresh_done ch background c newData e1 :
  refreshMutex V c = None → fetch e = (Ok newData, e1) →
  solo 8 t (n, e) (Refresh V key ch background) c =
    Some ((env_now e1).1, (env_now e1).2, Finished V (refreshed V background (Some newData)),
          unmarked ch (set_expiry V ((env_now e1).1 + period)
            (set_data V (<[key := newData]> (data V c)) (add_returned V newData c))),
          labels t (Finished V (refreshed V background (Some newData)))).
Proof. intros Hm Hf. cbn. rewrite Hf. cbn. rewrite Hm. cbn. by destruct background. Qed.
End Parts.
End Driven.

Arguments Started {_} _ _.
Arguments Returned {_} _ _.
