(* ===== verification/CacheRefinement.v ===== *)
(** * The two models of the installations cache

    Github has the cache as one caller at a time sees it, StaleCache has every access to
    its shared state as a step of its own, and DrivenCache lets these steps read the clock
    and ask the hub.  Here the first refines the last: whatever calls one caller makes, and
    whenever the refreshes it leaves behind run, there is an interleaving of the steps in
    which the same calls start and return one after the other, each with what it returned;
    in which the clock is read and the hub is asked at the same points, so that the
    surroundings of the process end the same; and which leaves the cache with the same data
    and the same expiry.  So what StaleCache shows of every reachable state holds of the
    cache of the GitHub components. *)

From S2P Require Import Prelude Json Kube Metrics Config TokenCache World GitComponent Sample.
From S2P Require Import StaleCache DrivenCache Github GithubFetch GithubProofs.
From stdpp Require Import relations.
From Stdlib Require Import Ascii.

(** ** What a refresh asks for

    A refresh looks at nothing of the process but its surroundings: it does the same in two
    processes that have the same ones. *)

Class EnvOnly {E A} (m : M E A) : Prop :=
  env_only w1 w2 : w_env w1 = w_env w2 →
    (m w1).1 = (m w2).1 ∧ w_env (m w1).2 = w_env (m w2).2.

Section EnvOnly.
Context {E : Type} `{Environment E} `{Libraries} (page_fuel : nat).

#[local] Instance lift_env {A} (r : result A) : EnvOnly (E:=E) (go_lift r).
Proof. by intros w1 w2. Qed.
#[local] Instance ret_env {A} (a : A) : EnvOnly (E:=E) (go_ret a).
Proof. by intros w1 w2. Qed.
#[local] Instance fail_env {A} e : EnvOnly (E:=E) (go_fail (A:=A) e).
Proof. by intros w1 w2. Qed.
#[local] Instance panic_env {A} p : EnvOnly (E:=E) (go_panic (A:=A) p).
Proof. by intros w1 w2. Qed.
#[local] Instance api_env {A} (q : ApiRequest A) : EnvOnly (E:=E) (api q).
Proof. intros w1 w2 Hw. unfold api. rewrite Hw. by destruct (env_api q (w_env w2)). Qed.

#[local] Instance bind_env {A B} (m : M E A) (f : A → M E B) :
  EnvOnly m → (∀ a, EnvOnly (f a)) → EnvOnly (go_bind m f).
Proof.
  intros Hm Hf w1 w2 Hw. unfold go_bind. destruct (Hm w1 w2 Hw) as [Hr He].
  destruct (m w1) as [r1 w1'], (m w2) as [r2 w2']. cbn in Hr, He. subst r2.
  destruct r1; [by apply Hf|done|done].
Qed.
#[local] Instance wrap_env {A} h (m : M E A) : EnvOnly m → EnvOnly (go_wrap h m).
Proof.
  intros Hm w1 w2 Hw. unfold go_wrap, go_try. destruct (Hm w1 w2 Hw) as [Hr He].
  destruct (m w1) as [r1 w1'], (m w2) as [r2 w2']. cbn in Hr, He. subst r2.
  by destruct r1.
Qed.
#[local] Instance fold_env {A B} (l : list A) (b : B) f :
  (∀ a b, EnvOnly (f a b)) → EnvOnly (E:=E) (go_fold l b f).
Proof. intros Hf. revert b. induction l as [|a l IH]; intros b; simpl; apply _. Qed.

#[local] Instance api_call_env {A} (q : ApiRequest (error + A)) : EnvOnly (E:=E) (api_call q).
Proof. unfold api_call. apply _. Qed.
#[local] Instance list_repos_env fuel app id page repos :
  EnvOnly (list_repos (E:=E) fuel app id page repos).
Proof.
  revert page repos. induction fuel as [|fuel IH]; intros page repos; simpl; [apply _|].
  apply bind_env; [apply _|]. intros [e|[names next]]; [apply _|]. case_decide; apply _.
Qed.
#[local] Instance fetch_installation_env app id : EnvOnly (fetch_installation (E:=E) page_fuel app id).
Proof. unfold fetch_installation. apply _. Qed.
#[local] Instance fetch_pages_env fuel app page l :
  EnvOnly (fetch_pages (E:=E) page_fuel fuel app page l).
Proof.
  revert page l. induction fuel as [|fuel IH]; intros page l; simpl; [apply _|].
  apply bind_env; [apply _|]. intros [[e code]|[ids next]]; [apply _|].
  apply bind_env; [apply _|]. intros l'. case_decide; apply _.
Qed.
#[export] Instance fetchAppInstallations_env app :
  EnvOnly (fetchAppInstallations (E:=E) page_fuel app).
Proof. unfold fetchAppInstallations. apply _. Qed.

(** The refresh function of the cache of [app], on the surroundings alone. *)
Definition fetched (app : App) (e : E) : result (list AppInstallation) * E :=
  let '(r, w) := fetchAppInstallations page_fuel app (MkWorld e [] no_metrics None None github_init) in
  (r, w_env w).

Lemma fetched_eq app (w : World E) r e1 :
  fetchAppInstallations page_fuel app w = (r, set_env e1 w) → fetched app (w_env w) = (r, e1).
Proof.
  intros Hf. unfold fetched. set (w0 := MkWorld (w_env w) [] no_metrics None None github_init).
  destruct (fetchAppInstallations_env app w w0 eq_refl) as [Hr He]. rewrite Hf in Hr, He.
  destruct (fetchAppInstallations page_fuel app w0) as [r0 w0']. cbn in Hr, He. by subst.
Qed.
End EnvOnly.

(** ** Simulation *)

Section Simulation.
Context {E : Type} `{Environment E} `{Libraries} (page_fuel : nat) (app : App).

Abbreviation V := (list AppInstallation).
Abbreviation system := (system V).
Abbreviation fetch := (fetched (E:=E) page_fuel app).
(** A run of the threads in the surroundings of a process. *)
Abbreviation runs w s ls w' s' :=
  (driven_run refreshPeriod fetch (w_env w, s) ls (w_env w', s')).

(** Both caches hold the same, and the mutex is free. *)
Record contents (c : InstallationsCache) (sc : StaleAllowedCache V) : Prop := {
  same_data : StaleCache.data V sc = ic_data c;
  same_expiry : StaleCache.expiry V sc = ic_expiry c;
  mutex_free : StaleCache.refreshMutex V sc = None
}.

(** The threads that are not in a call: all have ended, but for a refresh that was left
    to the background. *)
Definition at_rest (c : InstallationsCache) (ths : gmap nat (pc V)) (sc : StaleAllowedCache V) : Prop :=
  StaleCache.refreshInProgress V sc = bool_decide (is_Some (ic_refreshInProgress c)) ∧
  match ic_refreshInProgress c with
  | None => ∀ t p, ths !! t = Some p → finished V p
  | Some key => ∃ tb ch, refreshDone V sc = Some ch ∧ ths !! tb = Some (Refresh V key ch true) ∧
      ∀ t p, t ≠ tb → ths !! t = Some p → finished V p
  end.

(** The process has the cache [c] of the App. *)
Definition cache_is (w : World E) (c : InstallationsCache) : Prop :=
  ghAppInstallationsCache (w_github w) = Some c ∧ ic_owner c = app.

(** The simulation: [s] is where the threads can be when the process is in [w] and the
    threads of [ths] are not in a call. *)
Definition simulates_but (ths : gmap nat (pc V)) (w : World E) (s : system) : Prop :=
  ∃ c, cache_is w c ∧ contents c (cache V s) ∧ at_rest c ths (cache V s).

Definition simulates (w : World E) (s : system) : Prop := simulates_but (threads V s) w s.

(** All but the thread [t]. *)
Abbreviation simulates_except t w s := (simulates_but (delete t (threads V s)) w s).

Lemma at_rest_finished c ths sc t p :
  ths !! t = Some p → finished V p → at_rest c (delete t ths) sc → at_rest c ths sc.
Proof.
  intros Ht Hp [Hprog Hths]. split; [done|].
  assert (∀ t' p', ths !! t' = Some p' → t' = t ∨ delete t ths !! t' = Some p') as Hd.
  { intros t' p' Hp'. destruct (decide (t' = t)); [by left|right]. by rewrite lookup_delete_ne. }
  destruct (ic_refreshInProgress c) as [key|].
  - destruct Hths as (tb & ch & Hch & Htb & Hths). apply lookup_delete_Some in Htb as [Hne Htb].
    exists tb, ch. split_and!; [done..|]. intros t' p' Hne' Hp'.
    destruct (Hd _ _ Hp') as [->|Hp'']; [|eauto]. by simplify_eq.
  - intros t' p' Hp'. destruct (Hd _ _ Hp') as [->|Hp'']; [|eauto]. by simplify_eq.
Qed.

Lemma simulates_finished w s t p :
  threads V s !! t = Some p → finished V p → simulates_except t w s → simulates w s.
Proof.
  intros Ht Hp (c & Hc & Hcont & Hrest). exists c. split_and!; [done..|]. by eapply at_rest_finished.
Qed.

(** Running one thread, from a process whose surroundings are [e]. *)
Lemma solo_from e k t p n' e' p' c' ls (s : system) :
  threads V s !! t = Some p →
  solo refreshPeriod fetch k t (now V s, e) p (cache V s) = Some (n', e', p', c', ls) →
  driven_run refreshPeriod fetch (e, s) ls (e', MkSystem V n' (<[t := p']> (threads V s)) c').
Proof. apply solo_run. Qed.

(** A refresh, of a call or in the background, as the steps of its thread. *)
Lemma refresh_sim (w w' : World E) c (s : system) t key ch background value :
  cache_is w c → contents c (cache V s) → threads V s !! t = Some (Refresh V key ch background) →
  go_defer (refresh page_fuel key) cleanup w = (Ok value, w') →
  ∃ c' s', runs w s (labels t (Finished V (refreshed V background value))) w' s' ∧
    cache_is w' c' ∧ contents c' (cache V s') ∧
    ic_refreshInProgress c' = None ∧ StaleCache.refreshInProgress V (cache V s') = false ∧
    threads V s' = <[t := Finished V (refreshed V background value)]> (threads V s) ∧
    ch ∈ closed V (cache V s').
Proof.
  intros [Hc Ho] [Hd He Hm] Ht. destruct (refresh_eq page_fuel w c key Hc) as (r & e1 & Hf & Hr).
  rewrite Ho in Hf. apply fetched_eq in Hf. unfold go_defer. rewrite Hr. unfold cleanup.
  destruct r as [data|err|p]; [| |by erewrite modify_cache_eq by done];
    erewrite modify_cache_eq by done; intros [= <- <-]; eexists _, _; split.
  - eapply (solo_from (w_env w) 8); [exact Ht|]. by apply solo_refresh_done.
  - cbn. rewrite Hd. split_and!; [by split|by split|done..|]. set_solver.
  - eapply (solo_from (w_env w) 5); [exact Ht|]. by eapply solo_refresh_failed.
  - cbn. split_and!; [by split|by split|done..|]. set_solver.
Qed.

Lemma background_defers key (w w' : World E) u :
  go_defer (let! _ := refresh page_fuel key in go_ret tt) cleanup w = (Ok u, w') →
  ∃ value, go_defer (refresh page_fuel key) cleanup w = (Ok value, w').
Proof.
  unfold go_defer, go_bind. destruct (refresh page_fuel key w) as [[v|e|p] w1]; cbn;
    destruct (cleanup w1) as [[u'|e'|p'] w2]; naive_solver.
Qed.

(** The goroutine of a background refresh runs, whatever another thread is doing
    outside of the mutex. *)
Lemma background_sim (w w' : World E) c (s : system) tb ch key u :
  cache_is w c → contents c (cache V s) → ic_refreshInProgress c = Some key →
  threads V s !! tb = Some (Refresh V key ch true) →
  background page_fuel w = (Ok u, w') →
  ∃ c' s', runs w s [] w' s' ∧ cache_is w' c' ∧ contents c' (cache V s') ∧
    ic_refreshInProgress c' = None ∧ StaleCache.refreshInProgress V (cache V s') = false ∧
    threads V s' = <[tb := Finished V (Ended V)]> (threads V s) ∧ ch ∈ closed V (cache V s').
Proof.
  intros Hc Hcont Hkey Htb. unfold background. unfold go_bind at 1, go_gets. rewrite (proj1 Hc), Hkey.
  intros (value & Hd)%background_defers. exact (refresh_sim w w' c s tb key ch true value Hc Hcont Htb Hd).
Qed.

(** A refresh left to the background can run at any time between two calls. *)
Lemma background_simulated (w w' : World E) (s : system) u :
  simulates w s → background page_fuel w = (Ok u, w') →
  ∃ s', runs w s [] w' s' ∧ simulates w' s'.
Proof.
  intros (c & Hc & Hcont & [Hprog Hths]) Hb.
  destruct (ic_refreshInProgress c) as [key|] eqn:Hkey.
  - destruct Hths as (tb & ch & Hch & Htb & Hths).
    destruct (background_sim w w' c s tb ch key u Hc Hcont Hkey Htb Hb)
      as (c' & s' & Hs & Hc' & Hcont' & Hno & Hp' & Ht' & _).
    exists s'. split; [done|]. exists c'. split_and!; [done..|].
    split; rewrite Hno; [done|]. rewrite Ht'. intros t p [[<- <-]|[Hne Hp]]%lookup_insert_Some; [done|].
    eauto.
  - unfold background, go_bind at 1, go_gets in Hb. rewrite (proj1 Hc), Hkey in Hb. injection Hb as _ <-.
    exists s. split; [constructor|]. exists c. split_and!; [done..|]. split; by rewrite Hkey.
Qed.

(** What a call leaves behind: its thread has returned the value. *)
Definition returns (t : nat) (value : option V) (w : World E) (s' : system) : Prop :=
  simulates_except t w s' ∧ threads V s' !! t = Some (Finished V (Value V value)).

(** A call that finds a refresh under way waits for its end. *)
Lemma wait_sim (w w' : World E) c (s : system) t key keyb value :
  cache_is w c → ic_refreshInProgress c = Some keyb → simulates_except t w s →
  threads V s !! t = Some (LockRefresh V key) →
  (let! _ := background page_fuel in cache_load key) w = (Ok value, w') →
  ∃ s', runs w s [Returned t value] w' s' ∧ returns t value w' s'.
Proof.
  intros Hc Hkey (c0 & Hc0 & [Hd He Hm] & [Hprog Hths]) Ht Hrun.
  assert (c0 = c) as -> by (destruct Hc as [Hc _], Hc0 as [Hc0 _]; congruence).
  rewrite Hkey in Hprog, Hths. destruct Hths as (tb & ch & Hch & [Hne Htb]%lookup_delete_Some & Hths).
  apply go_bind_ok in Hrun as (u & w1 & Hb & Hl).
  pose proof (solo_from (w_env w) 4 t _ _ _ _ _ _ s Ht
    (solo_to_wait refreshPeriod fetch t key (now V s) (w_env w) (cache V s) Hm Hprog)) as Hs1.
  match type of Hs1 with driven_run _ _ _ _ (_, ?s1') => set (s1 := s1') in * end.
  destruct (background_sim w w1 c s1 tb ch keyb u) as
    (c' & s2 & Hs2 & Hc' & Hcont' & Hno & Hp' & Ht' & Hclosed); try done.
  { cbn. by rewrite lookup_insert_ne. }
  rewrite (cache_load_eq w1 c' key (proj1 Hc')) in Hl. injection Hl as <- <-.
  assert (threads V s2 !! t = Some (WaitDone V key (Some ch))) as Hwait.
  { rewrite Ht', lookup_insert_ne by done. cbn. by rewrite lookup_insert_eq, Hch. }
  pose proof (solo_from (w_env w1) 2 t _ _ _ _ _ _ s2 Hwait
    (solo_waited refreshPeriod fetch t key (now V s2) (w_env w1) ch (cache V s2) Hclosed)) as Hs3.
  rewrite (same_data _ _ Hcont') in Hs3.
  eexists. split; [eapply (driven_trans _ _ _ [] _ _ _ Hs1), (driven_trans _ _ _ [] _ _ _ Hs2 Hs3)|].
  split; [|cbn; by rewrite lookup_insert_eq].
  exists c'. split_and!; [done..|]. split; rewrite Hno; [done|]. cbn.
  rewrite Ht'. cbn. intros t' p [Hne' Hp]%lookup_delete_Some.
  rewrite lookup_insert_ne in Hp by done. apply lookup_insert_Some in Hp as [[<- <-]|[Hne2 Hp]]; [done|].
  rewrite lookup_insert_ne in Hp by done. eapply (Hths t'); [done|by rewrite lookup_delete_ne].
Qed.

(** A call that finds data which has expired, and no refresh under way, leaves one
    behind. *)
Lemma stale_sim (w : World E) c (s : system) t key value :
  contents c (cache V s) → ic_refreshInProgress c = None →
  at_rest c (delete t (threads V s)) (cache V s) →
  ic_data c !! key = Some value → (ic_expiry c < (env_now (w_env w)).1)%Z →
  threads V s !! t = Some (LockRefresh V key) →
  ∃ s', driven_run refreshPeriod fetch (w_env w, s) [Returned t (Some value)]
      ((env_now (w_env w)).2, s') ∧
    contents (ic_set_refresh (Some key) c) (cache V s') ∧
    at_rest (ic_set_refresh (Some key) c) (delete t (threads V s')) (cache V s') ∧
    threads V s' !! t = Some (Finished V (Value V (Some value))).
Proof.
  intros [Hd He Hm] Hno [Hprog Hths] Hv Hold Ht. rewrite Hno in Hprog, Hths. cbn in Hprog.
  rewrite <-Hd in Hv. rewrite <-He in Hold.
  pose proof (solo_from (w_env w) 7 t _ _ _ _ _ _ s Ht
    (solo_stale refreshPeriod fetch t key (now V s) (w_env w) value (cache V s) Hm Hprog Hv Hold)) as Hs1.
  match type of Hs1 with driven_run _ _ _ _ (_, ?s1') => set (s1 := s1') in * end.
  set (tb := fresh (dom (threads V s1))).
  assert (threads V s1 !! tb = None) as Htb by apply not_elem_of_dom, is_fresh.
  assert (tb ≠ t) as Hne by (intros E1; rewrite E1 in Htb; cbn in Htb; by rewrite lookup_insert_eq in Htb).
  eexists. split.
  { eapply (driven_trans _ _ _ [] _ _ _ Hs1), driven_once.
    eapply (driven_go refreshPeriod fetch _ s1 t _ _ _ _ (Finished V (Value V (Some value))));
      [apply lookup_insert_eq|done|done|exact Htb]. }
  cbn. split; [by split|]. split.
  - split; [done|]. exists tb, (next_chan V (cache V s)). split; [done|].
    rewrite lookup_delete_ne by done. split; [apply lookup_insert_eq|].
    intros t' p Hne' [Hne2 Hp]%lookup_delete_Some. rewrite !lookup_insert_ne in Hp by done.
    apply (Hths t'). by rewrite lookup_delete_ne.
  - rewrite lookup_insert_ne by done. by rewrite insert_insert_eq, lookup_insert_eq.
Qed.

(** A call that finds no data, and no refresh under way, refreshes. *)
Lemma missing_sim (w w' : World E) c (s : system) t key value :
  cache_is w c → contents c (cache V s) → ic_refreshInProgress c = None →
  at_rest c (delete t (threads V s)) (cache V s) → ic_data c !! key = None →
  threads V s !! t = Some (LockRefresh V key) →
  go_defer (refresh page_fuel key) cleanup (set_github (set_cache (ic_set_refresh (Some key) c)) w)
    = (Ok value, w') →
  ∃ s', runs w s [Returned t value] w' s' ∧ returns t value w' s'.
Proof.
  intros [Hc Ho] [Hd He Hm] Hno [Hprog Hths] Hv Ht Hrun. rewrite Hno in Hprog, Hths. cbn in Hprog.
  rewrite <-Hd in Hv. pose proof (solo_from (w_env w) 8 t _ _ _ _ _ _ s Ht
    (solo_missing refreshPeriod fetch t key (now V s) (w_env w) (cache V s) Hm Hprog Hv)) as Hs1.
  match type of Hs1 with driven_run _ _ _ _ (_, ?s1') => set (s1 := s1') in * end.
  set (w1 := set_github (set_cache (ic_set_refresh (Some key) c)) w) in *.
  destruct (refresh_sim w1 w' (ic_set_refresh (Some key) c) s1 t key (next_chan V (cache V s)) false value)
    as (c' & s2 & Hs2 & Hc' & Hcont' & Hno' & Hp' & Ht' & _);
    [by split|by split|apply lookup_insert_eq|exact Hrun|].
  exists s2. split; [by eapply (driven_trans _ _ _ [] _ _ _ Hs1)|].
  split; [|by rewrite Ht', lookup_insert_eq].
  exists c'. split_and!; [done..|]. split; rewrite Hno'; [done|].
  rewrite Ht'. cbn. rewrite insert_insert_eq, delete_insert_eq. exact Hths.
Qed.

Lemma getWithRefresh_sim (w w' : World E) (s : system) t key value :
  simulates_except t w s → threads V s !! t = Some (LockRefresh V key) →
  getWithRefresh page_fuel key w = (Ok value, w') →
  ∃ s', runs w s [Returned t value] w' s' ∧ returns t value w' s'.
Proof.
  intros Hsim Ht. destruct Hsim as (c & Hc & Hcont & Hrest) eqn:Hsim'. clear Hsim'.
  unfold getWithRefresh. unfold go_bind at 1. rewrite (get_cache_eq w c (proj1 Hc)).
  destruct (ic_refreshInProgress c) as [keyb|] eqn:Hkey.
  { intros Hrun. by eapply (wait_sim w w' c s t key keyb). }
  unfold go_bind at 1. rewrite (cache_load_eq w c key (proj1 Hc)).
  destruct (ic_data c !! key) as [v|] eqn:Hv.
  2: { unfold go_bind. rewrite (modify_cache_eq w c) by apply Hc. by apply missing_sim. }
  unfold go_bind at 1. rewrite (expired_eq w c (proj1 Hc)). set (n := (env_now (w_env w)).1) in *.
  destruct (decide (ic_expiry c < n)%Z) as [Hold|Hold].
  - rewrite bool_decide_eq_true_2 by done. cbn [negb]. unfold go_bind.
    rewrite (modify_cache_eq _ c) by apply Hc. intros [= <- <-].
    destruct (stale_sim w c s t key v) as (s' & Hs & Hcont' & Hrest' & Ht'); try done.
    exists s'. split; [done|]. split; [|done].
    exists (ic_set_refresh (Some key) c). split; [split; [done|apply Hc]|done].
  - rewrite bool_decide_eq_false_2 by done. cbn [negb]. intros [= <- <-].
    destruct Hcont as [Hd He Hm]. destruct Hrest as [Hprog Hths]. rewrite Hkey in Hprog, Hths.
    rewrite <-Hd in Hv. eexists. split.
    { eapply (solo_from (w_env w) 6); [exact Ht|]. apply solo_fresh; [done..|]. rewrite He. lia. }
    split; [|cbn; by rewrite lookup_insert_eq]. exists c. cbn. rewrite delete_insert_eq.
    split_and!; [done|by split|]. split; rewrite Hkey; done.
Qed.

(** One caller: [cache_Get] of the sequential model is a run of the concurrent one, in
    which one call starts and returns. *)
Lemma cache_Get_sim (w w' : World E) (s : system) t key value :
  simulates w s → threads V s !! t = None → cache_Get page_fuel key w = (Ok value, w') →
  ∃ s', runs w s [Started t key; Returned t value] w' s' ∧ simulates w' s' ∧
    is_Some (threads V s' !! t).
Proof.
  intros (c & Hc & Hcont & Hrest) Ht Hrun.
  set (s0 := MkSystem V (now V s) (<[t := GetLoad V key]> (threads V s)) (cache V s)).
  assert (threads V s0 !! t = Some (GetLoad V key)) as Ht0 by apply lookup_insert_eq.
  assert (∃ s', runs w s0 [Returned t value] w' s' ∧ returns t value w' s') as (s' & Hs & Hret & Ht').
  2: { exists s'. split; [|by split; [eapply simulates_finished|eauto]].
       eapply (driven_cons _ _ _ [_] _ [_]); [by constructor|exact Hs]. }
  assert (∀ w1 n, cache_is w1 c →
    solo refreshPeriod fetch 3 t (now V s0, w_env w) (GetLoad V key) (cache V s0) =
      Some (n, w_env w1, LockRefresh V key, cache V s0, []) →
    getWithRefresh page_fuel key w1 = (Ok value, w') →
    ∃ s', runs w s0 [Returned t value] w' s' ∧ returns t value w' s') as Hlock.
  { intros w1 n Hc1 Hsolo Hget. pose proof (solo_from (w_env w) 3 t _ _ _ _ _ _ s0 Ht0 Hsolo) as Hs1.
    match type of Hs1 with driven_run _ _ _ _ (_, ?s1') => set (s1 := s1') in * end.
    assert (simulates_except t w1 s1) as Hsim.
    { exists c. cbn. rewrite insert_insert_eq, delete_insert_id by done. by split_and!. }
    destruct (getWithRefresh_sim w1 w' s1 t key value Hsim (lookup_insert_eq _ _ _) Hget)
      as (s2 & Hs2 & Hret).
    exists s2. split; [exact (driven_trans _ _ _ [] _ _ _ Hs1 Hs2)|done]. }
  pose proof Hcont as [Hd He Hm].
  unfold cache_Get in Hrun. unfold go_bind at 1 in Hrun. rewrite (cache_load_eq w c key (proj1 Hc)) in Hrun.
  destruct (ic_data c !! key) as [v|] eqn:Hv; rewrite <-Hd in Hv.
  2: { eapply Hlock; [exact Hc|by apply solo_no_data|exact Hrun]. }
  unfold go_bind in Hrun. rewrite (expired_eq w c (proj1 Hc)) in Hrun.
  destruct (decide (ic_expiry c < (env_now (w_env w)).1)%Z) as [Hold|Hold].
  - rewrite bool_decide_eq_true_2 in Hrun by done. rewrite <-He in Hold.
    eapply (Hlock (set_env (env_now (w_env w)).2 w)); [done|by eapply solo_old|exact Hrun].
  - rewrite bool_decide_eq_false_2 in Hrun by done. injection Hrun as <- <-. eexists. split.
    { eapply (solo_from (w_env w) 3); [exact Ht0|]. apply solo_hit; [exact Hv|]. cbn. rewrite He. lia. }
    split; [|cbn; apply lookup_insert_eq]. exists c. cbn.
    rewrite insert_insert_eq, delete_insert_id by done. by split_and!.
Qed.

(** ** Histories *)

(** What happens to the cache of a process, one thing after the other: a call, or the
    goroutine of a background refresh, if there is one. *)
Inductive operation := Call (key : string) | RunBackground.

Fixpoint history (ops : list operation) : M E (list (option V)) :=
  match ops with
  | [] => go_ret []
  | Call key :: ops =>
      let! value := cache_Get page_fuel key in
      let! values := history ops in
      go_ret (value :: values)
  | RunBackground :: ops => let! _ := background page_fuel in history ops
  end.

(** The keys of the calls. *)
Definition call_keys (ops : list operation) : list string :=
  omap (λ op, match op with Call key => Some key | RunBackground => None end) ops.

(** The calls of the threads [ts] one after the other: each starts with its key, and
    returns its value before the next one starts. *)
Fixpoint in_turn (ts : list nat) (keys : list string) (values : list (option V)) : list (label (V:=V)) :=
  match ts, keys, values with
  | t :: ts, key :: keys, value :: values =>
      Started t key :: Returned t value :: in_turn ts keys values
  | _, _, _ => []
  end.

Lemma history_sim ops (w w' : World E) (s : system) values :
  simulates w s → history ops w = (Ok values, w') →
  ∃ s' ts, runs w s (in_turn ts (call_keys ops) values) w' s' ∧ simulates w' s' ∧
    length ts = length values ∧ length values = length (call_keys ops) ∧
    NoDup ts ∧ Forall (λ t, threads V s !! t = None) ts.
Proof.
  revert w s values. induction ops as [|[key|] ops IH]; intros w s values Hsim; cbn [history].
  - intros [= <- <-]. exists s, []. split; [constructor|]. split; [done|]. repeat constructor.
  - intros (value & w1 & Hget & Hrest)%go_bind_ok.
    apply go_bind_ok in Hrest as (values' & w2 & Hrest & [= <- <-]).
    set (t := fresh (dom (threads V s))).
    assert (threads V s !! t = None) as Ht by apply not_elem_of_dom, is_fresh.
    destruct (cache_Get_sim w w1 s t key value Hsim Ht Hget) as (s1 & Hs1 & Hsim1 & [p Hp]).
    destruct (IH w1 s1 values' Hsim1 Hrest) as (s2 & ts & Hs2 & Hsim2 & Hl1 & Hl2 & Hnd & Hnone).
    exists s2, (t :: ts). rewrite Forall_forall in Hnone.
    split; [exact (driven_trans _ _ _ _ _ _ _ Hs1 Hs2)|]. split; [done|].
    split; [cbn; by rewrite Hl1|]. split; [cbn; by rewrite Hl2|]. split.
    + constructor; [|done]. intros Hin. specialize (Hnone t Hin). congruence.
    + constructor; [done|]. apply Forall_forall. intros t' Hin.
      exact (driven_run_absent _ _ _ _ _ t' Hs1 (Hnone t' Hin)).
  - intros (u & w1 & Hb & Hrest)%go_bind_ok.
    destruct (background_simulated w w1 s u Hsim Hb) as (s1 & Hs1 & Hsim1).
    destruct (IH w1 s1 values Hsim1 Hrest) as (s2 & ts & Hs2 & Hsim2 & Hl1 & Hl2 & Hnd & Hnone).
    exists s2, ts. split; [exact (driven_trans _ _ _ [] _ _ _ Hs1 Hs2)|]. split_and!; [done..|].
    eapply Forall_impl; [exact Hnone|]. intros t. exact (driven_run_absent _ _ _ _ _ t Hs1).
Qed.
End Simulation.

(** ** Refinement *)

(** The clock never goes back ([time.Now] reads a monotonic clock). *)
Class MonotonicClock (E : Type) `{Environment E} := {
  clock : E → Z;
  clock_now e : (clock e ≤ (env_now e).1 ≤ clock (env_now e).2)%Z;
  clock_api A (q : ApiRequest A) e : (clock e ≤ clock (env_api q e).2)%Z
}.

Section Refinement.
Context {E : Type} `{MonotonicClock E} `{Libraries} (page_fuel : nat).

Abbreviation V := (list AppInstallation).

Definition later (w w' : World E) : Prop := (clock (w_env w) ≤ clock (w_env w'))%Z.

#[local] Instance later_preorder : PreOrder later.
Proof. unfold later. split; [intros w|intros w1 w2 w3]; lia. Qed.
#[local] Instance api_later {A} (q : ApiRequest A) : Preserves later (api q).
Proof.
  intros w. unfold later, api. pose proof (clock_api A q (w_env w)). by destruct (env_api q (w_env w)).
Qed.
#[local] Instance api_call_later {A} (q : ApiRequest (error + A)) : Preserves later (api_call q).
Proof. unfold api_call. apply _. Qed.
#[local] Instance list_repos_later fuel app id page repos :
  Preserves later (list_repos (E:=E) fuel app id page repos).
Proof. revert page repos. induction fuel as [|fuel IH]; intros page repos; simpl; solve_frame. Qed.
#[local] Instance fetch_installation_later app id :
  Preserves later (fetch_installation (E:=E) page_fuel app id).
Proof. unfold fetch_installation. solve_frame. Qed.
#[local] Instance fetch_pages_later fuel app page l :
  Preserves later (fetch_pages (E:=E) page_fuel fuel app page l).
Proof. revert page l. induction fuel as [|fuel IH]; intros page l; simpl; solve_frame. Qed.
#[local] Instance fetch_later app : Preserves later (fetchAppInstallations (E:=E) page_fuel app).
Proof. unfold fetchAppInstallations. solve_frame. Qed.

Lemma fetched_later app (e : E) : (clock e ≤ clock (fetched page_fuel app e).2)%Z.
Proof.
  unfold fetched. set (w0 := MkWorld e [] no_metrics None None github_init).
  pose proof (fetch_later app w0) as Hl. by destruct (fetchAppInstallations page_fuel app w0).
Qed.

Lemma steps_reachable period (s s' : system V) :
  rtc (system_step V period) s s' → reachable V period s → reachable V period s'.
Proof. induction 1 as [|s1 s2 s3 Hs _ IH]; [done|]. intros Hr. apply IH. by eapply reach_step. Qed.

(** C11.  The cache as one caller at a time sees it refines the concurrent one.  For every
    history of a new cache (calls with their keys, and between them the goroutine of a
    background refresh, where one is due) that returns [values], there is a run of the
    threads of [cache.go] with one thread for each call, in which: the calls start with
    these keys and return these values, in this order and one after the other; every
    reading of the clock and every refresh is answered by the same surroundings, which end
    as those of the history; and the cache ends with the same data, the same expiry and its
    mutex free.  The state the run ends in is reachable in the concurrent model. *)
Theorem sequential_cache_refines app cache ops (w0 w1 w' : World E) values :
  NewStaleAllowedCache app w0 = (Ok cache, w1) →
  history page_fuel ops (set_github (set_cache cache) w1) = (Ok values, w') →
  ∃ ts s c, length ts = length values ∧ length values = length (call_keys ops) ∧ NoDup ts ∧
    driven_run refreshPeriod (fetched page_fuel app)
      (w_env w1, initial V refreshPeriod (env_now (w_env w0)).1)
      (in_turn ts (call_keys ops) values) (w_env w', s) ∧
    cache_is app w' c ∧ contents c (StaleCache.cache V s) ∧ reachable V refreshPeriod s.
Proof.
  unfold NewStaleAllowedCache, go_bind, time_Now. pose proof (clock_now (w_env w0)) as [_ Hn].
  destruct (env_now (w_env w0)) as [n e1]. cbn in Hn. intros [= <- <-] Hrun.
  set (c0 := MkInstallationsCache app ∅ (n + refreshPeriod) None) in Hrun.
  set (wc := set_github (set_cache c0) (set_env e1 w0)) in Hrun.
  assert (simulates app wc (initial V refreshPeriod n)) as Hsim.
  { exists c0. split; [done|]. split; [by split|]. by split. }
  destruct (history_sim page_fuel app ops wc w' _ values Hsim Hrun)
    as (s & ts & Hs & (c & Hc & Hcont & _) & Hl1 & Hl2 & Hnd & _).
  exists ts, s, c. split_and!; [done..|]. eapply steps_reachable; [|constructor].
  exact (driven_run_system _ _ clock clock_now (fetched_later app) _ _ _ Hs Hn).
Qed.
End Refinement.

(** ** Example *)

(** A process whose clock goes on by an hour and a half whenever it is read. *)
#[local] Instance ticking_env : Environment Z := {|
  env_Get := λ k key e, (inl not_found, e);
  env_List := λ k o e, (inr [], e);
  env_Create := λ k o e, (inr o, e);
  env_Update := λ k o e, (inr o, e);
  env_Delete := λ k key e, (inr tt, e);
  env_Patch := λ k o _ e, (inr o, e);
  env_rand := λ n e, (inr (replicate n "0"%char), e);
  env_now := λ e, (e, (e + 90 * Minute)%Z);
  env_range := λ A l e, (l, e);
  env_api := λ A q e, (hub_api A q, e)
|}.

#[local] Instance ticking_clock : MonotonicClock Z.
Proof. refine {| clock := λ e, e |}; [intros e; simpl; unfold Minute; lia|intros A q e; simpl; lia]. Defined.

Definition ticking_world : World Z := MkWorld 0%Z [] no_metrics None None github_init.

Definition ticking_cache : InstallationsCache := MkInstallationsCache sample_app ∅ refreshPeriod None.

(** The first call refreshes; the next one is served from the cache, the third one too but
    leaves a refresh to the background; a call for another key waits for it, in vain. *)
Definition ticking_ops : list operation :=
  [Call installations_key; Call installations_key; Call installations_key; Call "other";
   RunBackground].

Example ticking_values :
  let listing := Some (hub_listing sample_hub) in
  (history 2 ticking_ops (set_github (set_cache ticking_cache) (set_env (90 * Minute)%Z ticking_world))).1 =
    Ok [listing; listing; listing; None].
Proof. vm_compute. reflexivity. Qed.

Lemma sequential_cache_refines_witness :
  let listing := Some (hub_listing sample_hub) in
  ∃ ts s e', NoDup ts ∧
    driven_run refreshPeriod (fetched 2 sample_app)
      ((90 * Minute)%Z, initial (list AppInstallation) refreshPeriod 0)
      (in_turn ts [installations_key; installations_key; installations_key; "other"]
         [listing; listing; listing; None]) (e', s) ∧
    reachable (list AppInstallation) refreshPeriod s.
Proof.
  set (w1 := set_github (set_cache ticking_cache) (set_env (90 * Minute)%Z ticking_world)).
  intros listing. destruct (history 2 ticking_ops w1) as [r w'] eqn:Hrun.
  assert (r = Ok [listing; listing; listing; None]) as ->
    by (change r with ((r, w').1); rewrite <-Hrun; vm_compute; reflexivity).
  assert (NewStaleAllowedCache sample_app ticking_world =
    (Ok ticking_cache, set_env (90 * Minute)%Z ticking_world)) as Hnew by (vm_compute; reflexivity).
  destruct (sequential_cache_refines 2 sample_app ticking_cache ticking_ops _ _ w' _ Hnew Hrun)
    as (ts & s & c & _ & _ & Hn & Hs & _ & _ & Hr).
  exists ts, s, (w_env w'). exact (conj Hn (conj Hs Hr)).
Defined.
