(* ===== verification/Component.v ===== *)
(** * internal/component: the factory

    [NewGitComponent], [GetGitURL] and [GetVersions] of [component.go]: the resource's
    git reference chooses the platform, and the platform's package makes the
    component.  What the controllers assume of a factory holds of this one. *)

From S2P Require Import Prelude GoStrings GoStrconv Json Kube Metrics Config TokenCache World.
From S2P Require Import GitComponent Sample GitUrl SecretSelect Base Scm Gitlab Forgejo Github.
From Stdlib Require Import Ascii.

(** The URL, and whether it is the old model's. *)
Definition GetGitURL (comp : Kube.Component) : result (string * bool) :=
  let s := comp_Source comp in
  match src_GitSource s with
  | Some g =>
      if decide (gs_URL g ≠ "") then Ok (gs_URL g, true)
      else if decide (src_GitURL s ≠ "") then Ok (src_GitURL s, false)
      else Err (Errorf ("component " +:+ Name (comp_meta comp)
                        +:+ " has no git source or empty URL defined"))
  | None =>
      if decide (src_GitURL s ≠ "") then Ok (src_GitURL s, false)
      else Err (Errorf ("component " +:+ Name (comp_meta comp)
                        +:+ " has no git source or empty URL defined"))
  end.

Definition GetVersions (comp : Kube.Component) : list string :=
  let s := comp_Source comp in
  match src_GitSource s with
  | Some g => if decide (gs_Revision g ≠ "") then [gs_Revision g] else src_Versions s
  | None => src_Versions s
  end.

Section Factory.
Context {E : Type} `{Environment E} `{Libraries} (page_fuel : nat).

Definition NewGitComponent : GitComponentFactory E := λ comp,
  let! u := go_lift (GetGitURL comp) in
  let '(gitUrl, oldCRDVersion) := u in
  let! platform := go_lift (GetGitPlatform parseIPLiteral gitUrl) in
  let creating := wrap "error creating git component: " in
  if decide (platform = "github") then
    go_wrap creating (Github.NewComponent page_fuel comp gitUrl (GetVersions comp) oldCRDVersion)
  else if decide (platform = "gitlab") then
    go_wrap creating (Gitlab.NewComponent comp gitUrl (GetVersions comp) oldCRDVersion)
  else if decide (platform = "forgejo") then
    go_wrap creating (Forgejo.NewComponent comp gitUrl (GetVersions comp) oldCRDVersion)
  else go_fail (Errorf ("unsupported platform: " +:+ platform)).

(** ** The component made *)

Lemma new_base_ok comp url versions old b :
  new_base comp url versions old = Ok b →
  GetGitPlatform parseIPLiteral url = Ok (bc_Platform b) ∧
  GetGitHost parseIPLiteral url = Ok (bc_Host b) ∧
  GetGitPath parseIPLiteral url = Ok (bc_Repository b) ∧
  b = MkBase (Name (comp_meta comp)) (Namespace (comp_meta comp)) (comp_Application comp)
        (bc_Platform b) (bc_Host b) url (bc_Repository b) versions old.
Proof.
  unfold new_base. intros (p & Hp & (h & Hh & (r & Hr & [= <-])%bind_ok)%bind_ok)%bind_ok. done.
Qed.

Lemma go_wrap_ok {St A} f (m : GoM St A) s a s' : go_wrap f m s = (Ok a, s') → m s = (Ok a, s').
Proof. unfold go_wrap, go_try. by destruct (m s) as [[]?]; intros [= <- <-]. Qed.

(** Which package made the component, and from what. *)
Lemma NewGitComponent_ok comp w gc w' :
  NewGitComponent comp w = (Ok gc, w') →
  ∃ url old b,
    GetGitURL comp = Ok (url, old) ∧ new_base comp url (GetVersions comp) old = Ok b ∧
    ((bc_Platform b = "github" ∧ ∃ id key, gc = github_component page_fuel (MkComponent b id key)) ∨
     (bc_Platform b = "gitlab" ∧ gc = gitlab_component b) ∨
     (bc_Platform b = "forgejo" ∧ gc = forgejo_component b)).
Proof.
  unfold NewGitComponent. intros ([url old] & w1 & [= Hurl <-] & Hrest)%go_bind_ok.
  apply go_bind_ok in Hrest as (platform & w2 & [= Hplat <-] & Hrest).
  exists url, old.
  repeat (case_decide; [apply go_wrap_ok in Hrest|]); [..|done].
  - unfold Github.NewComponent in Hrest. apply go_bind_ok in Hrest as (app & w3 & _ & Hrest).
    apply go_bind_ok in Hrest as (b & w4 & [= Hb <-] & [= <- <-]).
    exists b. split_and!; [done..|]. left. apply new_base_ok in Hb as (Hp & _).
    rewrite Hplat in Hp. injection Hp as <-. eauto.
  - unfold Gitlab.NewComponent in Hrest.
    apply go_bind_ok in Hrest as (b & w4 & [= Hb <-] & [= <- <-]).
    exists b. split_and!; [done..|]. right. left. apply new_base_ok in Hb as (Hp & _).
    rewrite Hplat in Hp. by injection Hp as <-.
  - unfold Forgejo.NewComponent in Hrest.
    apply go_bind_ok in Hrest as (b & w4 & [= Hb <-] & [= <- <-]).
    exists b. split_and!; [done..|]. right. right. apply new_base_ok in Hb as (Hp & _).
    rewrite Hplat in Hp. by injection Hp as <-.
Qed.

#[export] Instance NewGitComponent_laws : FactoryLaws NewGitComponent.
Proof.
  split.
  - intros comp. unfold NewGitComponent, Github.NewComponent, Gitlab.NewComponent,
      Forgejo.NewComponent. solve_frame.
  - intros comp w gc w' (url & old & b & _ & Hb & Hgc)%NewGitComponent_ok.
    apply new_base_ok in Hb as (_ & _ & _ & Heq).
    destruct Hgc as [[_ (id & key & ->)]|[[_ ->]|[_ ->]]];
      (split; [apply _|simpl; by rewrite Heq]).
Qed.

(** C25.  A component that could be made stands for its resource: it carries the
    resource's names, its URL is the resource's (the old form first), and its platform,
    host and repository are the parts of that URL, the API endpoint being the
    platform's on that host. *)
Theorem NewGitComponent_spec comp (w : World E) gc w' :
  NewGitComponent comp w = (Ok gc, w') →
  GetName gc = Name (comp_meta comp) ∧ GetNamespace gc = Namespace (comp_meta comp) ∧
  GetApplication gc = comp_Application comp ∧
  (∃ old, GetGitURL comp = Ok (GitComponent.GetGitURL gc, old)) ∧
  GetGitPlatform parseIPLiteral (GitComponent.GetGitURL gc) = Ok (GetPlatform gc) ∧
  GetGitHost parseIPLiteral (GitComponent.GetGitURL gc) = Ok (GetHost gc) ∧
  GetGitPath parseIPLiteral (GitComponent.GetGitURL gc) = Ok (GetRepository gc) ∧
  match GetPlatform gc with
  | "github" => GitComponent.GetAPIEndpoint gc = Ok ("https://api." +:+ GetHost gc +:+ "/")
  | "gitlab" => GitComponent.GetAPIEndpoint gc = Ok ("https://" +:+ GetHost gc +:+ "/api/v4/")
  | p => p = "forgejo"
  end.
Proof.
  intros (url & old & b & Hurl & Hb & Hgc)%NewGitComponent_ok.
  apply new_base_ok in Hb as (Hp & Hh & Hr & Heq).
  assert (bc_GitURL b = url) as Hu by by rewrite Heq.
  destruct Hgc as [[Hplat (id & key & ->)]|[[Hplat ->]|[Hplat ->]]]; simpl;
    rewrite Hu, Hp, Hh, Hr, Hplat; (split_and!; [by rewrite Heq..|by eauto|done|done|done|done]).
Qed.

(** Making a component asks the cluster for nothing, unless it is GitHub's, and
    never fails to give the component of a well-formed reference to GitLab or Forgejo. *)
Theorem NewGitComponent_local comp (w : World E) url old b :
  GetGitURL comp = Ok (url, old) → new_base comp url (GetVersions comp) old = Ok b →
  bc_Platform b ≠ "github" →
  NewGitComponent comp w =
    (Ok (if decide (bc_Platform b = "gitlab") then gitlab_component b else forgejo_component b), w).
Proof.
  intros Hurl Hb Hng. pose proof (new_base_ok _ _ _ _ _ Hb) as (Hp & _).
  unfold NewGitComponent. rewrite (go_bind_run _ _ w (Ok (url, old)) w) by (by rewrite Hurl).
  rewrite (go_bind_run _ _ w (Ok (bc_Platform b)) w) by (by rewrite Hp).
  rewrite decide_False by done.
  pose proof Hp as Hp'. apply GetGitPlatform_ok in Hp' as (host & _ & Hcases).
  unfold Gitlab.NewComponent, Forgejo.NewComponent, go_wrap, go_try, go_bind, go_lift. rewrite Hb.
  destruct (decide (bc_Platform b = "gitlab")); [done|].
  destruct Hcases as [[? _]|[[? _]|[-> _]]]; [congruence..|done].
Qed.
End Factory.

(** ** Examples *)

Definition gitlab_resource : Kube.Component :=
  Kube.MkComponent (new_meta "comp" "tenant") "app"
    (MkSource None "https://gitlab.com/team/group/repo.git" ["main"; "dev"]).

Lemma NewGitComponent_spec_witness :
  ∃ gc w', NewGitComponent 1 gitlab_resource (start (cluster_with no_objs)) = (Ok gc, w') ∧
    GetGitPath no_ip (GitComponent.GetGitURL gc) = Ok (GetRepository gc).
Proof.
  assert (is_ok (NewGitComponent 1 gitlab_resource (start (cluster_with no_objs))).1 = true) as Hok
    by (vm_compute; reflexivity).
  destruct (NewGitComponent 1 gitlab_resource (start (cluster_with no_objs))) as [[gc|e|p] w'] eqn:Hn;
    [|discriminate Hok..].
  exists gc, w'. split; [reflexivity|].
  destruct (NewGitComponent_spec 1 gitlab_resource (start (cluster_with no_objs)) gc w' Hn)
    as (_ & _ & _ & _ & _ & _ & Hpath & _).
  exact Hpath.
Defined.

Lemma NewGitComponent_local_witness :
  GetGitURL gitlab_resource = Ok ("https://gitlab.com/team/group/repo.git", false) ∧
  ∃ gc, NewGitComponent 1 gitlab_resource (start (cluster_with no_objs)) =
          (Ok gc, start (cluster_with no_objs)) ∧ GetRepository gc = "team/group/repo".
Proof.
  split; [reflexivity|].
  pose proof (NewGitComponent_local 1 gitlab_resource (start (cluster_with no_objs))
      "https://gitlab.com/team/group/repo.git" false
      (MkBase "comp" "tenant" "app" "gitlab" "gitlab.com" "https://gitlab.com/team/group/repo.git"
         "team/group/repo" ["main"; "dev"] false) eq_refl) as H.
  eexists. split; [apply H; [vm_compute; reflexivity|discriminate]|reflexivity].
Defined.
