(* ===== verification/Writable.v ===== *)
(** * What Renovate is configured with

    The configuration a component hands out, of whatever platform: what becomes of the
    cached entries, that the text handed out is read back as them, and that everything
    cached can always be written as JSON. *)

From S2P Require Import Prelude GoStrings GoStrconv Slices Json Kube Metrics Config TokenCache World.
From S2P Require Import GitComponent.
From S2P Require Import SecretSelect Base Scm Gitlab Forgejo Github Component Sample.
From Stdlib Require Import Ascii.

Definition keeps_writable {E} (w w' : World E) : Prop := base_writable w → base_writable w'.

#[export] Instance keeps_writable_preorder {E} : PreOrder (keeps_writable (E:=E)).
Proof. split; [by intros w Hw|]. intros w1 w2 w3 H1 H2 Hw. auto. Qed.

Section Writable.
Context {E : Type} `{Environment E} `{Libraries} (page_fuel : nat).
Abbreviation Keeps := (Preserves (keeps_writable (E:=E))).

(** *** Code that leaves the cached map alone *)

Lemma same_base_keeps {A} (m : M E A) :
  (∀ w, renovateBaseConfig (m w).2 = renovateBaseConfig w) → Keeps m.
Proof. intros Hm w Hw. unfold base_writable. by rewrite Hm. Qed.

Lemma moves_keeps {A} (m : M E A) : Preserves env_moves m → Keeps m.
Proof. intros Hm. apply same_base_keeps. intros w. by destruct (Hm w) as [e' ->]. Qed.

#[local] Instance range_keeps {A} (l : list A) : Keeps (range l).
Proof. apply moves_keeps, _. Qed.
#[local] Instance api_call_keeps {A} (q : ApiRequest (error + A)) : Keeps (api_call q).
Proof. apply moves_keeps, _. Qed.
#[local] Instance get_keeps k key : Keeps (client_Get k key).
Proof. apply same_base_keeps. intros w. unfold client_Get, request. by destruct (env_Get _ _ _). Qed.
#[local] Instance list_keeps k o : Keeps (client_List k o).
Proof. apply same_base_keeps. intros w. unfold client_List, request. by destruct (env_List _ _ _). Qed.
#[local] Instance create_keeps k o : Keeps (client_Create k o).
Proof. apply same_base_keeps. intros w. unfold client_Create, request. by destruct (env_Create _ _ _). Qed.
#[local] Instance set_github_keeps g : Keeps (go_modify (set_github g)).
Proof. by apply same_base_keeps. Qed.

#[local] Instance select_secret_keeps repository secrets : Keeps (select_secret repository secrets).
Proof. unfold select_secret. solve_frame. Qed.
#[local] Instance GetHostRules_keeps secret : Keeps (GetHostRules secret).
Proof. unfold GetHostRules. solve_frame. Qed.
#[export] Instance scm_GetToken_keeps c : Keeps (scm_GetToken c).
Proof. unfold scm_GetToken, Scm.lookupSecret. solve_frame. Qed.
#[local] Instance getAppIDAndKey_keeps : Keeps getAppIDAndKey.
Proof. unfold getAppIDAndKey. solve_frame. Qed.
#[local] Instance getAppSlug_keeps : Keeps getAppSlug.
Proof. unfold getAppSlug. solve_frame. Qed.
#[local] Instance getUserId_keeps username : Keeps (getUserId username).
Proof. unfold getUserId. solve_frame. Qed.

(** *** Code that writes to it *)

Lemma base_assign_keeps k v : encodable v = true → Keeps (base_assign k v).
Proof.
  intros Hv w Hw. unfold base_writable, base_assign, go_bind, go_gets, go_lift, go_modify in *.
  destruct (renovateBaseConfig w) as [m|] eqn:E1; cbn; [|by rewrite E1].
  by apply (encodable_insert k v m).
Qed.

#[local] Instance add_host_rules_keeps secret : Keeps (add_host_rules secret).
Proof.
  unfold add_host_rules. destruct secret as [secret|]; [|apply _].
  apply preserves_try; [apply _..|]. intros [e|[|r rs]]; [apply _..|].
  apply base_assign_keeps, json_of_rules_encodable.
Qed.

Lemma encodable_members m :
  encodable (JObject m) = true → Forall (λ kv : string * json, encodable kv.2 = true) (map_to_list m).
Proof.
  cbn [encodable]. rewrite (map_fold_forallb (λ _ j, encodable j)). intros Hm.
  apply Forall_forall. intros [k v] Hv%elem_of_map_to_list. exact (Hm k v Hv).
Qed.

Definition writable (m : gomap json) : Prop := encodable (JObject (go_make_if_nil m)) = true.

Lemma Unmarshal_yields f data :
  Yields (St:=World E) (go_wrap f (go_lift (Unmarshal_map data))) writable.
Proof. apply yields_wrap. intros s m s' [= Hm _]. by eapply Unmarshal_map_encodable. Qed.

#[export] Instance GetRenovateBaseConfig_keeps `{!EnvironmentLaws E} : Keeps GetRenovateBaseConfig.
Proof.
  unfold GetRenovateBaseConfig.
  apply preserves_bind; [apply _..|]. intros [m|]; [apply _|].
  apply preserves_bind; [apply _..|]. intros cm.
  eapply preserves_bind_yields; [apply _..|apply Unmarshal_yields|]. intros config Hc.
  eapply preserves_bind_yields; [apply _..|apply Unmarshal_yields|]. intros selfHosted Hs.
  apply (preserves_bind_yields _ _ _ (Forall (λ kv, encodable kv.2 = true))); [apply _| |].
  { intros w entries w'. unfold range.
    pose proof (env_range_perm _ (map_to_list (go_make_if_nil selfHosted)) (w_env w)) as Hp.
    destruct (env_range _ _) as [order e']. intros [= <- _]. cbn [fst] in Hp. rewrite Hp.
    by apply encodable_members. }
  intros entries He. apply (preserves_bind_yields _ _ _ writable).
  - apply preserves_fold; [apply _|]. intros entry config'. apply _.
  - apply (yields_fold _ _ _ _ _ He Hc). intros [k v] m Hv Hm w m' w'. cbn [snd] in Hv.
    unfold merge_entry, go_lift, go_assign. destruct m as [m|]; [|done]. intros [= <- <-].
    exact (encodable_insert k v m Hv Hm).
  - intros m Hm w _. unfold base_writable. cbn. by destruct m.
Qed.

#[export] Instance scm_config_keeps `{!EnvironmentLaws E} c endpoint secret branch :
  Keeps (scm_config c endpoint secret branch).
Proof.
  unfold scm_config. repeat (apply preserves_bind; [apply _|first [apply _|by apply base_assign_keeps]|intros ?]).
  apply _.
Qed.

#[export] Instance github_config_keeps `{!EnvironmentLaws E} c secret branch :
  Keeps (Github.GetRenovateConfig c secret branch).
Proof.
  unfold Github.GetRenovateConfig.
  repeat (apply preserves_bind; [apply _|first [apply _|by apply base_assign_keeps]|intros ?]). apply _.
Qed.

(** ** What is handed out *)

(** A text that is read as the cached entries, which have the component's platform,
    endpoint and repository. *)
Definition configured (gc : GitComponent E) (branch text : string) (config : gmap string json) : Prop :=
  (survives config → Unmarshal_map text = Ok (Some config)) ∧
  config !! "platform" = Some (JString (GetPlatform gc)) ∧
  (∃ endpoint, GitComponent.GetAPIEndpoint gc = Ok endpoint ∧
               config !! "endpoint" = Some (JString endpoint)) ∧
  config !! "repositories" = Some (repositories_entry branch (GetRepository gc)).

Lemma base_assign_ok k v (w w' : World E) u :
  base_assign k v w = (Ok u, w') →
  ∃ m, renovateBaseConfig w = Some m ∧ renovateBaseConfig w' = Some (<[k := v]> m).
Proof.
  unfold base_assign. rewrite go_bind_ok. intros (m & w1 & [= <- <-] & Hk).
  apply go_bind_ok in Hk as (m' & w2 & Ha & [= _ <-]). unfold go_lift, go_assign in Ha.
  destruct (renovateBaseConfig w) as [m|]; [|done]. injection Ha as <- <-. by exists m.
Qed.

Lemma marshalled_ok (w w' : World E) f text :
  go_wrap f (go_lift (of_sum (json_MarshalIndent (JObject (go_make_if_nil (renovateBaseConfig w)))))) w =
    (Ok text, w') →
  w' = w ∧ json_MarshalIndent (JObject (go_make_if_nil (renovateBaseConfig w))) = inr text.
Proof.
  unfold go_wrap, go_try, go_lift. destruct (json_MarshalIndent _); [done|]. by intros [= -> ->].
Qed.

Lemma scm_config_ok c endpoint secret branch (w w' : World E) text :
  scm_config c endpoint secret branch w = (Ok text, w') →
  ∃ config ep, endpoint = Ok ep ∧ renovateBaseConfig w' = Some config ∧
    json_MarshalIndent (JObject config) = inr text ∧
    config !! "platform" = Some (JString (bc_Platform c)) ∧
    config !! "endpoint" = Some (JString ep) ∧
    config !! "repositories" = Some (repositories_entry branch (bc_Repository c)).
Proof.
  unfold scm_config. intros (? & w1 & _ & K)%go_bind_ok. apply go_bind_ok in K as (? & w2 & _ & K).
  apply go_bind_ok in K as (? & w3 & (m3 & _ & B3)%base_assign_ok & K).
  apply go_bind_ok in K as (ep & w4 & [= -> <-] & K).
  apply go_bind_ok in K as (? & w5 & (m5 & E5 & B5)%base_assign_ok & K).
  apply go_bind_ok in K as (? & w6 & (m6 & E6 & B6)%base_assign_ok & K).
  apply go_bind_ok in K as (? & w7 & (m7 & E7 & B7)%base_assign_ok & K).
  apply go_bind_ok in K as (? & w8 & (m8 & E8 & B8)%base_assign_ok & K).
  apply go_bind_ok in K as (m & w9 & [= <- <-] & K). apply marshalled_ok in K as [-> K].
  rewrite B8 in K. eexists _, ep. split; [done|]. split; [exact B8|]. split; [exact K|].
  simplify_eq. split_and!; by simplify_map_eq.
Qed.

Lemma github_config_ok c secret branch (w w' : World E) text :
  Github.GetRenovateConfig c secret branch w = (Ok text, w') →
  ∃ config, renovateBaseConfig w' = Some config ∧
    json_MarshalIndent (JObject config) = inr text ∧
    config !! "platform" = Some (JString (bc_Platform (base c))) ∧
    config !! "endpoint" = Some (JString (Github.GetAPIEndpoint c)) ∧
    config !! "repositories" = Some (repositories_entry branch (bc_Repository (base c))).
Proof.
  unfold Github.GetRenovateConfig. intros (? & w1 & _ & K)%go_bind_ok.
  apply go_bind_ok in K as (? & w2 & _ & K). apply go_bind_ok in K as (slug & w3 & _ & K).
  apply go_bind_ok in K as (id & w4 & _ & K).
  apply go_bind_ok in K as (? & w5 & (m5 & _ & B5)%base_assign_ok & K).
  apply go_bind_ok in K as (? & w6 & (m6 & E6 & B6)%base_assign_ok & K).
  apply go_bind_ok in K as (? & w7 & (m7 & E7 & B7)%base_assign_ok & K).
  apply go_bind_ok in K as (? & w8 & (m8 & E8 & B8)%base_assign_ok & K).
  apply go_bind_ok in K as (? & w9 & (m9 & E9 & B9)%base_assign_ok & K).
  apply go_bind_ok in K as (m & w10 & [= <- <-] & K). unfold go_lift in K.
  destruct (json_MarshalIndent _) as [e|t] eqn:Ht; [done|]. injection K as -> <-.
  rewrite B9 in Ht. eexists. split; [exact B9|]. split; [exact Ht|].
  simplify_eq. split_and!; by simplify_map_eq.
Qed.

(** Whichever package made the component. *)
Lemma GetRenovateConfig_configured comp gc (w0 w1 w w' : World E) secret branch text :
  NewGitComponent page_fuel comp w0 = (Ok gc, w1) →
  GitComponent.GetRenovateConfig gc secret branch w = (Ok text, w') →
  ∃ config, renovateBaseConfig w' = Some config ∧ configured gc branch text config.
Proof.
  intros (url & old & b & _ & _ & Hgc)%NewGitComponent_ok.
  destruct Hgc as [[_ (id & key & ->)]|[[_ ->]|[_ ->]]]; simpl.
  - intros (config & Hb & Ht & Hp & He & Hr)%github_config_ok. exists config. split; [done|].
    split; [by apply MarshalIndent_survives|]. eauto.
  - intros (config & ep & Hep & Hb & Ht & Hp & He & Hr)%scm_config_ok. exists config. split; [done|].
    split; [by apply MarshalIndent_survives|]. eauto.
  - intros (config & ep & Hep & Hb & Ht & Hp & He & Hr)%scm_config_ok. exists config. split; [done|].
    split; [by apply MarshalIndent_survives|]. eauto.
Qed.

(** ** What becomes of the cached entries *)

(** The identity Renovate acts with on GitHub: the application as it was known, or else
    as GitHub tells. *)
Record bot (w w' : World E) (slug : string) (id : Z) : Prop := {
  bot_slug : ghAppSlug (w_github w') = slug;
  bot_id : ghUserID (w_github w') = id;
  bot_known_slug : ghAppSlug (w_github w) ≠ "" → slug = ghAppSlug (w_github w);
  bot_asked_slug : ghAppSlug (w_github w) = "" →
    ∃ app key e, (env_api (GithubAppsGet app key) e).1 = inr slug;
  bot_known_id : ghUserID (w_github w) ≠ 0%Z → id = ghUserID (w_github w);
  bot_asked_id : ghUserID (w_github w) = 0%Z →
    ∃ e, (env_api (GithubUsersGet (slug +:+ "[bot]")) e).1 = inr id
}.

(** [username] and [gitAuthor], from [w] to [w']: only GitHub has them. *)
Definition acts_as (platform : string) (w w' : World E) (username author : string) : Prop :=
  if decide (platform = "github") then
    ∃ slug id, bot w w' slug id ∧ username = slug +:+ "[bot]" ∧
      author = slug +:+ " <" +:+ fmt_d id +:+ "+" +:+ slug +:+ "[bot]@users.noreply.github.com>"
  else username = "" ∧ author = "".

(** The entries of a component on top of [m]. *)
Definition on_top (gc : GitComponent E) (branch username author : string) (m config : gmap string json) : Prop :=
  config !! "platform" = Some (JString (GetPlatform gc)) ∧
  (∃ endpoint, GitComponent.GetAPIEndpoint gc = Ok endpoint ∧
               config !! "endpoint" = Some (JString endpoint)) ∧
  config !! "username" = Some (JString username) ∧
  config !! "gitAuthor" = Some (JString author) ∧
  config !! "repositories" = Some (repositories_entry branch (GetRepository gc)) ∧
  ∀ k, k ∉ ["platform"; "endpoint"; "username"; "gitAuthor"; "repositories"] → config !! k = m !! k.

(** A call that returned the text of the new cached entries, or failed before it wrote
    any but the platform. *)
Definition config_spec (gc : GitComponent E) (branch : string) (m : gmap string json) (w : World E)
    (r : result string) (w' : World E) : Prop :=
  match r with
  | Ok text =>
      ∃ config username author,
        renovateBaseConfig w' = Some config ∧
        (survives config → Unmarshal_map text = Ok (Some config)) ∧
        acts_as (GetPlatform gc) w w' username author ∧ on_top gc branch username author m config
  | _ => GetPlatform gc ≠ "gitlab" ∧
      ∃ config, renovateBaseConfig w' = Some config ∧ ∀ k, k ≠ "platform" → config !! k = m !! k
  end.

Lemma scm_config_no_endpoint c endpoint secret branch (w : World E) m :
  renovateBaseConfig w = Some m → (∀ ep, endpoint ≠ Ok ep) →
  ∃ r w', scm_config c endpoint secret branch w = (r, w') ∧ (∀ t, r ≠ Ok t) ∧
    renovateBaseConfig w' =
      Some (<["platform" := JString (bc_Platform c)]> (with_rules (registry_rules secret w) m)).
Proof.
  intros Hm Hend. destruct (add_host_rules_cached secret w m Hm) as (w1 & Hrules & _ & _ & Hm1).
  unfold scm_config, go_bind at 1. rewrite (GetRenovateBaseConfig_cached w m Hm).
  unfold go_bind at 1. rewrite Hrules. unfold go_bind at 1. rewrite (base_assign_eq _ _ _ _ Hm1).
  unfold go_bind at 1, go_lift at 1.
  destruct endpoint as [ep|err|p]; [by destruct (Hend ep)|..]; by do 2 eexists.
Qed.

Lemma scm_config_spec (gc : GitComponent E) c secret branch (w : World E) m :
  GetPlatform gc = bc_Platform c → GetRepository gc = bc_Repository c → bc_Platform c ≠ "github" →
  (bc_Platform c = "gitlab" → ∃ ep, GitComponent.GetAPIEndpoint gc = Ok ep) →
  renovateBaseConfig w = Some m → encodable (JObject m) = true →
  let run := scm_config c (GitComponent.GetAPIEndpoint gc) secret branch w in
  config_spec gc branch (with_rules (registry_rules secret w) m) w run.1 run.2.
Proof.
  intros Hp Hr Hgh Hep Hm He. cbv zeta. unfold config_spec. rewrite Hp.
  destruct (GitComponent.GetAPIEndpoint gc) as [ep|err|p] eqn:Hend.
  { destruct (scm_config_cached c ep secret branch w m Hm He) as (text & w' & -> & Ht & Hb & _). cbn [fst snd].
    eexists _, "", "". split; [exact Hb|]. split; [by apply MarshalIndent_survives|].
    unfold acts_as, on_top. rewrite decide_False, Hp, Hr, Hend by done. split; [done|].
    unfold config_entries. split_and!; [by simplify_map_eq| |by simplify_map_eq..|].
    - exists ep. split; [done|]. by simplify_map_eq.
    - intros k Hk. by rewrite !lookup_insert_ne by set_solver. }
  all: destruct (scm_config_no_endpoint c (GitComponent.GetAPIEndpoint gc) secret branch w m Hm)
    as (r & w' & Hrun & Hr' & Hb); [by rewrite Hend|]; rewrite Hend in Hrun; rewrite Hrun; cbn [fst snd];
    destruct r as [t| |]; [by destruct (Hr' t)|..]; (split; [intros Hg; by destruct (Hep Hg)|]);
    eexists; (split; [exact Hb|]); intros k Hk; by rewrite lookup_insert_ne by done.
Qed.

(** *** The identity of the application *)

Lemma go_bind_cases {A B} (m : M E A) (k : A → M E B) (w : World E) :
  (∃ a w1, m w = (Ok a, w1) ∧ go_bind m k w = k a w1) ∨
  ((go_bind m k w).2 = (m w).2 ∧ ∀ b, (go_bind m k w).1 ≠ Ok b).
Proof. unfold go_bind. destruct (m w) as [[a|e|p] w1]; [left; eauto|right; done..]. Qed.

Definition same_base (w w' : World E) : Prop := renovateBaseConfig w' = renovateBaseConfig w.
#[local] Instance same_base_preorder : PreOrder same_base.
Proof. split; [done|]. intros w1 w2 w3 H1 H2. unfold same_base in *. congruence. Qed.
#[local] Instance api_call_same {A} (q : ApiRequest (error + A)) : Preserves same_base (api_call q).
Proof.
  intros w. unfold same_base, api_call, go_bind, api, go_lift. by destruct (env_api q (w_env w)) as [[] ?].
Qed.
#[local] Instance get_same k key : Preserves same_base (client_Get k key).
Proof. intros w. unfold same_base, client_Get, request. by destruct (env_Get _ _ _). Qed.
#[local] Instance set_github_same g : Preserves same_base (go_modify (set_github g)).
Proof. by intros w. Qed.
#[local] Instance getAppIDAndKey_same : Preserves same_base getAppIDAndKey.
Proof. unfold getAppIDAndKey. solve_frame. Qed.
#[local] Instance getAppSlug_same : Preserves same_base getAppSlug.
Proof. unfold getAppSlug. solve_frame. Qed.
#[local] Instance getUserId_same username : Preserves same_base (getUserId username).
Proof. unfold getUserId. solve_frame. Qed.

(** Neither package variable changes but for the one that was asked for. *)
Definition same_identity (w w' : World E) : Prop :=
  ghAppSlug (w_github w') = ghAppSlug (w_github w) ∧ ghUserID (w_github w') = ghUserID (w_github w).
#[local] Instance same_identity_preorder : PreOrder same_identity.
Proof. split; [done|]. intros w1 w2 w3 [? ?] [? ?]. unfold same_identity. split; congruence. Qed.
#[local] Instance api_call_identity {A} (q : ApiRequest (error + A)) : Preserves same_identity (api_call q).
Proof.
  intros w. unfold same_identity, api_call, go_bind, api, go_lift. by destruct (env_api q (w_env w)) as [[] ?].
Qed.
#[local] Instance get_identity k key : Preserves same_identity (client_Get k key).
Proof. intros w. unfold same_identity, client_Get, request. by destruct (env_Get _ _ _). Qed.
#[local] Instance set_app_identity app : Preserves same_identity (go_modify (set_github (set_app app))).
Proof. by intros w. Qed.
#[local] Instance getAppIDAndKey_identity : Preserves same_identity getAppIDAndKey.
Proof. unfold getAppIDAndKey. solve_frame. Qed.

Lemma identity_kept {A} (m : M E A) (w w' : World E) r :
  Preserves same_identity m → m w = (r, w') → same_identity w w'.
Proof. intros Hm Hw. specialize (Hm w). by rewrite Hw in Hm. Qed.

Lemma api_call_ok {A} (q : ApiRequest (error + A)) (w w' : World E) a :
  api_call q w = (Ok a, w') → ∃ e, (env_api q e).1 = inr a.
Proof.
  unfold api_call, go_bind, api, go_lift. destruct (env_api q (w_env w)) as [[err|x] e'] eqn:Hq; [done|].
  intros [= -> _]. exists (w_env w). by rewrite Hq.
Qed.

Lemma getAppSlug_ok (w w' : World E) slug :
  getAppSlug w = (Ok slug, w') →
  ghAppSlug (w_github w') = slug ∧ ghUserID (w_github w') = ghUserID (w_github w) ∧
  (ghAppSlug (w_github w) ≠ "" → slug = ghAppSlug (w_github w)) ∧
  (ghAppSlug (w_github w) = "" → ∃ app key e, (env_api (GithubAppsGet app key) e).1 = inr slug).
Proof.
  unfold getAppSlug. intros (g & w0 & [= <- <-] & K)%go_bind_ok. case_decide as Hs.
  { injection K as <- <-. by split_and!. }
  apply go_bind_ok in K as (app & w1 & H1 & K). apply go_bind_ok in K as (? & w2 & H2 & K).
  apply go_bind_ok in K as (? & w3 & H3%go_wrap_ok & K).
  apply go_bind_ok in K as (s & w4 & H4%go_wrap_ok & K).
  apply go_bind_ok in K as (? & w5 & [= _ <-] & [= -> <-]).
  apply identity_kept in H1 as [_ I1]; [|apply _]. apply identity_kept in H2 as [_ I2]; [|apply _].
  apply identity_kept in H3 as [_ I3]; [|apply _].
  pose proof H4 as [_ I4]%identity_kept; [|apply _].
  simpl. split_and!; [done|congruence|done|]. intros _.
  destruct (api_call_ok _ _ _ _ H4) as [e He]. eauto.
Qed.

Lemma getUserId_ok username (w w' : World E) id :
  getUserId username w = (Ok id, w') →
  ghUserID (w_github w') = id ∧ ghAppSlug (w_github w') = ghAppSlug (w_github w) ∧
  (ghUserID (w_github w) ≠ 0%Z → id = ghUserID (w_github w)) ∧
  (ghUserID (w_github w) = 0%Z → ∃ e, (env_api (GithubUsersGet username) e).1 = inr id).
Proof.
  unfold getUserId. intros (g & w0 & [= <- <-] & K)%go_bind_ok. case_decide as Hs.
  { injection K as <- <-. by split_and!. }
  apply go_bind_ok in K as (? & w3 & H3%go_wrap_ok & K).
  apply go_bind_ok in K as (s & w4 & H4%go_wrap_ok & K).
  apply go_bind_ok in K as (? & w5 & [= _ <-] & [= -> <-]).
  apply identity_kept in H3 as [I3 _]; [|apply _]. pose proof H4 as [I4 _]%identity_kept; [|apply _].
  simpl. split_and!; [done|congruence|done|]. intros _. by eapply api_call_ok.
Qed.

Lemma github_config_spec c secret branch (w : World E) m :
  bc_Platform (base c) = "github" → renovateBaseConfig w = Some m → encodable (JObject m) = true →
  let run := Github.GetRenovateConfig c secret branch w in
  config_spec (github_component page_fuel c) branch (with_rules (registry_rules secret w) m) w run.1 run.2.
Proof.
  intros Hp Hm He. cbv zeta. set (m' := with_rules (registry_rules secret w) m).
  destruct (add_host_rules_cached secret w m Hm) as (w1 & Hrules & _ & Hg1 & Hm1). fold m' in Hm1.
  assert (∀ (r : result string) w', (∀ t, r ≠ Ok t) → renovateBaseConfig w' = Some m' →
    config_spec (github_component page_fuel c) branch m' w r w') as Hfail.
  { intros r w' Hr Hb. unfold config_spec. simpl. rewrite Hp.
    destruct r as [t| |]; [by destruct (Hr t)|..]; (split; [done|]); exists m'; done. }
  set (P := λ x, config_spec (github_component page_fuel c) branch m' w x.1 x.2).
  change (P (Github.GetRenovateConfig c secret branch w)).
  unfold Github.GetRenovateConfig, go_bind at 1. rewrite (GetRenovateBaseConfig_cached w m Hm).
  unfold go_bind at 1. rewrite Hrules.
  match goal with |- P (go_bind ?x ?k w1) =>
    destruct (go_bind_cases x k w1) as [(slug & w2 & H2 & ->)|[Hw Hr]];
    pose proof (getAppSlug_same w1) as B1 end.
  2: { apply Hfail; [done|]. rewrite Hw, B1. done. }
  rewrite H2 in B1. cbn [snd] in B1. apply getAppSlug_ok in H2 as (S1 & S2 & S3 & S4).
  match goal with |- P (go_bind ?x ?k w2) =>
    destruct (go_bind_cases x k w2) as [(id & w3 & H3 & ->)|[Hw Hr]];
    pose proof (getUserId_same (slug +:+ "[bot]") w2) as B2 end.
  2: { apply Hfail; [done|]. rewrite Hw, B2, B1. done. }
  rewrite H3 in B2. cbn [snd] in B2. apply getUserId_ok in H3 as (I1 & I2 & I3 & I4).
  assert (renovateBaseConfig w3 = Some m') as Hm3 by (rewrite B2, B1; exact Hm1).
  assert (bot w w3 slug id) as Hbot.
  { rewrite Hg1 in *. split; [congruence|done|done|done| |]; rewrite <-S2 in *; done. }
  unfold go_bind. erewrite base_assign_eq by exact Hm3. do 4 (erewrite base_assign_eq by reflexivity).
  unfold go_gets, go_lift. cbn [renovateBaseConfig set_base go_make_if_nil].
  match goal with |- context [json_MarshalIndent (JObject ?x)] => set (config := x) end.
  assert (encodable (JObject config) = true) as Hec.
  { subst config. do 5 (apply encodable_insert; [reflexivity|]). by apply with_rules_encodable. }
  destruct (Marshal_encodable _ Hec) as [_ [text Ht]]. rewrite Ht. unfold P. cbn [of_sum fst snd].
  exists config, (slug +:+ "[bot]"), (gitAuthor slug id). split; [done|].
  split; [by apply MarshalIndent_survives|]. split.
  - unfold acts_as. simpl. rewrite Hp, decide_True by done. exists slug, id. split_and!; [|done..].
    by destruct Hbot; split.
  - unfold on_top, config. simpl. split_and!; [by simplify_map_eq| |by simplify_map_eq..|].
    + eexists. split; [reflexivity|]. by simplify_map_eq.
    + intros k Hk. by rewrite !lookup_insert_ne by set_solver.
Qed.

(** C29.  The Renovate configuration of a component of any platform, once the cluster's is
    cached.  When the call succeeds, the text is read as the new cached entries: the old
    ones, the host rules of the registry secret if it has any, and on top the platform,
    the endpoint, the repository and the branch of the component, and the identity to act
    with: on GitHub that of the application, as it was known or as GitHub tells, elsewhere
    none.  When the call fails, which it never does for GitLab, the cached entries but the
    platform are the old ones and the host rules.  The cached entries have to be ones JSON
    can express, which they are and stay (GetRenovateConfig_writable), and the text is read
    back when they survive that: UTF-8 strings, numbers that read back, and no deeper
    nesting than the reader allows. *)
Theorem GetRenovateConfig_entries comp gc (w0 w1 w : World E) secret branch m :
  NewGitComponent page_fuel comp w0 = (Ok gc, w1) →
  renovateBaseConfig w = Some m → encodable (JObject m) = true →
  let run := GitComponent.GetRenovateConfig gc secret branch w in
  config_spec gc branch (with_rules (registry_rules secret w) m) w run.1 run.2.
Proof.
  intros (url & old & b & _ & _ & Hgc)%NewGitComponent_ok Hm He.
  destruct Hgc as [[Hp (id & key & ->)]|[[Hp ->]|[Hp ->]]].
  - by apply (github_config_spec (MkComponent b id key)).
  - apply (scm_config_spec (gitlab_component b) b); try done; simpl; [by rewrite Hp|]. intros _. by eexists.
  - apply (scm_config_spec (forgejo_component b) b); try done; simpl; rewrite Hp; done.
Qed.

(** The cached map, once it can be written, stays so whatever component is configured,
    and whether that succeeds or not: what it is made of was JSON, or is strings. *)
Theorem GetRenovateConfig_writable `{!EnvironmentLaws E} comp gc (w0 w1 w : World E) secret branch :
  NewGitComponent page_fuel comp w0 = (Ok gc, w1) →
  base_writable w → base_writable (GitComponent.GetRenovateConfig gc secret branch w).2.
Proof.
  intros (url & old & b & _ & _ & Hgc)%NewGitComponent_ok Hw.
  assert (Keeps (GitComponent.GetRenovateConfig gc secret branch)) as HK; [|by apply HK].
  destruct Hgc as [[_ (id & key & ->)]|[[_ ->]|[_ ->]]]; simpl; apply _.
Qed.
End Writable.
