(* ===== verification/Tekton.v ===== *)
(** * internal/tekton: the PipelineRun builder

    [pipeline_run_builder.go]: the PipelineRun of a Renovate run, its steps, and the
    methods that add labels, volumes, parameters and the Kite step to it.  The
    builder is a value here: the Go methods return the receiver they change.
    [WithSecret] draws a random volume name, so it lives in the world's monad; the
    others are functions. *)

From S2P Require Import Prelude GoStrings Kube Json Metrics Config World Sample Sanitize.
From Stdlib Require Import Ascii.

(** A double quote, and lines of text. *)
Definition dq : string := String "034"%char EmptyString.
Definition newline : string := String "010"%char EmptyString.
Definition text_lines (l : list string) : string :=
  foldr (λ line rest, line +:+ newline +:+ rest) EmptyString l.

(** [log_sanitizer.sh], embedded in the program. *)
Definition logSanitizerScript : string :=
  text_lines [
    "#!/bin/sh";
    "LOG_FILE=" +:+ dq +:+ "${LOG_FILE:-/workspace/shared-data/renovate-logs.json}" +:+ dq;
    "FAIL_MSG='Sanitization step failed; the entire logs of this execution were removed for caution'";
    "fail_safe() {";
    "  echo " +:+ dq +:+ "$FAIL_MSG" +:+ dq;
    "  echo " +:+ dq +:+ "$FAIL_MSG" +:+ dq +:+ " > " +:+ dq +:+ "$LOG_FILE" +:+ dq;
    "  exit 0";
    "}";
    "if [ ! -f " +:+ dq +:+ "$LOG_FILE" +:+ dq +:+ " ]; then";
    "  echo 'Log file not found, skipping sanitization'";
    "  exit 0";
    "fi";
    "echo 'Scanning log file for leaked secrets...'";
    "SCAN_OUTPUT=$(leaktk scan --kind JSONData " +:+ dq +:+ "@${LOG_FILE}" +:+ dq +:+ " 2>/dev/null)";
    "if [ $? -ne 0 ]; then";
    "  echo 'leaktk scan failed'";
    "  fail_safe";
    "fi";
    "if [ -z " +:+ dq +:+ "$SCAN_OUTPUT" +:+ dq +:+ " ]; then";
    "  echo 'No secrets detected or scanner produced no output'";
    "  exit 0";
    "fi";
    "SECRETS=$(echo " +:+ dq +:+ "$SCAN_OUTPUT" +:+ dq +:+ " | python3 -c " +:+ dq;
    "import sys, json";
    "for r in json.load(sys.stdin).get('results',[]):";
    "    s = r.get('secret','')";
    "    if s: print(s)";
    dq +:+ ")";
    "if [ $? -ne 0 ]; then";
    "  echo 'Failed to parse leaktk output'";
    "  fail_safe";
    "fi";
    "if [ -z " +:+ dq +:+ "$SECRETS" +:+ dq +:+ " ]; then";
    "  echo 'No secrets found in log file'";
    "  exit 0";
    "fi";
    "if ! cp " +:+ dq +:+ "$LOG_FILE" +:+ dq +:+ " " +:+ dq +:+ "${LOG_FILE}.tmp" +:+ dq +:+ "; then";
    "  echo 'Failed to create temporary log file'";
    "  fail_safe";
    "fi";
    "REDACT_FAILED=0";
    "while IFS= read -r secret; do";
    "  if [ -n " +:+ dq +:+ "$secret" +:+ dq +:+ " ]; then";
    "    # Prepend '\' to BRE metacharacters and the sed delimiter (|) so sed treats them as literal characters";
    "    ESCAPED=$(printf '%s\n' " +:+ dq +:+ "$secret" +:+ dq +:+ " | sed 's/[[\.*^$|\\]/\\&/g')";
    "    if ! sed -i " +:+ dq +:+ "s|${ESCAPED}|**REDACTED**|g" +:+ dq +:+ " " +:+ dq +:+ "${LOG_FILE}.tmp" +:+ dq +:+ "; then";
    "      REDACT_FAILED=1";
    "      break";
    "    fi";
    "  fi";
    "done <<EOF";
    "$SECRETS";
    "EOF";
    "if [ " +:+ dq +:+ "$REDACT_FAILED" +:+ dq +:+ " -eq 1 ]; then";
    "  echo 'Failed to redact secrets from log file'";
    "  fail_safe";
    "fi";
    "if ! mv " +:+ dq +:+ "${LOG_FILE}.tmp" +:+ dq +:+ " " +:+ dq +:+ "$LOG_FILE" +:+ dq +:+ "; then";
    "  echo 'Failed to replace log file with redacted version'";
    "  fail_safe";
    "fi";
    "echo 'Log sanitization complete'"
  ].

(** ** Mount options *)

Record MountOptions := MkMountOptions {
  mo_TaskName : string;
  mo_StepNames : list string;
  mo_ReadOnly : option bool;
  mo_DefaultMode : option Z;
  mo_Optional : option bool
}.

Definition NewMountOptions : MountOptions :=
  MkMountOptions "build" [] (Some true) (Some 420%Z) (Some false).   (* 0644 *)

Definition WithTaskName (taskName : string) (o : MountOptions) : MountOptions :=
  MkMountOptions taskName (mo_StepNames o) (mo_ReadOnly o) (mo_DefaultMode o) (mo_Optional o).
Definition WithStepNames (stepNames : list string) (o : MountOptions) : MountOptions :=
  MkMountOptions (mo_TaskName o) stepNames (mo_ReadOnly o) (mo_DefaultMode o) (mo_Optional o).
Definition WithReadOnly (readOnly : bool) (o : MountOptions) : MountOptions :=
  MkMountOptions (mo_TaskName o) (mo_StepNames o) (Some readOnly) (mo_DefaultMode o) (mo_Optional o).
Definition WithDefaultMode (mode : Z) (o : MountOptions) : MountOptions :=
  MkMountOptions (mo_TaskName o) (mo_StepNames o) (mo_ReadOnly o) (Some mode) (mo_Optional o).
Definition WithOptional (optional : bool) (o : MountOptions) : MountOptions :=
  MkMountOptions (mo_TaskName o) (mo_StepNames o) (mo_ReadOnly o) (mo_DefaultMode o) (Some optional).

(** The defaults [WithConfigMap] and [WithSecret] fill in. *)
Definition mount_defaults (opts : option MountOptions) : MountOptions :=
  let o := default (MkMountOptions EmptyString [] None None None) opts in
  MkMountOptions
    (if decide (mo_TaskName o = EmptyString) then "build" else mo_TaskName o)
    (mo_StepNames o) (Some (default true (mo_ReadOnly o))) (mo_DefaultMode o) (mo_Optional o).

(** ** The steps of a new PipelineRun *)

Definition rootUser : Z := 0.
Definition normalUser : Z := 1001120000.

Definition unprivileged : SecurityContext :=
  MkSecurityContext ["ALL"] (Some true) (Some normalUser) (Some false).

(** Requests and limits alike. *)
Definition compute (cpu memory : string) : option Resources :=
  let l := [("cpu", cpu); ("memory", memory)] in Some (MkResources l l).

Definition env_value (name value : string) : EnvVar := MkEnvVar name value None.

Definition prepare_db : Step :=
  MkStep "prepare-db" "quay.io/konflux-ci/mintmaker-osv-database:latest"
    "echo 'Copying OSV database to the shared workspace'; cp -r /data/osv-db /workspace/shared-data"
    unprivileged (compute "100m" "512Mi") [] [].

Definition rpm_cert_script : string :=
  "[ ! -f " +:+ dq +:+ "/etc/renovate/secret/rpm-activationkey" +:+ dq +:+
  " ] && echo 'RPM secret not found. Exiting.' && exit 0;" +:+
  "echo 'Generating RPM certificate and copying it to shared workspace';" +:+
  "KEY_NAME=$(cat /etc/renovate/secret/rpm-activationkey);" +:+
  "ORG_ID=$(cat /etc/renovate/secret/rpm-org);" +:+
  "subscription-manager register --activationkey=" +:+ dq +:+ "$KEY_NAME" +:+ dq +:+
  " --org=" +:+ dq +:+ "$ORG_ID" +:+ dq +:+ ";" +:+
  "mkdir -p /workspace/shared-data/rpm-certs;" +:+
  "cp /etc/pki/entitlement/*-key.pem /workspace/shared-data/rpm-certs/key.pem;" +:+
  "cp $(find /etc/pki/entitlement -maxdepth 1 -type f -name '*.pem' ! -name '*-key.pem' -print -quit) /workspace/shared-data/rpm-certs/cert.pem".

Definition prepare_rpm_cert : Step :=
  MkStep "prepare-rpm-cert" "registry.access.redhat.com/ubi9" rpm_cert_script
    (MkSecurityContext ["ALL"] None (Some rootUser) (Some false))
    (compute "100m" "256Mi") [] [].

Definition renovate (renovateImageURL : string) : Step :=
  MkStep "renovate" renovateImageURL
    ("RENOVATE_TOKEN=$(cat /etc/renovate/secret/renovate-token) " +:+
     "RENOVATE_CONFIG_FILE=/etc/renovate/config/config.js " +:+
     "LOG_FILE=/workspace/shared-data/renovate-logs.json " +:+
     "renovate || true")
    unprivileged (compute "300m" "3.5Gi")
    [env_value "HOME" "/home/renovate";
     env_value "LOG_LEVEL" "debug";
     env_value "LOG_FORMAT" "json";
     env_value "OSV_OFFLINE_DISABLE_DOWNLOAD" "true";
     env_value "OSV_OFFLINE_ROOT_DIR" "/workspace/shared-data/osv-db";
     env_value "DNF_VAR_SSL_CLIENT_KEY" "/workspace/shared-data/rpm-certs/key.pem";
     env_value "DNF_VAR_SSL_CLIENT_CERT" "/workspace/shared-data/rpm-certs/cert.pem";
     env_value "RENOVATE_X_GITLAB_AUTO_MERGEABLE_CHECK_ATTEMPS" "7"] [].

Definition log_sanitizer (leaktkImageURL : string) : Step :=
  MkStep "log-sanitizer" leaktkImageURL logSanitizerScript unprivileged
    (compute "100m" "256Mi") [env_value "HOME" "/tmp"] [].

(** ** The builder *)

Record PipelineRunBuilder := MkBuilder {
  bld_err : list error;            (* the errors accumulated *)
  pipelineRun : PipelineRun
}.

(** [os.Getenv(name)], or a default when it is empty. *)
Definition image_from_env `{Libraries} (name fallback : string) : string :=
  if decide (Getenv name = EmptyString) then fallback else Getenv name.

Definition build_task `{Libraries} : PipelineTask :=
  MkTask "build" [("shared-data", "shared-data")]
    (Some (MkTaskSpec ["shared-data"] []
      [prepare_db; prepare_rpm_cert;
       renovate (image_from_env RenovateImageEnvName DefaultRenovateImageURL);
       log_sanitizer (image_from_env LeakTKImageEnvName DefaultLeakTKImageURL)])).

Definition NewPipelineRunBuilder `{Libraries} (name namespace : string) : PipelineRunBuilder :=
  MkBuilder []
    (MkPipelineRun (new_meta name namespace)
      (MkPRSpec ["shared-data"] ["shared-data"] [build_task] [] None EmptyString EmptyString)
      (MkPRStatus [] None)).

(** [Build]: the error is non-nil when any was accumulated. *)
Definition Build (b : PipelineRunBuilder) : PipelineRun * list error := (pipelineRun b, bld_err b).

Definition update_meta (f : ObjectMeta → ObjectMeta) (b : PipelineRunBuilder) : PipelineRunBuilder :=
  let pr := pipelineRun b in
  MkBuilder (bld_err b) (MkPipelineRun (f (pr_meta pr)) (pr_Spec pr) (pr_Status pr)).

Definition update_spec (f : PipelineRunSpec → PipelineRunSpec) (b : PipelineRunBuilder)
    : PipelineRunBuilder :=
  let pr := pipelineRun b in
  MkBuilder (bld_err b) (MkPipelineRun (pr_meta pr) (f (pr_Spec pr)) (pr_Status pr)).

(** Every key of [new] is set in [m], made first if it is nil. *)
Definition set_all (new : gmap string string) (m : gomap string) : gomap string :=
  Some (new ∪ go_make_if_nil m).

Definition WithAnnotations (annotations : gmap string string) : PipelineRunBuilder → PipelineRunBuilder :=
  update_meta (λ m, set_Annotations (set_all annotations (Annotations m)) m).

Definition WithFinalizer `{Libraries} (finalizer : string) : PipelineRunBuilder → PipelineRunBuilder :=
  update_meta (λ m, AddFinalizer m finalizer).

Definition WithLabels (labels : gmap string string) : PipelineRunBuilder → PipelineRunBuilder :=
  update_meta (λ m, set_Labels (set_all labels (Labels m)) m).

Definition WithParams (params : list (string * string)) : PipelineRunBuilder → PipelineRunBuilder :=
  update_spec (λ s, MkPRSpec (prs_Workspaces s) (prs_PipelineWorkspaces s) (prs_Tasks s)
    (prs_Params s ++ params) (prs_Timeouts s) (prs_ServiceAccountName s) (prs_Status s)).

Definition WithServiceAccount (serviceAccount : string) : PipelineRunBuilder → PipelineRunBuilder :=
  update_spec (λ s, MkPRSpec (prs_Workspaces s) (prs_PipelineWorkspaces s) (prs_Tasks s)
    (prs_Params s) (prs_Timeouts s) serviceAccount (prs_Status s)).

(** *** Parameters made from objects *)

(** What the methods read of a [client.Object]: its kind, its names, and its field
    [Spec], if it has one, as [json.Marshal] encodes it. *)
Record ClientObject := MkClientObject {
  co_Kind : string;
  co_Namespace : string;
  co_Name : string;
  co_Spec : option (error + string)
}.

(** The kind with its first letter in lower case; kinds are ASCII identifiers.
    [name[0]] of an empty kind panics. *)
Definition param_name (kind : string) : result string :=
  match kind with
  | EmptyString => Panic "index out of range [0] with length 0"
  | String c kind' => Ok (String (lower_byte c) kind')
  end.

Definition WithObjectReference (object : ClientObject) (b : PipelineRunBuilder)
    : result PipelineRunBuilder :=
  name ← param_name (co_Kind object);
  Ok (WithParams [(name, co_Namespace object +:+ "/" +:+ co_Name object)] b).

Fixpoint WithObjectReferences (objects : list ClientObject) (b : PipelineRunBuilder)
    : result PipelineRunBuilder :=
  match objects with
  | [] => Ok b
  | object :: objects' => b' ← WithObjectReference object b; WithObjectReferences objects' b'
  end.

(** [multierror.Append(b.err, err)]. *)
Definition add_error (e : error) (b : PipelineRunBuilder) : PipelineRunBuilder :=
  MkBuilder (bld_err b ++ [e]) (pipelineRun b).

Definition WithObjectSpecAsJson (object : ClientObject) (b : PipelineRunBuilder)
    : result PipelineRunBuilder :=
  name ← param_name (co_Kind object);
  Ok (match co_Spec object with
      | None => add_error (Errorf ("failed to extract spec for object: " +:+ name)) b
      | Some (inl e) =>
          add_error (errorf_v ("failed to serialize spec of object " +:+ name +:+ " to JSON: ") e) b
      | Some (inr jsonData) => WithParams [(name, jsonData)] b
      end).

Fixpoint WithObjectSpecsAsJson (objects : list ClientObject) (b : PipelineRunBuilder)
    : result PipelineRunBuilder :=
  match objects with
  | [] => Ok b
  | object :: objects' => b' ← WithObjectSpecAsJson object b; WithObjectSpecsAsJson objects' b'
  end.

(** One hour, in nanoseconds. *)
Definition defaultTimeouts : TimeoutFields := MkTimeouts (Some 3600000000000%Z) None None.

Definition WithTimeouts (timeouts : option TimeoutFields) : PipelineRunBuilder → PipelineRunBuilder :=
  update_spec (λ s, MkPRSpec (prs_Workspaces s) (prs_PipelineWorkspaces s) (prs_Tasks s)
    (prs_Params s)
    (Some (match timeouts with
           | None | Some (MkTimeouts None None None) => defaultTimeouts
           | Some t => t
           end)) (prs_ServiceAccountName s) (prs_Status s)).

(** The loop over the tasks: the first one of that name with a specification is
    changed, and the loop is left. *)
Definition is_task (name : string) (t : PipelineTask) : bool :=
  bool_decide (task_Name t = name) && bool_decide (is_Some (task_TaskSpec t)).

Fixpoint update_task (name : string) (f : TaskSpec → TaskSpec) (tasks : list PipelineTask)
    : list PipelineTask :=
  match tasks with
  | [] => []
  | t :: rest =>
      if is_task name t
      then MkTask (task_Name t) (task_Workspaces t) (f <$> task_TaskSpec t) :: rest
      else t :: update_task name f rest
  end.

Definition update_tasks (f : list PipelineTask → list PipelineTask)
    : PipelineRunBuilder → PipelineRunBuilder :=
  update_spec (λ s, MkPRSpec (prs_Workspaces s) (prs_PipelineWorkspaces s) (f (prs_Tasks s))
    (prs_Params s) (prs_Timeouts s) (prs_ServiceAccountName s) (prs_Status s)).

(** A volume is appended to the task, and a mount of it to the steps chosen. *)
Definition mount_step (stepNames : list string) (mount : VolumeMount) (step : Step) : Step :=
  if bool_decide (stepNames = []) || bool_decide (step_Name step ∈ stepNames)
  then set_VolumeMounts (step_VolumeMounts step ++ [mount]) step else step.

Definition mount_volume (opts : MountOptions) (volume : Volume) (mountPath : string) (t : TaskSpec)
    : TaskSpec :=
  MkTaskSpec (ts_Workspaces t) (ts_Volumes t ++ [volume])
    (mount_step (mo_StepNames opts)
       (MkVolumeMount (vol_Name volume) mountPath (default true (mo_ReadOnly opts)))
     <$> ts_Steps t).

Definition sanitizeVolumeName (name : string) : string := ReplaceAll name "." "-".

(** The names of the volumes; a secret's ends in the random string drawn for it. *)
Definition configmap_volume (name : string) : string := "configmap-" +:+ sanitizeVolumeName name.
Definition secret_volume (name random : string) : string :=
  "secret-" +:+ sanitizeVolumeName name +:+ "-" +:+ random.

Definition projection (name : string) (items : list KeyToPath) (opts : MountOptions)
    : VolumeProjection :=
  MkProjection name items (mo_Optional opts) (mo_DefaultMode opts).

Definition WithConfigMap (name mountPath : string) (items : list KeyToPath)
    (opts : option MountOptions) : PipelineRunBuilder → PipelineRunBuilder :=
  let opts := mount_defaults opts in
  let volumeName := configmap_volume name in
  let volume := MkVolume volumeName (Some (projection name items opts)) None in
  update_tasks (update_task (mo_TaskName opts) (mount_volume opts volume mountPath)).

(** The random part of the volume name is drawn once a task matches. *)
Definition WithSecret {E} `{Environment E} (name mountPath : string) (items : list KeyToPath)
    (opts : option MountOptions) (b : PipelineRunBuilder) : M E PipelineRunBuilder :=
  let opts := mount_defaults opts in
  if existsb (is_task (mo_TaskName opts)) (prs_Tasks (pr_Spec (pipelineRun b)))
  then
    let! random := RandomString rand_Read 8 in
    let volumeName := secret_volume name random in
    let volume := MkVolume volumeName None (Some (projection name items opts)) in
    go_ret (update_tasks (update_task (mo_TaskName opts) (mount_volume opts volume mountPath)) b)
  else go_ret b.

(** The step that reports to Kite. *)
Definition env_field (name path : string) : EnvVar := MkEnvVar name EmptyString (Some path).

Definition log_analyzer (kiteAPIURL : string) : Step :=
  MkStep "log-analyzer" "quay.io/konflux-ci/renovate-log-analyzer:latest" EmptyString
    unprivileged None
    [env_field "POD_NAME" "metadata.name";
     env_field "NAMESPACE" "metadata.labels['mintmaker.appstudio.redhat.com/namespace']";
     env_field "GIT_HOST" "metadata.labels['mintmaker.appstudio.redhat.com/git-host']";
     env_field "REPOSITORY" "metadata.labels['mintmaker.appstudio.redhat.com/repository']";
     env_field "BRANCH" "metadata.labels['mintmaker.appstudio.redhat.com/branch']";
     env_field "PIPELINE_RUN" "metadata.labels['tekton.dev/pipelineRun']";
     env_value "SSL_CERT_FILE" "/etc/pki/kite-ca/ca.crt";
     env_value "KITE_API_URL" kiteAPIURL;
     env_value "LOG_FILE" "/workspace/shared-data/renovate-logs.json";
     env_value "KITE_AUTH_TOKEN_FILE" "/var/run/secrets/kite/token"] [].

Definition WithKiteIntegration (kiteAPIURL : string) : PipelineRunBuilder → PipelineRunBuilder :=
  update_tasks (update_task "build" (λ t,
    MkTaskSpec (ts_Workspaces t) (ts_Volumes t) (ts_Steps t ++ [log_analyzer kiteAPIURL]))).

(** ** Looking into a PipelineRun *)

(** The specification of the first task of a name that has one. *)
Fixpoint task_at (name : string) (tasks : list PipelineTask) : option TaskSpec :=
  match tasks with
  | [] => None
  | t :: rest => if is_task name t then task_TaskSpec t else task_at name rest
  end.

Definition builder_task (name : string) (b : PipelineRunBuilder) : option TaskSpec :=
  task_at name (prs_Tasks (pr_Spec (pipelineRun b))).

Lemma is_task_spec name t :
  is_task name t = true ↔ task_Name t = name ∧ is_Some (task_TaskSpec t).
Proof. unfold is_task. by rewrite andb_true_iff, !bool_decide_eq_true. Qed.

Lemma task_at_update name f tasks :
  task_at name (update_task name f tasks) = f <$> task_at name tasks.
Proof.
  induction tasks as [|t tasks IH]; simpl; [done|].
  destruct (is_task name t) eqn:Ht; simpl; [|by rewrite Ht].
  assert (is_task name (MkTask (task_Name t) (task_Workspaces t) (f <$> task_TaskSpec t)) = true)
    as ->; [|done].
  apply is_task_spec in Ht as [Hn Hs]. apply is_task_spec. simpl. by rewrite fmap_is_Some.
Qed.

Lemma task_at_exists name tasks :
  existsb (is_task name) tasks = true ↔ is_Some (task_at name tasks).
Proof.
  induction tasks as [|t tasks IH]; simpl; [split; [done|by intros []]|].
  destruct (is_task name t) eqn:Ht; simpl; [|done].
  apply is_task_spec in Ht. naive_solver.
Qed.

(** Every mount of a step refers to a volume of its task. *)
Definition mounts_declared (t : TaskSpec) : Prop :=
  Forall (λ step, Forall (λ m, vm_Name m ∈ vol_Name <$> ts_Volumes t) (step_VolumeMounts step))
    (ts_Steps t).

Definition builder_ok (b : PipelineRunBuilder) : Prop :=
  Forall (λ t, ∀ ts, task_TaskSpec t = Some ts → mounts_declared ts)
    (prs_Tasks (pr_Spec (pipelineRun b))).

Lemma mount_step_spec names mount step :
  step_Name (mount_step names mount step) = step_Name step ∧
  step_VolumeMounts (mount_step names mount step) =
    step_VolumeMounts step ++
      (if decide (names = [] ∨ step_Name step ∈ names) then [mount] else []).
Proof.
  unfold mount_step. destruct (decide _) as [Hin|Hin].
  - by rewrite (proj2 (orb_true_iff _ _)) by (by rewrite !bool_decide_eq_true).
  - rewrite (proj2 (orb_false_iff _ _)) by (rewrite !bool_decide_eq_false; tauto).
    by rewrite app_nil_r.
Qed.

Lemma mount_volume_declared opts volume mountPath t :
  mounts_declared t → mounts_declared (mount_volume opts volume mountPath t).
Proof.
  unfold mounts_declared. intros Ht. simpl. rewrite Forall_fmap, fmap_app.
  eapply Forall_impl; [exact Ht|]. intros step Hstep. simpl. unfold mount_step.
  assert (Forall (λ m, vm_Name m ∈ (vol_Name <$> ts_Volumes t) ++ (vol_Name <$> [volume]))
            (step_VolumeMounts step)) as Hold.
  { eapply Forall_impl; [exact Hstep|]. intros m Hm. simpl. apply elem_of_app. by left. }
  destruct (_ || _); [|done]. simpl. apply Forall_app. split; [done|].
  constructor; [|done]. simpl. apply elem_of_app. right. by left.
Qed.

Lemma update_task_ok name f tasks :
  (∀ ts, mounts_declared ts → mounts_declared (f ts)) →
  Forall (λ t, ∀ ts, task_TaskSpec t = Some ts → mounts_declared ts) tasks →
  Forall (λ t, ∀ ts, task_TaskSpec t = Some ts → mounts_declared ts) (update_task name f tasks).
Proof.
  intros Hf. induction 1 as [|t tasks Ht Htasks IH]; simpl; [done|].
  destruct (is_task name t); constructor; [|done..].
  simpl. intros ts (ts0 & Hts & ->)%fmap_Some. auto.
Qed.

(** ** Every PipelineRun the builder makes *)

Section Built.
Context {E : Type} `{Environment E} `{Libraries}.

(** The builders a program can get from the package's functions. *)
Inductive built : PipelineRunBuilder → Prop :=
| built_new name namespace : built (NewPipelineRunBuilder name namespace)
| built_annotations a b : built b → built (WithAnnotations a b)
| built_finalizer f b : built b → built (WithFinalizer f b)
| built_labels l b : built b → built (WithLabels l b)
| built_params p b : built b → built (WithParams p b)
| built_references objects b b' :
    built b → WithObjectReferences objects b = Ok b' → built b'
| built_specs objects b b' :
    built b → WithObjectSpecsAsJson objects b = Ok b' → built b'
| built_service_account s b : built b → built (WithServiceAccount s b)
| built_timeouts t b : built b → built (WithTimeouts t b)
| built_configmap name path items opts b :
    built b → built (WithConfigMap name path items opts b)
| built_secret name path items opts b b' (w w' : World E) :
    built b → WithSecret name path items opts b w = (Ok b', w') → built b'
| built_kite url b : built b → built (WithKiteIntegration url b).

Lemma WithSecret_ok name path items opts b b' (w w' : World E) :
  WithSecret name path items opts b w = (Ok b', w') → builder_ok b → builder_ok b'.
Proof.
  unfold WithSecret. destruct (existsb _ _); [|by intros [= <- <-]].
  unfold go_bind. destruct (RandomString _ _ _) as [[r| |] w1]; [|done..].
  intros [= <- <-] Hb. apply update_task_ok; [|done]. intros ts. apply mount_volume_declared.
Qed.

Lemma WithObjectReferences_ok objects b b' :
  WithObjectReferences objects b = Ok b' → builder_ok b → builder_ok b'.
Proof.
  revert b. induction objects as [|o objects IH]; intros b; cbn [WithObjectReferences]; [by intros [= ->]|].
  unfold WithObjectReference. destruct (param_name _); [|done..]. simpl. intros Ho Hb. by apply (IH _ Ho).
Qed.

Lemma WithObjectSpecsAsJson_ok objects b b' :
  WithObjectSpecsAsJson objects b = Ok b' → builder_ok b → builder_ok b'.
Proof.
  revert b. induction objects as [|o objects IH]; intros b; cbn [WithObjectSpecsAsJson]; [by intros [= ->]|].
  unfold WithObjectSpecAsJson. destruct (param_name _); [|done..]. simpl. intros Ho Hb.
  apply (IH _ Ho). by destruct (co_Spec o) as [[]|].
Qed.

(** C34.  Whatever the methods called and their order, every volume mount of every
    step refers to a volume declared in the step's own task. *)
Theorem built_mounts_declared b : built b → builder_ok b.
Proof.
  induction 1; try done.
  - unfold builder_ok. simpl. constructor; [|done]. intros ts [= <-]. by repeat constructor.
  - by eapply WithObjectReferences_ok.
  - by eapply WithObjectSpecsAsJson_ok.
  - apply update_task_ok; [|done]. intros ts. apply mount_volume_declared.
  - by eapply WithSecret_ok.
  - apply update_task_ok; [|done]. intros ts Hts. unfold mounts_declared. simpl.
    apply Forall_app. split; [exact Hts|]. by repeat constructor.
Qed.

Lemma rand_Read_result `{!EnvironmentLaws E} n (w : World E) :
  (∃ bytes w', rand_Read n w = (Ok bytes, w') ∧ length bytes = n) ∨
  (∃ e w', rand_Read n w = (Err e, w')).
Proof.
  unfold rand_Read. pose proof (env_rand_length n (w_env w)) as Hlen.
  destruct (env_rand n (w_env w)) as [[e|bytes] e']; simpl in *; [right|left]; eauto.
Qed.

(** [WithSecret] adds one volume for the secret to the task it names, under a
    fresh name ending in eight random hexadecimal digits, and mounts it at the end
    of the mounts of exactly the steps the options choose (all of them when none is
    named); the order and the names of the steps do not change.  It panics only if
    the random source fails. *)
Theorem WithSecret_spec `{!EnvironmentLaws E} name path items o b ts (w : World E) :
  builder_task (mo_TaskName (mount_defaults (Some o))) b = Some ts →
  match WithSecret name path items (Some o) b w with
  | (Ok b', _) =>
      ∃ random ts', hex_name 8 random ∧
        builder_task (mo_TaskName (mount_defaults (Some o))) b' = Some ts' ∧
        let volume := secret_volume name random in
        ts_Volumes ts' = ts_Volumes ts ++
          [MkVolume volume None (Some (MkProjection name items (mo_Optional o) (mo_DefaultMode o)))] ∧
        Forall2 (λ step step',
          step_Name step' = step_Name step ∧
          step_VolumeMounts step' = step_VolumeMounts step ++
            (if decide (mo_StepNames o = [] ∨ step_Name step ∈ mo_StepNames o)
             then [MkVolumeMount volume path (default true (mo_ReadOnly o))] else []))
          (ts_Steps ts) (ts_Steps ts')
  | (Err _, _) => False
  | (Panic _, _) => ∃ e w', rand_Read (E:=E) 5 w = (Err e, w')
  end.
Proof.
  intros Hts. unfold WithSecret.
  rewrite (proj2 (task_at_exists _ _)) by (exists ts; exact Hts).
  unfold go_bind. destruct (rand_Read_result 5 w) as [(bytes & w1 & Hr & Hlen)|(e & w1 & Hr)].
  - destruct (RandomString_exact rand_Read 8 w bytes w1 Hr Hlen) as (random & -> & Hhex).
    unfold go_ret. unfold builder_task in *. cbn [pipelineRun update_tasks update_spec pr_Spec prs_Tasks].
    exists random. eexists. split; [done|]. rewrite task_at_update, Hts. split; [reflexivity|].
    split; [reflexivity|]. cbn [ts_Steps mount_volume]. rewrite Forall2_fmap_r.
    apply Forall_Forall2_diag, Forall_true. intros step. apply mount_step_spec.
  - unfold RandomString, go_try. change (8 / 2 + 1) with 5. rewrite Hr. simpl. eauto.
Qed.
End Built.

(** ** Volume names *)

Definition lower_alnum (c : ascii) : bool := in_range 97 122 c || in_range 48 57 c.
Definition dash : ascii := "-"%char.
Definition dot : ascii := "."%char.

(** What Kubernetes accepts as a volume name. *)
Definition dns_label (s : string) : Prop :=
  1 ≤ String.length s ≤ 63 ∧
  Forall (λ c, lower_alnum c = true ∨ c = dash) (explode s) ∧
  (∀ c, head (explode s) = Some c → lower_alnum c = true) ∧
  (∀ c, last (explode s) = Some c → lower_alnum c = true).

(** What it requires at least of the name of a secret or of a config map. *)
Definition dns_subdomain (s : string) : Prop :=
  1 ≤ String.length s ≤ 253 ∧
  Forall (λ c, lower_alnum c = true ∨ c = dash ∨ c = dot) (explode s) ∧
  (∀ c, head (explode s) = Some c → lower_alnum c = true) ∧
  (∀ c, last (explode s) = Some c → lower_alnum c = true).

Definition undot (c : ascii) : ascii := if decide (c = dot) then dash else c.

Lemma sanitizeVolumeName_explode name :
  explode (sanitizeVolumeName name) = undot <$> explode name.
Proof.
  unfold sanitizeVolumeName. rewrite ReplaceAll_byte.
  apply list_fmap_ext. intros _ c _. unfold undot, dot, dash. by repeat case_decide.
Qed.

Lemma sanitizeVolumeName_length name :
  String.length (sanitizeVolumeName name) = String.length name.
Proof. by rewrite <-!length_explode, sanitizeVolumeName_explode, length_fmap. Qed.

Lemma undot_legal c :
  lower_alnum c = true ∨ c = dash ∨ c = dot → lower_alnum (undot c) = true ∨ undot c = dash.
Proof. unfold undot. case_decide; naive_solver. Qed.

Lemma undot_alnum c : lower_alnum c = true → undot c = c.
Proof. unfold undot. case_decide as Hd; [|done]. by subst. Qed.

Lemma sanitized_legal name :
  dns_subdomain name →
  Forall (λ c, lower_alnum c = true ∨ c = dash) (explode (sanitizeVolumeName name)) ∧
  (∀ c, last (explode (sanitizeVolumeName name)) = Some c → lower_alnum c = true).
Proof.
  intros (_ & Hall & _ & Hlast). rewrite sanitizeVolumeName_explode. split.
  - rewrite Forall_fmap. eapply Forall_impl; [exact Hall|]. apply undot_legal.
  - intros c. rewrite fmap_last. intros (d & Hd & ->)%fmap_Some.
    rewrite undot_alnum; by apply Hlast.
Qed.

Lemma hex_lower_alnum c : is_hex_digit c = true → lower_alnum c = true.
Proof.
  unfold is_hex_digit, lower_alnum, in_range. rewrite !orb_true_iff, !bool_decide_eq_true. lia.
Qed.

Lemma dns_label_app p s :
  Forall (λ c, lower_alnum c = true ∨ c = dash) (explode p) →
  (∀ c, head (explode p) = Some c → lower_alnum c = true) → p ≠ EmptyString →
  Forall (λ c, lower_alnum c = true ∨ c = dash) (explode s) →
  (∀ c, last (explode s) = Some c → lower_alnum c = true) → s ≠ EmptyString →
  String.length p + String.length s ≤ 63 →
  dns_label (p +:+ s).
Proof.
  intros Hp Hhead Hp0 Hs Hlast Hs0 Hlen. unfold dns_label.
  rewrite length_app_str, explode_app. destruct p as [|a p]; [done|]. split_and!.
  - simpl. lia.
  - simpl in *. lia.
  - by apply Forall_app.
  - intros c [= <-]. by apply Hhead.
  - intros c. rewrite last_app. destruct (last (explode s)) as [d|] eqn:Hd.
    + intros [= <-]. by apply Hlast.
    + apply last_None in Hd. destruct s; done.
Qed.

(** C35.  The names of volumes are legal exactly for the secrets of at most 47 bytes and the
    config maps of at most 53, with whatever random digits were drawn. *)
Theorem volume_names_legal name random :
  dns_subdomain name → hex_name 8 random →
  (dns_label (secret_volume name random) ↔ String.length name ≤ 47) ∧
  (dns_label (configmap_volume name) ↔ String.length name ≤ 53).
Proof.
  intros Hname [Hlen Hhex]. destruct (sanitized_legal name Hname) as [Hall Hlast].
  assert (sanitizeVolumeName name ≠ EmptyString) as Hne.
  { intros He. pose proof (sanitizeVolumeName_length name) as Hl. rewrite He in Hl.
    destruct Hname. simpl in Hl. lia. }
  assert (Forall (λ c, lower_alnum c = true) (explode random)) as Hr
    by (eapply Forall_impl; [exact Hhex|exact hex_lower_alnum]).
  split; (split; [intros ((_ & Hmax) & _);
    unfold secret_volume, configmap_volume in Hmax;
    rewrite !length_app_str, ?sanitizeVolumeName_length, ?Hlen in Hmax; simpl in Hmax; lia|]);
    intros Hn; apply dns_label_app; try done.
  - repeat constructor; by first [left; reflexivity|right].
  - by intros c [= <-].
  - rewrite !explode_app, !Forall_app. split_and!; [done|by constructor; [right|]|].
    eapply Forall_impl; [exact Hr|]. by left.
  - intros c. rewrite !explode_app, !last_app. destruct (last (explode random)) as [d|] eqn:Hd.
    + intros [= <-]. rewrite Forall_forall in Hr. by apply Hr, last_Some_elem_of.
    + apply last_None in Hd. destruct random; done.
  - by destruct (sanitizeVolumeName name).
  - rewrite !length_app_str, sanitizeVolumeName_length, Hlen. simpl. lia.
  - repeat constructor; by first [left; reflexivity|right].
  - by intros c [= <-].
  - rewrite sanitizeVolumeName_length. simpl. lia.
Qed.

(** But the name is not cut: a secret of 48 bytes has a legal name and none of its
    volumes does. *)
Theorem volume_name_too_long :
  ∃ name, dns_subdomain name ∧ ∀ random, hex_name 8 random → ¬ dns_label (secret_volume name random).
Proof.
  exists (implode (replicate 48 "a"%char)). split.
  - split; [by vm_compute; lia|]. rewrite explode_implode. split_and!.
    + apply Forall_replicate. by left.
    + by intros c [= <-].
    + by intros c [= <-].
  - intros random [Hlen _] ((_ & Hmax) & _). unfold secret_volume in Hmax.
    rewrite !length_app_str, sanitizeVolumeName_length, length_implode, length_replicate, Hlen in Hmax.
    simpl in Hmax. lia.
Qed.

(** *** Parameters *)

Definition builder_params (b : PipelineRunBuilder) : list (string * string) :=
  prs_Params (pr_Spec (pipelineRun b)).

Definition reference_of (o : ClientObject) : result (string * string) :=
  name ← param_name (co_Kind o); Ok (name, co_Namespace o +:+ "/" +:+ co_Name o).

(** The parameter an object's specification gives, or the error. *)
Definition spec_of (o : ClientObject) : result (error + (string * string)) :=
  name ← param_name (co_Kind o);
  Ok (match co_Spec o with
      | None => inl (Errorf ("failed to extract spec for object: " +:+ name))
      | Some (inl e) => inl (errorf_v ("failed to serialize spec of object " +:+ name +:+ " to JSON: ") e)
      | Some (inr jsonData) => inr (name, jsonData)
      end).

Definition errors_of {A} (l : list (error + A)) : list error :=
  omap (λ x, match x with inl e => Some e | inr _ => None end) l.
Definition values_of {A} (l : list (error + A)) : list A :=
  omap (λ x, match x with inr a => Some a | inl _ => None end) l.

(** The references of the objects become parameters, in order, after those the run
    has; nothing else of the run changes and no error is added. *)
Theorem WithObjectReferences_spec objects b b' :
  WithObjectReferences objects b = Ok b' →
  ∃ params, Forall2 (λ o p, reference_of o = Ok p) objects params ∧
    pipelineRun b' = pipelineRun (WithParams params b) ∧ bld_err b' = bld_err b.
Proof.
  revert b. induction objects as [|o objects IH]; intros b; cbn [WithObjectReferences].
  - intros [= <-]. exists []. split_and!; [done| |done].
    unfold WithParams, update_spec. simpl. rewrite app_nil_r. by destruct b as [? [? []]].
  - rewrite bind_ok. intros (b1 & Ho & H). unfold WithObjectReference in Ho.
    destruct (param_name (co_Kind o)) as [name| |] eqn:Hn; [|done..]. injection Ho as <-.
    destruct (IH _ H) as (params & HF & Hp & He).
    exists ((name, co_Namespace o +:+ "/" +:+ co_Name o) :: params). split_and!; [| |done].
    + constructor; [|done]. unfold reference_of. by rewrite Hn.
    + rewrite Hp. unfold WithParams, update_spec. simpl. by rewrite <-app_assoc.
Qed.

(** The specifications that can be encoded become parameters, in order, and every
    other object adds one error; an error of one object does not stop the others. *)
Theorem WithObjectSpecsAsJson_spec objects b b' :
  WithObjectSpecsAsJson objects b = Ok b' →
  ∃ specs, Forall2 (λ o s, spec_of o = Ok s) objects specs ∧
    pipelineRun b' = pipelineRun (WithParams (values_of specs) b) ∧
    bld_err b' = bld_err b ++ errors_of specs.
Proof.
  revert b. induction objects as [|o objects IH]; intros b; cbn [WithObjectSpecsAsJson].
  - intros [= <-]. exists []. rewrite app_nil_r. split_and!; [done| |done].
    unfold WithParams, update_spec. simpl. rewrite app_nil_r. by destruct b as [? [? []]].
  - rewrite bind_ok. intros (b1 & Ho & H). unfold WithObjectSpecAsJson in Ho.
    destruct (param_name (co_Kind o)) as [name| |] eqn:Hn; [|done..]. injection Ho as <-.
    destruct (IH _ H) as (specs & HF & Hp & He).
    destruct (co_Spec o) as [[e|json]|] eqn:Hs; eexists (_ :: specs);
      (split_and!; [constructor; [unfold spec_of; rewrite Hn; simpl; rewrite Hs; reflexivity|exact HF]|
        rewrite Hp|rewrite He]); simpl; rewrite <-?app_assoc; try done.
Qed.

(** Both panic on an object without a kind, for instance one read through a typed
    client, which leaves the type out. *)
Theorem WithObjectReferences_no_kind o objects b :
  co_Kind o = "" → ∃ p, WithObjectReferences (o :: objects) b = Panic p ∧
                        WithObjectSpecsAsJson (o :: objects) b = Panic p.
Proof.
  intros Hk. eexists. cbn [WithObjectReferences WithObjectSpecsAsJson].
  unfold WithObjectReference, WithObjectSpecAsJson. rewrite Hk. split; reflexivity.
Qed.

(** ** Examples *)

Definition empty_world : World Cluster := start (cluster_with no_objs).

Lemma built_mounts_declared_witness :
  builder_ok (WithConfigMap "renovate-1" "/etc/renovate/config" [] None
    (NewPipelineRunBuilder "renovate-1" "mintmaker")).
Proof.
  apply (built_mounts_declared (E:=Cluster)). apply built_configmap, built_new.
Defined.

Definition renovate_options : MountOptions :=
  WithStepNames ["renovate"] (WithTaskName "build" NewMountOptions).

Lemma WithSecret_spec_witness :
  match WithSecret "renovate-1" "/etc/renovate/secret" [] (Some renovate_options)
          (NewPipelineRunBuilder "renovate-1" "mintmaker") empty_world with
  | (Ok b', _) => ∃ random ts', hex_name 8 random ∧ builder_task "build" b' = Some ts' ∧
      vol_Name <$> ts_Volumes ts' = [secret_volume "renovate-1" random]
  | _ => False
  end.
Proof.
  destruct (builder_task "build" (NewPipelineRunBuilder "renovate-1" "mintmaker")) as [ts|] eqn:Hts;
    [|discriminate Hts].
  pose proof (WithSecret_spec "renovate-1" "/etc/renovate/secret" [] renovate_options
    (NewPipelineRunBuilder "renovate-1" "mintmaker") ts empty_world Hts) as H.
  destruct (WithSecret _ _ _ _ _ _) as [[b'|e|p] w'] eqn:Hw.
  - destruct H as (random & ts' & Hr & Hts' & Hv & _). exists random, ts'. split; [done|].
    split; [done|]. rewrite Hv. injection Hts as <-. reflexivity.
  - destruct H.
  - destruct H as (e & w1 & He). discriminate He.
Defined.

Lemma volume_names_legal_witness :
  dns_label (secret_volume "renovate-07110345-e8d4c7bf" "00000000") ∧
  secret_volume "my.secret" "00000000" = "secret-my-secret-00000000".
Proof.
  split; [|vm_compute; reflexivity].
  apply (volume_names_legal "renovate-07110345-e8d4c7bf" "00000000").
  - split; [vm_compute; lia|]. split_and!; [|by intros c [= <-]..].
    repeat (apply Forall_cons; split; [by first [left; reflexivity|right; left; reflexivity]|]).
    apply Forall_nil. done.
  - split; [reflexivity|]. by repeat constructor.
  - vm_compute. lia.
Defined.

Definition sample_objects : list ClientObject :=
  [MkClientObject "Component" "ns" "comp" (Some (inr "{}"));
   MkClientObject "Secret" "ns" "s" None].

Lemma WithObjectReferences_spec_witness :
  match WithObjectReferences sample_objects (NewPipelineRunBuilder "renovate-1" "mintmaker") with
  | Ok b' => builder_params b' = [("component", "ns/comp"); ("secret", "ns/s")] ∧
      ∃ params, Forall2 (λ o p, reference_of o = Ok p) sample_objects params ∧
        pipelineRun b' = pipelineRun (WithParams params (NewPipelineRunBuilder "renovate-1" "mintmaker")) ∧
        bld_err b' = []
  | _ => False
  end.
Proof.
  destruct (WithObjectReferences sample_objects _) as [b'| |] eqn:Hb; [|discriminate Hb..].
  split; [injection Hb as <-; reflexivity|].
  exact (WithObjectReferences_spec sample_objects (NewPipelineRunBuilder "renovate-1" "mintmaker") b' Hb).
Defined.

Lemma WithObjectSpecsAsJson_spec_witness :
  match WithObjectSpecsAsJson sample_objects (NewPipelineRunBuilder "renovate-1" "mintmaker") with
  | Ok b' => builder_params b' = [("component", "{}")] ∧ length (bld_err b') = 1%nat ∧
      ∃ specs, Forall2 (λ o s, spec_of o = Ok s) sample_objects specs ∧
        pipelineRun b' = pipelineRun (WithParams (values_of specs)
                                        (NewPipelineRunBuilder "renovate-1" "mintmaker")) ∧
        bld_err b' = [] ++ errors_of specs
  | _ => False
  end.
Proof.
  destruct (WithObjectSpecsAsJson sample_objects _) as [b'| |] eqn:Hb; [|discriminate Hb..].
  split; [injection Hb as <-; reflexivity|]. split; [injection Hb as <-; reflexivity|].
  exact (WithObjectSpecsAsJson_spec sample_objects (NewPipelineRunBuilder "renovate-1" "mintmaker") b' Hb).
Defined.

Lemma WithObjectReferences_no_kind_witness :
  ∃ p, WithObjectReferences [MkClientObject "" "ns" "comp" None]
         (NewPipelineRunBuilder "renovate-1" "mintmaker") = Panic p.
Proof.
  destruct (WithObjectReferences_no_kind (MkClientObject "" "ns" "comp" None) []
    (NewPipelineRunBuilder "renovate-1" "mintmaker") eq_refl) as (p & H & _). exists p. exact H.
Defined.
