(* ===== verification/DucController.v ===== *)
(** * internal/controller: the DependencyUpdateCheck controller

    [dependencyupdatecheck_controller.go] and [common.go]: the components a check
    selects, and one PipelineRun for each repository branch that has no active one. *)

From S2P Require Import Prelude GoStrings Json Kube Metrics Config World Sample GitComponent.
From S2P Require Import Sanitize Timestamp Tekton.
From Stdlib Require Import Ascii.

Definition InternalSecretLabelName : string := "appstudio.redhat.com/internal".

(** [time.Duration] counts nanoseconds; a Unix time, seconds. *)
Definition unix_of (now : Z) : Z := (now / 1000000000)%Z.

Section Duc.
Context {E : Type} `{Environment E} `{Libraries}.

(** ** common.go *)

Definition app_components (application : ApplicationSpec) (items : list Component) : list Component :=
  List.filter (λ c, bool_decide (as_Application application = comp_Application c)) items.

(** The first component of a name, as the inner loop breaks at it. *)
Definition named_component (items : list Component) (filterComponent : string) : list Component :=
  match List.find (λ c, bool_decide (filterComponent = Name (comp_meta c))) items with
  | Some c => [c]
  | None => []
  end.

Definition application_components (items : list Component) (application : ApplicationSpec)
    : list Component :=
  let appMatchingComponents := app_components application items in
  match as_Components application with
  | [] => appMatchingComponents
  | names => names ≫= named_component appMatchingComponents
  end.

Definition namespace_components (namespace : NamespaceSpec) (items : list Component)
    : list Component :=
  match ns_Applications namespace with
  | [] => items
  | applications => applications ≫= application_components items
  end.

Definition getFilteredComponents (namespaces : list NamespaceSpec) : M E (list Component) :=
  go_fold namespaces [] (λ namespace components,
    let! items := client_List KComponent (MkListOptions (ns_Namespace namespace) []) in
    go_ret (components ++ namespace_components namespace items)).

(** ** Configuration for the run *)

Definition ca_options : ListOptions :=
  MkListOptions MintMakerNamespaceName [("config.openshift.io/inject-trusted-cabundle", "true")].

Definition getCAConfigMap : M E (option ConfigMap) :=
  let! items := client_List KConfigMap ca_options in
  go_ret (head items).

(** Whether the loop over the service account's secrets takes the secret, and the
    text of its docker configuration. *)
Definition docker_data (secret : Secret) : option string :=
  if decide (sec_Type secret = SecretTypeDockerConfigJson) then
    if decide (go_lookup (Labels (sec_meta secret)) InternalSecretLabelName = Some "true") then None
    else go_lookup (sec_Data secret) DockerConfigJsonKey
  else None.

Definition merge_auths (componentNamespace name : string) (mergedAuths : gmap string json)
    : M E (gmap string json) :=
  try! got := client_Get KSecret (MkKey componentNamespace name) in
  match got with
  | inl e => if IsNotFound e then go_ret mergedAuths else go_fail e
  | inr secret =>
      match docker_data secret with
      | None => go_ret mergedAuths
      | Some data =>
          let! dockerConfig := go_lift (Unmarshal_map data) in
          match as_map (go_lookup dockerConfig "auths") with
          | None => go_ret mergedAuths
          | Some auths =>
              let! entries := range (map_to_list auths) in
              go_ret (foldl (λ m kv, <[kv.1 := kv.2]> m) mergedAuths entries)
          end
      end
  end.

(** [None] is the nil slice. *)
Definition getMergedDockerConfigJson (comp : GitComponent E) : M E (option string) :=
  let serviceAccountName := "build-pipeline-" +:+ GetName comp in
  try! got := client_Get KServiceAccount (MkKey (GetNamespace comp) serviceAccountName) in
  match got with
  | inl e => if IsNotFound e then go_ret None else go_fail e
  | inr serviceAccount =>
      let! mergedAuths := go_fold (sa_Secrets serviceAccount) ∅ (merge_auths (GetNamespace comp)) in
      if decide (size mergedAuths = 0) then go_ret None
      else
        let! text := go_lift (of_sum (json_Marshal (JObject {["auths" := JObject mergedAuths]}))) in
        go_ret (Some text)
  end.

(** ** Active runs *)

(** The state of the first condition of type Succeeded decides. *)
Definition pipelineRunCompleted (pr : PipelineRun) : bool :=
  match List.find (λ c, bool_decide (cond_Type c = "Succeeded")) (st_Conditions (pr_Status pr)) with
  | Some c => negb (bool_decide (cond_Status c = "Unknown"))
  | None => false
  end.

Definition active_options (host repository branch : string) : ListOptions :=
  MkListOptions MintMakerNamespaceName
    [(MintMakerRepoBranchHashLabel, RepoBranchHash host repository branch)].

Definition hasActivePipelineRun (host repository branch : string) : M E bool :=
  let! items := client_List KPipelineRun (active_options host repository branch) in
  go_ret (existsb (λ pr, negb (pipelineRunCompleted pr)) items).
End Duc.

(** ** Creating a PipelineRun *)

(** The state of [createPipelineRun]: the objects created so far, by name, which
    the deferred closure deletes, and the world. *)
Abbreviation Created := (Kind * NamespacedName)%type.
Abbreviation Run E := (list Created * World E)%type.

Section Create.
Context {E : Type} `{Environment E} `{Libraries}.

Definition on_world {A} (m : M E A) : GoM (Run E) A := λ s,
  let '(r, w') := m s.2 in (r, (s.1, w')).

(** [client.Create(ctx, o)] and [resources = append(resources, o)]. *)
Definition create_tracked (k : Kind) (o : obj k) : GoM (Run E) (obj k) := λ s,
  match client_Create k o s.2 with
  | (Ok o', w') => (Ok o', (s.1 ++ [(k, key_of (obj_meta k o'))], w'))
  | (Err e, w') => (Err e, (s.1, w'))
  | (Panic p, w') => (Panic p, (s.1, w'))
  end.

(** The deferred closure: every error is dropped. *)
Definition cleanup : GoM (Run E) unit := λ s,
  on_world (go_for s.1 (λ c, try! _ := client_Delete c.1 c.2 in go_ret tt)) s.

(** The labels of the run. *)
Definition run_labels (comp : GitComponent E) (currentBranch : string) : gmap string string :=
  list_to_map
    [("mintmaker.appstudio.redhat.com/application", GetApplication comp);
     ("mintmaker.appstudio.redhat.com/component", GetName comp);
     ("mintmaker.appstudio.redhat.com/namespace", GetNamespace comp);
     ("mintmaker.appstudio.redhat.com/git-platform", GetPlatform comp);
     ("mintmaker.appstudio.redhat.com/git-host", GetHost comp);
     ("mintmaker.appstudio.redhat.com/repository", NormalizeLabelValue (GetRepository comp));
     ("mintmaker.appstudio.redhat.com/branch", NormalizeLabelValue currentBranch);
     (MintMakerRepoBranchHashLabel,
      RepoBranchHash (GetHost comp) (GetRepository comp) currentBranch)].

Definition mount_in (step : string) : MountOptions :=
  WithStepNames [step] (WithTaskName "build" NewMountOptions).

(** The secret of the run before it is created: the token is left out for GitHub,
    the docker configuration when there is none. *)
Definition renovate_secret (name : string) (comp : GitComponent E) : M E Secret :=
  let meta := new_meta name MintMakerNamespaceName in
  let! stringData :=
    (if decide (GetPlatform comp = "github") then go_ret (∅ : gmap string string)
     else let! renovateToken := GetToken comp in go_ret {["renovate-token" := renovateToken]}) in
  let! mergedDockerConfigJson := getMergedDockerConfigJson comp in
  let data : gomap string :=
    match mergedDockerConfigJson with
    | Some (String c s) => Some {[DockerConfigJsonKey := String c s]}
    | _ => None
    end in
  go_ret (MkSecret meta SecretTypeOpaque data (Some stringData)).

Definition rpm_secret (name activationKey org : string) : Secret :=
  MkSecret (new_meta (name +:+ "-rpm-key") MintMakerNamespaceName) SecretTypeOpaque None
    (Some {["activationkey" := activationKey; "org" := org]}).

Definition renovate_config_map (name renovateConfig : string) : ConfigMap :=
  MkConfigMap (new_meta name MintMakerNamespaceName)
    (Some {["config.js" := "module.exports = " +:+ renovateConfig]}).

(** The builder with the volumes of the configuration, the token and the RPM key. *)
Definition base_volumes (name : string) (comp : GitComponent E) (currentBranch : string)
    (with_rpm : bool) : M E PipelineRunBuilder :=
  let builder :=
    WithServiceAccount "mintmaker-controller-manager"
      (WithTimeouts None
        (WithLabels (run_labels comp currentBranch)
          (NewPipelineRunBuilder name MintMakerNamespaceName))) in
  let builder := WithConfigMap name "/etc/renovate/config"
                   [MkKeyToPath "config.js" "config.js"] (Some (mount_in "renovate")) builder in
  let! builder := WithSecret name "/etc/renovate/secret"
                    [MkKeyToPath "renovate-token" "renovate-token"]
                    (Some (mount_in "renovate")) builder in
  if with_rpm
  then WithSecret (name +:+ "-rpm-key") "/etc/renovate/secret"
         [MkKeyToPath "activationkey" "rpm-activationkey"; MkKeyToPath "org" "rpm-org"]
         (Some (mount_in "prepare-rpm-cert")) builder
  else go_ret builder.

(** The certificate bundle, if the cluster has one; a failed lookup is only logged. *)
Definition ca_volume (builder : PipelineRunBuilder) : M E PipelineRunBuilder :=
  try! caConfigMap := getCAConfigMap in
  match caConfigMap with
  | inr (Some cm) =>
      go_ret (WithConfigMap (Name (cm_meta cm)) "/etc/pki/ca-trust/extracted/pem"
                [MkKeyToPath "ca-bundle.crt" "tls-ca-bundle.pem"]
                (Some (WithReadOnly true (mount_in "renovate"))) builder)
  | _ => go_ret builder
  end.

(** The registry credentials, if the secret has them. *)
Definition docker_volume (renovateSecret : Secret) (builder : PipelineRunBuilder)
    : M E PipelineRunBuilder :=
  match go_lookup (sec_Data renovateSecret) DockerConfigJsonKey with
  | Some _ =>
      WithSecret (Name (sec_meta renovateSecret)) "/home/renovate/.docker"
        [MkKeyToPath DockerConfigJsonKey "config.json"]
        (Some (WithReadOnly true (mount_in "renovate"))) builder
  | None => go_ret builder
  end.

(** The Kite step with its certificate and token, if there is a token secret. *)
Definition kite_volumes (kiteSecretName : string) (builder : PipelineRunBuilder)
    : M E PipelineRunBuilder :=
  if decide (kiteSecretName = "") then go_ret builder
  else
    let! config := config_Get in
    let builder := WithKiteIntegration (APIURL (Kite config)) builder in
    let opts := WithReadOnly true (mount_in "log-analyzer") in
    let builder := WithConfigMap "openshift-service-ca.crt" "/etc/pki/kite-ca"
                     [MkKeyToPath "service-ca.crt" "ca.crt"] (Some opts) builder in
    WithSecret kiteSecretName "/var/run/secrets/kite" [MkKeyToPath "token" "token"]
      (Some opts) builder.

Definition build_run (name : string) (comp : GitComponent E) (currentBranch kiteSecretName : string)
    (with_rpm : bool) (renovateSecret : Secret) : M E PipelineRun :=
  let! builder := base_volumes name comp currentBranch with_rpm in
  let! builder := ca_volume builder in
  let! builder := docker_volume renovateSecret builder in
  let! builder := kite_volumes kiteSecretName builder in
  match Build builder with
  | (pipelineRun, []) => go_ret pipelineRun
  | (_, e :: _) => go_fail e
  end.

(** Everything up to the creation of the PipelineRun. *)
Definition prepare_run (name : string) (comp : GitComponent E) (currentBranch kiteSecretName : string)
    : GoM (Run E) (Secret * ConfigMap * option Secret * PipelineRun) :=
  let! secret := on_world (renovate_secret name comp) in
  let! renovateSecret := create_tracked KSecret secret in
  let! renovateConfig := on_world (GetRenovateConfig comp (Some renovateSecret) currentBranch) in
  let! renovateConfigMap := create_tracked KConfigMap (renovate_config_map name renovateConfig) in
  try! rpm := on_world (GetRPMActivationKey comp) in
  let! rpmSecret :=
    match rpm with
    | inl _ => go_ret None
    | inr (activationKey, org) =>
        let! s := create_tracked KSecret (rpm_secret name activationKey org) in go_ret (Some s)
    end in
  let! pipelineRun :=
    on_world (build_run name comp currentBranch kiteSecretName
                (bool_decide (is_Some rpmSecret)) renovateSecret) in
  go_ret (renovateSecret, renovateConfigMap, rpmSecret, pipelineRun).

(** [SetOwnerReference] and [Update]. *)
Definition own (pipelineRun : PipelineRun) (k : Kind) (o : obj k) : M E unit :=
  let! o' := go_lift (of_sum (SetOwnerReference pipelineRun k o)) in
  let! _ := client_Update k o' in
  go_ret tt.

Definition own_all (pipelineRun : PipelineRun) (renovateSecret : Secret)
    (renovateConfigMap : ConfigMap) (rpmSecret : option Secret) : M E unit :=
  let! _ := own pipelineRun KSecret renovateSecret in
  let! _ := match rpmSecret with
            | Some s => own pipelineRun KSecret s
            | None => go_ret tt
            end in
  own pipelineRun KConfigMap renovateConfigMap.

Definition create_run (name : string) (comp : GitComponent E) (currentBranch kiteSecretName : string)
    : GoM (Run E) PipelineRun :=
  let! ' (renovateSecret, renovateConfigMap, rpmSecret, pipelineRun) :=
    prepare_run name comp currentBranch kiteSecretName in
  let! pipelineRun := create_tracked KPipelineRun pipelineRun in
  let! _ := on_world (own_all pipelineRun renovateSecret renovateConfigMap rpmSecret) in
  go_ret pipelineRun.

(** [resources = nil] on the way out of a success, and the deferred closure. *)
Definition createPipelineRun (name : string) (comp : GitComponent E)
    (currentBranch kiteSecretName : string) : M E PipelineRun := λ w,
  let '(r, s) :=
    go_defer
      (let! pipelineRun := create_run name comp currentBranch kiteSecretName in
       let! _ := go_modify (λ s : Run E, ([], s.2)) in
       go_ret pipelineRun) cleanup ([], w) in
  (r, s.2).
End Create.

(** ** Reconcile *)

Section Reconcile.
Context {E : Type} `{Environment E} `{Libraries}.
Context (NewGitComponent : GitComponentFactory E).

(** The object [Client.Get] leaves when it fails. *)
Definition empty_check : DependencyUpdateCheck := MkDUC (new_meta "" "") [].

Definition is_processed (duc : DependencyUpdateCheck) : bool :=
  bool_decide (go_lookup (Annotations (duc_meta duc)) MintMakerProcessedAnnotationName = Some "true").

Definition mark_processed (duc : DependencyUpdateCheck) : DependencyUpdateCheck :=
  let m := duc_meta duc in
  MkDUC (set_Annotations
           (Some (<[MintMakerProcessedAnnotationName := "true"]> (go_make_if_nil (Annotations m)))) m)
        (duc_Namespaces duc).

Definition is_disabled (c : Component) : bool :=
  bool_decide (go_lookup (Annotations (comp_meta c)) MintMakerDisabledAnnotationName = Some "true").

Definition gather_components (duc : DependencyUpdateCheck) : M E (list Component) :=
  match duc_Namespaces duc with
  | [] => client_List KComponent (MkListOptions "" [])
  | namespaces => getFilteredComponents namespaces
  end.

Definition kite_options : ListOptions :=
  MkListOptions MintMakerNamespaceName [(KiteTokenSecretLabel, "true")].

(** The name of the Kite token secret, empty without the integration. *)
Definition find_kite_secret : M E string :=
  let! config := config_Get in
  if Enabled (Kite config) then
    try! listed := client_List KSecret kite_options in
    go_ret (match listed with
            | inr (secret :: _) => Name (sec_meta secret)
            | _ => ""
            end)
  else go_ret "".

(** One branch, once its key is known to be new. *)
Definition schedule_branch (timestamp kiteSecretName : string) (comp : GitComponent E)
    (branchName : string) : M E unit :=
  try! active := hasActivePipelineRun (GetHost comp) (GetRepository comp) branchName in
  match active with
  | inl _ => go_ret tt
  | inr true => go_ret tt
  | inr false =>
      let! random := RandomString rand_Read 8 in
      let plrName := "renovate-" +:+ timestamp +:+ "-" +:+ random in
      try! created := createPipelineRun plrName comp branchName kiteSecretName in
      go_modify (set_metrics
        (match created with
         | inl _ => CountScheduledRunFailure
         | inr _ => CountScheduledRunSuccess
         end))
  end.

(** The keys handled so far are carried from branch to branch. *)
Definition handle_branch (timestamp kiteSecretName : string) (comp : GitComponent E)
    (branchName : string) (processedComponents : list string) : M E (list string) :=
  let key := repo_branch_key (GetHost comp) (GetRepository comp) branchName in
  if bool_decide (key ∈ processedComponents) then go_ret processedComponents
  else
    let! _ := schedule_branch timestamp kiteSecretName comp branchName in
    go_ret (processedComponents ++ [key]).

Definition handle_component (timestamp kiteSecretName : string) (component : Component)
    (processedComponents : list string) : M E (list string) :=
  try! comp := NewGitComponent component in
  match comp with
  | inl _ => go_ret processedComponents
  | inr comp =>
      try! branches := GetBranches comp in
      match branches with
      | inl _ => go_ret processedComponents
      | inr branches =>
          go_fold branches processedComponents (handle_branch timestamp kiteSecretName comp)
      end
  end.

(** After the check is marked. *)
Definition process_check (duc : DependencyUpdateCheck) : M E unit :=
  let! gatheredComponents := gather_components duc in
  let componentList := List.filter (λ c, negb (is_disabled c)) gatheredComponents in
  match componentList with
  | [] => go_ret tt
  | _ =>
      let! kiteSecretName := find_kite_secret in
      let! now := time_Now in
      let timestamp := format_MMDDhhmm (unix_of now) in
      let! _ := go_fold componentList [] (handle_component timestamp kiteSecretName) in
      go_ret tt
  end.

(** Annotating a new check. *)
Definition claim_check (duc : DependencyUpdateCheck) : M E DependencyUpdateCheck :=
  let! now := time_Now in
  let! _ := go_modify (set_metrics
    (RecordDependencyUpdateCheckCreation (Namespace (duc_meta duc)) (Name (duc_meta duc))
       (unix_of now))) in
  client_Update KDependencyUpdateCheck (mark_processed duc).

Definition Reconcile (req : NamespacedName) : M E unit :=
  try! got := client_Get KDependencyUpdateCheck req in
  let handle (duc : DependencyUpdateCheck) :=
    if is_processed duc then go_ret tt
    else
      try! claimed := claim_check duc in
      match claimed with
      | inl _ => go_ret tt
      | inr duc => process_check duc
      end in
  match got with
  | inl e => if IsNotFound e then go_ret tt else handle empty_check
  | inr duc => handle duc
  end.
End Reconcile.
