(* ===== verification/RunShape.v ===== *)
(** * The PipelineRun of a repository branch

    What the builder calls of [createPipelineRun] make: the metadata, the steps, and
    which step can read which secret. *)

From S2P Require Import Prelude GoStrings Json Kube Metrics Config World Sample GitComponent.
From S2P Require Import Sanitize Timestamp Tekton DucController.
From Stdlib Require Import Ascii.

(** Every mount of a step is of a volume the step is allowed. *)
Definition confined (allowed : string → Volume → Prop) (t : TaskSpec) : Prop :=
  Forall (λ step,
    Forall (λ m, ∃ v, v ∈ ts_Volumes t ∧ vol_Name v = vm_Name m ∧ allowed (step_Name step) v)
      (step_VolumeMounts step)) (ts_Steps t).

Section Confined.
Context (allowed : string → Volume → Prop).

Lemma confined_weaken t t' step :
  ts_Volumes t ⊆ ts_Volumes t' →
  Forall (λ m, ∃ v, v ∈ ts_Volumes t ∧ vol_Name v = vm_Name m ∧ allowed (step_Name step) v)
    (step_VolumeMounts step) →
  Forall (λ m, ∃ v, v ∈ ts_Volumes t' ∧ vol_Name v = vm_Name m ∧ allowed (step_Name step) v)
    (step_VolumeMounts step).
Proof.
  intros Hsub HF. eapply Forall_impl; [exact HF|]. intros m (v & Hv & Hn & Ha).
  exists v. split; [by apply Hsub|done].
Qed.

Lemma mount_volume_confined opts volume path t :
  mo_StepNames opts ≠ [] → Forall (λ s, allowed s volume) (mo_StepNames opts) →
  confined allowed t → confined allowed (mount_volume opts volume path t).
Proof.
  intros Hne Hall Ht. unfold confined. cbn [ts_Steps mount_volume]. rewrite Forall_fmap.
  eapply Forall_impl; [exact Ht|]. intros step Hstep. unfold compose.
  destruct (mount_step_spec (mo_StepNames opts)
    (MkVolumeMount (vol_Name volume) path (default true (mo_ReadOnly opts))) step) as [-> ->].
  apply Forall_app. split.
  - apply (confined_weaken t); [|done]. intros v Hv. simpl. apply elem_of_app. by left.
  - destruct (decide _) as [[?|Hin]|]; [done| |done]. constructor; [|done].
    exists volume. split; [simpl; apply elem_of_app; right; by left|]. split; [done|].
    rewrite Forall_forall in Hall. by apply Hall.
Qed.

Lemma mount_volume_names opts volume path t :
  step_Name <$> ts_Steps (mount_volume opts volume path t) = step_Name <$> ts_Steps t.
Proof.
  simpl. rewrite <-list_fmap_compose. apply list_fmap_ext. intros i step _.
  apply mount_step_spec.
Qed.
End Confined.

(** ** The shape of a run under construction *)

Record shape (allowed : string → Volume → Prop) (wanted : Volume → Prop) (meta : ObjectMeta)
    (steps : list string) (b : PipelineRunBuilder) : Prop := {
  shape_err : bld_err b = [];
  shape_meta : pr_meta (pipelineRun b) = meta;
  shape_account : prs_ServiceAccountName (pr_Spec (pipelineRun b)) = "mintmaker-controller-manager";
  shape_timeouts : prs_Timeouts (pr_Spec (pipelineRun b)) = Some defaultTimeouts;
  shape_task : ∃ w ts, prs_Tasks (pr_Spec (pipelineRun b)) = [MkTask "build" w (Some ts)] ∧
                 step_Name <$> ts_Steps ts = steps ∧ confined allowed ts ∧
                 Forall wanted (ts_Volumes ts)
}.

Definition run_steps : list string := ["prepare-db"; "prepare-rpm-cert"; "renovate"; "log-sanitizer"].

Section Shape.
Context {E : Type} `{Environment E} `{Libraries}.
Context (allowed : string → Volume → Prop) (wanted : Volume → Prop) (meta : ObjectMeta).

Abbreviation shape := (shape allowed wanted meta).

Lemma shape_update f steps steps' b :
  shape steps b →
  (∀ ts, step_Name <$> ts_Steps ts = steps → confined allowed ts → Forall wanted (ts_Volumes ts) →
         step_Name <$> ts_Steps (f ts) = steps' ∧ confined allowed (f ts) ∧
         Forall wanted (ts_Volumes (f ts))) →
  shape steps' (update_tasks (update_task "build" f) b).
Proof.
  intros [He Hm Ha Ht (ws & ts & Htask & Hn & Hc & Hv)] Hf. destruct (Hf ts Hn Hc Hv).
  split; [done..|]. simpl. rewrite Htask. exists ws, (f ts). split; [|done]. reflexivity.
Qed.

Lemma shape_mount steps opts volume path b :
  mo_StepNames opts ≠ [] → Forall (λ s, allowed s volume) (mo_StepNames opts) → wanted volume →
  shape steps b →
  shape steps (update_tasks (update_task "build" (mount_volume opts volume path)) b).
Proof.
  intros Hne Hall Hw Hb. apply (shape_update _ steps); [done|]. intros ts Hn Hc Hv.
  rewrite mount_volume_names. split; [done|]. split; [by apply mount_volume_confined|].
  simpl. apply Forall_app. by repeat constructor.
Qed.

(** Mounting in one step of the build task, as all of the program's calls do. *)
Lemma shape_configmap steps name path items step (ro : bool) b :
  (∀ v, vol_Secret v = None → allowed step v ∧ wanted v) →
  shape steps b →
  shape steps
    (WithConfigMap name path items (Some (MkMountOptions "build" [step] (Some ro) (Some 420%Z) (Some false))) b).
Proof.
  intros Hstep Hb. unfold WithConfigMap. apply shape_mount; [done| | |done].
  - constructor; [|done]. by apply Hstep.
  - by apply Hstep.
Qed.

Lemma shape_secret steps name path items step (ro : bool) b :
  (∀ v p, vol_Secret v = Some p → proj_Name p = name → proj_Items p = items →
          allowed step v ∧ wanted v) →
  shape steps b →
  Yields (WithSecret (E:=E) name path items
    (Some (MkMountOptions "build" [step] (Some ro) (Some 420%Z) (Some false))) b)
    (shape steps).
Proof.
  intros Hstep Hb. unfold WithSecret. destruct (existsb _ _); [|by apply yields_ret].
  apply yields_then. intros random. apply yields_ret. apply shape_mount; [done| | |done].
  - constructor; [|done]. by eapply Hstep.
  - by eapply Hstep.
Qed.

Lemma shape_kite steps url b :
  shape steps b → shape (steps ++ ["log-analyzer"]) (WithKiteIntegration url b).
Proof.
  intros Hb. apply (shape_update _ steps); [done|]. intros ts Hn Hc Hv. simpl. split.
  - by rewrite fmap_app, Hn.
  - split; [|done]. unfold confined. simpl. apply Forall_app. split; [exact Hc|]. by repeat constructor.
Qed.
End Shape.

(** ** The run [createPipelineRun] builds *)

(** The secrets of a run, and the one step that can read each. *)
Definition run_allowed (name kiteSecretName step : string) (v : Volume) : Prop :=
  match vol_Secret v with
  | None => True
  | Some p =>
      (step = "renovate" ∧ proj_Name p = name) ∨
      (step = "prepare-rpm-cert" ∧ proj_Name p = name +:+ "-rpm-key") ∨
      (step = "log-analyzer" ∧ proj_Name p = kiteSecretName)
  end.

(** A volume the token is projected from is of the secret of the run. *)
Definition asks_token (v : Volume) : Prop :=
  ∃ p, vol_Secret v = Some p ∧ "renovate-token" ∈ ktp_Key <$> proj_Items p.

Definition token_volume (name : string) (v : Volume) : Prop :=
  asks_token v → ∃ p, vol_Secret v = Some p ∧ proj_Name p = name.

Section Run.
Context {E : Type} `{Environment E} `{Libraries}.
Context (name : string) (comp : GitComponent E) (branch kiteSecretName : string).

Definition run_meta : ObjectMeta :=
  set_Labels (Some (run_labels comp branch)) (new_meta name MintMakerNamespaceName).

Abbreviation shape := (shape (run_allowed name kiteSecretName) (token_volume name) run_meta).

Lemma configmap_allowed step v :
  vol_Secret v = None → run_allowed name kiteSecretName step v ∧ token_volume name v.
Proof.
  unfold run_allowed, token_volume, asks_token. intros ->. split; [done|]. by intros (p & [=] & _).
Qed.

Lemma renovate_allowed items v p :
  vol_Secret v = Some p → proj_Name p = name → proj_Items p = items →
  run_allowed name kiteSecretName "renovate" v ∧ token_volume name v.
Proof. unfold run_allowed, token_volume. intros -> Hp _. split; [auto|]. eauto. Qed.

(** A volume without the token. *)
Lemma other_wanted items v p :
  vol_Secret v = Some p → proj_Items p = items → "renovate-token" ∉ ktp_Key <$> items →
  token_volume name v.
Proof. intros Hp <- Hn (p' & Hp' & Hin). congruence. Qed.

Lemma rpm_allowed v p :
  vol_Secret v = Some p → proj_Name p = name +:+ "-rpm-key" →
  proj_Items p = [MkKeyToPath "activationkey" "rpm-activationkey"; MkKeyToPath "org" "rpm-org"] →
  run_allowed name kiteSecretName "prepare-rpm-cert" v ∧ token_volume name v.
Proof.
  intros Hp Hn Hi. split; [unfold run_allowed; rewrite Hp; auto|].
  eapply other_wanted; [done..|]. simpl. set_solver.
Qed.

Lemma kite_allowed v p :
  vol_Secret v = Some p → proj_Name p = kiteSecretName →
  proj_Items p = [MkKeyToPath "token" "token"] →
  run_allowed name kiteSecretName "log-analyzer" v ∧ token_volume name v.
Proof.
  intros Hp Hn Hi. split; [unfold run_allowed; rewrite Hp; auto|].
  eapply other_wanted; [done..|]. simpl. set_solver.
Qed.

Lemma base_volumes_shape rpm :
  Yields (base_volumes name comp branch rpm) (shape run_steps).
Proof.
  unfold base_volumes. eapply (yields_bind _ _ (shape run_steps)).
  - apply shape_secret; [apply renovate_allowed|].
    apply shape_configmap; [apply configmap_allowed|].
    split; [done|..|done|done|].
    + unfold run_meta. simpl. unfold set_all, set_Labels. simpl. by rewrite map_union_empty.
    + simpl. eexists _, _. split; [reflexivity|]. split; [done|]. by repeat constructor.
  - intros b Hb. destruct rpm; [|by apply yields_ret].
    apply shape_secret; [apply rpm_allowed|done].
Qed.

Lemma ca_volume_shape steps b : shape steps b → Yields (ca_volume (E:=E) b) (shape steps).
Proof.
  intros Hb. unfold ca_volume. apply yields_try. intros [e|[cm|]]; apply yields_ret; try done.
  apply shape_configmap; [apply configmap_allowed|done].
Qed.

Lemma docker_volume_shape steps secret b :
  Name (sec_meta secret) = name → shape steps b →
  Yields (docker_volume (E:=E) secret b) (shape steps).
Proof.
  intros Hname Hb. unfold docker_volume. destruct (go_lookup _ _); [|by apply yields_ret].
  apply shape_secret; [|done]. rewrite Hname. apply renovate_allowed.
Qed.

Definition all_steps : list string :=
  run_steps ++ (if decide (kiteSecretName = "") then [] else ["log-analyzer"]).

Lemma kite_volumes_shape b :
  shape run_steps b → Yields (kite_volumes (E:=E) kiteSecretName b) (shape all_steps).
Proof.
  intros Hb. unfold kite_volumes, all_steps. case_decide.
  - apply yields_ret. by rewrite app_nil_r.
  - apply yields_then. intros config. apply shape_secret; [apply kite_allowed|].
    apply shape_configmap; [apply configmap_allowed|]. by apply shape_kite.
Qed.

Definition run_shape (pr : PipelineRun) : Prop := shape all_steps (MkBuilder [] pr).

Lemma build_run_shape rpm secret :
  Name (sec_meta secret) = name →
  Yields (build_run name comp branch kiteSecretName rpm secret) run_shape.
Proof.
  intros Hname. unfold build_run.
  eapply yields_bind; [apply base_volumes_shape|]. intros b1 Hb1.
  eapply yields_bind; [by apply ca_volume_shape|]. intros b2 Hb2.
  eapply yields_bind; [by apply docker_volume_shape|]. intros b3 Hb3.
  eapply yields_bind; [by apply kite_volumes_shape|]. intros b4 Hb4.
  unfold Build. destruct b4 as [[|e l] pr]; [by apply yields_ret|apply yields_fail].
Qed.

Lemma renovate_secret_meta :
  Yields (renovate_secret name comp) (λ s, sec_meta s = new_meta name MintMakerNamespaceName).
Proof.
  unfold renovate_secret. apply yields_then. intros data. apply yields_then. intros docker.
  by apply yields_ret.
Qed.

Lemma create_tracked_key `{!EnvironmentLaws E} k o :
  Yields (create_tracked (E:=E) k o) (λ o', key_of (obj_meta k o') = key_of (obj_meta k o)).
Proof.
  intros s o' s'. unfold create_tracked, client_Create, request.
  pose proof (env_Create_key k o (w_env s.2)) as Hkey.
  destruct (env_Create k o (w_env s.2)) as [[e|o1] e1]; simpl in *; intros [= <- _]. by apply Hkey.
Qed.

Lemma on_world_yields {A} (m : M E A) Q : Yields m Q → Yields (on_world m) Q.
Proof.
  intros Hm s a s'. unfold on_world. destruct (m s.2) as [r w'] eqn:Hr. intros [= -> _].
  by eapply Hm.
Qed.

Lemma prepare_run_shape `{!EnvironmentLaws E} :
  Yields (prepare_run name comp branch kiteSecretName) (λ x, run_shape x.2).
Proof.
  unfold prepare_run.
  eapply yields_bind; [apply on_world_yields, renovate_secret_meta|]. intros s0 Hs0.
  eapply yields_bind; [apply create_tracked_key|]. intros s1 Hs1.
  do 2 (apply yields_then; intros ?). apply yields_try. intros rpm. apply yields_then. intros rs.
  eapply yields_bind.
  - apply on_world_yields, build_run_shape. cbn [obj_meta] in Hs1. rewrite Hs0 in Hs1.
    by injection Hs1.
  - intros pr Hpr. by apply yields_ret.
Qed.
End Run.
