(* ===== verification/DucProofs.v ===== *)
(** * The DependencyUpdateCheck controller: theorems

    What [DucController] does to the cluster, whatever the cluster answers: the
    components it selects, the credentials it merges, the objects a failed creation
    leaves behind, and the PipelineRuns one reconciliation creates. *)

From S2P Require Import Prelude GoStrings Json Kube Metrics Config World TraceLogic Sample.
From S2P Require Import GitComponent Sanitize Timestamp Tekton DucController RunShape.
From Stdlib Require Import Ascii.

(** ** Frames *)

Section Frames.
Context {E : Type} `{Environment E} `{Libraries}.

#[export] Instance RandomString_reads n : read_only (RandomString (rand_Read (E:=E)) n).
Proof. unfold RandomString. solve_frame. Qed.

#[export] Instance WithSecret_reads name path items opts b :
  read_only (WithSecret (E:=E) name path items opts b).
Proof. unfold WithSecret. solve_frame. Qed.

#[export] Instance getFilteredComponents_reads namespaces :
  read_only (getFilteredComponents (E:=E) namespaces).
Proof. unfold getFilteredComponents. solve_frame. Qed.

#[export] Instance getCAConfigMap_reads : read_only (getCAConfigMap (E:=E)).
Proof. unfold getCAConfigMap. solve_frame. Qed.

#[export] Instance merge_auths_reads ns name m : read_only (merge_auths (E:=E) ns name m).
Proof. unfold merge_auths. solve_frame. Qed.

#[export] Instance getMergedDockerConfigJson_reads comp :
  read_only (getMergedDockerConfigJson (E:=E) comp).
Proof. unfold getMergedDockerConfigJson. solve_frame. Qed.

#[export] Instance hasActivePipelineRun_reads host repository branch :
  read_only (hasActivePipelineRun (E:=E) host repository branch).
Proof. unfold hasActivePipelineRun. solve_frame. Qed.

#[export] Instance gather_components_reads duc : read_only (gather_components (E:=E) duc).
Proof.
  unfold gather_components. destruct (duc_Namespaces duc); [|apply _].
  apply (list_read_only KComponent).
Qed.

#[export] Instance find_kite_secret_reads : read_only (find_kite_secret (E:=E)).
Proof. unfold find_kite_secret. solve_frame. Qed.

#[export] Instance renovate_secret_reads name comp `{!GitComponentLaws comp} :
  read_only (renovate_secret (E:=E) name comp).
Proof. unfold renovate_secret. solve_frame. Qed.

#[export] Instance base_volumes_reads name comp branch rpm :
  read_only (base_volumes (E:=E) name comp branch rpm).
Proof. unfold base_volumes. solve_frame. Qed.

#[export] Instance ca_volume_reads b : read_only (ca_volume (E:=E) b).
Proof. unfold ca_volume. solve_frame. Qed.

#[export] Instance docker_volume_reads secret b : read_only (docker_volume (E:=E) secret b).
Proof. unfold docker_volume. solve_frame. Qed.

#[export] Instance kite_volumes_reads name b : read_only (kite_volumes (E:=E) name b).
Proof. unfold kite_volumes. solve_frame. Qed.

#[export] Instance build_run_reads name comp branch kite rpm secret :
  read_only (build_run (E:=E) name comp branch kite rpm secret).
Proof. unfold build_run. solve_frame. Qed.
End Frames.

(** ** The objects created and deleted *)

Definition is_delete (c : call) : bool := match c with CDelete _ _ _ => true | _ => false end.

(** The object a successful create request made, by the name it was sent with. *)
Definition created_of (c : call) : option Created :=
  match c with
  | CCreate k o (inr _) => Some (k, key_of (obj_meta k o))
  | _ => None
  end.

(** Between two states of a creation, the objects recorded are those made. *)
Definition tracked {E} (s s' : Run E) : Prop :=
  ∃ tr, w_trace s'.2 = w_trace s.2 ++ tr ∧ s'.1 = s.1 ++ omap created_of tr ∧
        Forall (λ c, is_delete c = false) tr.

#[export] Instance tracked_preorder {E} : PreOrder (tracked (E:=E)).
Proof.
  split.
  - intros s. exists []. by rewrite !app_nil_r.
  - intros s1 s2 s3 (t1 & H1 & L1 & F1) (t2 & H2 & L2 & F2). exists (t1 ++ t2).
    rewrite H2, H1, L2, L1, omap_app, !app_assoc. repeat split. by apply Forall_app.
Qed.

(** Requests that neither create nor delete. *)
Definition modifies (c : call) : Prop := created_of c = None ∧ is_delete c = false.

Lemma reads_modifies c : is_write c = false → modifies c.
Proof. by destruct c. Qed.

Lemma omap_none {A B} (f : A → option B) l : Forall (λ x, f x = None) l → omap f l = [].
Proof. induction 1 as [|x l Hx _ IH]; simpl; [done|]. by rewrite Hx. Qed.

Section Tracked.
Context {E : Type} `{EnvironmentLaws E} `{Libraries}.

Lemma on_world_tracked {A} (m : M E A) :
  Preserves (trace_grows modifies) m → Preserves tracked (on_world m).
Proof.
  intros Hm [l w]. unfold on_world. destruct (Hm w) as (tr & Htr & HF). simpl.
  destruct (m w) as [r w']. simpl in *. exists tr. simpl.
  rewrite (omap_none created_of tr), app_nil_r by (eapply Forall_impl; [exact HF|by intros c []]).
  split_and!; [done..|]. eapply Forall_impl; [exact HF|by intros c []].
Qed.

#[export] Instance on_world_reads_tracked {A} (m : M E A) :
  read_only m → Preserves tracked (on_world m).
Proof. intros Hm. apply on_world_tracked, (read_only_frame _ _ Hm), reads_modifies. Qed.

#[export] Instance create_tracked_tracked k o : Preserves tracked (create_tracked (E:=E) k o).
Proof.
  intros [l w]. unfold create_tracked, client_Create, request.
  pose proof (env_Create_key k o (w_env w)) as Hkey. simpl.
  destruct (env_Create k o (w_env w)) as [[e|o'] e']; simpl in *.
  - exists [CCreate k o (inl e)]. simpl. rewrite app_nil_r. by repeat constructor.
  - exists [CCreate k o (inr o')]. simpl. rewrite Hkey by done. by repeat constructor.
Qed.

#[export] Instance prepare_run_tracked name comp branch kite `{!GitComponentLaws comp} :
  Preserves tracked (prepare_run (E:=E) name comp branch kite).
Proof. unfold prepare_run. solve_frame. Qed.

Lemma own_modifies pr k o : Preserves (trace_grows modifies) (own (E:=E) pr k o).
Proof. unfold own. apply preserves_bind; [apply _..|]. intros o'. apply preserves_bind; [apply _|by apply update_frame|apply _]. Qed.

Lemma own_all_modifies pr s cm rpm : Preserves (trace_grows modifies) (own_all (E:=E) pr s cm rpm).
Proof.
  pose proof own_modifies. unfold own_all.
  repeat (apply preserves_bind; [apply _|solve [apply H2|destruct rpm; [apply H2|apply _]]|intros _]).
  apply H2.
Qed.

#[export] Instance create_run_tracked name comp branch kite `{!GitComponentLaws comp} :
  Preserves tracked (create_run (E:=E) name comp branch kite).
Proof.
  unfold create_run. apply preserves_bind; [apply _..|]. intros [[[s cm] rpm] p].
  apply preserves_bind; [apply _..|]. intros p'. apply preserves_bind; [apply _| |apply _].
  apply on_world_tracked, own_all_modifies.
Qed.

(** The deferred closure deletes what was recorded, in that order. *)
Lemma cleanup_trace (l : list Created) (w : World E) :
  ∃ dels w', cleanup (l, w) = (Ok tt, (l, w')) ∧ w_trace w' = w_trace w ++ dels ∧
    Forall2 (λ c d, ∃ a, d = CDelete c.1 c.2 a) l dels.
Proof.
  unfold cleanup, on_world. simpl.
  assert (∀ l w, ∃ dels w',
    go_for l (λ c : Created, try! _ := client_Delete c.1 c.2 in go_ret tt) w = (Ok tt, w') ∧
    w_trace w' = w_trace w ++ dels ∧ Forall2 (λ c d, ∃ a, d = CDelete c.1 c.2 a) l dels) as Hfor.
  { clear. intros l. induction l as [|c l IH]; intros w.
    - exists [], w. by rewrite app_nil_r.
    - simpl. unfold go_bind, go_try, client_Delete at 1, request.
      destruct (env_Delete c.1 c.2 (w_env w)) as [a e'].
      destruct (IH (log_call (CDelete c.1 c.2 a) (set_env e' w))) as (dels & w' & Hw & Ht & HF).
      exists (CDelete c.1 c.2 a :: dels), w'. split.
      { destruct a; exact Hw. }
      split; [rewrite Ht; simpl; by rewrite <-app_assoc|]. constructor; eauto. }
  destruct (Hfor l w) as (dels & w' & -> & Ht & HF). eauto.
Qed.

Lemma createPipelineRun_trace name comp branch kite (w : World E) `{!GitComponentLaws comp} :
  let '(r, s) := create_run name comp branch kite ([], w) in
  ∃ tr, w_trace s.2 = w_trace w ++ tr ∧ Forall (λ c, is_delete c = false) tr ∧
    ∃ dels w', createPipelineRun name comp branch kite w = (r, w') ∧
      w_trace w' = w_trace w ++ tr ++ dels ∧
      Forall2 (λ c d, ∃ a, d = CDelete c.1 c.2 a)
        (match r with Ok _ => [] | _ => omap created_of tr end) dels.
Proof.
  pose proof (create_run_tracked name comp branch kite ([], w)) as Htr.
  unfold createPipelineRun, go_defer. unfold go_bind at 1.
  destruct (create_run name comp branch kite ([], w)) as [r [l w1]].
  destruct Htr as (tr & Ht & Hl & Hnd). simpl in Ht, Hl. exists tr. split; [done|]. split; [done|].
  destruct r as [p|e|m].
  - unfold go_bind, go_modify, go_ret. destruct (cleanup_trace [] w1) as (dels & w2 & Hc & Hw2 & HF).
    cbn [snd]. rewrite Hc. exists dels, w2. by rewrite Hw2, Ht, <-app_assoc.
  - destruct (cleanup_trace l w1) as (dels & w2 & Hc & Hw2 & HF). rewrite Hc.
    exists dels, w2. rewrite Hw2, Ht, <-app_assoc. by subst l.
  - destruct (cleanup_trace l w1) as (dels & w2 & Hc & Hw2 & HF). rewrite Hc.
    exists dels, w2. rewrite Hw2, Ht, <-app_assoc. by subst l.
Qed.

(** C5.  A creation that fails or panics, at whatever request, deletes exactly the
    objects it had created, after everything else it did and in the order they
    were made; one that succeeds deletes nothing. *)
Theorem createPipelineRun_cleans_up name comp branch kite (w : World E) :
  GitComponentLaws comp →
  ∃ tr dels, w_trace (createPipelineRun name comp branch kite w).2 = w_trace w ++ tr ++ dels ∧
    Forall (λ c, is_delete c = false) tr ∧
    Forall2 (λ c d, ∃ a, d = CDelete c.1 c.2 a)
      (match (createPipelineRun name comp branch kite w).1 with
       | Ok _ => []
       | _ => omap created_of tr
       end) dels.
Proof.
  intros Hlaws. pose proof (createPipelineRun_trace name comp branch kite w) as Htr.
  destruct (create_run _ _ _ _ _) as [r s].
  destruct Htr as (tr & _ & Hnd & dels & w' & -> & Hw & HF). by exists tr, dels.
Qed.
End Tracked.

(** ** A successful creation *)

Section Success.
Context {E : Type} `{EnvironmentLaws E} `{Libraries}.

Lemma on_world_ok {A} (m : M E A) s a s' :
  on_world m s = (Ok a, s') → m s.2 = (Ok a, s'.2).
Proof. unfold on_world. destruct (m s.2) as [r w']. by intros [= -> <-]. Qed.

Lemma on_world_reads_writes {A} (m : M E A) s r s' :
  read_only m → on_world m s = (r, s') → writes (w_trace s'.2) = writes (w_trace s.2).
Proof.
  intros Hm. unfold on_world. pose proof (read_only_writes m s.2 Hm) as Hw.
  destruct (m s.2) as [r' w']. by intros [= _ <-].
Qed.

Lemma create_tracked_writes k o s o' s' :
  create_tracked (E:=E) k o s = (Ok o', s') →
  writes (w_trace s'.2) = writes (w_trace s.2) ++ [CCreate k o (inr o')].
Proof.
  unfold create_tracked, client_Create, request.
  destruct (env_Create k o (w_env s.2)) as [[e|o1] e1]; simpl; intros [= <- <-].
  cbn [snd w_trace log_call set_env]. by rewrite writes_app.
Qed.

(** The update that records the run as the owner of an object. *)
Definition owned (pr : PipelineRun) (x : {k : Kind & obj k}) (c : call) : Prop :=
  ∃ o' a, SetOwnerReference pr (projT1 x) (projT2 x) = inr o' ∧ c = CUpdate (projT1 x) o' (inr a).

Lemma own_writes pr k o (w w' : World E) u :
  own pr k o w = (Ok u, w') →
  ∃ c, owned pr (existT k o) c ∧ writes (w_trace w') = writes (w_trace w) ++ [c].
Proof.
  unfold own. rewrite go_bind_ok. intros (o' & w1 & Ho & Hk). unfold go_lift in Ho.
  destruct (SetOwnerReference pr k o) as [e|o1] eqn:Hset; [done|]. injection Ho as -> <-.
  apply go_bind_ok in Hk as (a & w2 & Hup & [= _ <-]). unfold client_Update, request in Hup.
  destruct (env_Update k o' (w_env w)) as [[e|a'] e'] eqn:Hu; [done|]. injection Hup as -> <-.
  exists (CUpdate k o' (inr a)). split; [by exists o', a|].
  cbn [w_trace log_call set_env]. by rewrite writes_app.
Qed.

Lemma own_all_writes pr secret cm rpm (w w' : World E) u :
  own_all pr secret cm rpm w = (Ok u, w') →
  ∃ updates, Forall2 (owned pr)
    (existT KSecret secret :: (match rpm with Some s => [existT KSecret s] | None => [] end)
       ++ [existT KConfigMap cm]) updates ∧
    writes (w_trace w') = writes (w_trace w) ++ updates.
Proof.
  unfold own_all. rewrite go_bind_ok. intros (u1 & w1 & Hs & Hk).
  apply go_bind_ok in Hk as (u2 & w2 & Hr & Hc).
  apply own_writes in Hs as (c1 & Ho1 & Hw1), Hc as (c3 & Ho3 & Hw3).
  destruct rpm as [s|].
  - apply own_writes in Hr as (c2 & Ho2 & Hw2). exists [c1; c2; c3]. split.
    + by repeat constructor.
    + by rewrite Hw3, Hw2, Hw1, <-!app_assoc.
  - injection Hr as _ <-. exists [c1; c3]. split; [by repeat constructor|].
    by rewrite Hw3, Hw1, <-!app_assoc.
Qed.

(** The creates of a preparation: the secret made for the component in the world it
    started in; the config map with what the component was then configured with, the
    registry credentials being those of the new secret; and the secret of the RPM key,
    if the component has one. *)
Definition prepared (name : string) (comp : GitComponent E) (branch : string) (w : World E)
    (secret : Secret) (cm : ConfigMap) (rpm : option Secret) (cs : list call) : Prop :=
  ∃ secret0 text rest,
    (renovate_secret name comp w).1 = Ok secret0 ∧
    (∃ w1, (GetRenovateConfig comp (Some secret) branch w1).1 = Ok text) ∧
    cs = CCreate KSecret secret0 (inr secret) ::
         CCreate KConfigMap (renovate_config_map name text) (inr cm) :: rest ∧
    match rpm with
    | Some s => ∃ key org, (∃ w2, (GetRPMActivationKey comp w2).1 = Ok (key, org)) ∧
                  rest = [CCreate KSecret (rpm_secret name key org) (inr s)]
    | None => (∃ w2 e, (GetRPMActivationKey comp w2).1 = Err e) ∧ rest = []
    end.

Lemma on_world_result {A} (m : M E A) s r s' : on_world m s = (r, s') → (m s.2).1 = r.
Proof. unfold on_world. destruct (m s.2) as [r1 w1]. by intros [= <- _]. Qed.

Lemma prepare_run_writes name comp branch kite secret cm rpm pr s s' `{!GitComponentLaws comp} :
  prepare_run (E:=E) name comp branch kite s = (Ok (secret, cm, rpm, pr), s') →
  ∃ cs, prepared name comp branch s.2 secret cm rpm cs ∧
        writes (w_trace s'.2) = writes (w_trace s.2) ++ cs.
Proof.
  unfold prepare_run. rewrite go_bind_ok. intros (sec0 & s1 & K1 & Hk).
  apply go_bind_ok in Hk as (sec & s2 & K2 & Hk).
  apply go_bind_ok in Hk as (conf & s3 & K3 & Hk).
  apply go_bind_ok in Hk as (cm1 & s4 & K4 & Hk).
  pose proof (on_world_result _ _ _ _ K1) as R1. pose proof (on_world_result _ _ _ _ K3) as R3.
  apply on_world_reads_writes in K1; [|apply _]. apply on_world_reads_writes in K3; [|apply _].
  apply create_tracked_writes in K2, K4. rewrite K1 in K2. rewrite K3, K2, <-app_assoc in K4.
  unfold go_try in Hk. destruct (on_world (GetRPMActivationKey comp) s4) as [r s5] eqn:K5.
  pose proof (on_world_result _ _ _ _ K5) as R5.
  apply on_world_reads_writes in K5; [|apply _]. rewrite K4 in K5.
  destruct r as [[key org]|e|p]; [| |done].
  - apply go_bind_ok in Hk as (rs & s6 & K6 & Hk).
    apply go_bind_ok in K6 as (k' & s6' & K6 & [= <- <-]). apply create_tracked_writes in K6.
    apply go_bind_ok in Hk as (pr' & s7 & K7 & [= -> -> <- -> <-]).
    apply on_world_reads_writes in K7; [|apply _].
    eexists. split; [|rewrite K7, K6, K5, <-!app_assoc; reflexivity].
    exists sec0, conf. eexists. split; [done|]. split; [by exists s2.2|]. split; [reflexivity|]. eauto.
  - apply go_bind_ok in Hk as (rs & s6 & [= <- <-] & Hk).
    apply go_bind_ok in Hk as (pr' & s7 & K7 & [= -> -> <- -> <-]).
    apply on_world_reads_writes in K7; [|apply _].
    eexists. split; [|rewrite K7, K5; reflexivity].
    exists sec0, conf. eexists. split; [done|]. split; [by exists s2.2|]. split; [reflexivity|]. eauto.
Qed.

Lemma createPipelineRun_success_aux name comp branch kite (w w' : World E) pr :
  GitComponentLaws comp →
  createPipelineRun name comp branch kite w = (Ok pr, w') →
  ∃ secret cm rpm created run updates,
    writes (w_trace w') = writes (w_trace w) ++ created ++ [CCreate KPipelineRun run (inr pr)] ++ updates ∧
    prepared name comp branch w secret cm rpm created ∧
    run_shape name comp branch kite run ∧
    Forall2 (owned pr)
      (existT KSecret secret :: (match rpm with Some s => [existT KSecret s] | None => [] end)
         ++ [existT KConfigMap cm]) updates.
Proof.
  intros Hlaws Hcreate. pose proof (createPipelineRun_trace name comp branch kite w) as Htr.
  destruct (create_run name comp branch kite ([], w)) as [r s] eqn:Hrun.
  destruct Htr as (tr & Ht & _ & dels & w2 & Hc & Hw2 & HF). rewrite Hc in Hcreate.
  injection Hcreate as -> ->. apply Forall2_nil_inv_l in HF as ->. rewrite app_nil_r in Hw2.
  rewrite Hw2, <-Ht. clear Ht Hw2 Hc tr.
  unfold create_run in Hrun. apply go_bind_ok in Hrun as ([[[secret cm] rpm] run] & s1 & Hp & Hk).
  pose proof (prepare_run_shape name comp branch kite _ _ _ Hp) as Hshape.
  apply prepare_run_writes in Hp as (cs & Hcs & Hw1); [|done].
  apply go_bind_ok in Hk as (pr1 & s2 & Hcr & Hk). apply create_tracked_writes in Hcr.
  apply go_bind_ok in Hk as (u & s3 & Hown & [= <- <-]).
  apply on_world_ok, own_all_writes in Hown as (updates & HF & Hw3).
  exists secret, cm, rpm, cs, run, updates. split_and!; [|done..].
  by rewrite Hw3, Hcr, Hw1, <-!app_assoc.
Qed.

(** C12.  A creation that succeeds has created the secret of the component, the config map
    that holds what the component's configuration was, the secret of its RPM key if there
    is one, then the PipelineRun, and then updated each of those objects once with the run
    as its owner; it changed nothing else in the cluster. *)
Theorem createPipelineRun_success name comp branch kite (w w' : World E) pr :
  GitComponentLaws comp →
  createPipelineRun name comp branch kite w = (Ok pr, w') →
  ∃ secret cm rpm created run updates,
    writes (w_trace w') = writes (w_trace w) ++ created ++ [CCreate KPipelineRun run (inr pr)] ++ updates ∧
    prepared name comp branch w secret cm rpm created ∧
    run_shape name comp branch kite run ∧
    Forall2 (owned pr)
      (existT KSecret secret :: (match rpm with Some s => [existT KSecret s] | None => [] end)
         ++ [existT KConfigMap cm]) updates.
Proof. apply createPipelineRun_success_aux. Qed.
End Success.
