(* ===== verification/DucSchedule.v ===== *)
(** * The DependencyUpdateCheck controller: the PipelineRuns of a reconciliation

    [scheduled keys tr] is the abstract specification of what a reconciliation may do
    with PipelineRuns: each creation request is for a repository branch not handled
    before, and is justified by earlier requests.  [Reconcile] refines it. *)

From S2P Require Import Prelude GoStrings Json Kube Metrics Config World TraceLogic Sample.
From S2P Require Import GitComponent Sanitize Timestamp Tekton DucController RunShape DucProofs.
From Stdlib Require Import Ascii.

(** The PipelineRun a request asks to create. *)
Definition as_run (k : Kind) : obj k → option PipelineRun :=
  match k with KPipelineRun => Some | _ => λ _, None end.
Definition run_of (c : call) : option PipelineRun :=
  match c with CCreate k o _ => as_run k o | _ => None end.

Definition no_run (c : call) : Prop := run_of c = None.

Lemma reads_no_run c : is_write c = false → no_run c.
Proof. by destruct c. Qed.

Section Specification.
Context `{Libraries}.

(** The check was marked as processed before. *)
Definition claimed (tr : list call) : Prop :=
  ∃ duc duc', CUpdate KDependencyUpdateCheck duc (inr duc') ∈ tr ∧ is_processed duc = true.

(** The component was listed before. *)
Definition listed (c : Component) (tr : list call) : Prop :=
  ∃ opts items, CList KComponent opts (inr items) ∈ tr ∧ c ∈ items.

(** The last word on the branch was that no run is active for it. *)
Definition inactive (host repository branch : string) (tr : list call) : Prop :=
  ∃ items, CList KPipelineRun (active_options host repository branch) (inr items) ∈ tr ∧
           Forall (λ pr, pipelineRunCompleted pr = true) items.

Definition run_label (pr : PipelineRun) (label : string) : option string :=
  go_lookup (Labels (pr_meta pr)) label.

(** Why a run may be created for the branch of that key. *)
Definition justified (tr : list call) (key : string) (pr : PipelineRun) : Prop :=
  ∃ c host repository branch,
    key = repo_branch_key host repository branch ∧
    claimed tr ∧ listed c tr ∧ is_disabled c = false ∧ inactive host repository branch tr ∧
    run_label pr MintMakerRepoBranchHashLabel =
      Some (RepoBranchHash host repository branch) ∧
    run_label pr "mintmaker.appstudio.redhat.com/component" = Some (Name (comp_meta c)) ∧
    run_label pr "mintmaker.appstudio.redhat.com/namespace" = Some (Namespace (comp_meta c)).

Inductive scheduled : list string → list call → Prop :=
| scheduled_nil : scheduled [] []
| scheduled_other keys tr c : scheduled keys tr → no_run c → scheduled keys (tr ++ [c])
| scheduled_run keys tr key pr a :
    scheduled keys tr → key ∉ keys → justified tr key pr →
    scheduled (keys ++ [key]) (tr ++ [CCreate KPipelineRun pr a]).

Lemma scheduled_app keys tr seg :
  scheduled keys tr → Forall no_run seg → scheduled keys (tr ++ seg).
Proof.
  intros Hs HF. revert tr Hs. induction HF as [|c seg Hc _ IH]; intros tr Hs.
  - by rewrite app_nil_r.
  - change (c :: seg) with ([c] ++ seg). rewrite app_assoc. apply IH. by apply scheduled_other.
Qed.

Lemma claimed_app tr seg : claimed tr → claimed (tr ++ seg).
Proof. intros (d & d' & ? & ?). exists d, d'. split; [apply elem_of_app; by left|done]. Qed.
Lemma listed_app c tr seg : listed c tr → listed c (tr ++ seg).
Proof. intros (o & l & ? & ?). exists o, l. split; [apply elem_of_app; by left|done]. Qed.
Lemma inactive_app h r b tr seg : inactive h r b tr → inactive h r b (tr ++ seg).
Proof. intros (l & ? & ?). exists l. split; [apply elem_of_app; by left|done]. Qed.

(** What the specification says of every creation request. *)
Lemma scheduled_justified keys tr pre pr a post :
  scheduled keys tr → tr = pre ++ CCreate KPipelineRun pr a :: post →
  ∃ key, key ∈ keys ∧ justified pre key pr.
Proof.
  intros Hs. revert pre post. induction Hs as [|keys tr c Hs IH Hc|keys tr key pr' a' Hs IH Hk Hj];
    intros pre post Heq.
  - by destruct pre.
  - destruct post as [|d post _] using rev_ind.
    + apply app_inj_tail in Heq as [_ ->]. done.
    + rewrite app_comm_cons, app_assoc in Heq. apply app_inj_tail in Heq as [-> _].
      by eapply IH.
  - destruct post as [|d post _] using rev_ind.
    + apply app_inj_tail in Heq as [-> Heq]. apply (f_equal run_of) in Heq. injection Heq as ->.
      exists key. split; [apply elem_of_app; right; by left|done].
    + rewrite app_comm_cons, app_assoc in Heq. apply app_inj_tail in Heq as [-> _].
      destruct (IH _ _ eq_refl) as (key' & ? & ?). exists key'.
      split; [apply elem_of_app; by left|done].
Qed.

Lemma scheduled_keys keys tr :
  scheduled keys tr →
  NoDup keys ∧ Forall2 (λ pr key, ∃ host repository branch,
      key = repo_branch_key host repository branch ∧
      run_label pr MintMakerRepoBranchHashLabel =
        Some (RepoBranchHash host repository branch))
    (omap run_of tr) keys.
Proof.
  induction 1 as [|keys tr c Hs [IHn IHf] Hc|keys tr key pr a Hs [IHn IHf] Hk Hj].
  - by split; constructor.
  - split; [done|]. rewrite omap_app. simpl. unfold no_run in Hc. by rewrite Hc, app_nil_r.
  - split.
    + apply NoDup_app. split_and!; [done|set_solver|apply NoDup_singleton].
    + rewrite omap_app. simpl. apply Forall2_app; [done|]. constructor; [|done].
      destruct Hj as (c & h & r & b & ? & _ & _ & _ & _ & ? & _). eauto.
Qed.
End Specification.

(** ** One creation *)

Definition grows {E} (C : call → Prop) (s s' : Run E) : Prop := trace_grows C s.2 s'.2.

#[export] Instance grows_preorder {E} C : PreOrder (grows (E:=E) C).
Proof.
  split; unfold grows; [intros s; reflexivity|].
  intros s1 s2 s3 H12 H23. by transitivity s2.2.
Qed.

Section Creation.
Context {E : Type} `{EnvironmentLaws E} `{Libraries}.

Lemma on_world_grows {A} C (m : M E A) :
  Preserves (trace_grows C) m → Preserves (grows C) (on_world m).
Proof.
  intros Hm [l w]. unfold on_world, grows. simpl. specialize (Hm w). by destruct (m w).
Qed.

#[export] Instance on_world_reads_no_run {A} (m : M E A) :
  read_only m → Preserves (grows no_run) (on_world m).
Proof. intros Hm. apply on_world_grows, (read_only_frame _ _ Hm), reads_no_run. Qed.

Lemma create_tracked_call k o (s : Run E) :
  ∃ a, w_trace (create_tracked k o s).2.2 = w_trace s.2 ++ [CCreate k o a].
Proof.
  unfold create_tracked, client_Create, request.
  destruct (env_Create k o (w_env s.2)) as [[e|o'] e']; simpl; eauto.
Qed.

Lemma create_tracked_no_run k o :
  as_run k o = None → Preserves (grows (E:=E) no_run) (create_tracked k o).
Proof.
  intros Hk s. destruct (create_tracked_call k o s) as [a Ha]. exists [CCreate k o a].
  split; [done|]. by constructor.
Qed.

#[export] Instance create_secret_no_run o : Preserves (grows (E:=E) no_run) (create_tracked KSecret o).
Proof. by apply create_tracked_no_run. Qed.
#[export] Instance create_cm_no_run o : Preserves (grows (E:=E) no_run) (create_tracked KConfigMap o).
Proof. by apply create_tracked_no_run. Qed.

#[export] Instance prepare_run_no_run name comp branch kite `{!GitComponentLaws comp} :
  Preserves (grows (E:=E) no_run) (prepare_run name comp branch kite).
Proof. unfold prepare_run. solve_frame. Qed.

#[export] Instance own_no_run pr k o : Preserves (trace_grows no_run) (own (E:=E) pr k o).
Proof.
  unfold own. apply preserves_bind; [apply _..|]. intros o'.
  apply preserves_bind; [apply _|by apply update_frame|apply _].
Qed.

#[export] Instance own_all_no_run pr s cm rpm :
  Preserves (trace_grows no_run) (own_all (E:=E) pr s cm rpm).
Proof. unfold own_all. solve_frame. Qed.

(** The requests of one creation ask for at most one PipelineRun, of the expected
    shape. *)
Definition one_run (name : string) (comp : GitComponent E) (branch kite : string) (seg : list call)
    : Prop :=
  Forall no_run seg ∨
  ∃ t1 pr a t2, seg = t1 ++ CCreate KPipelineRun pr a :: t2 ∧
    Forall no_run t1 ∧ Forall no_run t2 ∧ run_shape name comp branch kite pr.

Lemma one_run_app name comp branch kite seg seg' :
  one_run name comp branch kite seg → Forall no_run seg' →
  one_run name comp branch kite (seg ++ seg').
Proof.
  intros [Hn|(t1 & pr & a & t2 & -> & H1' & H2' & Hs)] Hn'; [left; by apply Forall_app|].
  right. exists t1, pr, a, (t2 ++ seg'). rewrite <-app_assoc. split; [done|].
  split; [done|]. split; [by apply Forall_app|done].
Qed.

Lemma create_run_one name comp branch kite (w : World E) `{!GitComponentLaws comp} :
  ∃ seg, w_trace (create_run name comp branch kite ([], w)).2.2 = w_trace w ++ seg ∧
         one_run name comp branch kite seg.
Proof.
  unfold create_run. unfold go_bind at 1.
  pose proof (prepare_run_no_run name comp branch kite ([], w)) as (t1 & Ht1 & Hn1).
  pose proof (prepare_run_shape name comp branch kite ([], w)) as Hshape.
  destruct (prepare_run name comp branch kite ([], w)) as [[[[[s cm] rpm] pr]|e|p] s1];
    simpl in Ht1; [|exists t1; split; [done|by left]..].
  specialize (Hshape _ _ eq_refl). unfold go_bind at 1.
  destruct (create_tracked_call KPipelineRun pr s1) as [a Ha].
  destruct (create_tracked KPipelineRun pr s1) as [[pr'|e|p] s2]; simpl in Ha.
  - assert (Preserves (grows (E:=E) no_run)
      (let! _ := on_world (own_all pr' s cm rpm) in go_ret pr')) as Hrest.
    { apply preserves_bind; [apply _|apply on_world_grows, _|apply _]. }
    destruct (Hrest s2) as (t2 & Ht2 & Hn2). exists (t1 ++ CCreate KPipelineRun pr a :: t2).
    split; [etrans; [exact Ht2|]; by rewrite Ha, Ht1, <-!app_assoc|]. right. by exists t1, pr, a, t2.
  - exists (t1 ++ [CCreate KPipelineRun pr a]). split; [simpl; by rewrite Ha, Ht1, <-app_assoc|].
    right. by exists t1, pr, a, [].
  - exists (t1 ++ [CCreate KPipelineRun pr a]). split; [simpl; by rewrite Ha, Ht1, <-app_assoc|].
    right. by exists t1, pr, a, [].
Qed.

Lemma createPipelineRun_one name comp branch kite (w : World E) `{!GitComponentLaws comp} :
  ∃ seg, w_trace (createPipelineRun name comp branch kite w).2 = w_trace w ++ seg ∧
         one_run name comp branch kite seg.
Proof.
  pose proof (createPipelineRun_trace name comp branch kite w) as Htr.
  destruct (create_run_one name comp branch kite w) as (seg & Hseg & Hone).
  destruct (create_run name comp branch kite ([], w)) as [r s]. simpl in Hseg.
  destruct Htr as (tr & Ht & _ & dels & w' & -> & Hw' & HF).
  rewrite Ht in Hseg. apply app_inv_head in Hseg as ->.
  exists (seg ++ dels). split; [done|]. apply one_run_app; [done|].
  clear -HF. remember (match r with Ok _ => [] | _ => omap created_of seg end) as l eqn:Hl.
  clear Hl. induction HF as [|c d l dels [a ->] _ IH]; by constructor.
Qed.
End Creation.

(** ** A reconciliation *)

Section Reconcile.
Context {E : Type} `{EnvironmentLaws E} `{Libraries}.
Context (NewGitComponent : GitComponentFactory E) `{!FactoryLaws NewGitComponent}.

(** The invariant of the loops: the runs requested so far are scheduled, for keys
    among those handled. *)
Definition inv (comps : list Component) (processed : list string) (tr : list call) : Prop :=
  claimed tr ∧ Forall (λ c, listed c tr ∧ is_disabled c = false) comps ∧
  ∃ keys, scheduled keys tr ∧ keys ⊆ processed.

Lemma inv_app comps processed tr seg :
  inv comps processed tr → Forall no_run seg → inv comps processed (tr ++ seg).
Proof.
  intros (Hc & Hl & keys & Hs & Hk) HF. split; [by apply claimed_app|]. split.
  - eapply Forall_impl; [exact Hl|]. intros c [? ?]. split; [by apply listed_app|done].
  - exists keys. split; [by apply scheduled_app|done].
Qed.

Lemma inv_reads {A} comps processed (m : M E A) :
  read_only m → triple (inv comps processed) m (λ _, inv comps processed).
Proof.
  intros Hm. eapply triple_frame; [apply (read_only_frame _ _ Hm), reads_no_run|].
  intros tr seg. apply inv_app.
Qed.

Lemma run_shape_labels name (comp : GitComponent E) branch kite pr label :
  run_shape name comp branch kite pr → run_label pr label = run_labels comp branch !! label.
Proof. intros [_ Hm _ _ _]. unfold run_label. simpl in Hm. by rewrite Hm. Qed.

Lemma create_triple name comp branch kite comps processed c `{!GitComponentLaws comp} :
  c ∈ comps → GetName comp = Name (comp_meta c) → GetNamespace comp = Namespace (comp_meta c) →
  let key := repo_branch_key (GetHost comp) (GetRepository comp) branch in
  key ∉ processed →
  triple (λ tr, inv comps processed tr ∧ inactive (GetHost comp) (GetRepository comp) branch tr)
    (createPipelineRun (E:=E) name comp branch kite)
    (λ _ tr, inv comps (processed ++ [key]) tr).
Proof.
  intros Hc Hname Hns key Hkey t0 w tr Hw [Hinv Hact].
  destruct (createPipelineRun_one name comp branch kite w) as (seg & Hseg & Hone).
  exists (tr ++ seg). split; [by rewrite Hseg, Hw, app_assoc|].
  assert (inv comps (processed ++ [key]) tr) as Hinv'.
  { destruct Hinv as (? & ? & keys & ? & ?). split; [done|]. split; [done|]. exists keys. split; [done|set_solver]. }
  destruct Hone as [Hn|(t1 & pr & a & t2 & -> & Hn1 & Hn2 & Hshape)]; [by apply inv_app|].
  assert (tr ++ t1 ++ CCreate KPipelineRun pr a :: t2 =
    ((tr ++ t1) ++ [CCreate KPipelineRun pr a]) ++ t2) as -> by (by rewrite <-!app_assoc).
  apply inv_app; [|done].
  apply (inv_app _ _ _ t1) in Hinv; [|done].
  assert (justified (tr ++ t1) key pr) as Hj.
  { destruct Hinv as (Hcl & Hl & _). rewrite Forall_forall in Hl. destruct (Hl c Hc).
    exists c, (GetHost comp), (GetRepository comp), branch.
    split_and!; [done..|by apply inactive_app| | |];
      rewrite (run_shape_labels name comp branch kite) by done; rewrite <-?Hname, <-?Hns; reflexivity. }
  destruct Hinv as (Hcl & Hl & keys & Hs & Hk). split; [by apply claimed_app|]. split.
  - eapply Forall_impl; [exact Hl|]. intros c' [? ?]. split; [by apply listed_app|done].
  - exists (keys ++ [key]). split; [|set_solver]. apply scheduled_run; [done|set_solver|done].
Qed.

Lemma existsb_negb_false {A} (f : A → bool) l :
  existsb (λ x, negb (f x)) l = false → Forall (λ x, f x = true) l.
Proof.
  induction l as [|x l IH]; simpl; [done|]. intros [Hx Hl]%orb_false_iff.
  constructor; [by apply negb_false_iff|auto].
Qed.

Lemma hasActive_triple comps processed host repository branch :
  triple (inv comps processed) (hasActivePipelineRun (E:=E) host repository branch)
    (λ r tr, inv comps processed tr ∧ (r = Ok false → inactive host repository branch tr)).
Proof.
  intros t0 w tr Hw Hinv. unfold hasActivePipelineRun, go_bind, client_List, request.
  destruct (env_List KPipelineRun _ (w_env w)) as [answer e'].
  exists (tr ++ [CList KPipelineRun (active_options host repository branch) answer]).
  split; [destruct answer; simpl; by rewrite Hw, <-app_assoc|].
  split; [apply inv_app; [done|by repeat constructor]|].
  destruct answer as [e|items]; simpl; [done|]. intros [= Hex].
  exists items. split; [apply elem_of_app; right; by left|]. by apply existsb_negb_false.
Qed.

Lemma schedule_branch_triple timestamp kite comp branch comps processed c `{!GitComponentLaws comp} :
  c ∈ comps → GetName comp = Name (comp_meta c) → GetNamespace comp = Namespace (comp_meta c) →
  let key := repo_branch_key (GetHost comp) (GetRepository comp) branch in
  key ∉ processed →
  triple (inv comps processed) (schedule_branch (E:=E) timestamp kite comp branch)
    (λ _ tr, inv comps (processed ++ [key]) tr).
Proof.
  intros Hc Hname Hns key Hkey. unfold schedule_branch.
  assert (∀ tr, inv comps processed tr → inv comps (processed ++ [key]) tr) as Hmono.
  { intros tr (? & ? & keys & ? & ?). split; [done|]. split; [done|]. exists keys. split; [done|set_solver]. }
  eapply (triple_try _ _ _ (λ r tr, inv comps processed tr ∧
    (r = inr false → inactive (GetHost comp) (GetRepository comp) branch tr))).
  { eapply triple_post; [apply hasActive_triple|]. intros [b|e|p] tr [? Hb]; simpl.
    - split; [done|]. intros [= ->]. auto.
    - by split.
    - auto. }
  intros [e|[|]]; [apply triple_ret; intros tr [? _]; auto..|].
  eapply (triple_bind _ _ _ (λ _ tr, inv comps processed tr ∧
    inactive (GetHost comp) (GetRepository comp) branch tr)).
  { eapply triple_weaken; [apply (triple_frame no_run (λ tr, inv comps processed tr ∧
      inactive (GetHost comp) (GetRepository comp) branch tr))| |].
    - eapply read_only_frame; [apply _|apply reads_no_run].
    - intros tr seg [? ?] ?. split; [by apply inv_app|by apply inactive_app].
    - intros tr [? Hb]. auto.
    - intros [x|x|x] tr [? ?]; simpl; auto. }
  intros random. eapply (triple_try _ _ _ (λ _, inv comps (processed ++ [key]))).
  { eapply triple_post; [by apply (create_triple _ _ _ _ _ _ c)|]. by intros [x|x|x] tr. }
  intros created. eapply triple_frame; [apply (set_metrics_frame no_run)|].
  intros tr seg. apply inv_app.
Qed.

Lemma handle_branch_triple timestamp kite comp branch comps processed c `{!GitComponentLaws comp} :
  c ∈ comps → GetName comp = Name (comp_meta c) → GetNamespace comp = Namespace (comp_meta c) →
  triple (inv comps processed) (handle_branch (E:=E) timestamp kite comp branch processed)
    (kept (inv comps)).
Proof.
  intros Hc Hname Hns. unfold handle_branch. case_bool_decide as Hkey.
  - by apply triple_ret.
  - eapply triple_bind.
    + eapply triple_post; [by apply (schedule_branch_triple _ _ _ _ _ _ c)|].
      intros [u|e|p] tr Hinv; simpl; [exact Hinv|eauto..].
    + intros u. by apply triple_ret.
Qed.

Lemma handle_component_triple timestamp kite comps processed c :
  c ∈ comps →
  triple (inv comps processed) (handle_component NewGitComponent timestamp kite c processed)
    (kept (inv comps)).
Proof.
  intros Hc. unfold handle_component.
  eapply (triple_try _ _ _ (λ r tr, (∀ gc, r = inr gc → GitComponentLaws gc ∧
    GetName gc = Name (comp_meta c) ∧ GetNamespace gc = Namespace (comp_meta c)) ∧
    inv comps processed tr)).
  { intros t0 w tr Hw Hinv. destruct (inv_reads comps processed _ (factory_reads c) t0 w tr Hw Hinv)
      as (tr' & Htr' & Hinv'). exists tr'. split; [done|].
    pose proof (factory_makes c w) as Hmakes.
    destruct (NewGitComponent c w) as [[gc|e|p] w']; simpl in *; [|by split|by exists processed].
    split; [|done]. intros gc' [= <-]. by eapply Hmakes. }
  intros [e|gc]; apply triple_pure; intros Hgc; [by apply triple_ret|].
  destruct (Hgc gc eq_refl) as (Hlaws & Hname & Hns).
  eapply (triple_try _ _ _ (λ _, inv comps processed)).
  { eapply triple_post; [apply inv_reads, _|]. intros [x|x|x] tr ?; simpl; eauto. }
  intros [e|branches]; [by apply triple_ret|].
  apply triple_fold. intros branch processed' _. by apply (handle_branch_triple _ _ _ _ _ _ c).
Qed.

(** ** Gathering the components *)

Definition gathering (components : list Component) (tr : list call) : Prop :=
  claimed tr ∧ scheduled [] tr ∧ Forall (λ c, listed c tr) components.

Lemma gathering_app components tr seg :
  gathering components tr → Forall no_run seg → gathering components (tr ++ seg).
Proof.
  intros (Hc & Hs & Hl) HF. split_and!; [by apply claimed_app|by apply scheduled_app|].
  eapply Forall_impl; [exact Hl|]. intros c. apply listed_app.
Qed.

Lemma namespace_components_subset namespace items :
  namespace_components namespace items ⊆ items.
Proof.
  intros c. unfold namespace_components. destruct (ns_Applications namespace) as [|a l]; [done|].
  rewrite list_elem_of_bind. intros (app & Hc & _). unfold application_components in Hc.
  assert (∀ x, x ∈ app_components app items → x ∈ items) as Happ.
  { intros x. unfold app_components. rewrite list_elem_of_In, filter_In, <-list_elem_of_In. tauto. }
  destruct (as_Components app) as [|n names]; [auto|].
  apply list_elem_of_bind in Hc as (n' & Hc & _). unfold named_component in Hc.
  destruct (List.find _ _) as [x|] eqn:Hf; [|by apply not_elem_of_nil in Hc].
  apply list_elem_of_singleton in Hc as ->. apply find_some in Hf as [Hx _].
  by apply Happ, list_elem_of_In.
Qed.

Lemma list_components_triple components opts (pick : list Component → list Component) :
  (∀ items, pick items ⊆ items) →
  triple (gathering components)
    (let! items := client_List (E:=E) KComponent opts in go_ret (components ++ pick items))
    (kept gathering).
Proof.
  intros Hpick t0 w tr Hw Hg. unfold go_bind, client_List, request.
  destruct (env_List KComponent opts (w_env w)) as [answer e'].
  exists (tr ++ [CList KComponent opts answer]).
  split; [destruct answer; simpl; by rewrite Hw, <-app_assoc|].
  assert (gathering components (tr ++ [CList KComponent opts answer])) as Hg'
    by (apply gathering_app; [done|by repeat constructor]).
  destruct answer as [e|items]; simpl; [by exists components|].
  destruct Hg' as (? & ? & ?). split_and!; [done..|]. apply Forall_app. split; [done|].
  apply Forall_forall. intros c Hc. exists opts, items. split; [apply elem_of_app; right; by left|].
  by apply Hpick.
Qed.

Lemma gather_components_triple duc :
  triple (gathering []) (gather_components (E:=E) duc) (kept gathering).
Proof.
  unfold gather_components. destruct (duc_Namespaces duc) as [|n l].
  - eapply triple_weaken; [|done|done].
    pose proof (list_components_triple [] (MkListOptions "" []) (λ items, items) ltac:(done)) as Ht.
    intros t0 w tr Hw Hg. specialize (Ht t0 w tr Hw Hg).
    unfold go_bind in Ht. destruct (client_List KComponent _ w) as [[items|e|p] w']; exact Ht.
  - apply triple_fold. intros a components _. apply list_components_triple.
    apply namespace_components_subset.
Qed.

Lemma process_check_triple duc :
  triple (λ tr, claimed tr ∧ scheduled [] tr) (process_check (E:=E) NewGitComponent duc)
    (λ _ tr, ∃ keys, scheduled keys tr).
Proof.
  unfold process_check. eapply (triple_bind _ _ _ gathering).
  { eapply triple_weaken; [apply gather_components_triple| |].
    - intros tr [? ?]. by split_and!.
    - intros [x|e|p] tr; simpl; [done|..]; intros (x & _ & ? & _); eauto. }
  intros gathered. set (comps := List.filter _ gathered).
  assert (∀ tr, gathering gathered tr → inv comps [] tr) as Hinv.
  { intros tr (Hc & Hs & Hl). split_and!; [done| |by exists []].
    apply Forall_forall. intros c. unfold comps.
    rewrite list_elem_of_In, filter_In, <-list_elem_of_In, negb_true_iff.
    intros [Hin Hd]. rewrite Forall_forall in Hl. auto. }
  assert (∀ processed tr, inv comps processed tr → ∃ keys, scheduled keys tr) as Hout
    by (intros processed tr (_ & _ & keys & ? & _); eauto).
  eapply triple_weaken; [|exact Hinv|intros r tr Hr; exact Hr].
  clearbody comps. destruct comps as [|c0 l0]; [by apply triple_ret; intros tr; apply Hout|].
  set (comps := c0 :: l0) in *.
  eapply (triple_bind _ _ _ (λ _, inv comps [])).
  { eapply triple_post; [apply inv_reads, _|]. intros [x|x|x] tr ?; simpl; eauto. }
  intros kite. eapply (triple_bind _ _ _ (λ _, inv comps [])).
  { eapply triple_post; [apply inv_reads, _|]. intros [x|x|x] tr ?; simpl; eauto. }
  intros now. eapply (triple_bind _ _ _ (inv comps)).
  { eapply triple_post.
    - apply triple_fold. intros c processed Hc. by apply handle_component_triple.
    - intros [x|x|x] tr; simpl; [done|..]; intros (? & ?); eauto. }
  intros processed. apply triple_ret. intros tr. apply Hout.
Qed.

Lemma is_processed_mark duc : is_processed (mark_processed duc) = true.
Proof.
  unfold is_processed, mark_processed. simpl. by rewrite lookup_insert_eq.
Qed.

Lemma claim_check_triple duc :
  triple (scheduled []) (claim_check (E:=E) duc)
    (λ r tr, scheduled [] tr ∧ (is_ok r = true → claimed tr)).
Proof.
  intros t0 w tr Hw Hs. unfold claim_check, go_bind, time_Now, go_modify, client_Update, request.
  destruct (env_now (w_env w)) as [now e1]. cbn [w_env set_env set_metrics].
  destruct (env_Update KDependencyUpdateCheck (mark_processed duc) e1) as [answer e2].
  exists (tr ++ [CUpdate KDependencyUpdateCheck (mark_processed duc) answer]).
  split; [destruct answer; simpl; by rewrite Hw, <-app_assoc|].
  split; [apply scheduled_app; [done|by repeat constructor]|].
  destruct answer as [e|duc']; simpl; [done|]. intros _.
  exists (mark_processed duc), duc'. split; [apply elem_of_app; right; by left|].
  apply is_processed_mark.
Qed.

Lemma reads_scheduled {A} keys (m : M E A) :
  read_only m → triple (scheduled keys) m (λ _, scheduled keys).
Proof.
  intros Hm. eapply triple_frame; [apply (read_only_frame _ _ Hm), reads_no_run|].
  intros tr seg. apply scheduled_app.
Qed.

Lemma Reconcile_triple req :
  triple (scheduled []) (Reconcile (E:=E) NewGitComponent req)
    (λ _ tr, ∃ keys, scheduled keys tr).
Proof.
  unfold Reconcile.
  assert (∀ duc, triple (scheduled [])
    (if is_processed duc then go_ret tt
     else try! claimed := claim_check duc in
          match claimed with
          | inl _ => go_ret tt
          | inr duc => process_check NewGitComponent duc
          end) (λ _ tr, ∃ keys, scheduled keys tr)) as Hhandle.
  { intros duc. destruct (is_processed duc); [apply triple_ret; eauto|].
    eapply (triple_try _ _ _ (λ r tr, (is_ok (of_sum r) = true → claimed tr) ∧ scheduled [] tr)).
    - eapply triple_post; [apply claim_check_triple|]. intros [x|x|x] tr [? ?]; simpl; eauto.
    - intros [e|duc']; [apply triple_ret; intros tr [_ ?]; eauto|].
      eapply triple_weaken; [apply process_check_triple| |done].
      intros tr [Hc ?]. split; [by apply Hc|done]. }
  eapply (triple_try _ _ _ (λ _, scheduled [])).
  { eapply triple_post; [apply reads_scheduled, _|]. intros [x|x|x] tr ?; simpl; eauto. }
  intros [e|duc]; [destruct (IsNotFound e)|]; [apply triple_ret; eauto|apply Hhandle..].
Qed.

Lemma Reconcile_scheduled req (w : World E) :
  ∃ tr keys, w_trace (Reconcile NewGitComponent req w).2 = w_trace w ++ tr ∧ scheduled keys tr.
Proof.
  destruct (triple_run _ _ _ w (Reconcile_triple req) scheduled_nil) as (tr & Htr & keys & Hs).
  by exists tr, keys.
Qed.
End Reconcile.

(** ** Theorems *)

Section Theorems.
Context {E : Type} `{Environment E} `{Libraries}.
Context (NewGitComponent : GitComponentFactory E).

(** C1.  However many components and branches a check covers, and whatever the
    cluster answers, one reconciliation asks for at most one PipelineRun per
    repository branch: the runs it asks for carry the hashes of pairwise different
    host, repository and branch keys. *)
Theorem Reconcile_one_run_per_branch req (w : World E) :
  EnvironmentLaws E → FactoryLaws NewGitComponent →
  ∃ tr keys, w_trace (Reconcile NewGitComponent req w).2 = w_trace w ++ tr ∧ NoDup keys ∧
    Forall2 (λ pr key, ∃ host repository branch,
        key = repo_branch_key host repository branch ∧
        run_label pr MintMakerRepoBranchHashLabel =
          Some (RepoBranchHash host repository branch))
      (omap run_of tr) keys.
Proof.
  intros Henv Hfac. destruct (Reconcile_scheduled NewGitComponent req w) as (tr & keys & Htr & Hs).
  exists tr, keys. split; [done|]. by apply scheduled_keys.
Qed.

(** C2.  Every PipelineRun a reconciliation asks for is justified by what it did
    before: the check had been marked as processed, the run belongs to a component
    that had been listed and is not disabled, and the runs that had been listed for
    the same hash label were all completed. *)
Theorem Reconcile_runs_justified req (w : World E) pre pr a post :
  EnvironmentLaws E → FactoryLaws NewGitComponent →
  w_trace (Reconcile NewGitComponent req w).2 =
    w_trace w ++ pre ++ CCreate KPipelineRun pr a :: post →
  ∃ c host repository branch,
    claimed pre ∧ listed c pre ∧ is_disabled c = false ∧
    run_label pr "mintmaker.appstudio.redhat.com/component" = Some (Name (comp_meta c)) ∧
    run_label pr "mintmaker.appstudio.redhat.com/namespace" = Some (Namespace (comp_meta c)) ∧
    run_label pr MintMakerRepoBranchHashLabel =
      Some (RepoBranchHash host repository branch) ∧
    inactive host repository branch pre.
Proof.
  intros Henv Hfac Heq.
  destruct (Reconcile_scheduled NewGitComponent req w) as (tr & keys & Htr & Hs).
  rewrite Htr in Heq. apply app_inv_head in Heq.
  destruct (scheduled_justified keys tr pre pr a post Hs Heq)
    as (key & _ & c & h & r & b & _ & ? & ? & ? & ? & ? & ? & ?).
  by exists c, h, r, b.
Qed.

(** A check that is gone or already marked as processed is left alone: the only
    request is the one that reads it. *)
Theorem Reconcile_idle req (w : World E) :
  match (env_Get KDependencyUpdateCheck req (w_env w)).1 with
  | inl e => IsNotFound e = true
  | inr duc => is_processed duc = true
  end →
  (Reconcile NewGitComponent req w).1 = Ok tt ∧
  ∃ answer, w_trace (Reconcile NewGitComponent req w).2 =
              w_trace w ++ [CGet KDependencyUpdateCheck req answer].
Proof.
  intros Hidle. unfold Reconcile, go_try, client_Get, request.
  destruct (env_Get _ _ _) as [[e|duc] e']; simpl in *; rewrite Hidle;
    (split; [done|eexists; reflexivity]).
Qed.

(** In the surroundings [P] describes, the check is there with its mark, as long as it is
    only read. *)
Definition stays_marked (req : NamespacedName) (P : E → Prop) : Prop :=
  ∀ e, P e → ∃ duc, (env_Get KDependencyUpdateCheck req e).1 = inr duc ∧ is_processed duc = true ∧
    P (env_Get KDependencyUpdateCheck req e).2.

Lemma Reconcile_marked req P (w : World E) :
  stays_marked req P → P (w_env w) →
  ∃ a e', Reconcile NewGitComponent req w =
    (Ok tt, log_call (CGet KDependencyUpdateCheck req a) (set_env e' w)) ∧ P e'.
Proof.
  intros HP Hw. destruct (HP _ Hw) as (duc & Hget & Hmark & Hnext).
  unfold Reconcile, go_try, client_Get, request.
  destruct (env_Get _ _ (w_env w)) as [a e']. cbn [fst snd] in *. subst a. cbn [of_sum].
  rewrite Hmark. exists (inr duc), e'. by split.
Qed.

(** C32.  A retry does not make up for a failed listing.  The check is marked before the
    components are listed: when it is new, the mark is accepted and then the components
    cannot be listed, the reconciliation returns the error, so that it is tried again; but
    as long as the check keeps its mark, every further one finds it, succeeds, and asks
    for nothing else.  However many there are, no run was ever asked for. *)
Theorem Reconcile_retry_lost req (w w0 w1 w2 : World E) duc duc' err P :
  client_Get KDependencyUpdateCheck req w = (Ok duc, w0) → is_processed duc = false →
  claim_check duc w0 = (Ok duc', w1) → gather_components duc' w1 = (Err err, w2) →
  stays_marked req P → P (w_env w2) →
  Reconcile NewGitComponent req w = (Err err, w2) ∧
  ∀ n, let wn := Nat.iter n (λ w, (Reconcile NewGitComponent req w).2) w2 in
    (Reconcile NewGitComponent req wn).1 = Ok tt ∧
    ∃ tr, w_trace wn = w_trace w ++ tr ∧ Forall no_run tr.
Proof.
  intros Hget Hnew Hclaim Hlist HP Hw2. split.
  { unfold Reconcile, go_try. rewrite Hget, Hnew, Hclaim. unfold process_check, go_bind. by rewrite Hlist. }
  intros n. set (wn := Nat.iter n _ w2). cbv zeta.
  assert (P (w_env wn) ∧ ∃ tr, w_trace wn = w_trace w ++ tr ∧ Forall no_run tr) as [Hn Htr].
  { subst wn. induction n as [|n [IHP (tr & Htr & HF)]]; cbn [Nat.iter nat_rect].
    - split; [done|]. destruct (gather_components_reads duc' w1) as (seg & Hseg & HF).
      rewrite Hlist in Hseg. cbn [snd] in Hseg.
      unfold client_Get, request in Hget. destruct (env_Get _ _ _) as [a e0]. injection Hget as _ <-.
      unfold claim_check, go_bind, time_Now, go_modify, client_Update, request in Hclaim.
      cbn [w_env log_call set_env] in Hclaim. destruct (env_now _) as [now e1]. cbn [w_env set_env set_metrics] in Hclaim.
      destruct (env_Update _ _ _) as [a' e2]. injection Hclaim as _ <-.
      eexists. split; [rewrite Hseg; simpl; by rewrite <-!app_assoc|].
      repeat (constructor; [done|]). eapply Forall_impl; [exact HF|]. intros c. apply reads_no_run.
    - fold (Nat.iter n (λ w, (Reconcile NewGitComponent req w).2) w2).
      set (wi := Nat.iter n _ w2) in *. destruct (Reconcile_marked req P wi HP IHP) as (a & e' & -> & HP').
      split; [done|]. exists (tr ++ [CGet KDependencyUpdateCheck req a]). simpl. rewrite Htr, <-app_assoc.
      split; [done|]. apply Forall_app_2; [done|]. by repeat constructor. }
  destruct (Reconcile_marked req P wn HP Hn) as (a & e' & -> & _). by split.
Qed.
End Theorems.

(** When reading the check fails for another reason than its absence, the error
    is lost: the controller goes on with an empty object, asks the cluster to update
    a check without a name, and reports success once that fails. *)
Theorem Reconcile_swallows_get_error {E} `{Environment E} `{Libraries} NewGitComponent
    (w : World E) req e err :
  let e1 := (env_Get KDependencyUpdateCheck req (w_env w)).2 in
  (env_Get KDependencyUpdateCheck req (w_env w)).1 = inl e → IsNotFound e = false →
  (env_Update KDependencyUpdateCheck (mark_processed empty_check) (env_now e1).2).1 = inl err →
  (Reconcile NewGitComponent req w).1 = Ok tt ∧
  w_trace (Reconcile NewGitComponent req w).2 =
    w_trace w ++ [CGet KDependencyUpdateCheck req (inl e);
                  CUpdate KDependencyUpdateCheck (mark_processed empty_check) (inl err)].
Proof.
  intros e1 Hget Hnf Hup. unfold Reconcile, client_Get, request, go_try, claim_check, go_bind,
    time_Now, go_modify, client_Update, request. subst e1.
  destruct (env_Get _ _ _) as [answer e1]. simpl in Hget. subst answer. cbn [of_sum]. rewrite Hnf.
  change (is_processed empty_check) with false. cbv iota. cbn [w_env log_call set_env snd] in *.
  destruct (env_now e1) as [now e2]. cbn [w_env set_env set_metrics log_call snd] in *.
  destruct (env_Update _ _ e2) as [answer e3]. simpl in Hup. subst answer.
  cbn. split; [done|]. by rewrite <-app_assoc.
Qed.

(** ** Examples *)

Definition check_key : NamespacedName := MkKey "mintmaker" "check".
Definition three_world : World Cluster := start (cluster_with three_components).

(** The two enabled components share a repository with two branches. *)
Example Reconcile_three :
  (λ pr, run_label pr "mintmaker.appstudio.redhat.com/branch") <$>
    omap run_of (w_trace (Reconcile sample_factory check_key three_world).2) =
  [Some "main"; Some "dev"].
Proof. vm_compute. reflexivity. Qed.

Lemma Reconcile_one_run_per_branch_witness :
  ∃ tr (keys : list string),
    w_trace (Reconcile sample_factory check_key three_world).2 = tr ∧ NoDup keys ∧
    List.length keys = List.length (omap run_of tr).
Proof.
  destruct (Reconcile_one_run_per_branch sample_factory check_key three_world _ _)
    as (tr & keys & Htr & Hnd & HF).
  exists tr, keys. split; [exact Htr|]. split; [done|]. symmetry. by eapply Forall2_length.
Defined.

(** The requests before and after the first one for a run. *)
Fixpoint before_run (tr : list call) : list call :=
  match tr with
  | [] => []
  | c :: tr' => match run_of c with Some _ => [] | None => c :: before_run tr' end
  end.

Lemma split_first_run (tr : list call) :
  omap run_of tr ≠ [] →
  ∃ pr a post, tr = [] ++ before_run tr ++ CCreate KPipelineRun pr a :: post.
Proof.
  induction tr as [|c tr IH]; simpl; [done|]. destruct (run_of c) as [pr|] eqn:Hc.
  - intros _. destruct c as [| |k o a| | |]; try done. destruct k; try done. by exists o, a, tr.
  - intros Hne. destruct (IH Hne) as (pr & a & post & Heq). exists pr, a, post. simpl in *. by f_equal.
Qed.

Lemma Reconcile_runs_justified_witness :
  ∃ pr a post c, w_trace (Reconcile sample_factory check_key three_world).2 =
    [] ++ before_run (w_trace (Reconcile sample_factory check_key three_world).2)
      ++ CCreate KPipelineRun pr a :: post ∧ is_disabled c = false ∧
    run_label pr "mintmaker.appstudio.redhat.com/component" = Some (Name (comp_meta c)).
Proof.
  destruct (split_first_run (w_trace (Reconcile sample_factory check_key three_world).2))
    as (pr & a & post & Heq).
  { intros H. apply (f_equal List.length) in H. vm_compute in H. discriminate H. }
  destruct (Reconcile_runs_justified sample_factory check_key three_world _ pr a post _ _ Heq)
    as (c & _ & _ & _ & _ & _ & Hd & Hl & _).
  exists pr, a, post, c. exact (conj Heq (conj Hd Hl)).
Defined.

Lemma Reconcile_idle_witness :
  (Reconcile sample_factory (MkKey "mintmaker" "gone") three_world).1 = Ok tt.
Proof. apply (Reconcile_idle sample_factory (MkKey "mintmaker" "gone") three_world). reflexivity. Defined.

(** A cluster whose API server fails as often as its counter says when asked for a
    check or for the components. *)
Definition flaky_env (fail_get fail_list : bool) : Environment (nat * Cluster) := {|
  env_Get := λ k key e,
    if fail_get && bool_decide (k = KDependencyUpdateCheck) then
      match e.1 with
      | S n => (inl (Errorf "timeout"), (n, e.2))
      | 0 => let '(r, c) := cluster_Get k key e.2 in (r, (0, c))
      end
    else let '(r, c) := cluster_Get k key e.2 in (r, (e.1, c));
  env_List := λ k o e,
    if fail_list && bool_decide (k = KComponent) then
      match e.1 with
      | S n => (inl (Errorf "timeout"), (n, e.2))
      | 0 => let '(r, c) := cluster_List k o e.2 in (r, (0, c))
      end
    else let '(r, c) := cluster_List k o e.2 in (r, (e.1, c));
  env_Create := λ k o e, let '(r, c) := cluster_Create k o e.2 in (r, (e.1, c));
  env_Update := λ k o e, let '(r, c) := cluster_Update k o e.2 in (r, (e.1, c));
  env_Delete := λ k key e, let '(r, c) := cluster_Delete k key e.2 in (r, (e.1, c));
  env_Patch := λ k o _ e, let '(r, c) := cluster_Update k o e.2 in (r, (e.1, c));
  env_rand := λ n e, (inr (replicate n "0"%char), e);
  env_now := λ e, (0%Z, e);
  env_range := λ A l e, (l, e);
  env_api := λ A q e, (no_api A q, e)
|}.

Definition start_flaky (n : nat) : World (nat * Cluster) :=
  MkWorld (n, cluster_with three_components) [] no_metrics None None github_init.

Definition flaky_factory : GitComponentFactory (nat * Cluster) := λ c,
  go_ret {| GetName := Name (comp_meta c); GetNamespace := Namespace (comp_meta c);
            GetApplication := comp_Application c; GetPlatform := "gitlab"; GetHost := "gitlab.com";
            GetGitURL := "https://gitlab.com/team/repo"; GetRepository := "team/repo";
            GetToken := go_ret "token"; GetBranches := go_ret ["main"];
            GetAPIEndpoint := Ok "https://gitlab.com/api/v4/";
            GetRenovateConfig := λ _ _, go_ret "config";
            GetRPMActivationKey := go_fail (Errorf "no key") |}.

Lemma Reconcile_swallows_get_error_witness :
  (Reconcile (H:=flaky_env true false) flaky_factory check_key (start_flaky 1)).1 = Ok tt.
Proof.
  apply (Reconcile_swallows_get_error (H:=flaky_env true false) flaky_factory (start_flaky 1)
           check_key (Errorf "timeout") not_found); vm_compute; reflexivity.
Defined.

(** Without the failure a run is created. *)
Example Reconcile_flaky :
  List.length (omap run_of
    (w_trace (Reconcile (H:=flaky_env false true) flaky_factory check_key (start_flaky 0)).2)) = 1.
Proof. vm_compute. reflexivity. Qed.

(** The first steps of the reconciliation when the server fails once. *)
Abbreviation flaky := (flaky_env false true).
Definition ok_or {A} (a : A) (r : result A) : A := match r with Ok a => a | _ => a end.

Definition flaky_got := client_Get (H:=flaky) KDependencyUpdateCheck check_key (start_flaky 1).
Definition flaky_check : DependencyUpdateCheck := ok_or empty_check flaky_got.1.
Definition flaky_claimed := claim_check (H:=flaky) flaky_check flaky_got.2.
Definition flaky_marked : DependencyUpdateCheck := ok_or empty_check flaky_claimed.1.
Definition flaky_listed := gather_components (H:=flaky) flaky_marked flaky_claimed.2.

(** The check is in the cluster, with its mark. *)
Definition marked_in (e : nat * Cluster) : Prop :=
  match (cluster_Get KDependencyUpdateCheck check_key e.2).1 with
  | inr duc => is_processed duc
  | inl _ => false
  end = true.

Lemma marked_in_stays : stays_marked (H:=flaky) check_key marked_in.
Proof.
  intros e. unfold marked_in. cbn [env_Get flaky_env andb]. unfold cluster_Get.
  set (found := List.find (has_key KDependencyUpdateCheck check_key) (cl_objs e.2 KDependencyUpdateCheck)).
  destruct found as [duc|] eqn:Hf; cbn [fst snd]; [|done]. intros Hm.
  exists duc. split_and!; [done..|]. fold found. by rewrite Hf.
Qed.

(** However often the server's failure is followed by another try, no run is asked for. *)
Lemma Reconcile_retry_lost_witness :
  let run := λ w, Reconcile (H:=flaky) flaky_factory check_key w in
  (run (start_flaky 1)).1 = Err (Errorf "timeout") ∧
  (run (run (run (start_flaky 1)).2).2).1 = Ok tt ∧
  Forall no_run (w_trace (run (run (start_flaky 1)).2).2).
Proof.
  intros run.
  assert (flaky_got = (Ok flaky_check, flaky_got.2)) as H0.
  { rewrite (surjective_pairing flaky_got) at 1. f_equal; vm_compute; reflexivity. }
  assert (flaky_claimed = (Ok flaky_marked, flaky_claimed.2)) as H1.
  { rewrite (surjective_pairing flaky_claimed) at 1. f_equal; vm_compute; reflexivity. }
  assert (flaky_listed = (Err (Errorf "timeout"), flaky_listed.2)) as H2.
  { rewrite (surjective_pairing flaky_listed) at 1. f_equal; vm_compute; reflexivity. }
  destruct (Reconcile_retry_lost (H:=flaky) flaky_factory check_key (start_flaky 1) flaky_got.2
    flaky_claimed.2 flaky_listed.2 flaky_check flaky_marked (Errorf "timeout") marked_in H0) as [Hfirst Hmore];
    [vm_compute; reflexivity|exact H1|exact H2|exact marked_in_stays|vm_compute; reflexivity|].
  destruct (Hmore 1) as [Hok (tr & Ht & HF)].
  unfold run. rewrite Hfirst. split; [reflexivity|]. split; [exact Hok|].
  cbn [snd]. change (Nat.iter 1 ?f ?x) with (f x) in Ht. rewrite Ht. exact HF.
Defined.
