(* ===== verification/DucSelect.v ===== *)
(** * The DependencyUpdateCheck controller: what it reads

    The components a filter selects and the registry credentials that are merged,
    as functions of what the cluster answered; and the PipelineRun that is asked for,
    whatever happens to it afterwards. *)

From S2P Require Import Prelude GoStrings Json Kube Metrics Config World TraceLogic Sample.
From S2P Require Import GitComponent Sanitize Timestamp Tekton DucController RunShape DucProofs.
From S2P Require Import DucSchedule.
From Stdlib Require Import Ascii.

(** ** Selected components *)









Section Select.
Context {E : Type} `{Environment E} `{Libraries}.



(** ** Merged registry credentials *)







Lemma one_run_only t1 pr1 a1 t2 pre pr a post :
  Forall no_run t1 → Forall no_run t2 →
  t1 ++ CCreate KPipelineRun pr1 a1 :: t2 = pre ++ CCreate KPipelineRun pr a :: post → pr1 = pr.
Proof.
  intros H1 H2 Heq. apply (f_equal (omap run_of)) in Heq. rewrite !omap_app in Heq.
  rewrite (omap_none run_of t1 H1) in Heq. cbn [app] in Heq.
  change (omap run_of (CCreate KPipelineRun pr1 a1 :: t2)) with (pr1 :: omap run_of t2) in Heq.
  change (omap run_of (CCreate KPipelineRun pr a :: post)) with (pr :: omap run_of post) in Heq.
  rewrite (omap_none run_of t2 H2) in Heq.
  destruct (omap run_of pre) as [|x l]; [by injection Heq as ->|].
  injection Heq as _ Hl. by destruct l.
Qed.

(** The run a creation asks for has the shape of its branch. *)
Lemma createPipelineRun_shape name comp branch kite (w : World E) pre pr a post :
  EnvironmentLaws E → GitComponentLaws comp →
  w_trace (createPipelineRun name comp branch kite w).2 =
    w_trace w ++ pre ++ CCreate KPipelineRun pr a :: post →
  run_shape name comp branch kite pr.
Proof.
  intros Henv Hlaws Heq. destruct (createPipelineRun_one name comp branch kite w) as (seg & Hseg & Hone).
  rewrite Hseg in Heq. apply app_inv_head in Heq.
  destruct Hone as [Hn|(t1 & pr1 & a1 & t2 & -> & Hn1 & Hn2 & Hs)].
  - rewrite Heq in Hn. by apply Forall_app in Hn as [_ [? _]%Forall_cons].
  - by rewrite (one_run_only t1 pr1 a1 t2 pre pr a post Hn1 Hn2 Heq) in Hs.
Qed.

(** C6.  Whether or not the creation succeeds, a PipelineRun it asks for has the
    name and the labels of the branch, the controller's service account, a time
    limit of an hour and the steps of the build task in order, with the Kite step
    last if there is a Kite secret; and a secret reaches one step only: the token and
    the registry credentials the renovate step, the RPM key the certificate step, the
    Kite token the Kite step.  No other step, and in particular not the log
    sanitizer, mounts any secret. *)
Theorem createPipelineRun_confines_secrets name comp branch kite (w : World E) pre pr a post :
  EnvironmentLaws E → GitComponentLaws comp →
  w_trace (createPipelineRun name comp branch kite w).2 =
    w_trace w ++ pre ++ CCreate KPipelineRun pr a :: post →
  key_of (pr_meta pr) = MkKey "mintmaker" name ∧
  Labels (pr_meta pr) = Some (run_labels comp branch) ∧
  prs_ServiceAccountName (pr_Spec pr) = "mintmaker-controller-manager" ∧
  prs_Timeouts (pr_Spec pr) = Some defaultTimeouts ∧
  ∃ workspaces ts, prs_Tasks (pr_Spec pr) = [MkTask "build" workspaces (Some ts)] ∧
    step_Name <$> ts_Steps ts =
      ["prepare-db"; "prepare-rpm-cert"; "renovate"; "log-sanitizer"]
        ++ (if decide (kite = "") then [] else ["log-analyzer"]) ∧
    ∀ step m, step ∈ ts_Steps ts → m ∈ step_VolumeMounts step →
      ∃ v, v ∈ ts_Volumes ts ∧ vol_Name v = vm_Name m ∧
        ∀ p, vol_Secret v = Some p →
          (step_Name step = "renovate" ∧ proj_Name p = name) ∨
          (step_Name step = "prepare-rpm-cert" ∧ proj_Name p = name +:+ "-rpm-key") ∨
          (step_Name step = "log-analyzer" ∧ proj_Name p = kite).
Proof.
  intros Henv Hlaws Heq.
  destruct (createPipelineRun_shape name comp branch kite w pre pr a post Henv Hlaws Heq)
    as [_ Hmeta Ha Ht (ws & ts & Htask & Hn & Hc & _)].
  simpl in *. rewrite Hmeta. split_and!; [done..|]. exists ws, ts. split; [done|]. split; [done|].
  intros step m Hstep Hm. unfold confined in Hc. rewrite Forall_forall in Hc.
  specialize (Hc step Hstep). rewrite Forall_forall in Hc.
  destruct (Hc m Hm) as (v & Hv & Hvn & Hal). exists v. split; [done|]. split; [done|].
  intros p Hp. unfold run_allowed in Hal. by rewrite Hp in Hal.
Qed.
End Select.

(** ** Examples *)

Definition one : Component := component_resource "one" None.
Definition one_comp : GitComponent Cluster := sample_component one.

(** The build service account of the component, with registry credentials, a secret
    marked as internal and one that is gone. *)
Definition docker_secret (name : string) (labels : gomap string) : Secret :=
  MkSecret (MkMeta name "tenant" labels None [] []) SecretTypeDockerConfigJson
    (Some {[DockerConfigJsonKey := docker_json]}) None.

Definition account_objs (k : Kind) : list (obj k) :=
  match k with
  | KServiceAccount =>
      [MkServiceAccount (new_meta "build-pipeline-one" "tenant") ["internal"; "gone"; "registry"]]
  | KSecret =>
      [docker_secret "internal" (Some {[InternalSecretLabelName := "true"]});
       docker_secret "registry" None]
  | KComponent => [one]
  | _ => []
  end.

Definition account_world : World Cluster := start (cluster_with account_objs).

Lemma run_ok {A} (x : result A * World Cluster) : is_ok x.1 = true → ∃ a w', x = (Ok a, w').
Proof. destruct x as [[a|e|p] w']; [eauto|done..]. Qed.

Lemma createPipelineRun_success_witness :
  ∃ pr w' created run updates,
    createPipelineRun "run" one_comp "main" "kite" account_world = (Ok pr, w') ∧
    writes (w_trace w') = writes (w_trace account_world) ++ created
      ++ [CCreate KPipelineRun run (inr pr)] ++ updates.
Proof.
  destruct (run_ok (createPipelineRun "run" one_comp "main" "kite" account_world))
    as (pr & w' & Hr); [vm_compute; reflexivity|].
  destruct (createPipelineRun_success "run" one_comp "main" "kite" account_world w' pr _ Hr)
    as (secret & cm & rpm & created & run & updates & Hw & _).
  exists pr, w', created, run, updates. exact (conj Hr Hw).
Defined.

(** With the run's name taken by another config map, the secret is removed again. *)
Definition taken_world : World Cluster :=
  start (cluster_with (upd KConfigMap [MkConfigMap (new_meta "run" "mintmaker") None] account_objs)).

Lemma createPipelineRun_cleans_up_witness :
  (List.filter is_delete (w_trace (createPipelineRun "run" one_comp "main" "" taken_world).2) =
     [CDelete KSecret (MkKey "mintmaker" "run") (inr tt)]) ∧
  ∃ tr dels, w_trace (createPipelineRun "run" one_comp "main" "" taken_world).2 =
    w_trace taken_world ++ tr ++ dels.
Proof.
  split; [vm_compute; reflexivity|].
  destruct (createPipelineRun_cleans_up "run" one_comp "main" "" taken_world _)
    as (tr & dels & Htr & _).
  exists tr, dels. exact Htr.
Defined.




Lemma createPipelineRun_confines_secrets_witness :
  ∃ pr a post, w_trace (createPipelineRun "run" one_comp "main" "kite" account_world).2 =
    [] ++ before_run (w_trace (createPipelineRun "run" one_comp "main" "kite" account_world).2)
      ++ CCreate KPipelineRun pr a :: post ∧ key_of (pr_meta pr) = MkKey "mintmaker" "run".
Proof.
  destruct (split_first_run (w_trace (createPipelineRun "run" one_comp "main" "kite" account_world).2))
    as (pr & a & post & Heq).
  { intros H. apply (f_equal List.length) in H. vm_compute in H. discriminate H. }
  destruct (createPipelineRun_confines_secrets "run" one_comp "main" "kite" account_world _ pr a post
    _ _ Heq) as (Hkey & _).
  exists pr, a, post. exact (conj Heq Hkey).
Defined.
