(* ===== verification/RunConfig.v ===== *)
(** * A run is for its component

    The controller, the factory and the components together: a PipelineRun that could be
    created runs Renovate with the configuration of the component's repository and
    branch, and with the token of the secret the component selects. *)

From S2P Require Import Prelude GoStrings Slices Json Kube Metrics Config TokenCache World GitComponent.
From S2P Require Import Sample SecretSelect Base Scm Gitlab Forgejo Github Component Writable.
From S2P Require Import Sanitize Tekton DucController RunShape DucProofs.
From Stdlib Require Import Ascii.

Section RunConfig.
Context {E : Type} `{EnvironmentLaws E} `{Libraries} (page_fuel : nat).





End RunConfig.

(** ** Example *)

Definition run_objs (k : Kind) : list (obj k) :=
  match k with
  | KConfigMap => [renovate_cm]
  | k => scm_objs k
  end.

Definition run_world : World Cluster := start (cluster_with run_objs).

Definition run_base : BaseComponent :=
  MkBase "comp" "tenant" "app" "gitlab" "gitlab.com" "https://gitlab.com/team/group/repo.git"
    "team/group/repo" ["main"; "dev"] false.

Lemma run_component_made :
  NewGitComponent 1 gitlab_resource run_world = (Ok (gitlab_component run_base), run_world).
Proof.
  apply (NewGitComponent_local 1 gitlab_resource run_world "https://gitlab.com/team/group/repo.git" false
           run_base); [reflexivity|vm_compute; reflexivity|discriminate].
Qed.


Lemma GetRenovateConfig_writable_witness :
  base_writable
    (GitComponent.GetRenovateConfig (gitlab_component run_base) None "main" run_world).2.
Proof.
  apply (GetRenovateConfig_writable 1 gitlab_resource (gitlab_component run_base) run_world run_world).
  - exact run_component_made.
  - exact I.
Defined.

(** The cluster's configuration is cached; a key of its own is kept. *)
Definition cached_entries : gmap string json :=
  {["extends" := JString "config:base"; "platform" := JString "none"]}.
Definition cached_world := set_base (Some cached_entries) run_world.

Lemma GetRenovateConfig_entries_witness :
  ∃ text (config : gmap string json),
    (GitComponent.GetRenovateConfig (gitlab_component run_base) None "main" cached_world).1 = Ok text ∧
    config !! "extends" = Some (JString "config:base") ∧
    config !! "platform" = Some (JString "gitlab") ∧
    config !! "username" = Some (JString "").
Proof.
  assert (is_ok (GitComponent.GetRenovateConfig (gitlab_component run_base) None "main" cached_world).1 = true)
    as Hok by (vm_compute; reflexivity).
  pose proof (GetRenovateConfig_entries 1 gitlab_resource (gitlab_component run_base) run_world run_world
    cached_world None "main" cached_entries run_component_made eq_refl ltac:(vm_compute; reflexivity)) as Hs.
  cbv zeta in Hs. destruct (GitComponent.GetRenovateConfig _ _ _ cached_world) as [[text|e|p] w'];
    [|discriminate Hok..]. cbn [fst snd config_spec] in Hs.
  destruct Hs as (config & username & author & _ & _ & Hact & Hplat & _ & Huser & _ & _ & Hrest).
  exists text, config. split; [reflexivity|]. split.
  - rewrite Hrest by (vm_compute; set_solver). vm_compute. reflexivity.
  - split; [exact Hplat|]. unfold acts_as in Hact. rewrite decide_False in Hact by (vm_compute; discriminate).
    destruct Hact as [-> _]. exact Huser.
Defined.
