(* ===== verification/EventController.v ===== *)
(** * internal/controller: the Event controller

    [event_controller.go]: when a pod of a run cannot mount its secret because the
    GitHub token is not in it, the token is added; when that fails, the run is
    cancelled.  Also the update filter of [pipelinerun_controller.go], whose
    reconciliation does nothing. *)

From S2P Require Import Prelude GoStrings GoRegexp Json Kube Metrics Config World GitComponent.
From S2P Require Import Tekton.
From Stdlib Require Import Ascii.

Definition processed_annotation : string := "mintmaker.appstudio.redhat.com/processed".
Definition pipelineRun_label : string := "tekton.dev/pipelineRun".
Definition MintMakerComponentNameLabel : string := "mintmaker.appstudio.redhat.com/component".
Definition MintMakerComponentNamespaceLabel : string := "mintmaker.appstudio.redhat.com/namespace".

(** ** The message *)

Definition not_quote (c : ascii) : bool := negb (bool_decide (c = "034"%char)).

(** The word volume, a quoted name (the group), any characters of the line, and the
    complaint about the missing key. *)
Definition msgRegex : regex :=
  Seq (Lit ("volume " +:+ dq))
    (Seq (Grp 1 (Plus not_quote))
      (Seq (Lit dq)
        (Seq (Many Dot) (Lit "references non-existent secret key: renovate-token")))).

(** The volume an event message names, if it is one of those monitored. *)
Definition message_volume (message : string) : option string :=
  match FindStringSubmatch 1 msgRegex message with
  | _ :: volumeName :: _ => Some volumeName
  | _ => None
  end.

(** ** Reconcile *)

(** The variables the deferred closure captures. *)
Record EventLocals := MkLocals { loc_evt : Event; loc_pod : Pod; loc_errMessage : string }.

Definition zero_event : Event := MkEvent (new_meta "" "") (MkRef "" "" "") "" "".
Definition zero_pod : Pod := MkPod (new_meta "" "") [].
Definition locals_init : EventLocals := MkLocals zero_event zero_pod "".

Abbreviation EventState E := (EventLocals * World E)%type.

Section EventController.
Context {E : Type} `{Environment E} `{Libraries}.
Context (NewGitComponent : GitComponentFactory E).

Definition ev_world {A} (m : M E A) : GoM (EventState E) A := λ s,
  let '(r, w') := m s.2 in (r, (s.1, w')).
Definition set_evt (e : Event) : GoM (EventState E) unit :=
  go_modify (λ s, (MkLocals e (loc_pod s.1) (loc_errMessage s.1), s.2)).
Definition set_pod (p : Pod) : GoM (EventState E) unit :=
  go_modify (λ s, (MkLocals (loc_evt s.1) p (loc_errMessage s.1), s.2)).
(* errMessage = err.Error() *)
Definition set_errMessage (e : error) : GoM (EventState E) unit :=
  go_modify (λ s, (MkLocals (loc_evt s.1) (loc_pod s.1) (error_msg e), s.2)).

Definition with_event_annotations (a : gomap string) (event : Event) : Event :=
  MkEvent (set_Annotations a (ev_meta event)) (ev_InvolvedObject event) (ev_Message event)
    (ev_Reason event).

Definition markEventAsProcessed (event : Event) : M E unit :=
  let annotations := go_make_if_nil (Annotations (ev_meta event)) in
  let original := with_event_annotations (Some annotations) event in
  let! _ := client_Patch KEvent
              (with_event_annotations (Some (<[processed_annotation := "true"]> annotations)) event)
              original in
  go_ret tt.

Definition cancelled (plr : PipelineRun) (errMessage : string) : PipelineRun :=
  let s := pr_Spec plr in
  MkPipelineRun (pr_meta plr)
    (MkPRSpec (prs_Workspaces s) (prs_PipelineWorkspaces s) (prs_Tasks s) (prs_Params s)
       (prs_Timeouts s) (prs_ServiceAccountName s) PipelineRunSpecStatusCancelled)
    (MarkFailed PipelineRunReasonCancelled errMessage (pr_Status plr)).

Definition cancelPipelineRun (pod : Pod) (errMessage : string) : M E unit :=
  match go_lookup (Labels (pod_meta pod)) pipelineRun_label with
  | None => go_ret tt
  | Some plrName =>
      try! got := client_Get KPipelineRun (MkKey (Namespace (pod_meta pod)) plrName) in
      match got with
      | inl _ => go_ret tt
      | inr plr =>
          try! _ := client_Patch KPipelineRun (cancelled plr errMessage) plr in go_ret tt
      end
  end.

(** The deferred closure. *)
Definition finish_event : GoM (EventState E) unit := λ s,
  ev_world
    (let! _ :=
       (if decide (Name (ev_meta (loc_evt s.1)) = "") then go_ret tt
        else try! _ := markEventAsProcessed (loc_evt s.1) in go_ret tt) in
     if decide (Name (pod_meta (loc_pod s.1)) = "" ∨ loc_errMessage s.1 = "") then go_ret tt
     else cancelPipelineRun (loc_pod s.1) (loc_errMessage s.1)) s.

(** The secret of the first volume of that name that has one. *)
Definition volume_secret (volumeName : string) (volumes : list Volume) : string :=
  match List.find (λ v, bool_decide (vol_Name v = volumeName) && bool_decide (is_Some (vol_Secret v)))
          volumes with
  | Some (MkVolume _ _ (Some p)) => proj_Name p
  | _ => ""
  end.

Definition with_token (token : string) (s : Secret) : Secret :=
  MkSecret (sec_meta s) (sec_Type s)
    (Some (<["renovate-token" := token]> (go_make_if_nil (sec_Data s)))) (sec_StringData s).

(** Adding the missing key; every failure but a missing component is recorded. *)
Definition add_token (pod : Pod) (secret : Secret) : GoM (EventState E) unit :=
  let label l := go_index "" (Labels (pod_meta pod)) l in
  let key := MkKey (label MintMakerComponentNamespaceLabel) (label MintMakerComponentNameLabel) in
  try! got := ev_world (client_Get KComponent key) in
  match got with
  | inl err =>
      if IsNotFound err then go_ret tt else let! _ := set_errMessage err in go_fail err
  | inr comp =>
      try! made := ev_world (NewGitComponent comp) in
      match made with
      | inl err => set_errMessage err
      | inr gitComp =>
          try! token := ev_world (GetToken gitComp) in
          match token with
          | inl err => set_errMessage err
          | inr token =>
              try! updated := ev_world (client_Update KSecret (with_token token secret)) in
              match updated with
              | inl err => let! _ := set_errMessage err in go_fail err
              | inr _ => go_ret tt
              end
          end
      end
  end.

Definition handle_pod (volumeName podNamespace : string) (pod : Pod) : GoM (EventState E) unit :=
  let secretName := volume_secret volumeName (pod_Volumes pod) in
  if decide (secretName = "") then go_ret tt
  else
    try! got := ev_world (client_Get KSecret (MkKey podNamespace secretName)) in
    match got with
    | inl err =>
        if IsNotFound err then go_ret tt else let! _ := set_errMessage err in go_fail err
    | inr secret =>
        match go_lookup (sec_Data secret) "renovate-token" with
        | Some _ => go_ret tt
        | None => add_token pod secret
        end
    end.

Definition event_body (req : NamespacedName) : GoM (EventState E) unit :=
  try! got := ev_world (client_Get KEvent req) in
  match got with
  | inl err => if IsNotFound err then go_ret tt else go_fail err
  | inr evt =>
      let! _ := set_evt evt in
      if decide (ref_Kind (ev_InvolvedObject evt) = "Pod") then
        match message_volume (ev_Message evt) with
        | None => go_ret tt
        | Some volumeName =>
            let podName := ref_Name (ev_InvolvedObject evt) in
            let podNamespace := ref_Namespace (ev_InvolvedObject evt) in
            try! got := ev_world (client_Get KPod (MkKey podNamespace podName)) in
            match got with
            | inl err => if IsNotFound err then go_ret tt else go_fail err
            | inr pod =>
                let! _ := set_pod pod in
                handle_pod volumeName podNamespace pod
            end
        end
      else go_ret tt
  end.

Definition Reconcile (req : NamespacedName) : M E unit := λ w,
  let '(r, s) := go_defer (event_body req) finish_event (locals_init, w) in (r, s.2).

(** The filter of the controller: only new, unprocessed mount failures. *)
Definition CreateFunc (evt : Event) : bool :=
  bool_decide (ev_Reason evt = "FailedMount") &&
  negb (bool_decide (is_Some (go_lookup (Annotations (ev_meta evt)) processed_annotation))).
End EventController.

(** ** The PipelineRun controller *)

Section PipelineRunController.
Context (IsDone : PipelineRun → bool).

(** The update filter: a run that finishes. *)
Definition UpdateFunc (oldPipelineRun newPipelineRun : PipelineRun) : bool :=
  negb (IsDone oldPipelineRun) && IsDone newPipelineRun.

Definition pipelinerun_Reconcile {E} (req : NamespacedName) : M E unit := go_ret tt.
End PipelineRunController.
