(* ===== verification/EventMessage.v ===== *)
(** * The messages the Event controller monitors

    What the pattern of [event_controller.go] extracts: it finds the volume of every
    complaint about a missing token, in the form the kubelet writes it, and whatever
    it extracts is the quoted name before such a complaint. *)

From S2P Require Import Prelude GoStrings GoRegexp Json Kube Metrics Config World Sanitize.
From S2P Require Import GitComponent Tekton EventController.
From Stdlib Require Import Ascii.

Definition quote : ascii := "034"%char.
Definition complaint : string := "references non-existent secret key: renovate-token".

(** A message with a quoted volume name before the complaint. *)
Definition mount_message (pre volume mid post : string) : string :=
  pre +:+ "volume " +:+ dq +:+ volume +:+ dq +:+ mid +:+ complaint +:+ post.

Definition no_quote_in (s : string) : Prop := Forall (λ c, not_quote c = true) (explode s).
Definition one_line (s : string) : Prop := Forall (λ c, Dot c = true) (explode s).

(** ** Literals *)

Lemma matches_Lit_other c s pos d l caps :
  d ≠ c → matches (Lit (String c s)) (MState pos (d :: l) caps) = [].
Proof. intros Hd. simpl. by rewrite bool_decide_eq_false_2. Qed.

Lemma bind_head {A B} (f : A → list B) x xs :
  f x ≠ [] → ∃ y ys, (x :: xs) ≫= f = y :: ys ∧ y ∈ f x.
Proof.
  intros Hx. simpl. destruct (f x) as [|y ys]; [done|]. exists y, (ys ++ (xs ≫= f)).
  split; [done|left].
Qed.

(** ** Extraction *)

Lemma elem_of_msgRegex pos start m :
  m ∈ matches msgRegex (MState pos start []) →
  ∃ v b, start = explode ("volume " +:+ dq) ++ v ++ quote :: b ++ explode complaint ++ ms_rest m ∧
    v ≠ [] ∧ Forall (λ c, not_quote c = true) v ∧ Forall (λ c, Dot c = true) b ∧
    ms_caps m = [(1, v)].
Proof.
  unfold msgRegex. cbn [matches].
  intros (m1 & Hm & H1)%list_elem_of_bind. apply elem_of_matches_Lit in H1 as [Hr1 Hc1].
  apply list_elem_of_bind in Hm as (m2 & Hm & H2).
  apply list_elem_of_fmap in H2 as (m2' & -> & H2).
  apply elem_of_run_class in H2 as (v & Hv & Hvq & Hr2 & _ & Hc2).
  apply list_elem_of_bind in Hm as (m3 & Hm & H3).
  apply elem_of_matches_Lit in H3 as [Hr3 Hc3].
  apply list_elem_of_bind in Hm as (m4 & H5 & H4).
  apply elem_of_matches_Lit in H5 as [Hr5 Hc5].
  assert (∃ b, ms_rest m3 = b ++ ms_rest m4 ∧ Forall (λ c, Dot c = true) b ∧ ms_caps m4 = ms_caps m3)
    as (b & Hr4 & Hb & Hc4).
  { apply elem_of_app in H4 as [H4|H4].
    - apply elem_of_run_class in H4 as (b & _ & ? & ? & _ & ?). by exists b.
    - apply list_elem_of_singleton in H4 as ->. by exists []. }
  exists v, b. cbn [ms_rest ms_caps capture] in *.
  assert (take (length (ms_rest m1) - length (ms_rest m2')) (ms_rest m1) = v) as Hcap
    by (rewrite Hr2; apply take_length_sub).
  split_and!; [|done|done|done|].
  - rewrite Hr1, Hr2, Hr3, Hr4, Hr5. done.
  - rewrite Hc5, Hc4, Hc3, Hc2, Hc1, Hcap. done.
Qed.

Lemma span_len_app p w c l :
  Forall (λ x, p x = true) w → p c = false → span_len p (w ++ c :: l) = length w.
Proof.
  intros HF Hc. induction HF as [|y w Hy _ IH]; simpl; [by rewrite Hc|by rewrite Hy, IH].
Qed.

Lemma run_class_longest p pos w c l caps :
  w ≠ [] → Forall (λ x, p x = true) w → p c = false →
  ∃ ms, run_class p pos (w ++ c :: l) caps = MState (pos + length w) (c :: l) caps :: ms.
Proof.
  intros Hw HF Hc. destruct w as [|x w]; [done|].
  pose proof (span_len_app p (x :: w) c l HF Hc) as Hspan.
  apply Forall_cons in HF as [Hx HF].
  destruct (run_class_head p pos x (w ++ c :: l) caps Hx) as [ms Hms].
  exists ms. rewrite <-app_comm_cons, Hms. rewrite <-span_len_drop.
  rewrite <-app_comm_cons in Hspan. rewrite Hspan.
  do 2 f_equal. simpl. apply drop_app_length.
Qed.

(** After the group has taken the whole name, the rest of the pattern matches. *)
Lemma rest_matches pos mid l caps :
  Forall (λ c, Dot c = true) mid →
  matches (Seq (Lit dq) (Seq (Many Dot) (Lit complaint)))
    (MState pos (quote :: mid ++ explode complaint ++ l) caps) ≠ [].
Proof.
  intros Hmid Hnil.
  assert (∃ m, m ∈ matches (Seq (Lit dq) (Seq (Many Dot) (Lit complaint)))
    (MState pos (quote :: mid ++ explode complaint ++ l) caps)) as [m Hm];
    [|rewrite Hnil in Hm; by apply not_elem_of_nil in Hm].
  clear Hnil. cbn [matches].
  set (s1 := MState (pos + String.length dq) (mid ++ explode complaint ++ l) caps).
  assert (matches (Lit dq) (MState pos (quote :: mid ++ explode complaint ++ l) caps) = [s1])
    as Hdq by exact (matches_Lit dq pos (mid ++ explode complaint ++ l) caps).
  exists (MState (pos + String.length dq + length mid + String.length complaint) l caps).
  apply list_elem_of_bind. exists s1. split; [|rewrite Hdq; left].
  apply list_elem_of_bind.
  exists (MState (pos + String.length dq + length mid) (explode complaint ++ l) caps). split.
  - rewrite matches_Lit. left.
  - apply elem_of_app. destruct mid as [|c mid].
    + right. apply list_elem_of_singleton. unfold s1. simpl. f_equal. lia.
    + left. apply elem_of_run_class. exists (c :: mid). split_and!; try done.
Qed.

Lemma msgRegex_head pos volume mid l :
  volume ≠ [] → Forall (λ c, not_quote c = true) volume → Forall (λ c, Dot c = true) mid →
  ∃ m ms, matches msgRegex
    (MState pos (explode ("volume " +:+ dq) ++ volume ++ quote :: mid ++ explode complaint ++ l) []) = m :: ms ∧
    ms_caps m = [(1, volume)].
Proof.
  intros Hv HF Hmid. unfold msgRegex. cbn [matches].
  rewrite matches_Lit. cbn [mbind list_bind]. rewrite app_nil_r.
  destruct (run_class_longest not_quote (pos + String.length ("volume " +:+ dq)) volume quote
    (mid ++ explode complaint ++ l) []) as [ms Hms]; [done..|].
  cbn [ms_pos ms_rest ms_caps]. rewrite Hms. rewrite fmap_cons.
  set (s1 := capture _ _ _).
  assert (s1 = MState (pos + String.length ("volume " +:+ dq) + length volume)
    (quote :: mid ++ explode complaint ++ l) [(1, volume)]) as ->.
  { unfold s1, capture. cbn [ms_pos ms_rest ms_caps app]. do 3 f_equal. f_equal. apply take_length_sub. }
  destruct (bind_head (matches (Seq (Lit dq) (Seq (Many Dot) (Lit complaint))))
    (MState (pos + String.length ("volume " +:+ dq) + length volume)
       (quote :: mid ++ explode complaint ++ l) [(1, volume)])
    (capture 1 (MState (pos + String.length ("volume " +:+ dq))
       (volume ++ quote :: mid ++ explode complaint ++ l) []) <$> ms)) as (m & ms' & Heq & Hm).
  { by apply rest_matches. }
  exists m, ms'. split; [exact Heq|].
  cbn [matches] in Hm. apply list_elem_of_bind in Hm as (m3 & Hm & H3).
  apply elem_of_matches_Lit in H3 as [_ H3]. apply list_elem_of_bind in Hm as (m4 & H5 & H4).
  apply elem_of_matches_Lit in H5 as [_ H5]. rewrite H5. transitivity (ms_caps m3); [|exact H3].
  apply elem_of_app in H4 as [H4|H4].
  - by apply elem_of_run_class in H4 as (b & _ & _ & _ & _ & ?).
  - by apply list_elem_of_singleton in H4 as ->.
Qed.

Lemma find_from_no_v pre pos rest :
  Forall (λ c, c ≠ "v"%char) pre →
  find_from msgRegex pos (pre ++ rest) = find_from msgRegex (pos + length pre) rest.
Proof.
  intros HF. revert pos. induction HF as [|c pre Hc _ IH]; intros pos.
  - simpl. by rewrite Nat.add_0_r.
  - rewrite <-app_comm_cons, find_from_skip.
    + rewrite IH. f_equal. simpl. lia.
    + unfold msgRegex. change ("volume " +:+ dq) with (String "v" ("olume " +:+ dq)).
      cbn [matches Lit mbind list_bind ms_rest]. by rewrite bool_decide_eq_false_2.
Qed.

(** The volume is found in every message of the kubelet's form: some words
    without a lower-case v, the quoted name, and the complaint on the same line. *)
Theorem message_volume_complete pre volume mid post :
  ¬ byte_in "v" pre → volume ≠ "" → no_quote_in volume → one_line mid →
  message_volume (mount_message pre volume mid post) = Some volume.
Proof.
  intros Hpre Hv Hq Hmid. unfold message_volume, FindStringSubmatch, mount_message.
  rewrite !explode_app, find_from_no_v.
  2: { apply Forall_forall. intros c Hc ->. by apply Hpre. }
  destruct (msgRegex_head (0 + length (explode pre)) (explode volume) (explode mid) (explode post))
    as (m & ms & Hm & Hcaps); [by destruct volume|done|done|].
  rewrite explode_app, <-app_assoc in Hm.
  match goal with |- context [find_from msgRegex ?p ?l] =>
    rewrite (find_from_hit msgRegex p l m ms Hm) end. simpl. unfold group. rewrite Hcaps. simpl.
  by rewrite implode_explode.
Qed.

(** Whatever volume is extracted, the message contains it in quotes after the
    word volume and before the complaint, on one line from the closing quote. *)
Theorem message_volume_sound message volume :
  message_volume message = Some volume →
  ∃ pre mid post, message = mount_message pre volume mid post ∧
    volume ≠ "" ∧ no_quote_in volume ∧ one_line mid.
Proof.
  unfold message_volume, FindStringSubmatch.
  destruct (find_from msgRegex 0 (explode message)) as [[[pos start] m]|] eqn:Hf; [|done].
  intros [= Hvol]. apply find_from_sound in Hf as [(pre & Hpre & _) Hm].
  apply elem_of_msgRegex in Hm as (v & b & Hstart & Hv & Hvq & Hb & Hcaps).
  unfold group in Hvol. rewrite Hcaps in Hvol. simpl in Hvol. subst volume.
  exists (implode pre), (implode b), (implode (ms_rest m)).
  unfold no_quote_in, one_line. rewrite !explode_implode. split_and!; [|by destruct v|done..].
  apply explode_inj. unfold mount_message.
  rewrite !explode_app, !explode_implode, Hpre, Hstart, explode_app, <-!app_assoc. done.
Qed.

Lemma message_volume_complete_witness :
  message_volume (mount_message "MountVolume.SetUp failed for " "secret-renovate-07110345-e8d4c7bf"
    " : " "") = Some "secret-renovate-07110345-e8d4c7bf".
Proof.
  apply message_volume_complete; [|done|..].
  - vm_compute. intros H. repeat (apply elem_of_cons in H as [H|H]; [discriminate H|]).
    by apply not_elem_of_nil in H.
  - unfold no_quote_in. repeat (apply Forall_cons; split; [reflexivity|]). by apply Forall_nil.
  - unfold one_line. by repeat constructor.
Defined.

Lemma message_volume_sound_witness :
  ∃ pre mid post, mount_message "failed for " "v1" " : " "" = mount_message pre "v1" mid post ∧
    one_line mid.
Proof.
  destruct (message_volume_sound (mount_message "failed for " "v1" " : " "") "v1")
    as (pre & mid & post & Heq & _ & _ & Hmid); [vm_compute; reflexivity|].
  exists pre, mid, post. exact (conj Heq Hmid).
Defined.
