(* ===== verification/EventProofs.v ===== *)
(** * The Event controller: theorems

    Every event read is marked; the writes of a reconciliation are at most an update
    of the run's secret, the mark, and a cancellation; and what is done about a waiting
    pod, case by case. *)

From S2P Require Import Prelude GoStrings Json Kube Metrics Config World Sample GitComponent.
From S2P Require Import Tekton EventController.
From Stdlib Require Import Ascii.

Section Proofs.
Context {E : Type} `{Environment E} `{Libraries}.
Context (NewGitComponent : GitComponentFactory E) `{!FactoryLaws NewGitComponent}.

(** ** Steps *)

Lemma ev_get k key l (w : World E) :
  ∃ a w', ev_world (client_Get k key) (l, w) = (of_sum a, (l, w')) ∧
          w_trace w' = w_trace w ++ [CGet k key a].
Proof.
  unfold ev_world, client_Get, request. simpl. destruct (env_Get k key (w_env w)) as [a e'].
  exists a. eexists. split; reflexivity.
Qed.

Lemma ev_reads {A} (m : M E A) l (w : World E) :
  read_only m →
  ∃ r w' seg, m w = (r, w') ∧ ev_world m (l, w) = (r, (l, w')) ∧
    w_trace w' = w_trace w ++ seg ∧ writes seg = [].
Proof.
  intros Hm. unfold ev_world. simpl. destruct (Hm w) as (seg & Hseg & HF).
  destruct (m w) as [r w']. exists r, w', seg. split_and!; [done..|].
  by apply reads_writes.
Qed.

Lemma ev_update k o l (w : World E) :
  ∃ a w', ev_world (client_Update k o) (l, w) = (of_sum a, (l, w')) ∧
          w_trace w' = w_trace w ++ [CUpdate k o a] ∧ ∃ e1 e2, env_Update k o e1 = (a, e2).
Proof.
  unfold ev_world, client_Update, request. simpl.
  destruct (env_Update k o (w_env w)) as [a e'] eqn:Hup.
  exists a. eexists. split; [reflexivity|]. split; [reflexivity|]. eauto.
Qed.

(** ** The body *)

Definition found_component (tr : list call) : Prop :=
  ∃ k c, CGet KComponent k (inr c) ∈ tr.

Definition token_update (s : Secret) : Prop := is_Some (go_lookup (sec_Data s) "renovate-token").

(** The errors that stand in the way of a token. *)
Definition raised (e : error) : Prop :=
  (∃ comp w w', NewGitComponent comp w = (Err e, w')) ∨
  (∃ comp w gc w' w1 w2, NewGitComponent comp w = (Ok gc, w') ∧ GetToken gc w1 = (Err e, w2)) ∨
  (∃ s e1 e2, env_Update KSecret s e1 = (inl e, e2)).

(** How an attempt to add the token ends: nothing written, and then the failure is
    recorded if the component was found; the secret updated; or the update refused.
    [served] is what is known of the secret, given the requests. *)
Inductive added (served : Secret → list call → Prop) (l : EventLocals) (r : result unit)
    (tr : list call) : Prop :=
| added_nothing :
    writes tr = [] →
    (found_component tr →
       (∃ p, r = Panic p) ∨ ∃ e, raised e ∧ loc_errMessage l = error_msg e) → added served l r tr
| added_token s a :
    writes tr = [CUpdate KSecret s (inr a)] → served s tr → loc_errMessage l = "" → added served l r tr
| added_failed s e :
    writes tr = [CUpdate KSecret s (inl e)] → served s tr →
    raised e → loc_errMessage l = error_msg e → added served l r tr.

(** The component a pod belongs to, by its labels. *)
Definition pod_component (pod : Pod) : NamespacedName :=
  MkKey (go_index "" (Labels (pod_meta pod)) MintMakerComponentNamespaceLabel)
        (go_index "" (Labels (pod_meta pod)) MintMakerComponentNameLabel).

(** The secret is one that was read, with the token of the pod's component. *)
Definition serves (pod : Pod) (secret s : Secret) (tr : list call) : Prop :=
  ∃ comp gc token wa wb wc wd,
    CGet KComponent (pod_component pod) (inr comp) ∈ tr ∧
    NewGitComponent comp wa = (Ok gc, wb) ∧ GetToken gc wc = (Ok token, wd) ∧
    s = with_token token secret.

Definition serves_volume (volumeName ns : string) (pod : Pod) (s : Secret) (tr : list call) : Prop :=
  ∃ secret,
    CGet KSecret (MkKey ns (volume_secret volumeName (pod_Volumes pod))) (inr secret) ∈ tr ∧
    serves pod secret s tr.

Definition same_objects (l l' : EventLocals) : Prop :=
  loc_evt l' = loc_evt l ∧ loc_pod l' = loc_pod l.

Lemma not_found_component key e : ¬ found_component [CGet KComponent key (inl e)].
Proof. by intros (k & c & Hin%list_elem_of_singleton). Qed.

Lemma with_token_update token s : token_update (with_token token s).
Proof. unfold token_update. simpl. by rewrite lookup_insert_eq. Qed.

Lemma serves_volume_update volumeName ns pod s tr : serves_volume volumeName ns pod s tr → token_update s.
Proof. intros (secret & _ & comp & gc & token & _ & _ & _ & _ & _ & _ & _ & ->). apply with_token_update. Qed.

Lemma writes_reads seg seg' : writes seg = [] → writes (seg ++ seg') = writes seg'.
Proof. intros Hs. by rewrite writes_app, Hs. Qed.

(** *** What the body does, case by case *)

(** A part of a trace in which the component is made, or its token fetched. *)
Definition makes (comp : Component) (r : result (GitComponent E)) (tr : list call) : Prop :=
  ∃ w w', NewGitComponent comp w = (r, w') ∧ w_trace w' = w_trace w ++ tr ∧ writes tr = [].
Definition fetches (gc : GitComponent E) (r : result string) (tr : list call) : Prop :=
  ∃ w w', GetToken gc w = (r, w') ∧ w_trace w' = w_trace w ++ tr ∧ writes tr = [].

Abbreviation read_component pod answer := (CGet KComponent (pod_component pod) answer).

(** The requests that add the token of the pod's component to a secret, the failure that
    is recorded, and what is returned.  A component that is gone is no failure; those of
    the component and its token are recorded but not returned. *)
Inductive adds (pod : Pod) (secret : Secret) : list call → option error → result unit → Prop :=
| adds_gone e : IsNotFound e = true → adds pod secret [read_component pod (inl e)] None (Ok tt)
| adds_unreadable e :
    IsNotFound e = false → adds pod secret [read_component pod (inl e)] (Some e) (Err e)
| adds_unmade comp e tr :
    makes comp (Err e) tr → adds pod secret (read_component pod (inr comp) :: tr) (Some e) (Ok tt)
| adds_make_panic comp m tr :
    makes comp (Panic m) tr → adds pod secret (read_component pod (inr comp) :: tr) None (Panic m)
| adds_no_token comp gc tr1 e tr2 :
    makes comp (Ok gc) tr1 → fetches gc (Err e) tr2 →
    adds pod secret (read_component pod (inr comp) :: tr1 ++ tr2) (Some e) (Ok tt)
| adds_token_panic comp gc tr1 m tr2 :
    makes comp (Ok gc) tr1 → fetches gc (Panic m) tr2 →
    adds pod secret (read_component pod (inr comp) :: tr1 ++ tr2) None (Panic m)
| adds_refused comp gc tr1 token tr2 e :
    makes comp (Ok gc) tr1 → fetches gc (Ok token) tr2 → (∃ e1 e2, env_Update KSecret (with_token token secret) e1 = (inl e, e2)) →
    adds pod secret
      (read_component pod (inr comp) :: tr1 ++ tr2 ++ [CUpdate KSecret (with_token token secret) (inl e)])
      (Some e) (Err e)
| adds_token comp gc tr1 token tr2 s :
    makes comp (Ok gc) tr1 → fetches gc (Ok token) tr2 →
    adds pod secret
      (read_component pod (inr comp) :: tr1 ++ tr2 ++ [CUpdate KSecret (with_token token secret) (inr s)])
      None (Ok tt).

(** The same for the volume an event names.  Nothing is done for a volume without a
    secret, a secret that is gone, and one that has its token. *)
Inductive handles (volumeName ns : string) (pod : Pod) : list call → option error → result unit → Prop :=
| handles_no_secret :
    volume_secret volumeName (pod_Volumes pod) = "" → handles volumeName ns pod [] None (Ok tt)
| handles_read answer tr o r :
    volume_secret volumeName (pod_Volumes pod) ≠ "" →
    match answer with
    | inl e => tr = [] ∧ if IsNotFound e then o = None ∧ r = Ok tt else o = Some e ∧ r = Err e
    | inr secret =>
        match go_lookup (sec_Data secret) "renovate-token" with
        | Some _ => tr = [] ∧ o = None ∧ r = Ok tt
        | None => adds pod secret tr o r
        end
    end →
    handles volumeName ns pod
      (CGet KSecret (MkKey ns (volume_secret volumeName (pod_Volumes pod))) answer :: tr) o r.

(** The failure as the deferred closure sees it. *)
Definition recorded (o : option error) : string := from_option error_msg "" o.

Lemma ev_makes comp l (w : World E) :
  ∃ r w' tr, ev_world (NewGitComponent comp) (l, w) = (r, (l, w')) ∧
    w_trace w' = w_trace w ++ tr ∧ makes comp r tr ∧
    ∀ gc, r = Ok gc → GitComponentLaws gc.
Proof.
  destruct (ev_reads (NewGitComponent comp) l w (factory_reads comp)) as (r & w' & tr & Hm & He & Ht & Hw).
  exists r, w', tr. split_and!; [done|done|by exists w, w'|]. intros gc ->.
  by destruct (factory_makes comp w gc w' Hm).
Qed.

Lemma ev_fetches gc l (w : World E) :
  GitComponentLaws gc →
  ∃ r w' tr, ev_world (GetToken gc) (l, w) = (r, (l, w')) ∧ w_trace w' = w_trace w ++ tr ∧ fetches gc r tr.
Proof.
  intros Hgc. destruct (ev_reads (GetToken gc) l w gc_token_reads) as (r & w' & tr & Hm & He & Ht & Hw).
  exists r, w', tr. split_and!; [done|done|by exists w, w'].
Qed.

Lemma add_token_adds pod secret l (w : World E) :
  loc_errMessage l = "" →
  ∃ r o w' tr, add_token NewGitComponent pod secret (l, w) =
      (r, (MkLocals (loc_evt l) (loc_pod l) (recorded o), w')) ∧
    w_trace w' = w_trace w ++ tr ∧ adds pod secret tr o r.
Proof.
  intros Hl. assert (l = MkLocals (loc_evt l) (loc_pod l) (recorded None)) as Hl0
    by (destruct l; simpl in *; by subst).
  unfold add_token. unfold go_try at 1. fold (pod_component pod).
  destruct (ev_get KComponent (pod_component pod) l w) as (a & w1 & -> & Ht1).
  destruct a as [err|comp]; cbn [of_sum].
  { destruct (IsNotFound err) eqn:Hnf.
    - exists (Ok tt), None, w1. eexists. split; [by rewrite <-Hl0|]. split; [exact Ht1|by constructor].
    - exists (Err err), (Some err), w1. eexists. split; [done|]. split; [exact Ht1|by constructor]. }
  unfold go_try at 1. destruct (ev_makes comp l w1) as (r2 & w2 & tr2 & -> & Ht2 & Hmk & Hlaws).
  rewrite Ht1, <-app_assoc in Ht2. destruct r2 as [gc|err|p].
  2: { exists (Ok tt), (Some err), w2. eexists. split; [done|]. split; [exact Ht2|by eapply adds_unmade]. }
  2: { exists (Panic p), None, w2. eexists. split; [by rewrite <-Hl0|]. split; [exact Ht2|by eapply adds_make_panic]. }
  unfold go_try at 1. destruct (ev_fetches gc l w2 (Hlaws gc eq_refl)) as (r3 & w3 & tr3 & -> & Ht3 & Hfe).
  rewrite Ht2, <-!app_assoc in Ht3. cbn [app] in Ht3. destruct r3 as [token|err|p].
  2: { exists (Ok tt), (Some err), w3. eexists. split; [done|]. split; [exact Ht3|by eapply adds_no_token]. }
  2: { exists (Panic p), None, w3. eexists. split; [by rewrite <-Hl0|]. split; [exact Ht3|by eapply adds_token_panic]. }
  unfold go_try at 1. destruct (ev_update KSecret (with_token token secret) l w3) as (a & w4 & -> & Ht4 & Hup).
  rewrite Ht3, <-!app_assoc in Ht4. cbn [app] in Ht4. rewrite <-!app_assoc in Ht4. destruct a as [err|s].
  - exists (Err err), (Some err), w4. eexists. split; [done|]. split; [exact Ht4|by eapply adds_refused].
  - exists (Ok tt), None, w4. eexists. split; [by rewrite <-Hl0|]. split; [exact Ht4|by eapply adds_token].
Qed.

Lemma handle_pod_handles volumeName ns pod l (w : World E) :
  loc_errMessage l = "" →
  ∃ r o w' tr, handle_pod NewGitComponent volumeName ns pod (l, w) =
      (r, (MkLocals (loc_evt l) (loc_pod l) (recorded o), w')) ∧
    w_trace w' = w_trace w ++ tr ∧ handles volumeName ns pod tr o r.
Proof.
  intros Hl. assert (l = MkLocals (loc_evt l) (loc_pod l) (recorded None)) as Hl0
    by (destruct l; simpl in *; by subst).
  unfold handle_pod. case_decide as Hn.
  { exists (Ok tt), None, w, []. rewrite app_nil_r. split; [by rewrite <-Hl0|]. split; [done|by constructor]. }
  unfold go_try. match goal with |- context [client_Get KSecret ?k] =>
    destruct (ev_get KSecret k l w) as (a & w1 & -> & Ht1) end.
  destruct a as [err|secret]; cbn [of_sum].
  { destruct (IsNotFound err) eqn:Hnf.
    - exists (Ok tt), None, w1. eexists. split; [by rewrite <-Hl0|]. split; [exact Ht1|].
      constructor; [done|]. by rewrite Hnf.
    - exists (Err err), (Some err), w1. eexists. split; [done|]. split; [exact Ht1|].
      constructor; [done|]. by rewrite Hnf. }
  destruct (go_lookup (sec_Data secret) "renovate-token") eqn:Htok.
  { exists (Ok tt), None, w1. eexists. split; [by rewrite <-Hl0|]. split; [exact Ht1|].
    constructor; [done|]. by rewrite Htok. }
  destruct (add_token_adds pod secret l w1 Hl) as (r & o & w2 & tr & -> & Ht2 & Hadd).
  rewrite Ht1, <-app_assoc in Ht2. exists r, o, w2. eexists. split; [done|]. split; [exact Ht2|].
  constructor; [done|]. by rewrite Htok.
Qed.

(** *** What matters of it *)

Lemma makes_writes comp r tr : makes comp r tr → writes tr = [].
Proof. by intros (w & w' & _ & _ & Hw). Qed.
Lemma fetches_writes gc r tr : fetches gc r tr → writes tr = [].
Proof. by intros (w & w' & _ & _ & Hw). Qed.

Lemma adds_added pod secret tr o r l :
  adds pod secret tr o r → loc_errMessage l = recorded o → added (serves pod secret) l r tr.
Proof.
  intros Ha Hl.
  assert (∀ comp gc tr1 token tr2 a, makes comp (Ok gc) tr1 → fetches gc (Ok token) tr2 →
    let c := CUpdate KSecret (with_token token secret) a in
    writes (read_component pod (inr comp) :: tr1 ++ tr2 ++ [c]) = [c] ∧
    serves pod secret (with_token token secret) (read_component pod (inr comp) :: tr1 ++ tr2 ++ [c])) as Hup.
  { intros comp gc tr1 token tr2 a Hm Hf c. split.
    - cbn. rewrite !writes_app, (makes_writes _ _ _ Hm), (fetches_writes _ _ _ Hf). done.
    - destruct Hm as (wa & wb & Hm & _), Hf as (wc & wd & Hf & _).
      exists comp, gc, token, wa, wb, wc, wd. split_and!; [left|done..]. }
  destruct Ha as [e Hnf|e Hnf|comp e tr Hm|comp m tr Hm|comp gc tr1 e tr2 Hm Hf|comp gc tr1 m tr2 Hm Hf
    |comp gc tr1 token tr2 e Hm Hf He|comp gc tr1 token tr2 s Hm Hf].
  - apply added_nothing; [done|]. by intros ?%not_found_component.
  - apply added_nothing; [done|]. by intros ?%not_found_component.
  - apply added_nothing; [exact (makes_writes _ _ _ Hm)|]. intros _. right. exists e. split; [|done].
    destruct Hm as (w & w' & Hm & _). left. eauto.
  - apply added_nothing; [exact (makes_writes _ _ _ Hm)|]. intros _. left. by exists m.
  - apply added_nothing; [cbn; by rewrite writes_app, (makes_writes _ _ _ Hm), (fetches_writes _ _ _ Hf)|].
    intros _. right. exists e. split; [|done].
    destruct Hm as (w & w' & Hm & _), Hf as (w1 & w2 & Hf & _). right. left. eauto 10.
  - apply added_nothing; [cbn; by rewrite writes_app, (makes_writes _ _ _ Hm), (fetches_writes _ _ _ Hf)|].
    intros _. left. by exists m.
  - destruct (Hup comp gc tr1 token tr2 (inl e) Hm Hf) as [Hw Hs].
    eapply added_failed; [exact Hw|exact Hs| |done]. right. right. eauto.
  - destruct (Hup comp gc tr1 token tr2 (inr s) Hm Hf) as [Hw Hs]. by eapply added_token.
Qed.

Lemma added_prefix (P Q : Secret → list call → Prop) l r c tr :
  is_write c = false → ¬ found_component [c] → (∀ s, P s tr → Q s (c :: tr)) →
  added P l r tr → added Q l r (c :: tr).
Proof.
  intros Hc Hf HP Ha. assert (writes (c :: tr) = writes tr) as Hw by (cbn; by rewrite Hc).
  destruct Ha as [Hn Hm|s a Hs ? ?|s e Hs ? ? ?].
  - apply added_nothing; [by rewrite Hw|]. intros (k & c' & Hin). apply Hm.
    apply elem_of_cons in Hin as [Heq|Hin]; [|by exists k, c'].
    exfalso. apply Hf. exists k, c'. rewrite Heq. by left.
  - eapply added_token; [by rewrite Hw|auto..].
  - eapply added_failed; [by rewrite Hw|auto..].
Qed.

Lemma serves_prefix pod secret s c tr : serves pod secret s tr → serves pod secret s (c :: tr).
Proof.
  intros (comp & gc & token & wa & wb & wc & wd & Hin & Hrest).
  exists comp, gc, token, wa, wb, wc, wd. split; [by right|done].
Qed.

Lemma added_idle P l r tr : writes tr = [] → ¬ found_component tr → added P l r tr.
Proof. intros Hw Hf. by apply added_nothing. Qed.

Lemma found_component_cons c tr :
  found_component (c :: tr) → found_component [c] ∨ found_component tr.
Proof.
  intros (k & x & [Hin|Hin]%elem_of_cons); [left|right]; exists k, x; [|done].
  rewrite Hin. by left.
Qed.

Lemma not_found_other c : (∀ k x, c ≠ CGet KComponent k (inr x)) → ¬ found_component [c].
Proof. intros Hc (k & x & Hin%list_elem_of_singleton). by eapply Hc. Qed.

Lemma handles_added volumeName ns pod tr o r l :
  handles volumeName ns pod tr o r → loc_errMessage l = recorded o →
  added (serves_volume volumeName ns pod) l r tr.
Proof.
  intros [Hn|answer tr' o' r' Hn Ha] Hl.
  { apply added_idle; [done|]. intros (? & ? & Hin). by apply not_elem_of_nil in Hin. }
  set (c := CGet KSecret _ answer) in *.
  assert (¬ found_component [c]) as Hnf by by apply not_found_other.
  destruct answer as [e|secret]; [destruct Ha as [-> _]; by apply added_idle|].
  destruct (go_lookup (sec_Data secret) "renovate-token"); [destruct Ha as [-> _]; by apply added_idle|].
  eapply added_prefix; [done..| |by eapply adds_added].
  intros s Hs. exists secret. split; [left|by apply serves_prefix].
Qed.

Lemma handle_pod_cases volumeName ns pod l (w : World E) :
  loc_errMessage l = "" →
  ∃ r l' w' seg, handle_pod NewGitComponent volumeName ns pod (l, w) = (r, (l', w')) ∧
    w_trace w' = w_trace w ++ seg ∧ same_objects l l' ∧
    added (serves_volume volumeName ns pod) l' r seg.
Proof.
  intros Hl. destruct (handle_pod_handles volumeName ns pod l w Hl) as (r & o & w' & tr & Hrun & Ht & Hh).
  exists r, (MkLocals (loc_evt l) (loc_pod l) (recorded o)), w', tr. split_and!; [done..|].
  by eapply handles_added.
Qed.

Lemma event_body_cases req (w : World E) :
  ∃ r l w' a seg, event_body NewGitComponent req (locals_init, w) = (r, (l, w')) ∧
    w_trace w' = w_trace w ++ CGet KEvent req a :: seg ∧
    a = (env_Get KEvent req (w_env w)).1 ∧
    loc_evt l = (match a with inr evt => evt | inl _ => zero_event end) ∧
    added (λ s _, token_update s) l r (CGet KEvent req a :: seg).
Proof.
  unfold event_body. unfold go_try at 1.
  assert (∃ w1, ev_world (client_Get KEvent req) (locals_init, w) =
      (of_sum (env_Get KEvent req (w_env w)).1, (locals_init, w1)) ∧
      w_trace w1 = w_trace w ++ [CGet KEvent req (env_Get KEvent req (w_env w)).1]) as (w1 & -> & Ht1).
  { unfold ev_world, client_Get, request. simpl. destruct (env_Get KEvent req (w_env w)) as [a e'].
    eexists. split; reflexivity. }
  set (a := (env_Get KEvent req (w_env w)).1) in *.
  assert (¬ found_component [CGet KEvent req a]) as Hnf by by apply not_found_other.
  assert (¬ found_component []) as Hnil by by intros (? & ? & ?%not_elem_of_nil).
  destruct a as [err|evt]; cbn [of_sum].
  { destruct (IsNotFound err); do 5 eexists; (split; [reflexivity|]); (split; [exact Ht1|]);
      (split_and!; [done..|]); by apply added_idle. }
  unfold go_bind at 1. unfold set_evt at 1, go_modify at 1. cbv beta iota. cbn [fst snd].
  set (l1 := MkLocals evt _ _).
  case_decide.
  2: { exists (Ok tt), l1, w1, (inr evt), []. split_and!; try done. by apply added_idle. }
  destruct (message_volume (ev_Message evt)) as [volumeName|].
  2: { exists (Ok tt), l1, w1, (inr evt), []. split_and!; try done. by apply added_idle. }
  unfold go_try. match goal with |- context [client_Get KPod ?k] =>
    destruct (ev_get KPod k l1 w1) as (a & w2 & -> & Ht2); set (key := k) in * end.
  assert (¬ found_component [CGet KPod key a]) as Hnf2 by by apply not_found_other.
  rewrite Ht1, <-app_assoc in Ht2. cbn [app] in Ht2.
  destruct a as [err|pod]; cbn [of_sum].
  { destruct (IsNotFound err); do 5 eexists; (split; [reflexivity|]); (split; [exact Ht2|]);
      (split_and!; [done..|]); apply added_idle; try done;
      by intros [?|?]%found_component_cons. }
  unfold go_bind. unfold set_pod, go_modify. cbv beta iota. cbn [fst snd].
  set (l2 := MkLocals _ pod _).
  destruct (handle_pod_cases volumeName (ref_Namespace (ev_InvolvedObject evt)) pod l2 w2)
    as (r & l' & w' & seg & Hp & Ht & [Hevt Hpod] & Hadded); [done|].
  exists r, l', w', (inr evt), (CGet KPod key (inr pod) :: seg). split; [exact Hp|].
  split; [by rewrite Ht, Ht2, <-app_assoc|]. split; [done|]. split; [by rewrite Hevt|].
  eapply (added_prefix (λ s _, token_update s)); [done..|].
  eapply added_prefix; [done..| |exact Hadded]. intros s. apply serves_volume_update.
Qed.

(** ** The deferred closure *)

Definition marked (evt : Event) : Event :=
  with_event_annotations
    (Some (<[processed_annotation := "true"]> (go_make_if_nil (Annotations (ev_meta evt))))) evt.

(** The requests that cancel the run of a pod. *)
Definition cancellation (pod : Pod) (errMessage : string) (tr : list call) : Prop :=
  match go_lookup (Labels (pod_meta pod)) pipelineRun_label with
  | None => tr = []
  | Some plrName =>
      let key := MkKey (Namespace (pod_meta pod)) plrName in
      (∃ e, tr = [CGet KPipelineRun key (inl e)]) ∨
      ∃ plr a, tr = [CGet KPipelineRun key (inr plr); CPatch KPipelineRun (cancelled plr errMessage) a]
  end.

Lemma cancelPipelineRun_run pod errMessage (w : World E) :
  ∃ w' tr, cancelPipelineRun pod errMessage w = (Ok tt, w') ∧ w_trace w' = w_trace w ++ tr ∧
    cancellation pod errMessage tr.
Proof.
  unfold cancelPipelineRun, cancellation.
  destruct (go_lookup _ pipelineRun_label) as [n|]; [|exists w, []; by rewrite app_nil_r].
  unfold go_try, client_Get, client_Patch, request.
  destruct (env_Get KPipelineRun _ (w_env w)) as [[e|plr] e1]; cbn [of_sum].
  { do 2 eexists. split; [reflexivity|]. split; [reflexivity|]. left. by exists e. }
  cbn [w_env log_call set_env].
  destruct (env_Patch KPipelineRun (cancelled plr errMessage) plr e1) as [a e2].
  eexists _, [_; CPatch KPipelineRun (cancelled plr errMessage) a].
  split; [destruct a; reflexivity|]. split; [simpl; by rewrite <-app_assoc|]. right. by exists plr, a.
Qed.

Lemma mark_run evt (w : World E) :
  ∃ w' a, (try! _ := markEventAsProcessed evt in go_ret tt) w = (Ok tt, w') ∧
    w_trace w' = w_trace w ++ [CPatch KEvent (marked evt) a].
Proof.
  unfold markEventAsProcessed, go_try, go_bind, client_Patch, request.
  destruct (env_Patch KEvent _ _ (w_env w)) as [a e'].
  eexists _, a. split; [destruct a; reflexivity|]. reflexivity.
Qed.

Lemma finish_event_run l (w : World E) :
  ∃ w' mark cancel, finish_event (l, w) = (Ok tt, (l, w')) ∧
    w_trace w' = w_trace w ++ mark ++ cancel ∧
    (if decide (Name (ev_meta (loc_evt l)) = "") then mark = []
     else ∃ a, mark = [CPatch KEvent (marked (loc_evt l)) a]) ∧
    (if decide (Name (pod_meta (loc_pod l)) = "" ∨ loc_errMessage l = "") then cancel = []
     else cancellation (loc_pod l) (loc_errMessage l) cancel).
Proof.
  unfold finish_event. cbn [fst]. unfold ev_world. cbn [snd].
  assert (∃ w1 mark, (if decide (Name (ev_meta (loc_evt l)) = "") then go_ret tt
      else try! _ := markEventAsProcessed (loc_evt l) in go_ret tt) w = (Ok tt, w1) ∧
    w_trace w1 = w_trace w ++ mark ∧
    (if decide (Name (ev_meta (loc_evt l)) = "") then mark = []
     else ∃ a, mark = [CPatch KEvent (marked (loc_evt l)) a])) as (w1 & mark & Hm & Ht1 & Hmark).
  { case_decide; [exists w, []; by rewrite app_nil_r|].
    destruct (mark_run (loc_evt l) w) as (w1 & a & Hm & Ht). eauto 10. }
  unfold go_bind. rewrite Hm. clear Hm.
  destruct (decide (Name (pod_meta (loc_pod l)) = "" ∨ loc_errMessage l = "")).
  - exists w1, mark, []. rewrite app_nil_r. split_and!; [done|done|exact Hmark|done].
  - destruct (cancelPipelineRun_run (loc_pod l) (loc_errMessage l) w1) as (w2 & tr & -> & Ht2 & Hc).
    exists w2, mark, tr. rewrite Ht2, Ht1, <-app_assoc.
    split_and!; [done|done|exact Hmark|exact Hc].
Qed.

(** ** Reconcile *)

(** A whole reconciliation: the body, the mark and the cancellation. *)
Lemma Reconcile_cases req (w : World E) :
  let a := (env_Get KEvent req (w_env w)).1 in
  let evt := match a with inr evt => evt | inl _ => zero_event end in
  ∃ r l w' seg mark cancel, Reconcile NewGitComponent req w = (r, w') ∧
    w_trace w' = w_trace w ++ (CGet KEvent req a :: seg) ++ mark ++ cancel ∧
    added (λ s _, token_update s) l r (CGet KEvent req a :: seg) ∧
    (if decide (Name (ev_meta evt) = "") then mark = []
     else ∃ a', mark = [CPatch KEvent (marked evt) a']) ∧
    (if decide (Name (pod_meta (loc_pod l)) = "" ∨ loc_errMessage l = "") then cancel = []
     else cancellation (loc_pod l) (loc_errMessage l) cancel).
Proof.
  intros a evt. unfold Reconcile, go_defer.
  destruct (event_body_cases req w) as (r & l & w1 & a' & seg & -> & Ht & -> & Hevt & Hadd).
  destruct (finish_event_run l w1) as (w2 & mark & cancel & -> & Ht2 & Hmark & Hcancel).
  exists r, l, w2, seg, mark, cancel. fold a in Ht, Hadd, Hevt. fold evt in Hevt. rewrite Hevt in Hmark.
  split; [done|]. split; [by rewrite Ht2, Ht, <-app_assoc|]. done.
Qed.

(** A reconciliation whose event and pod are there. *)
Lemma Reconcile_pod_exact req (w : World E) evt pod volume e1 e2 :
  env_Get KEvent req (w_env w) = (inr evt, e1) →
  ref_Kind (ev_InvolvedObject evt) = "Pod" → message_volume (ev_Message evt) = Some volume →
  let ns := ref_Namespace (ev_InvolvedObject evt) in
  let key := MkKey ns (ref_Name (ev_InvolvedObject evt)) in
  env_Get KPod key e1 = (inr pod, e2) →
  ∃ seg o mark cancel,
    w_trace (Reconcile NewGitComponent req w).2 =
      w_trace w ++ CGet KEvent req (inr evt) :: CGet KPod key (inr pod) :: seg ++ mark ++ cancel ∧
    handles volume ns pod seg o (Reconcile NewGitComponent req w).1 ∧
    (if decide (Name (ev_meta evt) = "") then mark = [] else ∃ a, mark = [CPatch KEvent (marked evt) a]) ∧
    (if decide (Name (pod_meta pod) = "" ∨ recorded o = "") then cancel = []
     else cancellation pod (recorded o) cancel).
Proof.
  intros Hevt Hkind Hmsg ns key Hpod.
  set (w2 := log_call (CGet KPod key (inr pod)) (set_env e2 (log_call (CGet KEvent req (inr evt)) (set_env e1 w)))).
  assert (event_body NewGitComponent req (locals_init, w) =
          handle_pod NewGitComponent volume ns pod (MkLocals evt pod "", w2)) as Hbody.
  { unfold event_body, ev_world, client_Get, request, set_evt, set_pod, go_modify, go_try, go_bind.
    cbn [snd]. rewrite Hevt. cbn [of_sum fst snd]. rewrite decide_True, Hmsg by done.
    cbn [w_env log_call set_env snd fst]. fold ns. fold key. by rewrite Hpod. }
  destruct (handle_pod_handles volume ns pod (MkLocals evt pod "") w2) as (r & o & w3 & seg & Hh & Ht & Hadd);
    [done|]. cbn [loc_evt loc_pod] in Hh.
  destruct (finish_event_run (MkLocals evt pod (recorded o)) w3) as (w4 & mark & cancel & Hf & Htf & Hm & Hc).
  exists seg, o, mark, cancel. unfold Reconcile, go_defer. rewrite Hbody, Hh, Hf. cbn [fst snd].
  split.
  { rewrite Htf, Ht. unfold w2. simpl. by rewrite <-!app_assoc. }
  split; [by destruct r|done].
Qed.
End Proofs.

Lemma writes_elem tr c : writes tr = [c] → c ∈ tr.
Proof.
  intros Hw. assert (c ∈ writes tr) as Hc by (rewrite Hw; left).
  unfold writes in Hc. rewrite list_elem_of_In, filter_In, <-list_elem_of_In in Hc. tauto.
Qed.

(** Neither the mark nor the cancellation looks for a component. *)
Lemma found_in_body `{Libraries} req a seg evt pod message mark cancel :
  found_component ((CGet KEvent req a :: seg) ++ mark ++ cancel) →
  (if decide (Name (ev_meta evt) = "") then mark = []
   else ∃ a', mark = [CPatch KEvent (marked evt) a']) →
  (if decide (Name (pod_meta pod) = "" ∨ message = "") then cancel = []
   else cancellation pod message cancel) →
  found_component seg.
Proof.
  intros (k & c & Hin) Hmark Hcancel. exists k, c.
  rewrite !elem_of_app, elem_of_cons in Hin. destruct Hin as [[Hin|Hin]|[Hin|Hin]]; [done|done|..].
  - destruct (decide _); [subst; by apply not_elem_of_nil in Hin|].
    destruct Hmark as [a' ->]. by apply list_elem_of_singleton in Hin.
  - exfalso. destruct (decide (_ ∨ _)); [subst; by apply not_elem_of_nil in Hin|].
    unfold cancellation in Hcancel. destruct (go_lookup _ pipelineRun_label);
      [|subst; by apply not_elem_of_nil in Hin].
    destruct Hcancel as [[e ->]|(plr & a' & ->)]; rewrite !elem_of_cons in Hin;
      repeat (destruct Hin as [Hin|Hin]; [discriminate|]); by apply not_elem_of_nil in Hin.
Qed.

(** ** Theorems *)

Section Theorems.
Context {E : Type} `{Environment E} `{Libraries}.
Context (NewGitComponent : GitComponentFactory E).

(** Every event that is read is marked as processed, however its handling ends,
    so that it is not looked at again. *)
Theorem Reconcile_marks req (w : World E) evt :
  FactoryLaws NewGitComponent →
  (env_Get KEvent req (w_env w)).1 = inr evt → Name (ev_meta evt) ≠ "" →
  ∃ a, CPatch KEvent (marked evt) a ∈ w_trace (Reconcile NewGitComponent req w).2.
Proof.
  intros Hlaws Hget Hname.
  destruct (Reconcile_cases NewGitComponent req w)
    as (r & l & w' & seg & mark & cancel & -> & Ht & _ & Hmark & _).
  rewrite Hget, decide_False in Hmark by done. destruct Hmark as [a ->].
  exists a. simpl. rewrite Ht. rewrite !elem_of_app. right. right. left. by left.
Qed.

(** C33.  A reconciliation writes at most three things, in this order: the secret,
    once and with a token; the mark on the event; and the cancellation of the pod's
    run.  The run is never cancelled after the secret was updated. *)
Theorem Reconcile_event_writes req (w : World E) :
  FactoryLaws NewGitComponent →
  ∃ upd mark cancel,
    writes (w_trace (Reconcile NewGitComponent req w).2) = writes (w_trace w) ++ upd ++ mark ++ cancel ∧
    (upd = [] ∨ ∃ s a, upd = [CUpdate KSecret s a] ∧ token_update s ∧ (is_ok (of_sum a) = true → cancel = [])) ∧
    (mark = [] ∨ ∃ evt a, mark = [CPatch KEvent (marked evt) a]) ∧
    (cancel = [] ∨ ∃ plr message a, cancel = [CPatch KPipelineRun (cancelled plr message) a]).
Proof.
  intros Hlaws. destruct (Reconcile_cases NewGitComponent req w)
    as (r & l & w' & seg & mark & cancel & -> & Ht & Hadd & Hmark & Hcancel).
  cbn [snd]. rewrite Ht, writes_app.
  set (evt := match (env_Get KEvent req (w_env w)).1 with inr e => e | inl _ => zero_event end) in *.
  set (tr := CGet KEvent req _ :: seg) in *.
  exists (writes tr), mark, (writes cancel). rewrite !writes_app.
  assert (writes mark = mark ∧ (mark = [] ∨ ∃ evt a, mark = [CPatch KEvent (marked evt) a])) as [-> Hm].
  { destruct (decide (Name (ev_meta evt) = "")); [subst mark; auto|].
    destruct Hmark as [a ->]. split; [done|]. eauto. }
  assert (writes cancel = [] ∨ ∃ plr message a, writes cancel = [CPatch KPipelineRun (cancelled plr message) a])
    as Hc.
  { destruct (decide (_ ∨ _)) as [|_]; [subst cancel; by left|]. unfold cancellation in Hcancel.
    destruct (go_lookup _ pipelineRun_label); [|subst cancel; by left].
    destruct Hcancel as [[e ->]|(plr & a & ->)]; [by left|]. right. eauto. }
  split; [done|]. split; [|done].
  destruct Hadd as [Hn _|s a Hs Htok Hmsg|s e Hs Htok _ _].
  - by left.
  - right. exists s, (inr a). split; [done|]. split; [done|]. intros _.
    rewrite decide_True in Hcancel by auto. by subst.
  - right. exists s, (inl e). done.
Qed.

(** C7.  What becomes of a pod that waits for its token.  When the event and the pod can
    be read, the reconciliation makes the requests of one of the cases of [handles] and
    then marks the event.  The only write among those is an update of the secret behind
    the volume the event names, as it was read, with the token of the component the pod's
    labels name.  If that update was accepted, or there is nothing to do because the volume
    has no secret, the secret or the component is gone, or the token is there already,
    nothing else follows, and the run is not cancelled.  If anything else failed, the run
    of the pod is looked for and, when it is found, asked to be cancelled with the message
    of that failure (unless the message is empty, or the pod has no name or no run). *)
Theorem Reconcile_delivers_or_cancels req (w : World E) evt pod volume e1 e2 :
  FactoryLaws NewGitComponent →
  env_Get KEvent req (w_env w) = (inr evt, e1) →
  ref_Kind (ev_InvolvedObject evt) = "Pod" → message_volume (ev_Message evt) = Some volume →
  let ns := ref_Namespace (ev_InvolvedObject evt) in
  let key := MkKey ns (ref_Name (ev_InvolvedObject evt)) in
  env_Get KPod key e1 = (inr pod, e2) →
  ∃ seg failure mark cancel,
    w_trace (Reconcile NewGitComponent req w).2 =
      w_trace w ++ CGet KEvent req (inr evt) :: CGet KPod key (inr pod) :: seg ++ mark ++ cancel ∧
    handles NewGitComponent volume ns pod seg failure (Reconcile NewGitComponent req w).1 ∧
    (if decide (Name (ev_meta evt) = "") then mark = [] else ∃ a, mark = [CPatch KEvent (marked evt) a]) ∧
    (if decide (Name (pod_meta pod) = "" ∨ recorded failure = "") then cancel = []
     else cancellation pod (recorded failure) cancel).
Proof. intros Hlaws. apply (Reconcile_pod_exact NewGitComponent). Qed.
End Theorems.

(** ** Examples *)

Definition waiting_volume : string := "secret-renovate-1-00000000".

Definition waiting_event : Event :=
  MkEvent (new_meta "event" "mintmaker") (MkRef "Pod" "mintmaker" "pod")
    ("MountVolume.SetUp failed for volume " +:+ dq +:+ waiting_volume +:+ dq +:+
     " : references non-existent secret key: renovate-token") "FailedMount".

Definition waiting_pod : Pod :=
  MkPod (MkMeta "pod" "mintmaker"
           (Some {[MintMakerComponentNameLabel := "one"; MintMakerComponentNamespaceLabel := "tenant";
                   pipelineRun_label := "renovate-1"]}) None [] [])
    [MkVolume waiting_volume None (Some (MkProjection "renovate-1" [] None None))].

Definition waiting_objs (k : Kind) : list (obj k) :=
  match k with
  | KEvent => [waiting_event]
  | KPod => [waiting_pod]
  | KSecret => [MkSecret (new_meta "renovate-1" "mintmaker") SecretTypeOpaque None None]
  | KComponent => [component_resource "one" None]
  | _ => []
  end.

Definition waiting_world : World Cluster := start (cluster_with waiting_objs).
Definition event_key : NamespacedName := MkKey "mintmaker" "event".

(** The token reaches the secret, and the event is marked. *)
Example event_token :
  (λ c, match c with
        | CUpdate k o _ => Some (key_Name (key_of (obj_meta k o)))
        | CPatch k o _ => Some (key_Name (key_of (obj_meta k o)))
        | _ => None
        end) <$> writes (w_trace (Reconcile sample_factory event_key waiting_world).2) =
  [Some "renovate-1"; Some "event"].
Proof. vm_compute. reflexivity. Qed.

Lemma Reconcile_marks_witness :
  ∃ evt a, CPatch KEvent (marked evt) a ∈ w_trace (Reconcile sample_factory event_key waiting_world).2.
Proof.
  destruct (env_Get KEvent event_key (w_env waiting_world)).1 as [e|evt] eqn:Hget; [discriminate Hget|].
  exists evt. apply (Reconcile_marks sample_factory event_key waiting_world evt _ Hget).
  injection Hget as <-. discriminate.
Defined.

Lemma Reconcile_event_writes_witness :
  ∃ upd mark cancel,
    writes (w_trace (Reconcile sample_factory event_key waiting_world).2) =
      writes (w_trace waiting_world) ++ upd ++ mark ++ cancel.
Proof.
  destruct (Reconcile_event_writes sample_factory event_key waiting_world _)
    as (upd & mark & cancel & Hw & _).
  exists upd, mark, cancel. exact Hw.
Defined.

(** In the sample cluster errors have messages. *)
Lemma errors_speak (f : Component → GitComponent Cluster) e :
  (∀ c w w', GetToken (f c) w ≠ (Err e, w')) → raised (λ c, go_ret (f c)) e → error_msg e ≠ "".
Proof.
  intros Hf [(c & w & w' & [=])|[(c & w & gc & w' & w1 & w2 & [= <- _] & Ht)|(s & e1 & e2 & Hu)]].
  - by apply Hf in Ht.
  - simpl in Hu. unfold cluster_Update in Hu. destruct (existsb _ _); [discriminate Hu|].
    injection Hu as <- _. discriminate.
Qed.

Lemma sample_errors_speak e : raised sample_factory e → error_msg e ≠ "".
Proof. by apply errors_speak. Qed.

Lemma Reconcile_delivers_or_cancels_witness :
  ∃ seg failure mark cancel,
    w_trace (Reconcile sample_factory event_key waiting_world).2 =
      w_trace waiting_world ++ CGet KEvent event_key (inr waiting_event) ::
        CGet KPod (MkKey "mintmaker" "pod") (inr waiting_pod) :: seg ++ mark ++ cancel ∧
    handles sample_factory waiting_volume "mintmaker" waiting_pod seg failure (Ok tt).
Proof.
  destruct (Reconcile_delivers_or_cancels sample_factory event_key waiting_world waiting_event waiting_pod
    waiting_volume (w_env waiting_world) (w_env waiting_world) _) as (seg & o & mark & cancel & Ht & Hh & _);
    [vm_compute; reflexivity..|].
  exists seg, o, mark, cancel. split; [exact Ht|].
  assert ((Reconcile sample_factory event_key waiting_world).1 = Ok tt) as Hr by (vm_compute; reflexivity).
  rewrite Hr in Hh. exact Hh.
Defined.

(** ** The PipelineRun controller *)

(** The controller wakes up exactly once in the life of a run that does not
    become unfinished again: of a chain of updates with that property, at most one
    passes the filter. *)
Theorem UpdateFunc_once (IsDone : PipelineRun → bool) (states : list PipelineRun) :
  (∀ i j pr pr', i ≤ j → states !! i = Some pr → states !! j = Some pr' →
     IsDone pr = true → IsDone pr' = true) →
  ∀ i j a b c d, states !! i = Some a → states !! S i = Some b →
    states !! j = Some c → states !! S j = Some d →
    UpdateFunc IsDone a b = true → UpdateFunc IsDone c d = true → i = j.
Proof.
  intros Hmono i j a b c d Ha Hb Hc Hd. unfold UpdateFunc.
  rewrite !andb_true_iff, !negb_true_iff. intros [Hfa Hdb] [Hfc Hdd].
  destruct (lt_eq_lt_dec i j) as [[Hlt|]|Hlt]; [|done|].
  - exfalso. rewrite (Hmono (S i) j b c) in Hfc; [done|lia|done..].
  - exfalso. rewrite (Hmono (S j) i d a) in Hfa; [done|lia|done..].
Qed.

Definition run_named (name : string) : PipelineRun :=
  MkPipelineRun (new_meta name "mintmaker") (MkPRSpec [] [] [] [] None "" "") (MkPRStatus [] None).

Lemma UpdateFunc_once_witness :
  0 = 0 ∧ UpdateFunc (λ pr, bool_decide (Name (pr_meta pr) = "done")) (run_named "a") (run_named "done") = true.
Proof.
  split; [|reflexivity].
  apply (UpdateFunc_once (λ pr, bool_decide (Name (pr_meta pr) = "done"))
    [run_named "a"; run_named "done"]) with (run_named "a") (run_named "done") (run_named "a") (run_named "done");
    [|reflexivity..].
  intros [|[|i]] [|[|j]] pr pr' Hij Hi Hj; simpl in *; simplify_eq; try done; lia.
Defined.
