(* ===== verification/Delivery.v ===== *)
(** * The token of a run

    The two controllers together: a PipelineRun that the DependencyUpdateCheck
    controller asked for, the pod Tekton starts for it, the event that tells that the
    pod waits for its token, and what the Event controller does about it. *)

From S2P Require Import Prelude GoStrings Json Kube Metrics Config World Sample GitComponent.
From S2P Require Import Sanitize Tekton DucController RunShape DucProofs DucSchedule.
From S2P Require Import DucSelect EventController EventMessage EventProofs.
From Stdlib Require Import Ascii.

(** ** Pods and events of a run *)

(** The volumes of the tasks of a run. *)
Definition run_volumes (run : PipelineRun) : list Volume :=
  prs_Tasks (pr_Spec run) ≫= λ t,
    match task_TaskSpec t with Some ts => ts_Volumes ts | None => [] end.

(** What Tekton documents of the pods of a run: they are in its namespace, carry its
    labels and its name, and have the volumes of their task; and the API server refuses
    a pod with two volumes of a name. *)
Record pod_of (run : PipelineRun) (pod : Pod) : Prop := {
  pod_of_name : Name (pod_meta pod) ≠ "";
  pod_of_namespace : Namespace (pod_meta pod) = Namespace (pr_meta run);
  pod_of_labels label value :
    go_lookup (Labels (pr_meta run)) label = Some value →
    go_lookup (Labels (pod_meta pod)) label = Some value;
  pod_of_run : go_lookup (Labels (pod_meta pod)) pipelineRun_label = Some (Name (pr_meta run));
  pod_of_volumes : run_volumes run ⊆ pod_Volumes pod;
  pod_of_distinct : NoDup (vol_Name <$> pod_Volumes pod)
}.

(** The event is about the pod, and about a volume that asks for the token. *)
Record waits_for_token (run : PipelineRun) (pod : Pod) (evt : Event) : Prop := {
  waits_object : ev_InvolvedObject evt = MkRef "Pod" (Namespace (pod_meta pod)) (Name (pod_meta pod));
  waits_volume : ∃ v, v ∈ run_volumes run ∧ asks_token v ∧
                   message_volume (ev_Message evt) = Some (vol_Name v)
}.

Lemma volume_secret_found v p volumes :
  v ∈ volumes → vol_Secret v = Some p → NoDup (vol_Name <$> volumes) →
  volume_secret (vol_Name v) volumes = proj_Name p.
Proof.
  intros Hv Hp. unfold volume_secret. induction volumes as [|v' volumes IH]; [by apply elem_of_nil in Hv|].
  rewrite fmap_cons. intros [Hn Hnd]%NoDup_cons. cbn [List.find].
  apply elem_of_cons in Hv as [<-|Hv].
  - rewrite !bool_decide_eq_true_2 by eauto. destruct v. cbn in *. by subst.
  - rewrite (bool_decide_eq_false_2 (_ = vol_Name v)); [by apply IH|].
    intros E. apply Hn. rewrite E. by apply list_elem_of_fmap_2.
Qed.

Section Delivery.
Context {E : Type} `{EnvironmentLaws E} `{Libraries}.
Context (NewGitComponent : GitComponentFactory E) `{!FactoryLaws NewGitComponent}.

Lemma run_labels_component (gc : GitComponent E) branch :
  run_labels gc branch !! MintMakerComponentNameLabel = Some (GetName gc) ∧
  run_labels gc branch !! MintMakerComponentNamespaceLabel = Some (GetNamespace gc).
Proof. unfold run_labels. simpl. by simplify_map_eq. Qed.

Lemma run_shape_meta name (gc : GitComponent E) branch kite run :
  run_shape name gc branch kite run → pr_meta run = run_meta name gc branch.
Proof. by intros [_ Hm _ _ _]. Qed.

(** The pod of a run knows the component the run is for. *)
Lemma pod_component_run name (gc : GitComponent E) branch kite run pod :
  run_shape name gc branch kite run → pod_of run pod →
  pod_component pod = MkKey (GetNamespace gc) (GetName gc).
Proof.
  intros Hm%run_shape_meta Hpod. unfold pod_component, go_index.
  destruct (run_labels_component gc branch) as [Hname Hns].
  assert (∀ label value, run_labels gc branch !! label = Some value →
    go_lookup (Labels (pod_meta pod)) label = Some value) as Hl.
  { intros label value Hv. apply (pod_of_labels _ _ Hpod). by rewrite Hm. }
  by rewrite (Hl _ _ Hname), (Hl _ _ Hns).
Qed.

(** The volume a pod waits for is of the secret of its run. *)
Lemma waits_secret name (gc : GitComponent E) branch kite run pod evt :
  run_shape name gc branch kite run → pod_of run pod → waits_for_token run pod evt →
  ∃ volume, message_volume (ev_Message evt) = Some volume ∧
    volume_secret volume (pod_Volumes pod) = name.
Proof.
  intros [_ _ _ _ (ws & ts & Htask & _ & _ & Hv)] Hpod [_ (v & Hin & Hasks & Hmsg)].
  exists (vol_Name v). split; [done|].
  assert (v ∈ pod_Volumes pod) as Hinpod by by apply (pod_of_volumes _ _ Hpod).
  unfold run_volumes in Hin. simpl in Htask. rewrite Htask in Hin. cbn in Hin. rewrite app_nil_r in Hin.
  rewrite Forall_forall in Hv. destruct (Hv v Hin Hasks) as (p & Hp & <-).
  apply volume_secret_found; [done..|]. apply Hpod.
Qed.

(** What the Event controller may write for a run: the token of the run's component to
    the run's secret, the mark, and the cancellation of the run. *)
Inductive event_write (name : string) (component : NamespacedName) (evt : Event) (tr : list call) :
    call → Prop :=
| write_token comp gc token wa wb wc wd secret a :
    CGet KSecret (MkKey MintMakerNamespaceName name) (inr secret) ∈ tr →
    CGet KComponent component (inr comp) ∈ tr →
    NewGitComponent comp wa = (Ok gc, wb) → GetToken gc wc = (Ok token, wd) →
    event_write name component evt tr (CUpdate KSecret (with_token token secret) a)
| write_mark a : event_write name component evt tr (CPatch KEvent (marked evt) a)
| write_cancel plr message a :
    CGet KPipelineRun (MkKey MintMakerNamespaceName name) (inr plr) ∈ tr →
    event_write name component evt tr (CPatch KPipelineRun (cancelled plr message) a).

(** The run could not be read, or was asked to be cancelled. *)
Definition asked_to_cancel (name : string) (tr : list call) : Prop :=
  let key := MkKey MintMakerNamespaceName name in
  (∃ e, CGet KPipelineRun key (inl e) ∈ tr) ∨
  ∃ plr message a, CGet KPipelineRun key (inr plr) ∈ tr ∧ CPatch KPipelineRun (cancelled plr message) a ∈ tr.

(** Cancelling the pod's run is cancelling the run. *)
Lemma cancellation_run name (gc : GitComponent E) branch kite run pod message cancel :
  run_shape name gc branch kite run → pod_of run pod →
  cancellation pod message cancel →
  (∃ e, cancel = [CGet KPipelineRun (MkKey MintMakerNamespaceName name) (inl e)]) ∨
  ∃ plr a, cancel = [CGet KPipelineRun (MkKey MintMakerNamespaceName name) (inr plr);
                     CPatch KPipelineRun (cancelled plr message) a].
Proof.
  intros Hm%run_shape_meta Hpod. unfold cancellation.
  by rewrite (pod_of_run _ _ Hpod), (pod_of_namespace _ _ Hpod), Hm.
Qed.

Lemma cancelled_run name (gc : GitComponent E) branch kite run pod message head seg mark cancel :
  run_shape name gc branch kite run → pod_of run pod → message ≠ "" →
  (if decide (Name (pod_meta pod) = "" ∨ message = "") then cancel = []
   else cancellation pod message cancel) →
  asked_to_cancel name (head ++ seg ++ mark ++ cancel).
Proof.
  intros Hrun Hpod Hm Hc. pose proof (pod_of_name _ _ Hpod). rewrite decide_False in Hc by tauto.
  destruct (cancellation_run _ _ _ _ _ _ _ _ Hrun Hpod Hc) as [[e ->]|(plr & a & ->)]; [left|right].
  - exists e. set_solver.
  - exists plr, message, a. set_solver.
Qed.

(** A component is looked for before the event is marked only. *)
Lemma found_in_seg req evt key pod seg mark cancel message :
  found_component ([CGet KEvent req (inr evt); CGet KPod key (inr pod)] ++ seg ++ mark ++ cancel) →
  (if decide (Name (ev_meta evt) = "") then mark = [] else ∃ a, mark = [CPatch KEvent (marked evt) a]) →
  (if decide (Name (pod_meta pod) = "" ∨ message = "") then cancel = []
   else cancellation pod message cancel) →
  found_component seg.
Proof.
  intros (k & c & Hin) Hmark Hcancel.
  apply (found_in_body req (inr evt) seg evt pod message mark cancel); [|exact Hmark|exact Hcancel].
  exists k, c. rewrite !elem_of_app, !elem_of_cons in *.
  destruct Hin as [[Hin|[Hin|Hin]]|Hin]; [by left; left|discriminate|by apply elem_of_nil in Hin|tauto].
Qed.

Lemma serves_write name (gc : GitComponent E) branch kite run pod evt volume s tr a :
  run_shape name gc branch kite run → pod_of run pod →
  volume_secret volume (pod_Volumes pod) = name →
  serves_volume NewGitComponent volume MintMakerNamespaceName pod s tr →
  event_write name (MkKey (GetNamespace gc) (GetName gc)) evt tr (CUpdate KSecret s a).
Proof.
  intros Hrun Hpod Hv (secret & Hsec & comp & gc' & token & wa & wb & wc & wd & Hc & Hmk & Ht & ->).
  rewrite Hv in Hsec. rewrite (pod_component_run name gc branch kite run pod) in Hc by done.
  by eapply write_token.
Qed.

Lemma added_writes name (gc : GitComponent E) branch kite run pod evt volume l r seg :
  run_shape name gc branch kite run → pod_of run pod →
  volume_secret volume (pod_Volumes pod) = name →
  added NewGitComponent (serves_volume NewGitComponent volume MintMakerNamespaceName pod) l r seg →
  Forall (event_write name (MkKey (GetNamespace gc) (GetName gc)) evt seg) (writes seg).
Proof.
  intros Hrun Hpod Hv [-> _|s a -> Hs _|s e -> Hs _ _]; constructor; try done; by eapply serves_write.
Qed.

Lemma event_write_mono name component evt tr tr' c :
  tr ⊆ tr' → event_write name component evt tr c → event_write name component evt tr' c.
Proof. intros Hsub [|a|plr message a Hin]; econstructor; eauto. Qed.

(** C4.  The event of a run serves that run, and no other.  Take any PipelineRun the
    DependencyUpdateCheck controller asks for on behalf of a component, a pod of it, and
    an event that tells that the pod waits for the token.  Whatever the cluster and the
    forge answer from there on, the Event controller writes at most: to the secret of
    the run, the secret as it was read and a token of that component; the mark on the
    event; and the cancellation of that run.  And if the component was found, nothing
    panicked and errors have messages: the update of the secret was accepted, or the run
    could not be read, or it was asked to be cancelled.  (When the component is gone,
    nothing is done for the pod.) *)
Theorem event_serves_its_run comp gc name branch kite (w0 w1 wc w : World E) pre run a post pod evt
    req e1 e2 :
  NewGitComponent comp w0 = (Ok gc, w1) →
  w_trace (createPipelineRun name gc branch kite wc).2 =
    w_trace wc ++ pre ++ CCreate KPipelineRun run a :: post →
  pod_of run pod → waits_for_token run pod evt →
  env_Get KEvent req (w_env w) = (inr evt, e1) →
  env_Get KPod (key_of (pod_meta pod)) e1 = (inr pod, e2) →
  ∃ tr, w_trace (EventController.Reconcile NewGitComponent req w).2 = w_trace w ++ tr ∧
    Forall (event_write name (key_of (comp_meta comp)) evt tr) (writes tr) ∧
    ((∀ e, raised NewGitComponent e → error_msg e ≠ "") →
     (∀ p, (EventController.Reconcile NewGitComponent req w).1 ≠ Panic p) → found_component tr →
     (∃ secret token s', CGet KSecret (MkKey MintMakerNamespaceName name) (inr secret) ∈ tr ∧
        CUpdate KSecret (with_token token secret) (inr s') ∈ tr) ∨
     asked_to_cancel name tr).
Proof.
  intros Hgc Hcreate Hpod Hwaits Hevt Hget.
  destruct (factory_makes comp w0 gc w1 Hgc) as (Hlaws & Hname & Hns).
  assert (run_shape name gc branch kite run) as Hrun by by eapply createPipelineRun_shape.
  destruct (waits_secret _ _ _ _ _ _ _ Hrun Hpod Hwaits) as (volume & Hmsg & Hvol).
  pose proof (waits_object _ _ _ Hwaits) as Hobj.
  assert (Namespace (pod_meta pod) = MintMakerNamespaceName) as Hpns.
  { by rewrite (pod_of_namespace _ _ Hpod), (run_shape_meta _ _ _ _ _ Hrun). }
  destruct (Reconcile_pod_exact NewGitComponent req w evt pod volume e1 e2)
    as (seg & o & mark & cancel & Ht & Hh & Hmark & Hcancel);
    [done|by rewrite Hobj|done|by rewrite Hobj|].
  rewrite Hobj in Ht, Hh. cbn [ref_Namespace ref_Name] in Ht, Hh. rewrite Hpns in Hh.
  apply (handles_added _ _ _ _ _ _ _ (MkLocals evt pod (recorded o))) in Hh as Hadd; [|done].
  set (head := [CGet KEvent req (inr evt); CGet KPod (key_of (pod_meta pod)) (inr pod)]).
  exists (head ++ seg ++ mark ++ cancel). split; [exact Ht|].
  replace (key_of (comp_meta comp)) with (MkKey (GetNamespace gc) (GetName gc))
    by by rewrite Hname, Hns.
  split.
  - rewrite !writes_app. change (writes head) with (@nil call). cbn [app].
    apply Forall_app; split; [|apply Forall_app; split].
    + eapply Forall_impl; [exact (added_writes _ _ _ _ _ _ evt _ _ _ _ Hrun Hpod Hvol Hadd)|].
      intros c. apply event_write_mono. set_solver.
    + destruct (decide (Name (ev_meta evt) = "")) in Hmark; [rewrite Hmark; constructor|].
      destruct Hmark as [a' ->]. constructor; [apply write_mark|constructor].
    + destruct (decide (_ ∨ _)) in Hcancel; [rewrite Hcancel; constructor|].
      destruct (cancellation_run _ _ _ _ _ _ _ _ Hrun Hpod Hcancel) as [[e ->]|(plr & a' & ->)];
        [constructor|]. constructor; [|constructor]. apply write_cancel. set_solver.
  - intros Hspeak Hpanic Hfound.
    assert (recorded o ≠ "" → asked_to_cancel name (head ++ seg ++ mark ++ cancel)) as Hgive
      by (intros Hm; by eapply (cancelled_run _ _ _ _ _ _ (recorded o))).
    destruct Hadd as [_ Hm|s s' Hs (secret & Hsec & comp' & gc' & token & _ & _ & _ & _ & _ & _ & _ & ->) _
      |s e Hs _ He Hm].
    + right. apply Hgive. destruct Hm as [[p Hp]|(e & He & Hm)]; [|by destruct (Hpanic p)|].
      { eapply found_in_seg; [exact Hfound|exact Hmark|exact Hcancel]. }
      cbn in Hm. rewrite Hm. by apply Hspeak.
    + left. exists secret, token, s'. apply writes_elem in Hs. rewrite Hvol in Hsec. set_solver.
    + right. apply Hgive. cbn in Hm. rewrite Hm. by apply Hspeak.
Qed.
End Delivery.

(** ** Example *)

(** A pod of a run, as Tekton makes it. *)
Definition pod_for (run : PipelineRun) : Pod :=
  MkPod (MkMeta "pod" (Namespace (pr_meta run))
           (Some (<[pipelineRun_label := Name (pr_meta run)]> (go_make_if_nil (Labels (pr_meta run)))))
           None [] [])
    (run_volumes run).

Lemma pod_for_ok run :
  go_lookup (Labels (pr_meta run)) pipelineRun_label = None → NoDup (vol_Name <$> run_volumes run) →
  pod_of run (pod_for run).
Proof.
  intros Hl Hn. split; simpl; [done|done| |apply lookup_insert_eq|done|done].
  intros label value Hv. rewrite lookup_insert_ne by congruence. by destruct (Labels (pr_meta run)).
Qed.

(** A component of GitHub, whose token is not there when its run is created. *)
Definition github_sample (c : Component) : GitComponent Cluster :=
  {| GetName := Name (comp_meta c);
     GetNamespace := Namespace (comp_meta c);
     GetApplication := comp_Application c;
     GetPlatform := "github";
     GetHost := "github.com";
     GetGitURL := "https://github.com/team/repo";
     GetRepository := "team/repo";
     GetToken := go_ret "token";
     GetBranches := go_ret ["main"];
     GetAPIEndpoint := Ok "https://api.github.com/";
     GetRenovateConfig := λ _ _, go_ret "config";
     GetRPMActivationKey := go_fail (Errorf "no key") |}.

Definition github_factory : GitComponentFactory Cluster := λ c, go_ret (github_sample c).

#[export] Instance github_sample_laws c : GitComponentLaws (github_sample c).
Proof. split; intros; apply _. Qed.

#[export] Instance github_factory_laws : FactoryLaws github_factory.
Proof.
  split; [intros c; apply preserves_ret; apply _|].
  intros c w gc w' [= <- _]. split; [apply _|done].
Qed.

Definition created_world : World Cluster :=
  (createPipelineRun "run" (github_sample DucSelect.one) "main" "" account_world).2.

Definition first_run (tr : list call) : PipelineRun :=
  match omap run_of tr with
  | pr :: _ => pr
  | [] => MkPipelineRun (new_meta "" "") (MkPRSpec [] [] [] [] None "" "") (MkPRStatus [] None)
  end.

Lemma first_run_eq pre run a post :
  Forall no_run pre → first_run (pre ++ CCreate KPipelineRun run a :: post) = run.
Proof. intros Hpre. unfold first_run. by rewrite omap_app, (omap_none run_of pre Hpre). Qed.

Definition created_run : PipelineRun := first_run (w_trace created_world).

Definition run_event : Event :=
  MkEvent (new_meta "event" "mintmaker") (MkRef "Pod" "mintmaker" "pod")
    ("MountVolume.SetUp failed for volume " +:+ dq +:+ "secret-run-00000000" +:+ dq +:+
     " : references non-existent secret key: renovate-token") "FailedMount".

(** The cluster once the pod of the created run waits. *)
Definition delivery_world : World Cluster :=
  let c := w_env created_world in
  set_env (set_objs KEvent [run_event] (set_objs KPod [pod_for created_run] c)) created_world.

Lemma created_pod : pod_of created_run (pod_for created_run).
Proof.
  apply pod_for_ok; [vm_compute; reflexivity|].
  apply (bool_decide_unpack (NoDup _)). vm_compute. exact I.
Qed.

Lemma created_waits : waits_for_token created_run (pod_for created_run) run_event.
Proof.
  split; [vm_compute; reflexivity|].
  set (v := MkVolume "secret-run-00000000" None
    (Some (MkProjection "run" [MkKeyToPath "renovate-token" "renovate-token"] (Some false) (Some 420%Z)))).
  exists v. split; [|split; [|vm_compute; reflexivity]].
  - apply (list_elem_of_lookup_2 _ 1). vm_compute. reflexivity.
  - eexists. split; [reflexivity|]. left.
Qed.

(** The token reaches the secret of the run, and nothing else is written but the mark. *)
Example delivery_token :
  omap (λ c, match c with
             | CUpdate KSecret o (inr _) => Some (key_of (sec_meta o), go_lookup (sec_Data o) "renovate-token")
             | CPatch k o _ => Some (key_of (obj_meta k o), None)
             | _ => None
             end)
    (drop (length (w_trace delivery_world))
       (w_trace (EventController.Reconcile github_factory event_key delivery_world).2)) =
  [(MkKey "mintmaker" "run", Some "token"); (MkKey "mintmaker" "event", None)].
Proof. vm_compute. reflexivity. Qed.

Lemma event_serves_its_run_witness :
  ∃ tr, w_trace (EventController.Reconcile github_factory event_key delivery_world).2 =
          w_trace delivery_world ++ tr ∧
    Forall (event_write github_factory "run" (MkKey "tenant" "one") run_event tr) (writes tr) ∧
    ((∃ secret token s', CGet KSecret (MkKey "mintmaker" "run") (inr secret) ∈ tr ∧
        CUpdate KSecret (with_token token secret) (inr s') ∈ tr) ∨
     asked_to_cancel "run" tr).
Proof.
  destruct (createPipelineRun_one "run" (github_sample DucSelect.one) "main" "" account_world)
    as (seg & Hseg & [Hn|(pre & run & a & post & -> & Hpre & Hpost & _)]).
  { exfalso. change (w_trace created_world = seg) in Hseg. rewrite <-Hseg in Hn.
    apply (omap_none run_of) in Hn. vm_compute in Hn. discriminate Hn. }
  assert (created_run = run) as <-.
  { unfold created_run.
    change (w_trace created_world = pre ++ CCreate KPipelineRun run a :: post) in Hseg.
    rewrite Hseg. by apply first_run_eq. }
  destruct (event_serves_its_run github_factory DucSelect.one (github_sample DucSelect.one) "run" "main" ""
    account_world account_world account_world delivery_world pre created_run a post
    (pod_for created_run) run_event event_key (w_env delivery_world) (w_env delivery_world)
    eq_refl Hseg created_pod created_waits) as (tr & Ht & Hw & Hd).
  - vm_compute. reflexivity.
  - vm_compute. reflexivity.
  - exists tr. split; [exact Ht|]. split; [exact Hw|].
    assert (tr = drop (length (w_trace delivery_world))
      (w_trace (EventController.Reconcile github_factory event_key delivery_world).2)) as Htr
      by by rewrite Ht, drop_app_length.
    apply Hd; [intros e; by apply errors_speak| |].
    + assert ((EventController.Reconcile github_factory event_key delivery_world).1 = Ok tt) as ->
        by (vm_compute; reflexivity). discriminate.
    + rewrite Htr. eexists _, _. apply (list_elem_of_lookup_2 _ 3). vm_compute. reflexivity.
Defined.
