(* ===== verification/Scheme.v ===== *)
(** * The scheme of the manager

    [groupversion_info.go] and the [init] function of cmd/manager/main.go: the types the
    clients and the controllers of the process know.  The scheme itself is a library's:
    a class states what it is documented to do. *)

From S2P Require Import Prelude.

Record GroupVersion := MkGroupVersion { gv_Group : string; gv_Version : string }.

Definition GroupVersionKind : Type := GroupVersion * string.

#[export] Instance GroupVersion_eq_dec : EqDecision GroupVersion.
Proof. solve_decision. Defined.

(** [runtime.Scheme]: a registration panics when a kind is taken by another type. *)
Class SchemeLibrary (S : Type) := {
  NewScheme : S;
  AddKnownTypes : GroupVersion → list string → S → result S;
  AddToGroupVersion : GroupVersion → S → result S;
  (* SchemeBuilder.AddToScheme, for the functions of the builder *)
  builder_AddToScheme : list (S → result S) → S → result S;
  Recognizes : GroupVersionKind → S → bool
}.

(** A registration that succeeds forgets nothing. *)
Definition grows_scheme {S} `{SchemeLibrary S} (f : S → result S) : Prop :=
  ∀ s s' gvk, f s = Ok s' → Recognizes gvk s = true → Recognizes gvk s' = true.

(** What the library documents. *)
Class SchemeLaws (S : Type) `{SchemeLibrary S} : Prop := {
  known_types_added gv kinds s s' kind :
    AddKnownTypes gv kinds s = Ok s' → kind ∈ kinds → Recognizes (gv, kind) s' = true;
  known_types_grow gv kinds : grows_scheme (AddKnownTypes gv kinds);
  group_version_grows gv : grows_scheme (AddToGroupVersion gv);
  builder_runs fs s : builder_AddToScheme fs s = foldl (λ r f, r ≫= f) (Ok s) fs
}.

Section Scheme.
Context {S : Type} `{SchemeLaws S}.

(** ** groupversion_info.go *)

Definition GroupVersion_v1alpha1 : GroupVersion := MkGroupVersion "appstudio.redhat.com" "v1alpha1".

Definition addKnownTypes (scheme : S) : result S :=
  scheme ← AddKnownTypes GroupVersion_v1alpha1 ["DependencyUpdateCheck"; "DependencyUpdateCheckList"] scheme;
  AddToGroupVersion GroupVersion_v1alpha1 scheme.

Definition SchemeBuilder : list (S → result S) := [addKnownTypes].
Definition AddToScheme : S → result S := builder_AddToScheme SchemeBuilder.

(** ** The init function *)

(** [utilruntime.Must]. *)
Definition Must {A} (r : result A) : result A :=
  match r with Err e => Panic (error_msg e) | r => r end.

(** The types of Kubernetes, of the application API and of Tekton. *)
Context (clientgo_AddToScheme appstudio_AddToScheme tekton_AddToScheme : S → result S).

Definition init : result S :=
  scheme ← Must (clientgo_AddToScheme NewScheme);
  scheme ← Must (appstudio_AddToScheme scheme);
  scheme ← Must (AddToScheme scheme);
  Must (tekton_AddToScheme scheme).

(** ** Properties *)

Lemma Must_ok {A} (r : result A) a : Must r = Ok a → r = Ok a.
Proof. by destruct r. Qed.

Lemma addKnownTypes_ok s s' :
  addKnownTypes s = Ok s' →
  Recognizes (GroupVersion_v1alpha1, "DependencyUpdateCheck") s' = true ∧
  Recognizes (GroupVersion_v1alpha1, "DependencyUpdateCheckList") s' = true ∧
  ∀ gvk, Recognizes gvk s = true → Recognizes gvk s' = true.
Proof.
  intros (s1 & Hadd & Hgroup)%bind_ok.
  pose proof (group_version_grows GroupVersion_v1alpha1) as Hg.
  split_and!; [by eapply Hg, known_types_added; eauto; set_solver..|].
  intros gvk Hk. eapply Hg; [done|]. by eapply known_types_grow.
Qed.

(** The process starts with a scheme that knows both types of the API, and everything
    the libraries have registered before and after; or it does not start at all. *)
Theorem init_scheme s :
  grows_scheme appstudio_AddToScheme → grows_scheme tekton_AddToScheme →
  init = Ok s →
  Recognizes (GroupVersion_v1alpha1, "DependencyUpdateCheck") s = true ∧
  Recognizes (GroupVersion_v1alpha1, "DependencyUpdateCheckList") s = true ∧
  ∃ s1, clientgo_AddToScheme NewScheme = Ok s1 ∧
    ∀ gvk, Recognizes gvk s1 = true → Recognizes gvk s = true.
Proof.
  intros Happ Htekton. unfold init.
  intros (s1 & Hs1%Must_ok & (s2 & Hs2%Must_ok & (s3 & Hs3%Must_ok & Hs%Must_ok)%bind_ok)%bind_ok)%bind_ok.
  unfold AddToScheme, SchemeBuilder in Hs3. rewrite builder_runs in Hs3. cbn in Hs3.
  apply addKnownTypes_ok in Hs3 as (Hduc & Hlist & Hkeep).
  split_and!; [by eapply Htekton..|]. exists s1. split; [done|].
  intros gvk Hk. eapply Htekton; [done|]. apply Hkeep. by eapply Happ.
Qed.

(** [init] has no error to return: it panics. *)
Lemma init_no_error e : init ≠ Err e.
Proof.
  unfold init. destruct (clientgo_AddToScheme _) as [s1| |]; cbn; [|done..].
  destruct (appstudio_AddToScheme s1) as [s2| |]; cbn; [|done..].
  destruct (AddToScheme s2) as [s3| |]; cbn; [|done..].
  by destruct (tekton_AddToScheme s3).
Qed.
End Scheme.

(** ** Example *)

(** A scheme as the list of what is registered; every registration is of another type. *)
#[export] Instance list_scheme : SchemeLibrary (list GroupVersionKind) := {|
  NewScheme := [];
  AddKnownTypes := λ gv kinds s,
    if existsb (λ kind, bool_decide ((gv, kind) ∈ s)) kinds
    then Panic "Double registration of different types" else Ok (s ++ (pair gv <$> kinds));
  AddToGroupVersion := λ gv s, Ok (s ++ [(gv, "ListOptions")]);
  builder_AddToScheme := λ fs s, foldl (λ r f, r ≫= f) (Ok s) fs;
  Recognizes := λ gvk s, bool_decide (gvk ∈ s)
|}.

#[export] Instance list_scheme_laws : SchemeLaws (list GroupVersionKind).
Proof.
  split; [| | |done]; simpl.
  - intros gv kinds s s' kind Hs Hk. destruct (existsb _ _); [done|]. injection Hs as <-.
    apply bool_decide_eq_true_2. set_solver.
  - intros gv kinds s s' gvk Hs Hk. cbn in Hs. destruct (existsb _ _); [done|]. injection Hs as <-.
    apply bool_decide_eq_true. apply bool_decide_eq_true in Hk. set_solver.
  - intros gv s s' gvk Hs Hk. cbn in Hs. injection Hs as <-.
    apply bool_decide_eq_true. apply bool_decide_eq_true in Hk. set_solver.
Qed.

Definition sample_types (group kind : string) : list GroupVersionKind → result (list GroupVersionKind) :=
  AddKnownTypes (MkGroupVersion group "v1alpha1") [kind].

Lemma init_scheme_witness :
  ∃ s, init (sample_types "core" "Secret") (sample_types "appstudio.redhat.com" "Component")
         (sample_types "tekton.dev" "PipelineRun") = Ok s ∧
    Recognizes (GroupVersion_v1alpha1, "DependencyUpdateCheck") s = true.
Proof.
  eexists. split; [reflexivity|].
  apply (init_scheme (sample_types "core" "Secret") (sample_types "appstudio.redhat.com" "Component")
           (sample_types "tekton.dev" "PipelineRun")); [apply known_types_grow..|reflexivity].
Defined.

(** A kind of the application API with a name of this API stops the process. *)
Example init_conflict :
  init (sample_types "core" "Secret") (sample_types "appstudio.redhat.com" "DependencyUpdateCheck")
    (sample_types "tekton.dev" "PipelineRun") = Panic "Double registration of different types".
Proof. reflexivity. Qed.
