(* ===== verification/Startup.v ===== *)
(** * The start of the controller manager

    [cmd/manager/main.go] and the [SetupWithManager] functions of the three
    controllers: what each controller is told about, how the manager's cache and
    client are configured, and the order in which everything is set up.  What the
    controller-runtime library does with its configuration is not modelled. *)

From S2P Require Import Prelude GoStrings GoStrconv GoFloat GoParse GoFlag Sanitize Kube Metrics.
From S2P Require Import World Config EventController.
From Stdlib Require Import SpecFloat.

(** ** What the controllers are told about *)

Inductive WatchEvent (k : Kind) : Type :=
| CreateEvent (o : obj k)
| UpdateEvent (old new : obj k)
| DeleteEvent (o : obj k)
| GenericEvent (o : obj k).
Arguments CreateEvent {_} _.
Arguments UpdateEvent {_} _ _.
Arguments DeleteEvent {_} _.
Arguments GenericEvent {_} _.

(** [For(...)] and [WithEventFilter(...)]: the kind watched, and the events that lead to
    a reconciliation. *)
Record Registration := MkRegistration {
  reg_For : Kind;
  reg_filter : WatchEvent reg_For → bool
}.

Definition duc_SetupWithManager : Registration :=
  MkRegistration KDependencyUpdateCheck (λ e, match e with CreateEvent _ => true | _ => false end).

Definition event_SetupWithManager : Registration :=
  MkRegistration KEvent (λ e, match e with CreateEvent evt => CreateFunc evt | _ => false end).

Definition pipelinerun_SetupWithManager (IsDone : PipelineRun → bool) : Registration :=
  MkRegistration KPipelineRun (λ e,
    match e with
    | UpdateEvent oldPipelineRun newPipelineRun => UpdateFunc IsDone oldPipelineRun newPipelineRun
    | _ => false
    end).

(** ** Flags and options *)

Section Main.
Context (IsDone : PipelineRun → bool).

(** The flags of controller-runtime and of its logger: the name, whether it is boolean,
    and the values it takes.  What they set is not looked at. *)
Context (library_flags : list (string * bool * (string → bool))).

Record Flags := MkFlags {
  metricsAddr : string;
  probeAddr : string;
  pprofAddr : string;
  enableLeaderElection : bool;
  secureMetrics : bool;
  enableHTTP2 : bool;
  kubeClientQPS : spec_float;
  kubeClientBurst : Z
}.

Definition default_flags : Flags := MkFlags "0" ":8081" "" false true false (float64 (-1)) 0.

Definition library_flag (f : string * bool * (string → bool)) : Flag Flags :=
  MkFlag f.1.1 f.1.2 (λ v st, if f.2 v then Some st else None).

Definition flag_set : list (Flag Flags) :=
  [StringVar "metrics-bind-address" (λ v '(MkFlags _ h p l s t q b), MkFlags v h p l s t q b);
   StringVar "health-probe-bind-address" (λ v '(MkFlags m _ p l s t q b), MkFlags m v p l s t q b);
   StringVar "pprof-bind-address" (λ v '(MkFlags m h _ l s t q b), MkFlags m h v l s t q b);
   BoolVar "leader-elect" (λ v '(MkFlags m h p _ s t q b), MkFlags m h p v s t q b);
   BoolVar "metrics-secure" (λ v '(MkFlags m h p l _ t q b), MkFlags m h p l v t q b);
   BoolVar "enable-http2" (λ v '(MkFlags m h p l s _ q b), MkFlags m h p l s v q b);
   Float64Var "kube-api-qps" (λ v '(MkFlags m h p l s t _ b), MkFlags m h p l s t v b);
   IntVar "kube-api-burst" (λ v '(MkFlags m h p l s t q _), MkFlags m h p l s t q v)]
  ++ (library_flag <$> library_flags).

(** The rate limits of the client configuration, as they come from outside. *)
Record RestConfig := MkRestConfig { QPS : spec_float; Burst : Z }.

Record ManagerOptions := MkManagerOptions {
  mgr_config : RestConfig;
  mgr_DisableFor : list Kind;                   (* Client.Cache.DisableFor *)
  mgr_ByObject : list (Kind * list string);     (* Cache.ByObject: the namespaces *)
  mgr_MetricsBindAddress : string;
  mgr_SecureServing : bool;
  mgr_Authenticated : bool;                     (* a FilterProvider is set *)
  mgr_NextProtos : option (list string);        (* what TLSOpts set, if anything *)
  mgr_HealthProbeBindAddress : string;
  mgr_LeaderElection : bool;
  mgr_LeaderElectionID : string
}.

Definition rest_config (f : Flags) (cfg : RestConfig) : RestConfig :=
  if SFleb (S754_zero false) (kubeClientQPS f)
  then MkRestConfig (float32 (kubeClientQPS f)) (kubeClientBurst f)
  else cfg.

Definition DisableFor : list Kind := [KSecret; KServiceAccount; KConfigMap; KPod; KComponent].

Definition ByObject : list (Kind * list string) :=
  [(KDependencyUpdateCheck, [MintMakerNamespaceName]); (KEvent, [MintMakerNamespaceName]);
   (KPipelineRun, [MintMakerNamespaceName])].

Definition manager_options (f : Flags) (cfg : RestConfig) : ManagerOptions :=
  MkManagerOptions (rest_config f cfg) DisableFor ByObject (metricsAddr f) (secureMetrics f)
    (secureMetrics f) (if enableHTTP2 f then None else Some ["http/1.1"]) (probeAddr f)
    (enableLeaderElection f) "33073e9f.mintmaker.redhat.com".

(** The address of the profiling server, which runs only when it is also enabled by the
    environment: a bare port gets the address of the local host. *)
Definition pprof_address (pprofAddr : string) : string :=
  if HasPrefix pprofAddr ":" then "127.0.0.1" +:+ pprofAddr else pprofAddr.

Definition pprof_server (f : Flags) (ENABLE_PROFILING : string) : option string :=
  if decide (pprofAddr f ≠ "" ∧ ENABLE_PROFILING = "true") then Some (pprof_address (pprofAddr f))
  else None.

(** ** The sequence *)

(** The parts of [main] that can fail, in order; any failure ends the process with 1. *)
Inductive setup_step :=
| NewManager (o : ManagerOptions)
| SetupController (r : Registration)
| AddHealthzCheck (name : string)
| AddReadyzCheck (name : string)
| RegisterMetrics
| StartManager.

Definition setup_steps (f : Flags) (cfg : RestConfig) : list setup_step :=
  [NewManager (manager_options f cfg);
   SetupController duc_SetupWithManager;
   SetupController (pipelinerun_SetupWithManager IsDone);
   SetupController event_SetupWithManager;
   AddHealthzCheck "healthz";
   AddReadyzCheck "readyz";
   RegisterMetrics;
   StartManager].

(** Taking the steps as far as they succeed: the steps taken, and the exit code. *)
Fixpoint perform (fails : setup_step → bool) (steps : list setup_step) : list setup_step * Z :=
  match steps with
  | [] => ([], 0%Z)
  | s :: steps' =>
      if fails s then ([s], 1%Z)
      else let '(taken, code) := perform fails steps' in (s :: taken, code)
  end.

(** What follows [flag.Parse] in [main], and [main] on the arguments of the program. *)
Definition run_main (f : Flags) (cfg : RestConfig) (fails : setup_step → bool) : list setup_step * Z :=
  perform fails (setup_steps f cfg).

Definition main (args : list string) (cfg : RestConfig) (fails : setup_step → bool) :
    list setup_step * Z :=
  match Parse flag_set default_flags args with
  | Parsed f _ => run_main f cfg fails
  | c => ([], default 0%Z (exit_code c))
  end.

(** ** Properties *)

Lemma perform_prefix fails steps :
  ∃ rest, steps = (perform fails steps).1 ++ rest ∧
    ((perform fails steps).2 = 0%Z ∧ rest = [] ∧ Forall (λ s, fails s = false) steps ∨
     (perform fails steps).2 = 1%Z ∧ ∃ before s, (perform fails steps).1 = before ++ [s] ∧
       Forall (λ s, fails s = false) before ∧ fails s = true).
Proof.
  induction steps as [|s steps (rest & Hr & IH)]; cbn [perform].
  { exists []. split; [done|]. left. by split_and!. }
  destruct (fails s) eqn:Hs.
  - exists steps. split; [done|]. right. split; [done|]. exists [], s. by split_and!.
  - destruct (perform fails steps) as [taken code]. cbn [fst snd] in *. exists rest.
    split; [by rewrite Hr|]. destruct IH as [(-> & -> & HF)|(-> & before & x & -> & HF & Hx)].
    + left. split_and!; [done..|by constructor].
    + right. split; [done|]. exists (s :: before), x. split_and!; [done|by constructor|done].
Qed.

(** The manager is started only when every controller, check and gauge was set up, and
    the process ends with 0 only when it ran to its end or was asked for help. *)
Lemma run_main_starts_last f cfg fails :
  (StartManager ∈ (run_main f cfg fails).1 →
     ∀ s, s ∈ setup_steps f cfg → s ≠ StartManager → fails s = false) ∧
  ((run_main f cfg fails).2 = 0%Z ↔ ∀ s, s ∈ setup_steps f cfg → fails s = false).
Proof.
  unfold run_main. destruct (perform_prefix fails (setup_steps f cfg)) as (rest & Hr & H).
  destruct (perform fails (setup_steps f cfg)) as [taken code]. cbn [fst snd] in *.
  destruct H as [(-> & -> & HF)|(-> & before & x & -> & HF & Hx)]; rewrite Forall_forall in HF.
  - split; [intros _ s Hs _; by apply HF|]. split; [intros _; exact HF|done].
  - split.
    + intros Hin s Hs Hne. apply HF.
      assert (setup_steps f cfg = (take 7 (setup_steps f cfg)) ++ [StartManager]) as E by done.
      assert (StartManager ∉ take 7 (setup_steps f cfg)) as Hnot.
      { intros Ht. by repeat (apply elem_of_cons in Ht as [[=]|Ht]); apply elem_of_nil in Ht. }
      destruct rest as [|y rest _] using rev_ind.
      * rewrite app_nil_r, E in Hr. apply app_inj_tail in Hr as [<- _].
        rewrite E in Hs. apply elem_of_app in Hs as [Hs|Hs]; [done|].
        by apply list_elem_of_singleton in Hs.
      * rewrite E, app_assoc in Hr. apply app_inj_tail in Hr as [Hr _]. exfalso. apply Hnot.
        rewrite Hr. apply elem_of_app. by left.
    + split; [done|]. intros Hall. rewrite Hall in Hx; [done|].
      rewrite Hr, !elem_of_app. left. right. left.
Qed.

Theorem main_starts_last args cfg fails :
  (StartManager ∈ (main args cfg fails).1 → ∃ f rest, Parse flag_set default_flags args = Parsed f rest ∧
     ∀ s, s ∈ setup_steps f cfg → s ≠ StartManager → fails s = false) ∧
  ((main args cfg fails).2 = 0%Z ↔
     Parse flag_set default_flags args = ErrHelp ∨
     ∃ f rest, Parse flag_set default_flags args = Parsed f rest ∧
       ∀ s, s ∈ setup_steps f cfg → fails s = false).
Proof.
  unfold main. destruct (Parse flag_set default_flags args) as [f rest| |].
  - destruct (run_main_starts_last f cfg fails) as [Hs Hz]. split; [eauto|].
    rewrite Hz. naive_solver.
  - split; [intros H; by apply elem_of_nil in H|]. naive_solver.
  - split; [intros H; by apply elem_of_nil in H|]. cbn. naive_solver.
Qed.

(** Every choice of the options can be written on a command line, if the limit of the
    queries is written as a number that stands for it. *)
Lemma run_main_options f qps cfg fails :
  (-2^63 ≤ kubeClientBurst f < 2^63)%Z → ParseFloat qps = Ok (kubeClientQPS f) →
  let bool_word b := if b : bool then "true" else "false" in
  main (setting_word <$>
    [("metrics-bind-address", metricsAddr f); ("health-probe-bind-address", probeAddr f);
     ("pprof-bind-address", pprofAddr f); ("leader-elect", bool_word (enableLeaderElection f));
     ("metrics-secure", bool_word (secureMetrics f)); ("enable-http2", bool_word (enableHTTP2 f));
     ("kube-api-qps", qps); ("kube-api-burst", fmt_d (kubeClientBurst f))]) cfg fails =
  run_main f cfg fails.
Proof.
  intros Hb Hq bool_word. destruct f as [m h p l s t q b]. cbn [kubeClientBurst kubeClientQPS] in Hb, Hq.
  cbn [metricsAddr probeAddr pprofAddr enableLeaderElection secureMetrics enableHTTP2 kubeClientBurst].
  unfold main. rewrite <-(app_nil_r (setting_word <$> _)).
  rewrite Parse_settings by (repeat constructor; cbn; eauto).
  pose proof (ParseInt0_fmt_d b Hb) as Hb'.
  assert (∀ x : bool, ParseBool (bool_word x) = Ok x) as Hbool by by intros [].
  apply_written. reflexivity.
Qed.

(** Every kind a controller watches is cached for the namespace of the program only, and
    every kind the program uses is either cached that way or read without the cache. *)
Theorem watches_namespaced f cfg r :
  SetupController r ∈ setup_steps f cfg →
  (reg_For r, [MintMakerNamespaceName]) ∈ mgr_ByObject (manager_options f cfg) ∧
  reg_For r ∉ mgr_DisableFor (manager_options f cfg).
Proof.
  assert (∀ k, k ∈ [KDependencyUpdateCheck; KPipelineRun; KEvent] →
    (k, [MintMakerNamespaceName]) ∈ ByObject ∧ k ∉ DisableFor) as Hk.
  { intros k Hk. repeat (apply elem_of_cons in Hk as [->|Hk];
      [split; [unfold ByObject; set_solver|unfold DisableFor; set_solver]|]).
    by apply elem_of_nil in Hk. }
  intros H. apply Hk. unfold setup_steps in H.
  repeat (apply elem_of_cons in H as [E|H]; [first [discriminate E|injection E as ->; simpl; set_solver]|]).
  by apply elem_of_nil in H.
Qed.

(** No kind is left to an unrestricted cache. *)
Theorem kinds_accounted f cfg (k : Kind) :
  k ∈ mgr_DisableFor (manager_options f cfg) ∨
  (k, [MintMakerNamespaceName]) ∈ mgr_ByObject (manager_options f cfg).
Proof. simpl. unfold DisableFor, ByObject. destruct k; set_solver. Qed.
End Main.

(** With the flags left alone HTTP/2 is off, the metrics are served with authentication
    and there is no profiling server; and a profiling address that names a host is used
    as it is, local or not. *)
Example default_options (env : string) cfg :
  let f := default_flags in
  let o := manager_options f cfg in
  mgr_NextProtos o = Some ["http/1.1"] ∧ mgr_SecureServing o = true ∧ mgr_Authenticated o = true ∧
  mgr_config o = cfg ∧ pprof_server f env = None ∧
  pprof_address ":6060" = "127.0.0.1:6060" ∧ pprof_address "0.0.0.0:6060" = "0.0.0.0:6060".
Proof. split_and!; reflexivity. Qed.

(** A limit of the queries of zero or more replaces the limits of the configuration, and
    is rounded to 32 bits; not-a-number does not. *)
Example rest_config_ex cfg :
  let parse qps := match Parse (flag_set []) default_flags ["--kube-api-qps"; qps; "-kube-api-burst=0x40"] with
                   | Parsed f _ => Some (rest_config f cfg) | _ => None end in
  parse "0.1" = Some (MkRestConfig (S754_finite false 13421773 (-27)) 64) ∧
  parse "-0" = Some (MkRestConfig (S754_zero true) 64) ∧ parse "-1" = Some cfg ∧
  parse "NaN" = Some cfg ∧ parse "fast" = None.
Proof. vm_compute. split_and!; reflexivity. Qed.

Lemma run_main_options_witness cfg :
  main (λ _, false) [] (setting_word <$>
    [("metrics-bind-address", ":8443"); ("health-probe-bind-address", ""); ("pprof-bind-address", "a=b");
     ("leader-elect", "true"); ("metrics-secure", "false"); ("enable-http2", "true");
     ("kube-api-qps", "2e1"); ("kube-api-burst", "30")]) cfg (λ _, false) =
  run_main (λ _, false) (MkFlags ":8443" "" "a=b" true false true (float64 20) 30) cfg (λ _, false).
Proof.
  refine (run_main_options (λ _, false) [] (MkFlags ":8443" "" "a=b" true false true (float64 20) 30)
            "2e1" cfg (λ _, false) _ _); [split; [done|reflexivity]|vm_compute; reflexivity].
Defined.

Lemma watches_namespaced_witness :
  (KEvent, [MintMakerNamespaceName]) ∈ ByObject ∧ KEvent ∉ DisableFor.
Proof.
  refine (watches_namespaced (λ _, false) default_flags
            (MkRestConfig (S754_zero false) 0) event_SetupWithManager _).
  right. right. right. left.
Defined.
