(* ===== verification/GoPath.v ===== *)
(** * Go's [path/filepath] on Unix

    [filepath.Clean], [Join] and [Dir] as the OSV download uses them.  [Clean] is
    defined on the segments between the slashes, with the stack its four rules
    describe: empty segments and [.] are dropped, [..] removes the name before it,
    stays when there is none and the path is relative, and is dropped at the root. *)

From S2P Require Import Prelude GoStrings.
From Stdlib Require Import Ascii.

Definition slash : ascii := "/"%char.

(** One segment of the path; the stack holds the result so far, last segment first. *)
Definition clean_step (rooted : bool) (stack : list string) (seg : string) : list string :=
  if decide (seg = "" ∨ seg = ".") then stack
  else if decide (seg = "..") then
    match stack with
    | top :: stack' => if decide (top = "..") then seg :: stack else stack'
    | [] => if rooted then [] else [seg]
    end
  else seg :: stack.

Definition is_rooted (path : string) : bool := HasPrefix path "/".

(** The segments of the cleaned path. *)
Definition clean_segs (path : string) : list string :=
  reverse (foldl (clean_step (is_rooted path)) [] (Split path slash)).

Definition render (rooted : bool) (segs : list string) : string :=
  if rooted then "/" +:+ Join segs slash
  else match segs with [] => "." | _ => Join segs slash end.

(** [filepath.Clean(path)]. *)
Definition Clean (path : string) : string := render (is_rooted path) (clean_segs path).

(** [filepath.Join(a, b)]: leading empty elements are skipped. *)
Definition Join2 (a b : string) : string :=
  if decide (a = "") then if decide (b = "") then "" else Clean b
  else Clean (a +:+ "/" +:+ b).

(** [filepath.Dir(path)]: what is before the last slash, that slash included, cleaned. *)
Definition Dir (path : string) : string :=
  Clean (match reverse (Split path slash) with
         | _ :: before => Join (reverse before ++ [""]) slash
         | [] => ""
         end).

Example clean_ex :
  Clean "/a//b/./../c/" = "/a/c" ∧ Clean "../../x/.." = "../.." ∧ Clean "" = "." ∧
  Clean "/../.." = "/" ∧ Clean "a/.." = ".".
Proof. by vm_compute. Qed.

Example dir_ex :
  Dir "/a/b" = "/a" ∧ Dir "/a" = "/" ∧ Dir "a" = "." ∧ Dir "/a/b/" = "/a/b" ∧ Dir "../x/y" = "../x".
Proof. by vm_compute. Qed.

(** ** The shape of a cleaned path *)

(** A segment that names an entry of a directory. *)
Definition is_name (s : string) : Prop :=
  s ≠ "" ∧ s ≠ "." ∧ s ≠ ".." ∧ ¬ byte_in slash s.

(** Leading [..] only when the path is relative, then names only. *)
Definition normal (rooted : bool) (segs : list string) : Prop :=
  ∃ n names, segs = replicate n ".." ++ names ∧ Forall is_name names ∧ (rooted = true → n = 0).

Lemma clean_step_name rooted stack s : is_name s → clean_step rooted stack s = s :: stack.
Proof.
  intros (H1 & H2 & H3 & _). unfold clean_step. rewrite decide_False by (by intros [?|?]).
  by rewrite decide_False.
Qed.

Lemma normal_snoc rooted segs s : normal rooted segs → is_name s → normal rooted (segs ++ [s]).
Proof.
  intros (n & names & -> & HF & Hn) Hs. exists n, (names ++ [s]).
  rewrite app_assoc. split_and!; [done| |done]. apply Forall_app_2; auto.
Qed.

Lemma clean_step_normal rooted stack s :
  ¬ byte_in slash s → normal rooted (reverse stack) →
  normal rooted (reverse (clean_step rooted stack s)).
Proof.
  intros Hs Hst. unfold clean_step. case_decide as E1; [done|]. case_decide as E2.
  2: { rewrite reverse_cons. apply normal_snoc; [done|]. split_and!; naive_solver. }
  subst s. destruct stack as [|top stack].
  - destruct rooted; [by exists 0, []|]. by exists 1, [].
  - rewrite reverse_cons in Hst. destruct Hst as (n & names & Hn & HF & Hr).
    destruct names as [|x names _] using rev_ind.
    + rewrite app_nil_r in Hn. destruct n as [|n]; [by destruct (reverse stack)|].
      rewrite replicate_S_end in Hn. apply app_inj_tail in Hn as [Hst ->].
      rewrite decide_True by done. rewrite !reverse_cons, Hst. exists (S (S n)), [].
      rewrite app_nil_r, !replicate_S_end. split_and!; [done..|]. intros ?. naive_solver.
    + rewrite app_assoc in Hn. apply app_inj_tail in Hn as [Hst ->].
      apply Forall_app in HF as [HF Hx]. apply Forall_cons in Hx as [Hx _].
      rewrite decide_False by (by destruct Hx as (_ & _ & ? & _)). rewrite Hst. by exists n, names.
Qed.

Lemma foldl_normal rooted l stack :
  Forall (λ s, ¬ byte_in slash s) l → normal rooted (reverse stack) →
  normal rooted (reverse (foldl (clean_step rooted) stack l)).
Proof.
  intros Hl. revert stack. induction Hl as [|s l Hs Hl IH]; intros stack Hst; [done|].
  apply IH, clean_step_normal; done.
Qed.

Lemma clean_segs_normal path : normal (is_rooted path) (clean_segs path).
Proof. apply foldl_normal; [apply Split_no_sep|]. by exists 0, []. Qed.

(** Cleaning keeps what is already clean. *)
Lemma foldl_dotdots n m :
  foldl (clean_step false) (replicate m "..") (replicate n "..") = replicate (n + m) "..".
Proof.
  revert m. induction n as [|n IH]; intros m; [done|].
  replace (S n + m) with (n + S m) by lia. rewrite <-IH. simpl. f_equal. by destruct m.
Qed.

Lemma foldl_names rooted stack names :
  Forall is_name names → foldl (clean_step rooted) stack names = reverse names ++ stack.
Proof.
  intros HF. revert stack. induction HF as [|s l Hs Hl IH]; intros stack; [done|].
  simpl. rewrite clean_step_name, IH, reverse_cons by done. by rewrite <-app_assoc.
Qed.

Lemma foldl_clean rooted segs :
  normal rooted segs → reverse (foldl (clean_step rooted) [] segs) = segs.
Proof.
  intros (n & names & -> & HF & Hr). rewrite foldl_app.
  assert (foldl (clean_step rooted) [] (replicate n "..") = replicate n "..") as ->.
  { destruct rooted; [by rewrite Hr|].
    change [] with (replicate 0 ".."). rewrite foldl_dotdots. by rewrite Nat.add_0_r. }
  rewrite foldl_names, reverse_app, reverse_involutive by done.
  by rewrite reverse_replicate.
Qed.

(** ** Segments of a rendered path *)

Lemma dotdot_no_slash : ¬ byte_in slash "..".
Proof. by apply (bool_decide_unpack (¬ byte_in slash "..")). Qed.

Lemma normal_no_slash rooted segs : normal rooted segs → Forall (λ s, ¬ byte_in slash s) segs.
Proof.
  intros (n & names & -> & HF & _). apply Forall_app_2.
  - apply Forall_replicate, dotdot_no_slash.
  - eapply Forall_impl; [done|]. by intros s (_ & _ & _ & ?).
Qed.

Lemma normal_not_empty rooted segs : normal rooted segs → "" ∉ segs.
Proof.
  intros (n & names & -> & HF & _). rewrite elem_of_app, elem_of_replicate.
  intros [[[=] _]|H]. rewrite Forall_forall in HF. by destruct (HF _ H).
Qed.

Lemma normal_not_dot rooted segs : normal rooted segs → "." ∉ segs.
Proof.
  intros (n & names & -> & HF & _). rewrite elem_of_app, elem_of_replicate.
  intros [[[=] _]|H]. rewrite Forall_forall in HF. by destruct (HF _ H) as (_ & ? & _).
Qed.

Lemma is_rooted_no_slash s t : s ≠ "" → ¬ byte_in slash s → is_rooted (s +:+ t) = false.
Proof.
  destruct s as [|c s]; [done|]. intros _ Hc. rewrite app_cons_str. unfold is_rooted. simpl.
  rewrite byte_in_cons in Hc. by rewrite bool_decide_eq_false_2 by naive_solver.
Qed.

Lemma is_rooted_render rooted segs : normal rooted segs → is_rooted (render rooted segs) = rooted.
Proof.
  intros Hn. destruct rooted; [by apply HasPrefix_spec; eexists|]. destruct segs as [|s segs]; [done|].
  pose proof (normal_no_slash _ _ Hn) as Hs. apply Forall_cons in Hs as [Hs _].
  pose proof (normal_not_empty _ _ Hn) as He. rewrite elem_of_cons in He.
  cbn [render]. destruct segs as [|s' segs].
  - simpl. rewrite <-(app_nil_r_str s). apply is_rooted_no_slash; naive_solver.
  - rewrite Join_cons by done. apply is_rooted_no_slash; naive_solver.
Qed.

(** The segments of a rendered path, with what its splitting adds. *)
Lemma Split_cons_slash s : Split ("/" +:+ s) slash = "" :: Split s slash.
Proof. apply (Split_app "" s slash), byte_in_nil. Qed.

Lemma Split_sep a b sep : Split (a +:+ String sep b) sep = Split a sep ++ Split b sep.
Proof.
  rewrite <-(Join_Split a sep) at 1. pose proof (Split_no_sep a sep) as HF.
  pose proof (Split_not_nil a sep) as Hne. induction (Split a sep) as [|w ws IH]; [done|].
  apply Forall_cons in HF as [Hw HF]. destruct ws as [|w' ws].
  - by apply Split_app.
  - rewrite Join_cons, app_assoc_str, app_cons_str by done. rewrite Split_app by done.
    rewrite IH by done. done.
Qed.

Lemma Split_slash a b : Split (a +:+ "/" +:+ b) slash = Split a slash ++ Split b slash.
Proof. apply Split_sep. Qed.

Lemma foldl_render rooted segs :
  normal rooted segs →
  foldl (clean_step rooted) [] (Split (render rooted segs) slash) =
  foldl (clean_step rooted) [] segs.
Proof.
  intros Hn. pose proof (normal_no_slash _ _ Hn) as Hs.
  destruct rooted; cbn [render].
  - rewrite Split_cons_slash. destruct segs as [|s segs]; [done|].
    by rewrite Split_Join.
  - destruct segs as [|s segs]; [done|]. by rewrite Split_Join.
Qed.

Lemma clean_segs_render rooted segs : normal rooted segs → clean_segs (render rooted segs) = segs.
Proof.
  intros Hn. unfold clean_segs. rewrite is_rooted_render, foldl_render by done.
  by apply foldl_clean.
Qed.

Lemma is_rooted_Clean path : is_rooted (Clean path) = is_rooted path.
Proof. apply is_rooted_render, clean_segs_normal. Qed.

Lemma clean_segs_Clean path : clean_segs (Clean path) = clean_segs path.
Proof. apply clean_segs_render, clean_segs_normal. Qed.

(** [Clean] computes a normal form: cleaning twice changes nothing. *)
Theorem Clean_idempotent path : Clean (Clean path) = Clean path.
Proof. unfold Clean at 1. by rewrite is_rooted_Clean, clean_segs_Clean. Qed.

(** A joined path is clean. *)
Lemma Clean_Join2 a b : a ≠ "" → Clean (Join2 a b) = Join2 a b.
Proof. intros Ha. unfold Join2. rewrite decide_False by done. apply Clean_idempotent. Qed.

(** ** Paths under a directory *)

(** [p] is the clean path of [d] followed by names: [d] itself or something reached
    from it without going up. *)
Definition beneath (d p : string) : Prop :=
  ∃ names, Forall is_name names ∧ p = render (is_rooted d) (clean_segs d ++ names).

Lemma beneath_self d : beneath d (Clean d).
Proof. exists []. by rewrite app_nil_r. Qed.

Lemma render_not_empty r segs : normal r segs → render r segs ≠ "".
Proof.
  intros Hn. destruct r; [done|]. destruct segs as [|s segs]; [done|].
  apply normal_not_empty in Hn. rewrite elem_of_cons in Hn. cbn [render].
  destruct segs; [naive_solver|]. rewrite Join_cons by done.
  intros H%app_eq_nil_str. naive_solver.
Qed.

Lemma is_rooted_app s t : s ≠ "" → is_rooted (s +:+ t) = is_rooted s.
Proof.
  destruct s as [|c s]; [done|]. intros _. rewrite app_cons_str. unfold is_rooted. simpl.
  by rewrite !HasPrefix_nil.
Qed.

(** Splitting a rendered path that begins with another one and a slash. *)
Lemma render_prefix r segs r' segs' t :
  normal r segs → normal r' segs' → render r' segs' = render r segs +:+ "/" +:+ t →
  segs ≠ [] ∧ r' = r ∧ segs' = segs ++ Split t slash.
Proof.
  intros Hn Hn' Heq. assert (r' = r) as ->.
  { rewrite <-(is_rooted_render r' segs'), Heq, is_rooted_app by eauto using render_not_empty.
    by apply is_rooted_render. }
  pose proof (normal_no_slash _ _ Hn) as Hs. pose proof (normal_no_slash _ _ Hn') as Hs'.
  apply (f_equal (λ p, Split p slash)) in Heq. cbn beta in Heq. rewrite Split_slash in Heq.
  destruct r; cbn [render] in Heq.
  - rewrite !Split_cons_slash in Heq. injection Heq as Heq.
    destruct segs' as [|s' segs'].
    { destruct segs; simpl in Heq; [|destruct (Split _ _) eqn:E; [by apply Split_not_nil in E|]].
      - injection Heq as Heq. symmetry in Heq. by apply Split_not_nil in Heq.
      - injection Heq as _ Heq. symmetry in Heq. apply app_eq_nil in Heq as [_ Heq].
        by apply Split_not_nil in Heq. }
    rewrite Split_Join in Heq by done. destruct segs as [|s segs].
    + simpl in Heq. injection Heq as -> _. apply normal_not_empty in Hn'.
      rewrite elem_of_cons in Hn'. naive_solver.
    + by rewrite Split_Join in Heq.
  - destruct segs' as [|s' segs'].
    { destruct segs as [|s segs].
      - injection Heq as Heq. symmetry in Heq. by apply Split_not_nil in Heq.
      - rewrite Split_Join in Heq by done. injection Heq as _ Heq. symmetry in Heq.
        apply app_eq_nil in Heq as [_ Heq]. by apply Split_not_nil in Heq. }
    rewrite Split_Join in Heq by done. destruct segs as [|s segs].
    + simpl in Heq. injection Heq as -> _. apply normal_not_dot in Hn'.
      rewrite elem_of_cons in Hn'. naive_solver.
    + by rewrite Split_Join in Heq.
Qed.

(** The segments after a last one that is not [..] are names. *)
Lemma normal_app_names r segs rest :
  normal r (segs ++ rest) → last segs ≠ Some ".." → segs ≠ [] → Forall is_name rest.
Proof.
  intros (n & names & Heq & HF & _) Hlast Hne.
  destruct (decide (n < length segs)) as [Hlt|Hge].
  - apply (f_equal (drop (length segs))) in Heq.
    rewrite drop_app_length, drop_app_ge in Heq by (rewrite length_replicate; lia).
    rewrite Heq. by apply Forall_drop.
  - exfalso. destruct segs as [|x segs _] using rev_ind; [done|]. apply Hlast.
    rewrite last_snoc. f_equal. apply (f_equal (.!! length segs)) in Heq.
    cbn beta in Heq. rewrite length_app in Hge. simpl in Hge.
    rewrite <-app_assoc in Heq. simpl in Heq. rewrite list_lookup_middle in Heq by done.
    rewrite lookup_app_l in Heq by (rewrite length_replicate; lia).
    symmetry in Heq. by apply lookup_replicate in Heq as [-> _].
Qed.

(** What the guard against zip slip tests. *)
Definition under (d p : string) : bool :=
  HasPrefix p (d +:+ "/") || bool_decide (p = d).

Lemma render_app r segs rest :
  segs ≠ [] → rest ≠ [] → render r (segs ++ rest) = render r segs +:+ "/" +:+ Join rest slash.
Proof.
  intros Hs Hr. assert (Join (segs ++ rest) slash = Join segs slash +:+ "/" +:+ Join rest slash) as E.
  { induction segs as [|s segs IH]; [done|]. destruct segs as [|s' segs]; simpl.
    - destruct rest; [done|]. done.
    - simpl in IH. rewrite IH by done. by rewrite app_assoc_str, app_cons_str. }
  destruct r; cbn [render].
  - by rewrite E, app_assoc_str.
  - destruct segs; [done|]. by rewrite <-E.
Qed.

(** *** The parent of a path under a directory *)

Lemma Clean_Join l r :
  l ≠ [] → Forall (λ s, ¬ byte_in slash s) l → is_rooted (Join l slash) = r →
  Clean (Join l slash) = render r (reverse (foldl (clean_step r) [] l)).
Proof.
  intros Hne HF Hr. unfold Clean, clean_segs. rewrite Hr. by rewrite Split_Join.
Qed.

Lemma Dir_render r segs s :
  normal r (segs ++ [s]) → Dir (render r (segs ++ [s])) = render r segs.
Proof.
  intros Hn. assert (normal r segs) as Hn'.
  { destruct Hn as (n & names & Heq & HF & Hr). destruct names as [|x names _] using rev_ind.
    - rewrite app_nil_r in Heq. destruct n as [|n]; [by destruct segs|].
      rewrite replicate_S_end in Heq. apply app_inj_tail in Heq as [-> _].
      exists n, []. rewrite app_nil_r. split_and!; [done..|]. intros ?. naive_solver.
    - rewrite app_assoc in Heq. apply app_inj_tail in Heq as [-> _].
      apply Forall_app in HF as [HF _]. by exists n, names. }
  pose proof (normal_no_slash _ _ Hn) as Hs. pose proof (normal_no_slash _ _ Hn') as Hs'.
  assert (¬ byte_in slash "") as He by apply byte_in_nil. unfold Dir.
  assert (Split (render r (segs ++ [s])) slash = (if r then [""] else []) ++ segs ++ [s]) as ->.
  { destruct r; cbn [render].
    - rewrite Split_cons_slash, Split_Join by (done || by destruct segs). done.
    - destruct (segs ++ [s]) eqn:E; [by destruct segs|]. rewrite <-E in *.
      by rewrite Split_Join by (done || by destruct segs). }
  rewrite !reverse_app, reverse_singleton. cbn [app]. rewrite reverse_app, !reverse_involutive.
  rewrite (Clean_Join _ r).
  - f_equal. destruct r; cbn [app foldl]; rewrite foldl_app; cbn [foldl].
    + change (clean_step true [] "") with (@nil string). by apply foldl_clean.
    + by apply foldl_clean.
  - by destruct r, segs.
  - destruct r; cbn [app]; repeat constructor; try done; apply Forall_app_2; auto.
  - destruct r; cbn [app].
    + rewrite Join_cons by (by destruct segs). by apply HasPrefix_spec; eexists.
    + destruct segs as [|s' segs]; [done|]. cbn [app]. rewrite Join_cons by (by destruct segs).
      apply Forall_cons in Hs' as [Hs' _]. apply normal_not_empty in Hn'.
      rewrite elem_of_cons in Hn'. apply is_rooted_no_slash; naive_solver.
Qed.

(** The guard is enough for a directory that does not end in [..]: an accepted path,
    and the directory it is in, are beneath it. *)
Lemma under_beneath d p :
  last (clean_segs d) ≠ Some ".." → under (Clean d) (Clean p) = true →
  beneath d (Clean p) ∧ (beneath d (Dir (Clean p)) ∨ Clean p = Clean d).
Proof.
  intros Hlast. unfold under. rewrite orb_true_iff, bool_decide_eq_true.
  intros [H| ->]; [|auto using beneath_self]. apply HasPrefix_spec in H as [t H].
  rewrite app_assoc_str in H. pose proof (clean_segs_normal p) as Hn'. unfold Clean in *.
  destruct (render_prefix _ _ _ _ _ (clean_segs_normal d) Hn' H) as (Hne & Hr & Heq).
  rewrite Hr, Heq in *. pose proof (normal_app_names _ _ _ Hn' Hlast Hne) as HF.
  split; [by exists (Split t slash)|left]. pose proof (Split_not_nil t slash) as Ht.
  destruct (Split t slash) as [|x rest _] using rev_ind; [done|].
  apply Forall_app in HF as [HF _]. rewrite app_assoc in Hn' |- *.
  rewrite Dir_render by done. by exists rest.
Qed.

(** Nothing but itself is accepted for the root and for the current directory. *)
Lemma under_empty d p :
  clean_segs d = [] → under (Clean d) (Clean p) = true → Clean p = Clean d.
Proof.
  intros Hd. unfold under. rewrite orb_true_iff, bool_decide_eq_true. intros [H|H]; [|done].
  apply HasPrefix_spec in H as [t H]. rewrite app_assoc_str in H.
  by destruct (render_prefix _ _ _ _ _ (clean_segs_normal d) (clean_segs_normal p) H).
Qed.

(** Joining a name. *)
Lemma Join2_name d name : is_name name → Join2 d name = render (is_rooted d) (clean_segs d ++ [name]).
Proof.
  intros Hn. pose proof Hn as (Hne & _ & _ & Hs). unfold Join2. case_decide as Hd.
  - subst d. rewrite decide_False by done. unfold Clean, clean_segs.
    rewrite Split_single by done. rewrite <-(app_nil_r_str name) at 1.
    rewrite is_rooted_no_slash by done. cbn [foldl]. by rewrite clean_step_name.
  - unfold Clean, clean_segs. rewrite is_rooted_app, Split_slash by done.
    rewrite (Split_single name) by done. rewrite foldl_app. cbn [foldl].
    by rewrite clean_step_name, reverse_cons.
Qed.

Lemma Join2_beneath d name : is_name name → beneath d (Join2 d name).
Proof. intros Hn. exists [name]. split; [by constructor|by apply Join2_name]. Qed.
