(* ===== verification/ToolWorld.v ===== *)
(** * The OSV programs and their surroundings

    The database generator downloads, converts and writes files, some of it in
    goroutines that run at the same time.  Its code is therefore modelled as
    programs that ask the outside world one thing at a time ([Prog], a free monad
    over the operations of [op]), so that the steps of several programs can be
    interleaved.  A program has the outcomes [Runs] gives it, one for every way the
    outside world may answer; [run] computes the outcome for given answers, and
    [always] and [asks] are the two predicates the theorems about all outcomes are
    proved with.

    [Behaviour] is for the code around the goroutines: the set of the traces and
    results a piece of code may have; [group_runs] is that of a function that starts
    goroutines which each send their result on one unbuffered channel, and receives from
    it in a loop; [group_step] are the steps it goes through. *)

From S2P Require Import Prelude GoStrings Json.
From Stdlib Require Eqdep_dec.

(** ** What the programs ask for *)

(** What reading a response or an archive entry to its end gives: the bytes, and the
    error that ended the reading early, if one did. *)
Record Stream := MkStream { st_data : string; st_err : option error }.

Record Response := MkResponse { StatusCode : Z; resp_Body : Stream }.

(** A [*github.ReleaseAsset]: two pointers to strings. *)
Record ReleaseAsset := MkAsset { asset_Name : option string; BrowserDownloadURL : option string }.

(** A [*zip.File], with what reading it gives. *)
Record ZipFile := MkZipFile {
  zf_Name : string;
  zf_IsDir : bool;
  zf_Mode : Z;
  zf_Content : Stream
}.

(** A wall clock reading: nanoseconds since 1970 and the offset of the local time
    zone from UTC in seconds. *)
Record Clock := MkClock { ck_nanos : Z; ck_offset : Z }.

Inductive op : Type :=
| GithubClient                                  (* github.NewClient() *)
| LatestRelease (owner repo : string)           (* client.Repositories.GetLatestRelease *)
| HttpGet (url : string)                        (* http.Get *)
| Sleep (nanos : Z)                             (* time.Sleep *)
| Now                                           (* time.Now *)
| Uniuri                                        (* uniuri.New *)
| MkdirAll (path : string)                      (* os.MkdirAll(path, 0755) *)
| OpenFile (path : string) (mode : Z)           (* created or truncated, for writing *)
| Write (path data : string)                    (* to the open file of that path *)
| CloseFile (path : string)
| OpenZip (path : string)                       (* zip.OpenReader *)
| OpenEntry (name : string)                     (* file.Open of an entry *)
| CloseEntry (name : string).

Definition answer (o : op) : Type :=
  match o with
  | GithubClient => error + unit
  | LatestRelease _ _ => error + list ReleaseAsset
  | HttpGet _ => error + Response
  | Sleep _ => unit
  | Now => Clock
  | Uniuri => string
  | MkdirAll _ | OpenFile _ _ | Write _ _ | CloseFile _ => error + unit
  | OpenZip _ => error + list ZipFile
  | OpenEntry _ | CloseEntry _ => error + unit
  end.

(** One thing asked, with the answer. *)
Definition event : Type := { o : op & answer o }.
Definition ev (o : op) (a : answer o) : event := existT o a.

#[export] Instance op_eq_dec : EqDecision op.
Proof. solve_decision. Defined.

Lemma ev_inj o (a b : answer o) : ev o a = ev o b → a = b.
Proof. apply Eqdep_dec.inj_pair2_eq_dec, op_eq_dec. Qed.

(** ** Programs *)

Inductive Prog (A : Type) : Type :=
| Ret (r : result A)
| Ask (o : op) (k : answer o → Prog A).
Arguments Ret {_} _.
Arguments Ask {_} _ _.

Definition ask (o : op) : Prog (answer o) := Ask o (λ a, Ret (Ok a)).
Definition p_ret {A} (a : A) : Prog A := Ret (Ok a).
Definition p_fail {A} (e : error) : Prog A := Ret (Err e).
Definition p_panic {A} (m : string) : Prog A := Ret (Panic m).

(** What comes after a program, whatever its result. *)
Fixpoint p_then {A B} (m : Prog A) (k : result A → Prog B) : Prog B :=
  match m with
  | Ret r => k r
  | Ask o c => Ask o (λ a, p_then (c a) k)
  end.

(** An error or a panic is passed on. *)
Definition p_bind {A B} (m : Prog A) (k : A → Prog B) : Prog B :=
  p_then m (λ r, match r with Ok a => k a | Err e => p_fail e | Panic p => p_panic p end).

(** The error is inspected. *)
Definition p_try {A B} (m : Prog A) (k : error + A → Prog B) : Prog B :=
  p_then m (λ r, match r with
                 | Ok a => k (inr a) | Err e => k (inl e) | Panic p => p_panic p
                 end).

(** [if err != nil { return f(err) }]. *)
Definition p_wrap {A} (f : error → error) (m : Prog A) : Prog A :=
  p_try m (λ r, match r with inl e => p_fail (f e) | inr a => p_ret a end).

(** [defer]: [d] runs on every way out, and what it returns is dropped. *)
Definition p_defer {A} (m : Prog A) (d : Prog unit) : Prog A :=
  p_then m (λ r, p_then d (λ rd, match rd with Panic p => p_panic p | _ => Ret r end)).

(** A call that returns a value and an error. *)
Definition p_lift {A} (m : Prog (error + A)) : Prog A :=
  p_bind m (λ x, match x with inl e => p_fail e | inr a => p_ret a end).

Fixpoint p_for {A} (l : list A) (body : A → Prog unit) : Prog unit :=
  match l with
  | [] => p_ret tt
  | x :: l' => p_bind (body x) (λ _, p_for l' body)
  end.

Fixpoint p_fold {A X} (l : list A) (x0 : X) (body : A → X → Prog X) : Prog X :=
  match l with
  | [] => p_ret x0
  | a :: l' => p_bind (body a x0) (λ x, p_fold l' x body)
  end.

Declare Scope prog_scope.
Delimit Scope prog_scope with prog.
Open Scope prog_scope.

Notation "'do' x := m 'in' k" := (p_bind m (λ x, k))
  (at level 10, x name, m at level 100, k at level 200,
   format "'[v' 'do'  x  :=  m  'in' '/' k ']'") : prog_scope.
Notation "'attempt' x := m 'in' k" := (p_try m (λ x, k))
  (at level 10, x name, m at level 100, k at level 200) : prog_scope.

(** ** Outcomes *)

(** The traces and results a program may have. *)
Fixpoint Runs {A} (p : Prog A) (tr : list event) (r : result A) : Prop :=
  match p with
  | Ret r' => tr = [] ∧ r = r'
  | Ask o k => ∃ (a : answer o) tr', tr = ev o a :: tr' ∧ Runs (k a) tr' r
  end.

(** The outside world: what it answers may depend on all that was asked before. *)
Definition Oracle : Type := list event → ∀ o : op, answer o.

Fixpoint run {A} (p : Prog A) (f : Oracle) (h : list event) : result A * list event :=
  match p with
  | Ret r => (r, [])
  | Ask o k =>
      let a := f h o in
      let '(r, tr) := run (k a) f (h ++ [ev o a]) in (r, ev o a :: tr)
  end.

Lemma run_Runs {A} (p : Prog A) f h : Runs p (run p f h).2 (run p f h).1.
Proof.
  revert h. induction p as [r|o k IH]; intros h; simpl; [done|].
  specialize (IH (f h o) (h ++ [ev o (f h o)])).
  destruct (run _ _ _) as [r tr]. simpl. eauto.
Qed.

(** The answers determine the outcome. *)
Lemma Runs_determined {A} (p : Prog A) tr1 tr2 r1 r2 k1 k2 :
  Runs p tr1 r1 → Runs p tr2 r2 → tr1 ++ k1 = tr2 ++ k2 → tr1 = tr2 ∧ r1 = r2.
Proof.
  revert tr1 tr2. induction p as [r|o c IH]; intros tr1 tr2; simpl.
  - by intros [-> ->] [-> ->].
  - intros (a & t1 & -> & H1) (b & t2 & -> & H2) Heq. simpl in Heq.
    injection Heq as Hab Ht. apply (Eqdep_dec.inj_pair2_eq_dec _ op_eq_dec) in Hab as <-.
    by destruct (IH a t1 t2 H1 H2 Ht) as [-> ->].
Qed.

(** A given outcome, computed. *)
Lemma run_Runs_eq {A} (p : Prog A) f h tr r : run p f h = (r, tr) → Runs p tr r.
Proof. intros H. pose proof (run_Runs p f h) as HR. by rewrite H in HR. Qed.

Section Outcomes.
Context {A B : Type}.

Lemma Runs_then (m : Prog A) (k : result A → Prog B) tr r :
  Runs (p_then m k) tr r ↔ ∃ r1 tr1 tr2, tr = tr1 ++ tr2 ∧ Runs m tr1 r1 ∧ Runs (k r1) tr2 r.
Proof.
  revert tr. induction m as [r0|o c IH]; intros tr; simpl; split.
  - intros H. by exists r0, [], tr.
  - by intros (? & ? & tr2 & -> & (-> & ->) & H).
  - intros (a & tr' & -> & H). apply IH in H as (r1 & tr1 & tr2 & -> & H1 & H2).
    exists r1, (ev o a :: tr1), tr2. split_and!; eauto.
  - intros (r1 & tr1 & tr2 & -> & (a & tr' & -> & H1) & H2).
    exists a, (tr' ++ tr2). split; [done|]. apply IH. eauto 6.
Qed.

Lemma Runs_bind (m : Prog A) (k : A → Prog B) tr r :
  Runs (p_bind m k) tr r ↔
  (∃ a tr1 tr2, tr = tr1 ++ tr2 ∧ Runs m tr1 (Ok a) ∧ Runs (k a) tr2 r) ∨
  (∃ e, Runs m tr (Err e) ∧ r = Err e) ∨ (∃ p, Runs m tr (Panic p) ∧ r = Panic p).
Proof.
  unfold p_bind. rewrite Runs_then. split.
  - intros ([a|e|p] & tr1 & tr2 & -> & H1 & H2); [left; eauto 6|..];
      destruct H2 as [-> ->]; rewrite app_nil_r; eauto.
  - intros [(a & tr1 & tr2 & -> & H1 & H2)|[(e & H & ->)|(p & H & ->)]].
    + by exists (Ok a), tr1, tr2.
    + exists (Err e), tr, []. by rewrite app_nil_r.
    + exists (Panic p), tr, []. by rewrite app_nil_r.
Qed.

Lemma Runs_try (m : Prog A) (k : error + A → Prog B) tr r :
  Runs (p_try m k) tr r ↔
  (∃ x tr1 tr2, tr = tr1 ++ tr2 ∧ Runs m tr1 (of_sum x) ∧ Runs (k x) tr2 r) ∨
  (∃ p, Runs m tr (Panic p) ∧ r = Panic p).
Proof.
  unfold p_try. rewrite Runs_then. split.
  - intros ([a|e|p] & tr1 & tr2 & -> & H1 & H2).
    + left. exists (inr a). eauto 6.
    + left. exists (inl e). eauto 6.
    + destruct H2 as [-> ->]. rewrite app_nil_r. eauto.
  - intros [([e|a] & tr1 & tr2 & -> & H1 & H2)|(p & H & ->)].
    + by exists (Err e), tr1, tr2.
    + by exists (Ok a), tr1, tr2.
    + exists (Panic p), tr, []. by rewrite app_nil_r.
Qed.
End Outcomes.

Lemma Runs_ask o tr r : Runs (ask o) tr r ↔ ∃ a, tr = [ev o a] ∧ r = Ok a.
Proof.
  simpl. split; [intros (a & tr' & -> & -> & ->); eauto|]. intros (a & -> & ->). eauto 6.
Qed.

(** *** Successful outcomes *)

Lemma Runs_bind_ok {A B} (m : Prog A) (k : A → Prog B) tr b :
  Runs (p_bind m k) tr (Ok b) ↔
  ∃ a tr1 tr2, tr = tr1 ++ tr2 ∧ Runs m tr1 (Ok a) ∧ Runs (k a) tr2 (Ok b).
Proof. rewrite Runs_bind. naive_solver. Qed.

Lemma Runs_try_ok {A B} (m : Prog A) (k : error + A → Prog B) tr b :
  Runs (p_try m k) tr (Ok b) ↔
  ∃ x tr1 tr2, tr = tr1 ++ tr2 ∧ Runs m tr1 (of_sum x) ∧ Runs (k x) tr2 (Ok b).
Proof. rewrite Runs_try. naive_solver. Qed.

Lemma Runs_wrap_ok {A} f (m : Prog A) tr a : Runs (p_wrap f m) tr (Ok a) ↔ Runs m tr (Ok a).
Proof.
  unfold p_wrap. rewrite Runs_try_ok. split.
  - intros ([e|a'] & tr1 & tr2 & -> & H1 & H2); [by destruct H2|].
    destruct H2 as [-> [= ->]]. by rewrite app_nil_r.
  - intros H. exists (inr a), tr, []. by rewrite app_nil_r.
Qed.

Lemma Runs_lift_ok {A} (m : Prog (error + A)) tr a :
  Runs (p_lift m) tr (Ok a) ↔ Runs m tr (Ok (inr a)).
Proof.
  unfold p_lift. rewrite Runs_bind_ok. split.
  - intros ([e|a'] & tr1 & tr2 & -> & H1 & H2); [by destruct H2|].
    destruct H2 as [-> [= ->]]. by rewrite app_nil_r.
  - intros H. exists (inr a), tr, []. by rewrite app_nil_r.
Qed.

Lemma Runs_ask_ok o tr a : Runs (ask o) tr (Ok a) ↔ tr = [ev o a].
Proof. rewrite Runs_ask. naive_solver. Qed.

(** A request that succeeded. *)
Ltac ask_inv H := rewrite Runs_lift_ok in H; apply Runs_ask_ok in H as ->.

Lemma Runs_for_ok {A} (l : list A) body tr x :
  Runs (p_for l body) tr (Ok tt) → x ∈ l →
  ∃ tr', tr' `sublist_of` tr ∧ Runs (body x) tr' (Ok tt).
Proof.
  revert tr. induction l as [|y l IH]; intros tr; [by intros _ ?%elem_of_nil|].
  cbn [p_for]. rewrite Runs_bind_ok. intros ([] & tr1 & tr2 & -> & H1 & H2) [->|Hx]%elem_of_cons.
  - exists tr1. split; [by apply sublist_inserts_r|done].
  - destruct (IH tr2 H2 Hx) as (tr' & Hs & H). exists tr'. split; [by apply sublist_inserts_l|done].
Qed.

(** *** Properties of all outcomes

    [always P Q p]: everything the program may ask satisfies [P], and every result
    it may have satisfies [Q]. *)

Fixpoint always {A} (P : op → Prop) (Q : result A → Prop) (p : Prog A) : Prop :=
  match p with
  | Ret r => Q r
  | Ask o k => P o ∧ ∀ a, always P Q (k a)
  end.

Abbreviation asks P := (always P (λ _, True)).

Lemma always_Runs {A} P Q (p : Prog A) tr r :
  always P Q p → Runs p tr r → Forall (λ e : event, P (projT1 e)) tr ∧ Q r.
Proof.
  revert tr. induction p as [r0|o k IH]; intros tr; simpl.
  - by intros H [-> ->].
  - intros [Ho Hk] (a & tr' & -> & H). destruct (IH a tr' (Hk a) H) as [IH1 IH2]. auto.
Qed.

Lemma asks_Runs {A} P (p : Prog A) tr r :
  asks P p → Runs p tr r → Forall (λ e : event, P (projT1 e)) tr.
Proof. intros Hp HR. by destruct (always_Runs _ _ _ _ _ Hp HR). Qed.

Section Always.
Context (P : op → Prop).

Lemma always_impl {A} (Q Q' : result A → Prop) p :
  (∀ r, Q r → Q' r) → always P Q p → always P Q' p.
Proof. intros HQ. induction p; simpl; [by auto|]. intros [? ?]. split; auto. Qed.

Lemma always_then {A B} Q Q' (m : Prog A) (k : result A → Prog B) :
  always P Q m → (∀ r, Q r → always P Q' (k r)) → always P Q' (p_then m k).
Proof. intros Hm Hk. induction m; simpl in *; [by auto|]. destruct Hm. split; auto. Qed.

Lemma asks_then {A B} (m : Prog A) (k : result A → Prog B) :
  asks P m → (∀ r, asks P (k r)) → asks P (p_then m k).
Proof. intros Hm Hk. eapply always_then; [exact Hm|auto]. Qed.

Lemma asks_bind {A B} (m : Prog A) (k : A → Prog B) :
  asks P m → (∀ a, asks P (k a)) → asks P (p_bind m k).
Proof. intros Hm Hk. apply asks_then; [done|]. intros [a|e|p]; [apply Hk|done..]. Qed.

Lemma asks_try {A B} (m : Prog A) (k : error + A → Prog B) :
  asks P m → (∀ x, asks P (k x)) → asks P (p_try m k).
Proof. intros Hm Hk. apply asks_then; [done|]. intros [a|e|p]; [apply Hk..|done]. Qed.

Lemma asks_wrap {A} f (m : Prog A) : asks P m → asks P (p_wrap f m).
Proof. intros Hm. apply asks_try; [done|]. by intros [e|a]. Qed.

Lemma asks_defer {A} (m : Prog A) d : asks P m → asks P d → asks P (p_defer m d).
Proof.
  intros Hm Hd. apply asks_then; [done|]. intros r. apply asks_then; [done|]. by intros [| |].
Qed.

Lemma asks_lift {A} (m : Prog (error + A)) : asks P m → asks P (p_lift m).
Proof. intros Hm. apply asks_bind; [done|]. by intros [e|a]. Qed.

Lemma asks_ask o : P o → asks P (ask o).
Proof. by simpl. Qed.

Lemma asks_for {A} (l : list A) body : (∀ a, a ∈ l → asks P (body a)) → asks P (p_for l body).
Proof.
  induction l as [|x l IH]; intros Hb; [done|]. simpl. apply asks_bind.
  - apply Hb. left.
  - intros _. apply IH. intros a Ha. apply Hb. by right.
Qed.

Lemma asks_fold {A X} (l : list A) (x : X) body :
  (∀ a x, a ∈ l → asks P (body a x)) → asks P (p_fold l x body).
Proof.
  revert x. induction l as [|y l IH]; intros x Hb; [done|]. simpl. apply asks_bind.
  - apply Hb. left.
  - intros x'. apply IH. intros a z Ha. apply Hb. by right.
Qed.
End Always.

Create HintDb tool discriminated.
#[export] Hint Resolve asks_ask asks_bind asks_try asks_wrap asks_defer asks_lift : tool.

(** Going through a program: what is left are the requests and the loops. *)
Ltac solve_asks :=
  repeat first
    [ progress intros
    | progress auto with tool
    | match goal with
      | |- always _ _ (match ?x with _ => _ end) => destruct x
      | |- asks _ (p_bind _ _) => apply asks_bind
      | |- asks _ (p_try _ _) => apply asks_try
      | |- asks _ (p_wrap _ _) => apply asks_wrap
      | |- asks _ (p_defer _ _) => apply asks_defer
      | |- asks _ (p_lift _) => apply asks_lift
      | |- asks _ (ask _) => apply asks_ask
      | |- asks _ (Ret _) => exact I
      | |- asks _ (p_ret _) => exact I
      | |- asks _ (p_fail _) => exact I
      | |- asks _ (p_panic _) => exact I
      end ].

(** ** Goroutines *)

(** A piece of code that may start goroutines: the traces and results it may have. *)
Definition Behaviour (A : Type) : Type := list event → result A → Prop.

Definition b_prog {A} (p : Prog A) : Behaviour A := Runs p.

Definition b_bind {A B} (m : Behaviour A) (k : A → Behaviour B) : Behaviour B := λ tr r,
  (∃ a tr1 tr2, tr = tr1 ++ tr2 ∧ m tr1 (Ok a) ∧ k a tr2 r) ∨
  (∃ e, m tr (Err e) ∧ r = Err e) ∨ (∃ p, m tr (Panic p) ∧ r = Panic p).

(** A function that starts goroutines, one after the other, and then receives from an
    unbuffered channel a number of times.  [to_start] are the goroutines it has not
    started yet, [started] those that run, each at a point of its program, and
    [to_receive] the rounds of the receiving loop that are left. *)
Record Group (X : Type) := MkGroup {
  to_start : list (Prog X);
  started : list (Prog X);
  to_receive : nat
}.
Arguments MkGroup {_} _ _ _.
Arguments to_start {_} _.
Arguments started {_} _.
Arguments to_receive {_} _.

(** A step, with what was asked and what was received in it.  The goroutines that have
    been started go on in any order, one request at a time.  One that is through sends its
    result and is gone; the channel is unbuffered, so that needs the function to be at a
    receive: all are started, and a round is left. *)
Inductive group_step {X} : Group X → list event → list X → Group X → Prop :=
| step_start t ts run n :
    group_step (MkGroup (t :: ts) run n) [] [] (MkGroup ts (run ++ [t]) n)
| step_ask ts run1 o k (a : answer o) run2 n :
    group_step (MkGroup ts (run1 ++ Ask o k :: run2) n) [ev o a] [] (MkGroup ts (run1 ++ k a :: run2) n)
| step_send run1 x run2 n :
    group_step (MkGroup [] (run1 ++ Ret (Ok x) :: run2) (S n)) [] [x] (MkGroup [] (run1 ++ run2) n).

(** A panic of a goroutine ends the process. *)
Definition group_panics {X} (s : Group X) (m : string) : Prop := Ret (Panic m) ∈ started s.

(** The function goes on when the rounds of its loop are over; the result is what it
    received, in this order.  Goroutines that are left then are followed no further
    (OsvLiveness shows that there are none). *)
Inductive group_runs {X} : Group X → Behaviour (list X) :=
| runs_received run : group_runs (MkGroup [] run 0) [] (Ok [])
| runs_step s tr1 xs s' tr2 r :
    group_step s tr1 xs s' → group_runs s' tr2 r → group_runs s (tr1 ++ tr2) (app xs <$> r)
| runs_panic s m : group_panics s m → group_runs s [] (Panic m).

(** What every goroutine did on its own, when there are as many rounds as goroutines: its
    requests in order, within the trace of all, and its result among the results
    received. *)
Lemma group_runs_parts {X} (s : Group X) tr r :
  group_runs s tr r → to_receive s = length (started s ++ to_start s) → ∀ xs, r = Ok xs →
  ∃ outs : list (list event * X),
    Forall2 (λ t o, Runs t o.1 (Ok o.2)) (started s ++ to_start s) outs ∧
    xs ≡ₚ outs.*2 ∧ tr ≡ₚ concat outs.*1 ∧ Forall (λ o, o.1 `sublist_of` tr) outs.
Proof.
  induction 1 as [run|s tr1 ys s' tr2 r H HR IH|]; intros Hn xs Hr; [| |done].
  { injection Hr as <-. simpl in Hn. rewrite app_nil_r in *. destruct run; [|done]. by exists []. }
  destruct H as [t ts run n|ts run1 o k a run2 n|run1 x run2 n]; simpl in *.
  - rewrite <-app_assoc in IH. apply IH; [done|]. by destruct r.
  - rewrite <-!app_assoc in *. simpl in *.
    destruct (IH ltac:(by rewrite !length_app in *) xs ltac:(by destruct r)) as (outs & HF & Hx & Ht & Hs).
    apply Forall2_app_inv_l in HF as (o1 & o2' & HF1 & HF2 & ->).
    apply Forall2_cons_inv_l in HF2 as ([t x] & o2 & Hk & HF2 & ->).
    exists (o1 ++ (ev o a :: t, x) :: o2). split_and!.
    + apply Forall2_app; [done|]. constructor; [|done]. simpl in *. eauto.
    + by rewrite fmap_app in *.
    + rewrite fmap_app, concat_app in *. simpl in *. rewrite Ht. by rewrite <-Permutation_middle.
    + rewrite Forall_app, Forall_cons in *. simpl in *. destruct Hs as (H1 & H2 & H3).
      split_and!; [..|by constructor|]; (eapply Forall_impl; [eassumption|]);
        intros ? ?; by constructor.
  - destruct r as [xs'| |]; [|done..]. injection Hr as <-. rewrite app_nil_r in *.
    rewrite length_app in Hn. simpl in Hn.
    destruct (IH ltac:(rewrite length_app; lia) xs' eq_refl) as (outs & HF & Hx & Ht & Hs).
    apply Forall2_app_inv_l in HF as (o1 & o2 & HF1 & HF2 & ->).
    exists (o1 ++ ([], x) :: o2). split_and!.
    + apply Forall2_app; [done|]. by constructor.
    + rewrite fmap_app in *. simpl. by rewrite Hx, <-Permutation_middle.
    + by rewrite fmap_app, concat_app in *.
    + rewrite Forall_app, Forall_cons in *. destruct Hs. split_and!; [done| |done].
      apply sublist_nil_l.
Qed.

Lemma goroutines_parts {X} (ts : list (Prog X)) tr xs :
  group_runs (MkGroup ts [] (length ts)) tr (Ok xs) →
  ∃ outs : list (list event * X),
    Forall2 (λ t o, Runs t o.1 (Ok o.2)) ts outs ∧
    xs ≡ₚ outs.*2 ∧ tr ≡ₚ concat outs.*1 ∧ Forall (λ o, o.1 `sublist_of` tr) outs.
Proof. intros H. by apply (group_runs_parts _ _ _ H). Qed.

(** Starting all of them before anything else is one way to run them. *)
Lemma group_runs_start {X} (ts run : list (Prog X)) n tr r :
  group_runs (MkGroup [] (run ++ ts) n) tr r → group_runs (MkGroup ts run n) tr r.
Proof.
  revert run. induction ts as [|t ts IH]; intros run; [by rewrite app_nil_r|].
  intros H. replace r with (app [] <$> r) by (by destruct r).
  apply (runs_step _ [] [] (MkGroup ts (run ++ [t]) n)); [constructor|]. apply IH.
  by rewrite <-app_assoc.
Qed.

(** Running goroutines by a list of choices of the scheduler: the position, among the
    goroutines that are left, of the one that goes next. *)
Fixpoint schedule {X} (choices : list nat) (ts : list (Prog X)) (n : nat) (f : Oracle) (h : list event)
    : option (result (list X) * list event) :=
  match n, choices with
  | 0, _ => Some (Ok [], [])
  | _, [] => None
  | S n', i :: choices' =>
      match ts !! i with
      | Some (Ask o k) =>
          let a := f h o in
          p ← schedule choices' (<[i := k a]> ts) n f (h ++ [ev o a]); Some (p.1, ev o a :: p.2)
      | Some (Ret (Ok x)) =>
          p ← schedule choices' (delete i ts) n' f h; Some (cons x <$> (p.1 : result (list X)), p.2)
      | Some (Ret (Panic m)) => Some (Panic m, [])
      | _ => None
      end
  end.

Lemma schedule_runs {X} choices (ts : list (Prog X)) n f h r tr :
  schedule choices ts n f h = Some (r, tr) → group_runs (MkGroup [] ts n) tr r.
Proof.
  revert ts n h r tr. induction choices as [|i choices IH]; intros ts [|n] h r tr; cbn [schedule];
    [by intros [= <- <-]; constructor|done|by intros [= <- <-]; constructor|].
  destruct (ts !! i) as [[[x|e|m]|o k]|] eqn:Hi; [| |..|done]; try done;
    pose proof (lookup_lt_Some _ _ _ Hi) as Hlt; pose proof (take_drop_middle ts i _ Hi) as Hts.
  - intros ([r' tr'] & Hs%IH & [= <- <-])%bind_Some. rewrite delete_take_drop in Hs.
    rewrite <-Hts. exact (runs_step _ [] [x] _ _ _ (step_send _ x _ n) Hs).
  - intros [= <- <-]. apply runs_panic. by eapply list_elem_of_lookup_2.
  - intros ([r' tr'] & Hs%IH & [= <- <-])%bind_Some. rewrite insert_take_drop in Hs by done.
    rewrite <-Hts. replace r' with (app [] <$> r') by (by destruct r').
    exact (runs_step _ [_] [] _ _ _ (step_ask [] _ o k (f h o) _ (S n)) Hs).
Qed.

Lemma schedule_sound {X} choices (ts : list (Prog X)) n f h r tr :
  schedule choices ts n f h = Some (r, tr) → group_runs (MkGroup ts [] n) tr r.
Proof. intros H%schedule_runs. by apply group_runs_start. Qed.
