(* ===== verification/OsvDownload.v ===== *)
(** * The OSV database download

    [tools/osv-downloader/download_osv.go]: finding the archive in the latest
    release, downloading it and extracting it, with the guard against archive
    entries that leave the destination. *)

From S2P Require Import Prelude GoStrings Json GoPath ToolWorld.

(** [io.Copy(dst, src)]: what could be read is written; the first error of either
    side is returned. *)
Definition io_Copy (path : string) (src : Stream) : Prog unit :=
  do _ := p_lift (ask (Write path (st_data src))) in
  match st_err src with Some e => p_fail e | None => p_ret tt end.

(** [file.Close()] with the error ignored, as deferred closes do. *)
Definition close_quietly (path : string) : Prog unit :=
  do _ := ask (CloseFile path) in p_ret tt.

(** [downloadFile(url, filepath)]. *)
Definition downloadFile (url filepath : string) : Prog unit :=
  do resp := p_lift (ask (HttpGet url)) in
  do _ := p_lift (ask (OpenFile filepath 438)) in (* os.Create: mode 0666 *)
  p_defer (io_Copy filepath (resp_Body resp)) (close_quietly filepath).

(** Extracting one entry whose path was accepted. *)
Definition extract_file (filePath : string) (file : ZipFile) : Prog unit :=
  do _ := p_lift (ask (MkdirAll (Dir filePath))) in
  do _ := p_lift (ask (OpenFile filePath (zf_Mode file))) in
  attempt opened := p_lift (ask (OpenEntry (zf_Name file))) in
  match opened with
  | inl e => do _ := close_quietly filePath in p_fail e
  | inr _ =>
      attempt copied := io_Copy filePath (zf_Content file) in
      match copied with
      | inl e =>
          do _ := close_quietly filePath in
          do _ := ask (CloseEntry (zf_Name file)) in
          p_fail e
      | inr _ =>
          attempt closed := p_lift (ask (CloseFile filePath)) in
          match closed with
          | inl e => do _ := ask (CloseEntry (zf_Name file)) in p_fail e
          | inr _ => p_lift (ask (CloseEntry (zf_Name file)))
          end
      end
  end.

(** One round of the loop over the archive. *)
Definition unzip_entry (destination : string) (file : ZipFile) : Prog unit :=
  let filePath := Join2 destination (zf_Name file) in
  let cleanPath := Clean filePath in
  if negb (HasPrefix cleanPath (destination +:+ "/")) && bool_decide (cleanPath ≠ destination)
  then p_fail (Errorf ("invalid file path in archive: " +:+ zf_Name file))
  else if zf_IsDir file then p_lift (ask (MkdirAll filePath))
  else extract_file filePath file.

(** [unzipFile(archive_path, destination)]. *)
Definition unzipFile (archive_path destination : string) : Prog unit :=
  do files := p_lift (ask (OpenZip archive_path)) in
  p_for files (unzip_entry (Clean destination)).

(** The first asset of that name; a nil name is dereferenced. *)
Fixpoint find_asset (name : string) (assets : list ReleaseAsset) : result (option ReleaseAsset) :=
  match assets with
  | [] => Ok None
  | asset :: assets' =>
      match asset_Name asset with
      | None => Panic "invalid memory address or nil pointer dereference"
      | Some n => if decide (n = name) then Ok (Some asset) else find_asset name assets'
      end
  end.

(** [DownloadOsvDb(path)]. *)
Definition DownloadOsvDb (path : string) : Prog unit :=
  do _ := p_wrap (wrap "error creating GitHub client: ") (p_lift (ask GithubClient)) in
  do assets := p_wrap (errorf_v "error when accessing latest osv-offline release: ")
                 (p_lift (ask (LatestRelease "renovatebot" "osv-offline"))) in
  do zipped_db := Ret (find_asset "osv-offline.zip" assets) in
  match zipped_db with
  | None => p_fail (Errorf "osv-offline.zip asset couldn't be found in the latest release")
  | Some asset =>
      let archive_path := Join2 path "osv-offline.zip" in
      match BrowserDownloadURL asset with
      | None => p_panic "invalid memory address or nil pointer dereference"
      | Some url =>
          do _ := p_wrap (errorf_v "error when downloading the osv-offline file: ")
                    (downloadFile url archive_path) in
          p_wrap (errorf_v "error when unzipping the osv-offline file: ")
            (unzipFile archive_path path)
      end
  end.

(** ** What extraction touches *)

(** A request that stays within a directory: only files beneath it are opened or
    written, and the directories made are beneath it, or are the one it is in. *)
Definition confined (d : string) (o : op) : Prop :=
  match o with
  | OpenFile p _ | Write p _ | CloseFile p => beneath d p
  | MkdirAll p => beneath d p ∨ p = Dir (Clean d)
  | _ => True
  end.

Section Extraction.
Context (d : string).
Abbreviation Confined := (asks (confined d)).

Lemma io_Copy_confined p s : beneath d p → Confined (io_Copy p s).
Proof. intros Hp. unfold io_Copy. solve_asks. Qed.

Lemma close_quietly_confined p : beneath d p → Confined (close_quietly p).
Proof. intros Hp. unfold close_quietly. solve_asks. Qed.

#[local] Hint Resolve io_Copy_confined close_quietly_confined : tool.

Lemma downloadFile_confined url p : beneath d p → Confined (downloadFile url p).
Proof. intros Hp. unfold downloadFile. solve_asks; done. Qed.

Lemma extract_file_confined p file :
  beneath d p → beneath d (Dir p) ∨ Dir p = Dir (Clean d) → Confined (extract_file p file).
Proof. intros Hp Hdir. unfold extract_file. solve_asks; done. Qed.

#[local] Hint Resolve downloadFile_confined extract_file_confined : tool.

(** The guard of the code is the test of [GoPath]. *)
Lemma guard_under destination p :
  negb (HasPrefix p (destination +:+ "/")) && bool_decide (p ≠ destination) =
  negb (under destination p).
Proof.
  unfold under. rewrite negb_orb. f_equal. by rewrite bool_decide_not.
Qed.

Lemma unzip_entry_confined file :
  last (clean_segs d) ≠ Some ".." → Confined (unzip_entry (Clean d) file).
Proof.
  intros Hlast. unfold unzip_entry.
  assert (Clean d ≠ "") as Hne by apply render_not_empty, clean_segs_normal.
  rewrite guard_under. destruct (under _ _) eqn:Hu; [|done].
  destruct (under_beneath _ _ Hlast Hu) as [Hb Hd]. rewrite Clean_Join2 in Hb, Hd by done. simpl.
  destruct (zf_IsDir file).
  - apply asks_lift, asks_ask. by left.
  - apply extract_file_confined; [done|]. destruct Hd as [Hd| ->]; auto.
Qed.

Lemma unzipFile_asks archive_path :
  last (clean_segs d) ≠ Some ".." → Confined (unzipFile archive_path d).
Proof.
  intros Hlast. unfold unzipFile. solve_asks; [done|].
  apply asks_for. intros file _. by apply unzip_entry_confined.
Qed.
End Extraction.

Lemma archive_name : is_name "osv-offline.zip".
Proof. unfold is_name. by apply (bool_decide_unpack _). Qed.

(** C18.  An archive cannot make the program write outside of the destination: whatever the
    entries are called, every file opened is beneath the destination (reached from it
    through names, never [..]), and so is every directory made, but for the parent of
    the destination; provided the cleaned destination does not end in [..]. *)
Theorem DownloadOsvDb_confined path tr r :
  last (clean_segs path) ≠ Some ".." →
  Runs (DownloadOsvDb path) tr r →
  Forall (λ e : event, confined path (projT1 e)) tr.
Proof.
  intros Hlast HR. eapply asks_Runs; [|exact HR]. unfold DownloadOsvDb.
  pose proof (Join2_beneath path _ archive_name) as Hb.
  solve_asks; try done; [by apply downloadFile_confined|by apply unzipFile_asks].
Qed.

(** ** What a successful extraction has done *)

Lemma io_Copy_ok p s tr :
  Runs (io_Copy p s) tr (Ok tt) ↔ st_err s = None ∧ tr = [ev (Write p (st_data s)) (inr tt)].
Proof.
  unfold io_Copy. rewrite Runs_bind_ok. split.
  - intros ([] & tr1 & tr2 & -> & H1 & H2). ask_inv H1.
    destruct (st_err s); [by destruct H2|]. by destruct H2 as [-> _].
  - intros [Hs ->]. exists tt, [ev (Write p (st_data s)) (inr tt)], [].
    rewrite Runs_lift_ok, Hs. split_and!; [done|by apply Runs_ask_ok|done].
Qed.

(** The requests that extract a file: opened, written with its content, closed. *)
Definition extracted (p : string) (file : ZipFile) : list event :=
  [ev (OpenFile p (zf_Mode file)) (inr tt);
   ev (Write p (st_data (zf_Content file))) (inr tt);
   ev (CloseFile p) (inr tt)].

Lemma extract_file_ok p file tr :
  Runs (extract_file p file) tr (Ok tt) →
  st_err (zf_Content file) = None ∧ extracted p file `sublist_of` tr.
Proof.
  unfold extract_file. rewrite Runs_bind_ok. intros ([] & tr1 & tr' & -> & _ & H).
  rewrite Runs_bind_ok in H. destruct H as ([] & tr2 & tr3 & -> & H2 & H).
  ask_inv H2.
  rewrite Runs_try_ok in H. destruct H as ([e|[]] & tr4 & tr5 & -> & _ & H).
  { rewrite Runs_bind_ok in H. by destruct H as (? & ? & ? & ? & ? & ? & ?). }
  rewrite Runs_try_ok in H. destruct H as ([e|[]] & tr6 & tr7 & -> & H6 & H).
  { rewrite Runs_bind_ok in H. destruct H as (? & ? & ? & ? & ? & H).
    rewrite Runs_bind_ok in H. by destruct H as (? & ? & ? & ? & ? & ? & ?). }
  apply io_Copy_ok in H6 as [Hs ->]. split; [done|].
  rewrite Runs_try_ok in H. destruct H as ([e|[]] & tr8 & tr9 & -> & H8 & H).
  { rewrite Runs_bind_ok in H. by destruct H as (? & ? & ? & ? & ? & ? & ?). }
  simpl of_sum in H8. ask_inv H8. unfold extracted.
  apply sublist_inserts_l. simpl. apply sublist_skip, sublist_inserts_l. simpl.
  by apply sublist_skip, sublist_skip, sublist_nil_l.
Qed.

Lemma unzip_entry_ok destination file tr :
  Runs (unzip_entry destination file) tr (Ok tt) →
  let p := Join2 destination (zf_Name file) in
  under destination (Clean p) = true ∧
  if zf_IsDir file then ev (MkdirAll p) (inr tt) ∈ tr
  else st_err (zf_Content file) = None ∧ extracted p file `sublist_of` tr.
Proof.
  unfold unzip_entry. rewrite guard_under. cbn zeta. destruct (under _ _); simpl; [|by intros [_ ?]].
  destruct (zf_IsDir file).
  - intros H. ask_inv H. split; [done|]. left.
  - intros H%extract_file_ok. by split.
Qed.

(** A successful extraction accepted every entry of the archive, made the directory of
    every directory entry, and opened, wrote with its whole content and closed the file
    of every other one. *)
Theorem unzipFile_extracts archive_path destination tr :
  Runs (unzipFile archive_path destination) tr (Ok tt) →
  ∃ files tr', tr = ev (OpenZip archive_path) (inr files) :: tr' ∧
    ∀ file, file ∈ files →
      let p := Join2 (Clean destination) (zf_Name file) in
      under (Clean destination) p = true ∧
      if zf_IsDir file then ev (MkdirAll p) (inr tt) ∈ tr'
      else st_err (zf_Content file) = None ∧ extracted p file `sublist_of` tr'.
Proof.
  unfold unzipFile. rewrite Runs_bind_ok. intros (files & tr1 & tr2 & -> & H1 & H2).
  ask_inv H1. exists files, tr2. split; [done|].
  intros file Hf. destruct (Runs_for_ok _ _ _ _ H2 Hf) as (tr' & Hs & H%unzip_entry_ok).
  cbn zeta in H. destruct H as [Hu H].
  rewrite Clean_Join2 in Hu by apply render_not_empty, clean_segs_normal. split; [done|].
  destruct (zf_IsDir file).
  - by eapply elem_of_sublist.
  - destruct H as [He H]. split; [done|]. by etrans.
Qed.

(** The destinations [.] and [/] accept no entry but one that is the destination
    itself: for any other one the extraction stops with an error. *)
Theorem unzip_rejects destination file tr r :
  clean_segs destination = [] → Join2 (Clean destination) (zf_Name file) ≠ Clean destination →
  Runs (unzip_entry (Clean destination) file) tr r →
  tr = [] ∧ r = Err (Errorf ("invalid file path in archive: " +:+ zf_Name file)).
Proof.
  intros Hd Hne. unfold unzip_entry. rewrite guard_under. destruct (under _ _) eqn:Hu; [|done].
  apply under_empty in Hu; [|done].
  by rewrite Clean_Join2 in Hu by apply render_not_empty, clean_segs_normal.
Qed.

(** An outside world where everything succeeds, for examples. *)
Definition willing (assets : list ReleaseAsset) (files : list ZipFile) (body : string) : Oracle :=
  λ _ o,
    match o return answer o with
    | LatestRelease _ _ => inr assets
    | HttpGet _ => inr (MkResponse 200 (MkStream body None))
    | OpenZip _ => inr files
    | Now => MkClock 0 0
    | Uniuri => "0123456789abcdef"
    | Sleep _ => tt
    | GithubClient | MkdirAll _ | OpenFile _ _ | Write _ _ | CloseFile _ | OpenEntry _
    | CloseEntry _ => inr tt
    end.

(** The guard is not enough for a destination that ends in [..]: the entry [../x] is
    extracted to the directory above the destination. *)
Theorem unzip_escapes_parent :
  ∃ tr, Runs (unzipFile "osv.zip" "..") tr (Ok tt) ∧
        ev (Write "../../x" "data") (inr tt) ∈ tr ∧ ¬ beneath ".." "../../x".
Proof.
  set (f := willing [] [MkZipFile "../x" false 420 (MkStream "data" None)] "").
  eexists. split; [by eapply (run_Runs_eq _ f []); vm_compute|]. split.
  - repeat first [left | right].
  - intros (names & HF & H). assert (clean_segs ".." = [".."]) as E by done.
    apply (f_equal (λ p, Split p slash)) in H. cbn beta in H. rewrite E in H.
    change (is_rooted "..") with false in H. cbn [app render] in H.
    rewrite Split_Join in H; [|done|].
    + change (Split "../../x" slash) with [".."; ".."; "x"] in H. injection H as <-.
      apply Forall_cons in HF as [(_ & _ & ? & _) _]. done.
    + constructor; [apply dotdot_no_slash|]. eapply Forall_impl; [exact HF|]. by intros ? (_ & _ & _ & ?).
Qed.

(** Downloading and extracting an archive with one directory and one file. *)
Definition sample_world : Oracle :=
  willing [MkAsset (Some "notes.txt") None; MkAsset (Some "osv-offline.zip") (Some "https://x/osv.zip")]
    [MkZipFile "db/" true 493 (MkStream "" None);
     MkZipFile "db/./npm.nedb" false 420 (MkStream "data" None)] "PK".

Definition sample_download : list event :=
  [ev GithubClient (inr tt);
   ev (LatestRelease "renovatebot" "osv-offline")
     (inr [MkAsset (Some "notes.txt") None;
           MkAsset (Some "osv-offline.zip") (Some "https://x/osv.zip")]);
   ev (HttpGet "https://x/osv.zip") (inr (MkResponse 200 (MkStream "PK" None)));
   ev (OpenFile "/tmp/osv/osv-offline.zip" 438) (inr tt);
   ev (Write "/tmp/osv/osv-offline.zip" "PK") (inr tt);
   ev (CloseFile "/tmp/osv/osv-offline.zip") (inr tt);
   ev (OpenZip "/tmp/osv/osv-offline.zip")
     (inr [MkZipFile "db/" true 493 (MkStream "" None);
           MkZipFile "db/./npm.nedb" false 420 (MkStream "data" None)]);
   ev (MkdirAll "/tmp/osv/db") (inr tt);
   ev (MkdirAll "/tmp/osv/db") (inr tt);
   ev (OpenFile "/tmp/osv/db/npm.nedb" 420) (inr tt);
   ev (OpenEntry "db/./npm.nedb") (inr tt);
   ev (Write "/tmp/osv/db/npm.nedb" "data") (inr tt);
   ev (CloseFile "/tmp/osv/db/npm.nedb") (inr tt);
   ev (CloseEntry "db/./npm.nedb") (inr tt)].

Example DownloadOsvDb_ex :
  run (DownloadOsvDb "/tmp/osv/") sample_world [] = (Ok tt, sample_download).
Proof. vm_compute. reflexivity. Qed.

Lemma DownloadOsvDb_confined_witness :
  last (clean_segs "/tmp/osv/") ≠ Some ".." ∧
  Runs (DownloadOsvDb "/tmp/osv/") sample_download (Ok tt) ∧
  Forall (λ e : event, confined "/tmp/osv/" (projT1 e)) sample_download.
Proof.
  assert (last (clean_segs "/tmp/osv/") ≠ Some "..") as H1 by done.
  assert (Runs (DownloadOsvDb "/tmp/osv/") sample_download (Ok tt)) as H2
    by (apply (run_Runs_eq _ sample_world []), DownloadOsvDb_ex).
  split_and!; [exact H1|exact H2|exact (DownloadOsvDb_confined _ _ _ H1 H2)].
Defined.

Lemma unzipFile_extracts_witness :
  let tr := (run (unzipFile "a.zip" "/tmp/osv") sample_world []).2 in
  Runs (unzipFile "a.zip" "/tmp/osv") tr (Ok tt) ∧
  ∃ files tr', tr = ev (OpenZip "a.zip") (inr files) :: tr' ∧
    ∀ file, file ∈ files →
      let p := Join2 (Clean "/tmp/osv") (zf_Name file) in
      under (Clean "/tmp/osv") p = true ∧
      if zf_IsDir file then ev (MkdirAll p) (inr tt) ∈ tr'
      else st_err (zf_Content file) = None ∧ extracted p file `sublist_of` tr'.
Proof.
  intros tr. assert (Runs (unzipFile "a.zip" "/tmp/osv") tr (Ok tt)) as H
    by exact (run_Runs _ sample_world []).
  split; [exact H|exact (unzipFile_extracts _ _ _ H)].
Defined.

Lemma unzip_rejects_witness :
  clean_segs "." = [] ∧ Join2 (Clean ".") "db/x" ≠ Clean "." ∧
  Runs (unzip_entry (Clean ".") (MkZipFile "db/x" false 420 (MkStream "" None))) []
    (Err (Errorf "invalid file path in archive: db/x")).
Proof.
  assert (clean_segs "." = []) as H1 by reflexivity.
  assert (Join2 (Clean ".") "db/x" ≠ Clean ".") as H2 by done.
  split_and!; [exact H1|exact H2|].
  set (file := MkZipFile "db/x" false 420 (MkStream "" None)).
  pose proof (run_Runs (unzip_entry (Clean ".") file) sample_world []) as H.
  destruct (unzip_rejects "." file _ _ H1 H2 H) as [_ _]. exact H.
Defined.

(** ** The whole download *)

Lemma find_asset_some name assets asset :
  find_asset name assets = Ok (Some asset) →
  ∃ before after, assets = before ++ asset :: after ∧ asset_Name asset = Some name ∧
    Forall (λ a, ∃ n, asset_Name a = Some n ∧ n ≠ name) before.
Proof.
  induction assets as [|a assets IH]; [done|]. simpl.
  destruct (asset_Name a) as [n|] eqn:Hn; [|done]. case_decide as E.
  - intros [= <-]. exists [], assets. subst. by split_and!.
  - intros (before & after & -> & Ha & HF)%IH. exists (a :: before), after.
    split_and!; [done..|]. constructor; [by exists n|done].
Qed.

Lemma downloadFile_ok url p tr :
  Runs (downloadFile url p) tr (Ok tt) →
  ∃ resp (c : error + unit), st_err (resp_Body resp) = None ∧
    tr = [ev (HttpGet url) (inr resp); ev (OpenFile p 438) (inr tt);
          ev (Write p (st_data (resp_Body resp))) (inr tt); ev (CloseFile p) c].
Proof.
  unfold downloadFile. rewrite Runs_bind_ok. intros (resp & tr1 & tr2 & -> & H1 & H).
  ask_inv H1. rewrite Runs_bind_ok in H. destruct H as ([] & tr3 & tr4 & -> & H3 & H).
  ask_inv H3. unfold p_defer in H. rewrite Runs_then in H.
  destruct H as (r & tr5 & tr6 & -> & H5 & H). rewrite Runs_then in H.
  destruct H as (rd & tr7 & tr8 & -> & H7 & H). unfold close_quietly in H7.
  rewrite Runs_bind in H7. destruct H7 as [(c & tr9 & tr10 & -> & H9 & [-> ->])|[(e & H7 & _)|(m & H7 & _)]].
  2,3: by rewrite Runs_ask in H7; destruct H7 as (? & ? & ?).
  apply Runs_ask_ok in H9 as ->. destruct H as [-> <-]. apply io_Copy_ok in H5 as [Hs ->].
  by exists resp, c.
Qed.

(** A successful run downloaded the asset of the right name that comes first in the
    latest release, wrote all of it to osv-offline.zip under the destination, and then
    extracted that file. *)
Theorem DownloadOsvDb_success path tr :
  Runs (DownloadOsvDb path) tr (Ok tt) →
  ∃ before asset after url resp (c : error + unit) tr',
    let archive := Join2 path "osv-offline.zip" in
    asset_Name asset = Some "osv-offline.zip" ∧ BrowserDownloadURL asset = Some url ∧
    Forall (λ a, ∃ n, asset_Name a = Some n ∧ n ≠ "osv-offline.zip") before ∧
    st_err (resp_Body resp) = None ∧
    tr = [ev GithubClient (inr tt);
          ev (LatestRelease "renovatebot" "osv-offline") (inr (before ++ asset :: after));
          ev (HttpGet url) (inr resp); ev (OpenFile archive 438) (inr tt);
          ev (Write archive (st_data (resp_Body resp))) (inr tt); ev (CloseFile archive) c] ++ tr' ∧
    Runs (unzipFile archive path) tr' (Ok tt).
Proof.
  unfold DownloadOsvDb. rewrite Runs_bind_ok. intros ([] & tr1 & tr2 & -> & H1 & H).
  rewrite Runs_wrap_ok in H1. ask_inv H1. rewrite Runs_bind_ok in H.
  destruct H as (assets & tr3 & tr4 & -> & H3 & H). rewrite Runs_wrap_ok in H3. ask_inv H3.
  rewrite Runs_bind_ok in H. destruct H as (z & tr5 & tr6 & -> & [-> Hz] & H).
  destruct z as [asset|]; [|by destruct H]. symmetry in Hz.
  destruct (find_asset_some _ _ _ Hz) as (before & after & -> & Hn & HF).
  cbn zeta in H. destruct (BrowserDownloadURL asset) as [url|] eqn:Hu; [|by destruct H].
  rewrite Runs_bind_ok in H. destruct H as ([] & tr7 & tr8 & -> & H7 & H).
  rewrite Runs_wrap_ok in H, H7. apply downloadFile_ok in H7 as (resp & c & Hs & ->).
  by exists before, asset, after, url, resp, c, tr8.
Qed.

Lemma DownloadOsvDb_success_witness :
  Runs (DownloadOsvDb "/tmp/osv/") sample_download (Ok tt) ∧
  ∃ before asset after url resp (c : error + unit) tr',
    let archive := Join2 "/tmp/osv/" "osv-offline.zip" in
    asset_Name asset = Some "osv-offline.zip" ∧ BrowserDownloadURL asset = Some url ∧
    Forall (λ a, ∃ n, asset_Name a = Some n ∧ n ≠ "osv-offline.zip") before ∧
    st_err (resp_Body resp) = None ∧
    sample_download =
      [ev GithubClient (inr tt);
       ev (LatestRelease "renovatebot" "osv-offline") (inr (before ++ asset :: after));
       ev (HttpGet url) (inr resp); ev (OpenFile archive 438) (inr tt);
       ev (Write archive (st_data (resp_Body resp))) (inr tt); ev (CloseFile archive) c] ++ tr' ∧
    Runs (unzipFile archive "/tmp/osv/") tr' (Ok tt).
Proof.
  assert (Runs (DownloadOsvDb "/tmp/osv/") sample_download (Ok tt)) as H
    by (apply (run_Runs_eq _ sample_world []), DownloadOsvDb_ex).
  split; [exact H|exact (DownloadOsvDb_success _ _ H)].
Defined.
