(* ===== verification/GoCsv.v ===== *)
(** * Go's [encoding/csv]

    [csv.NewReader(r).ReadAll()] with the default settings: fields separated by
    commas, quoted fields with doubled quotes, empty lines skipped, every record as
    long as the first.  Go reads line by line and rewrites the end of each line; here
    the ends of the lines are rewritten first and the text is then read byte by byte.
    The text of an error, its position included, is abbreviated. *)

From S2P Require Import Prelude GoStrings Json ToolWorld.
From Stdlib Require Import Ascii.

Definition quote : ascii := "034".
Definition comma : ascii := ",".
Definition newline : ascii := "010".
Definition carriage_return : ascii := "013".

Definition ErrBareQuote : error := Errorf "csv: bare quote in non-quoted field".
Definition ErrQuote : error := Errorf "csv: extraneous or missing quote in quoted field".
Definition ErrFieldCount : error := Errorf "csv: wrong number of fields".

(** The ends of lines: a carriage return before a newline is dropped, and so is one at
    the end of the text. *)
Fixpoint normalize (s : list ascii) : list ascii :=
  match s with
  | [] => []
  | c :: s' =>
      if decide (c = carriage_return) then
        match s' with
        | [] => []
        | d :: _ => if decide (d = newline) then normalize s' else c :: normalize s'
        end
      else c :: normalize s'
  end.

(** Where the reader is: before a record, before a field, in a field, in a quoted
    field, or after a quote in a quoted field. *)
Inductive csv_state : Type :=
| LineStart
| FieldStart
| Plain (field : list ascii)
| Quoted (field : list ascii)
| QuoteSeen (field : list ascii).

(** A record is complete: the first one fixes the number of fields. *)
Definition add_record (records : list (list string)) (record : list string)
    : result (list (list string)) :=
  match records with
  | first :: _ =>
      if decide (length record = length first) then Ok (records ++ [record]) else Err ErrFieldCount
  | [] => Ok [record]
  end.

(** The end of the text, or the error that cut it short. *)
Definition csv_end (stop : option error) (records : list (list string)) (fields : list string)
    (st : csv_state) : result (list (list string)) :=
  match stop, st with
  | Some e, _ => Err e
  | None, LineStart => Ok records
  | None, FieldStart => add_record records (fields ++ [""])
  | None, (Plain f | QuoteSeen f) => add_record records (fields ++ [implode f])
  | None, Quoted _ => Err ErrQuote
  end.

Fixpoint csv_loop (stop : option error) (records : list (list string)) (fields : list string)
    (st : csv_state) (s : list ascii) : result (list (list string)) :=
  match s with
  | [] => csv_end stop records fields st
  | c :: s' =>
      let next_field f := csv_loop stop records (fields ++ [implode f]) FieldStart s' in
      let end_record f :=
        records ← add_record records (fields ++ [implode f]);
        csv_loop stop records [] LineStart s' in
      match st with
      | LineStart | FieldStart =>
          if decide (c = newline) then
            match st with LineStart => csv_loop stop records fields LineStart s' | _ => end_record [] end
          else if decide (c = quote) then csv_loop stop records fields (Quoted []) s'
          else if decide (c = comma) then next_field []
          else csv_loop stop records fields (Plain [c]) s'
      | Plain f =>
          if decide (c = newline) then end_record f
          else if decide (c = quote) then Err ErrBareQuote
          else if decide (c = comma) then next_field f
          else csv_loop stop records fields (Plain (f ++ [c])) s'
      | Quoted f =>
          if decide (c = quote) then csv_loop stop records fields (QuoteSeen f) s'
          else csv_loop stop records fields (Quoted (f ++ [c])) s'
      | QuoteSeen f =>
          if decide (c = quote) then csv_loop stop records fields (Quoted (f ++ [quote])) s'
          else if decide (c = comma) then next_field f
          else if decide (c = newline) then end_record f
          else Err ErrQuote
      end
  end.

(** [csvReader.ReadAll()]. *)
Definition ReadAll (body : Stream) : result (list (list string)) :=
  csv_loop (st_err body) [] [] LineStart (normalize (explode (st_data body))).

(** ** What is read *)

(** The texts of a field: itself when it has no special byte, or between quotes with
    its quotes doubled. *)
Definition special (c : ascii) : Prop := c = quote ∨ c = comma ∨ c = newline ∨ c = carriage_return.

Definition double_quotes (f : list ascii) : list ascii :=
  f ≫= λ c, if decide (c = quote) then [quote; quote] else [c].

Inductive field_text : string → list ascii → Prop :=
| plain_text f : f ≠ "" → Forall (λ c, ¬ special c) (explode f) → field_text f (explode f)
| quoted_text f :
    carriage_return ∉ explode f → field_text f (quote :: double_quotes (explode f) ++ [quote]).

(** The texts of a record and of a file of records, a newline after each. *)
Inductive record_text : list string → list ascii → Prop :=
| record_one f t : field_text f t → record_text [f] (t ++ [newline])
| record_more f t r t' :
    field_text f t → record_text r t' → record_text (f :: r) (t ++ comma :: t').

Inductive file_text : list (list string) → list ascii → Prop :=
| file_nil : file_text [] []
| file_cons r t rs ts : record_text r t → file_text rs ts → file_text (r :: rs) (t ++ ts).

Lemma normalize_id s : carriage_return ∉ s → normalize s = s.
Proof.
  induction s as [|c s IH]; [done|]. rewrite not_elem_of_cons. intros [Hc Hs]. cbn [normalize].
  rewrite decide_False by done. by rewrite IH.
Qed.

Section Loop.
Context (stop : option error) (records : list (list string)).

Lemma loop_plain fields f g s :
  Forall (λ c, ¬ special c) g →
  csv_loop stop records fields (Plain f) (g ++ s) = csv_loop stop records fields (Plain (f ++ g)) s.
Proof.
  intros HF. revert f. induction HF as [|c g Hc _ IH]; intros f; [by rewrite app_nil_r|].
  unfold special in Hc. cbn [app csv_loop].
  rewrite !decide_False by naive_solver. rewrite IH. by rewrite <-app_assoc.
Qed.

Lemma loop_quoted fields f g s :
  csv_loop stop records fields (Quoted f) (double_quotes g ++ s) =
  csv_loop stop records fields (Quoted (f ++ g)) s.
Proof.
  revert f. induction g as [|c g IH]; intros f; [by rewrite app_nil_r|].
  unfold double_quotes in *. rewrite bind_cons, <-app_assoc. case_decide as E.
  - cbn [app csv_loop]. rewrite !decide_True by done. rewrite IH, <-app_assoc. by subst.
  - cbn [app csv_loop]. rewrite decide_False by done. by rewrite IH, <-app_assoc.
Qed.

(** Reading a field, at the start of a record or after a comma. *)
Lemma loop_field fields f t c s st :
  field_text f t → st = LineStart ∨ st = FieldStart → c = comma ∨ c = newline →
  csv_loop stop records fields st (t ++ c :: s) =
  if decide (c = comma) then csv_loop stop records (fields ++ [f]) FieldStart s
  else add_record records (fields ++ [f]) ≫= λ rs, csv_loop stop rs [] LineStart s.
Proof.
  intros [f' Hne HF|f' Hcr] Hst Hc.
  - destruct (explode f') as [|d g] eqn:E; [destruct f'; [done|discriminate E]|].
    assert (f' = implode (d :: g)) as -> by (rewrite <-E; symmetry; apply implode_explode). clear E Hne.
    apply Forall_cons in HF as [Hd HF]. unfold special in Hd.
    transitivity (csv_loop stop records fields (Plain (d :: g)) (c :: s)).
    + destruct Hst as [-> | ->]; cbn [app csv_loop]; rewrite !decide_False by naive_solver;
        by apply (loop_plain fields [d]).
    + destruct Hc as [-> | ->]; done.
  - transitivity (csv_loop stop records fields (QuoteSeen (explode f')) (c :: s)).
    + rewrite <-app_comm_cons, <-app_assoc.
      destruct Hst as [-> | ->]; cbn [csv_loop];
        rewrite (decide_False (P := quote = newline)) by done; rewrite (decide_True (P := quote = quote)) by done;
        rewrite loop_quoted; cbn [app csv_loop]; by rewrite decide_True.
    + cbn [csv_loop]. rewrite implode_explode. destruct Hc as [-> | ->]; done.
Qed.
End Loop.

(** A record read from its text. *)
Lemma loop_record stop records fields r t s st :
  record_text r t → st = LineStart ∨ st = FieldStart →
  csv_loop stop records fields st (t ++ s) =
  add_record records (fields ++ r) ≫= λ rs, csv_loop stop rs [] LineStart s.
Proof.
  intros Hr. revert fields st. induction Hr as [f t Hf|f t r t' Hf Hr IH]; intros fields st Hst.
  - rewrite <-app_assoc. cbn [app]. rewrite (loop_field stop records fields f t newline s st) by auto.
    done.
  - rewrite <-app_assoc. cbn [app].
    rewrite (loop_field stop records fields f t comma (t' ++ s) st) by auto. rewrite decide_True by done.
    rewrite IH by auto. by rewrite <-app_assoc.
Qed.

Lemma loop_file stop records rs t n :
  file_text rs t → Forall (λ r, length r = n) (records ++ rs) →
  csv_loop stop records [] LineStart t = csv_end stop (records ++ rs) [] LineStart.
Proof.
  intros Hf. revert records. induction Hf as [|r t rs ts Hr Hf IH]; intros records HF.
  - by rewrite app_nil_r.
  - rewrite (loop_record stop records [] r t ts LineStart Hr) by auto. cbn [app].
    assert (add_record records r = Ok (records ++ [r])) as ->.
    { destruct records as [|r0 records]; [done|]. simpl. rewrite decide_True; [done|].
      rewrite Forall_app, Forall_cons, (Forall_cons _ r) in HF.
      destruct HF as [[H0 _] [H1 _]]. congruence. }
    cbn [mbind result_bind]. rewrite IH, <-app_assoc; [done|]. by rewrite <-app_assoc.
Qed.

Lemma field_text_cr f t : field_text f t → carriage_return ∉ t.
Proof.
  intros [f' _ HF|f' H].
  - intros Hin. rewrite Forall_forall in HF. apply (HF _ Hin). unfold special. tauto.
  - rewrite elem_of_cons, elem_of_app, list_elem_of_singleton. unfold double_quotes.
    rewrite list_elem_of_bind. intros [[=]|[(c & Hc & Hin)|[=]]].
    case_decide; [|by apply list_elem_of_singleton in Hc as <-].
    by rewrite !elem_of_cons, elem_of_nil in Hc; destruct Hc as [[=]|[[=]|[]]].
Qed.

Lemma record_text_cr r t : record_text r t → carriage_return ∉ t.
Proof.
  induction 1 as [f t Hf|f t r t' Hf Hr IH]; rewrite elem_of_app; intros [H|H].
  - by apply field_text_cr in Hf.
  - by apply list_elem_of_singleton in H.
  - by apply field_text_cr in Hf.
  - apply elem_of_cons in H as [[=]|H]. done.
Qed.

Lemma file_text_cr rs t : file_text rs t → carriage_return ∉ t.
Proof.
  induction 1 as [|r t rs ts Hr _ IH]; [apply not_elem_of_nil|]. rewrite elem_of_app.
  intros [H|H]; [by apply record_text_cr in Hr|done].
Qed.

(** Reading a file of records gives back the records, quoted fields without their
    quotes, whatever they contain but carriage returns. *)
Theorem ReadAll_file rs t n :
  file_text rs t → Forall (λ r, length r = n) rs →
  ReadAll (MkStream (implode t) None) = Ok rs.
Proof.
  intros Hf HF. unfold ReadAll. simpl. rewrite explode_implode, normalize_id by (by eapply file_text_cr).
  by rewrite (loop_file None [] rs t n Hf HF).
Qed.

(** All records read have the same number of fields, and none is empty. *)
Lemma add_record_shape rs r rs' :
  r ≠ [] → (∃ n, n ≠ 0 ∧ Forall (λ r, length r = n) rs) →
  add_record rs r = Ok rs' → ∃ n, n ≠ 0 ∧ Forall (λ r, length r = n) rs'.
Proof.
  intros Hr (n & Hn & HF). unfold add_record. destruct rs as [|r0 rs].
  - intros [= <-]. exists (length r). split; [by destruct r|by repeat constructor].
  - case_decide as E; [|done]. intros [= <-]. exists n. split; [done|].
    change (r0 :: rs ++ [r]) with ((r0 :: rs) ++ [r]). apply Forall_app_2; [done|].
    constructor; [|done]. apply Forall_cons in HF as [H0 _]. congruence.
Qed.

Lemma csv_loop_shape stop rs fields st s rs' :
  (∃ n, n ≠ 0 ∧ Forall (λ r, length r = n) rs) →
  csv_loop stop rs fields st s = Ok rs' → ∃ n, n ≠ 0 ∧ Forall (λ r, length r = n) rs'.
Proof.
  assert (∀ (l : list string) x, l ++ [x] ≠ []) as Hne by (by intros []).
  revert rs fields st. induction s as [|c s IH]; intros rs fields st Hrs; simpl.
  - unfold csv_end. destruct stop as [e|], st; try done; try (by intros [= <-]);
      by apply add_record_shape.
  - destruct st; repeat (case_decide; try done); try (by apply IH);
      rewrite bind_ok; intros (rs1 & Hr1 & Hr2); eapply IH; try exact Hr2; by eapply add_record_shape.
Qed.

Lemma ReadAll_shape body rs :
  ReadAll body = Ok rs → ∃ n, n ≠ 0 ∧ Forall (λ r, length r = n) rs.
Proof. apply csv_loop_shape. by exists 1. Qed.

Example ReadAll_ex :
  ReadAll (MkStream (implode (explode "a,b" ++ [carriage_return; newline; newline; quote] ++ explode "x,"
    ++ [quote; quote; newline; quote] ++ explode ",y")) None) =
  Ok [["a"; "b"]; [implode [ "x"%char; comma; quote; newline]; "y"]] ∧
  ReadAll (MkStream (implode (explode "a,b" ++ [newline] ++ explode "c")) None) = Err ErrFieldCount ∧
  ReadAll (MkStream (implode (explode "a" ++ [quote])) None) = Err ErrBareQuote ∧
  ReadAll (MkStream (implode [quote; "a"%char]) None) = Err ErrQuote ∧
  ReadAll (MkStream "" None) = Ok [].
Proof. by vm_compute. Qed.
