(* ===== verification/GoTime.v ===== *)
(** * Go times

    What the OSV generator uses of Go's [time] package: the parsing of the two
    layouts it names, the printing of a time, adding days and comparing.  A time is
    the seconds since January 1 of the year 1, as the 64-bit integer Go keeps, and
    the nanoseconds within the second; the time zone it is shown in is kept apart.
    The text of a parse error is not modelled. *)

From S2P Require Import Prelude GoStrings Sanitize GoStrconv Timestamp.
From Stdlib Require Import Ascii.
Local Open Scope Z_scope.

(** ** The calendar *)

Definition is_leap (year : Z) : bool :=
  (year mod 4 =? 0) && (negb (year mod 100 =? 0) || (year mod 400 =? 0)).

Definition days_in (year month : Z) : Z :=
  if month =? 2 then if is_leap year then 29 else 28
  else if (month =? 4) || (month =? 6) || (month =? 9) || (month =? 11) then 30 else 31.

(** Days since 1970-01-01 of a date, counting years from March as [Timestamp] does. *)
Definition days_of_civil (year month day : Z) : Z :=
  let y := if month <=? 2 then year - 1 else year in
  let mp := if month <=? 2 then month + 9 else month - 3 in
  let yoe := y mod 400 in
  y / 400 * 146097 + (yoe * 365 + yoe / 4 - yoe / 100 + ((153 * mp + 2) / 5 + day - 1)) - 719468.

Definition civil_of_days (days : Z) : Z * Z * Z :=
  let n := days + 719468 in
  let doe := n mod 146097 in
  let yoe := (doe - doe / 1460 + doe / 36524 - doe / 146096) / 365 in
  let '(month, day) := month_day_of_era doe in
  (yoe + n / 146097 * 400 + (if month <=? 2 then 1 else 0), month, day).

Example civil_ex :
  days_of_civil 1970 1 1 = 0 ∧ days_of_civil 2024 2 29 = 19782 ∧ civil_of_days 19782 = (2024, 2, 29) ∧
  civil_of_days (days_of_civil 0 1 1) = (0, 1, 1) ∧ civil_of_days (-1) = (1969, 12, 31).
Proof. by vm_compute. Qed.

(** The year of the era is found again. *)
Lemma yoe_of_doe yoe doy :
  0 ≤ yoe < 400 → 0 ≤ doy < 365 + (if is_leap (yoe + 1) then 1 else 0) →
  let doe := yoe * 365 + yoe / 4 - yoe / 100 + doy in
  0 ≤ doe < 146097 ∧ (doe - doe / 1460 + doe / 36524 - doe / 146096) / 365 = yoe.
Proof.
  intros Hy [Hd0 Hd]. cbn zeta. unfold is_leap in Hd.
  assert (doy ≤ 364 ∨ doy = 365 ∧ (yoe + 1) mod 4 = 0 ∧
          ((yoe + 1) mod 100 ≠ 0 ∨ (yoe + 1) mod 400 = 0)) as Hd'.
  { destruct (Z.eqb_spec ((yoe + 1) mod 4) 0), (Z.eqb_spec ((yoe + 1) mod 100) 0),
      (Z.eqb_spec ((yoe + 1) mod 400) 0); simpl in Hd; lia. }
  clear Hd. split.
  - Z.to_euclidean_division_equations; lia.
  - destruct Hd' as [Hd'|(-> & H4 & H)]; Z.to_euclidean_division_equations; lia.
Qed.

Definition valid_date (year month day : Z) : Prop :=
  1 ≤ month ≤ 12 ∧ 1 ≤ day ≤ days_in year month.

Lemma is_leap_era y : is_leap (y mod 400 + 1) = is_leap (y + 1).
Proof.
  unfold is_leap. rewrite !(Z.add_mod_idemp_l _ _ 400) by lia.
  rewrite <-(Z.mod_mod_divide (y mod 400 + 1) 400 4), <-(Z.mod_mod_divide (y + 1) 400 4),
    <-(Z.mod_mod_divide (y mod 400 + 1) 400 100), <-(Z.mod_mod_divide (y + 1) 400 100)
    by (by exists 100 + by exists 4).
  by rewrite !(Z.add_mod_idemp_l _ _ 400) by lia.
Qed.

(** The month and the day of a day of the year counted from March. *)
Lemma month_day_of_doy mp day :
  0 ≤ mp ≤ 11 → 1 ≤ day ≤ 31 → (mp = 1 ∨ mp = 3 ∨ mp = 6 ∨ mp = 8 → day ≤ 30) →
  (mp = 11 → day ≤ 29) →
  let doy := (153 * mp + 2) / 5 + day - 1 in
  (5 * doy + 2) / 153 = mp ∧ doy - (153 * mp + 2) / 5 + 1 = day ∧
  0 ≤ doy ≤ 365 ∧ (doy = 365 → mp = 11 ∧ day = 29).
Proof.
  intros Hm Hd H1 H2. cbn zeta.
  assert (mp = 0 ∨ mp = 1 ∨ mp = 2 ∨ mp = 3 ∨ mp = 4 ∨ mp = 5 ∨ mp = 6 ∨ mp = 7 ∨ mp = 8 ∨ mp = 9 ∨
          mp = 10 ∨ mp = 11) as Hmp by lia.
  repeat destruct Hmp as [->|Hmp]; [..|subst mp];
    split_and!; try (Z.to_euclidean_division_equations; lia).
Qed.

Lemma days_in_le year month :
  days_in year month ≤ 31 ∧ (month = 2 → days_in year month ≤ 29) ∧
  (month = 4 ∨ month = 6 ∨ month = 9 ∨ month = 11 → days_in year month = 30).
Proof.
  unfold days_in. destruct (Z.eqb_spec month 2), (Z.eqb_spec month 4), (Z.eqb_spec month 6),
    (Z.eqb_spec month 9), (Z.eqb_spec month 11), (is_leap year); simpl; lia.
Qed.

Lemma civil_of_days_of_civil year month day :
  valid_date year month day → civil_of_days (days_of_civil year month day) = (year, month, day).
Proof.
  intros [Hm Hd]. unfold civil_of_days, days_of_civil.
  set (y := if month <=? 2 then year - 1 else year).
  set (mp := if month <=? 2 then month + 9 else month - 3).
  destruct (month_day_of_doy mp day) as (E1 & E2 & E3 & E4).
  1-4: pose proof (days_in_le year month); unfold mp; destruct (Z.leb_spec month 2); lia.
  set (doy := (153 * mp + 2) / 5 + day - 1) in *.
  assert (0 ≤ doy < 365 + (if is_leap (y mod 400 + 1) then 1 else 0)) as Hdoy.
  { rewrite is_leap_era. destruct (decide (doy = 365)) as [E|E].
    - destruct (E4 E) as [H11 H29]. unfold mp, days_in, y in *.
      destruct (Z.leb_spec month 2); [|lia]. replace (year - 1 + 1) with year by lia.
      replace month with 2 in Hd by lia. simpl in Hd. destruct (is_leap year); lia.
    - destruct (is_leap _); lia. }
  destruct (yoe_of_doe (y mod 400) doy) as [Hdoe Hyoe]; [apply Z.mod_pos_bound; lia|done|].
  set (doe := y mod 400 * 365 + y mod 400 / 4 - y mod 400 / 100 + doy) in *.
  replace (y / 400 * 146097 + doe - 719468 + 719468) with (doe + y / 400 * 146097) by lia.
  rewrite Z_mod_plus_full, Z_div_plus_full by lia. rewrite (Z.mod_small doe), (Z.div_small doe 146097) by lia.
  unfold month_day_of_era. rewrite Hyoe.
  replace (doe - (365 * (y mod 400) + y mod 400 / 4 - y mod 400 / 100)) with doy by (unfold doe; lia).
  rewrite E1, E2. pose proof (Z.div_mod y 400 ltac:(lia)) as Hy. unfold mp, y in *.
  destruct (Z.leb_spec month 2); [rewrite (proj2 (Z.ltb_ge _ _)) by lia|rewrite (proj2 (Z.ltb_lt _ _)) by lia].
  - replace (month + 9 - 9) with month by lia. rewrite (proj2 (Z.leb_le _ _)) by lia. do 2 f_equal. lia.
  - replace (month - 3 + 3) with month by lia. rewrite (proj2 (Z.leb_gt _ _)) by lia. do 2 f_equal. lia.
Qed.

(** ** Times *)

Definition wrap64 (n : Z) : Z := (n + 2^63) mod 2^64 - 2^63.

Record Time := MkTime { t_sec : Z; t_nsec : Z }.

#[export] Instance Time_eq_dec : EqDecision Time.
Proof. solve_decision. Defined.

(** Seconds between the years 1 and 1970. *)
Definition unixToInternal : Z := (1969 * 365 + 1969 / 4 - 1969 / 100 + 1969 / 400) * 86400.

Definition unix_time (sec nsec : Z) : Time := MkTime (wrap64 (sec + unixToInternal)) nsec.

(** [t.Before(u)]. *)
Definition Before (t u : Time) : bool :=
  (t_sec t <? t_sec u) || (t_sec t =? t_sec u) && (t_nsec t <? t_nsec u).

(** [t.AddDate(0, 0, days)]: the same time of day in the local zone, that many days
    later; for a zone with a fixed offset the seconds move by whole days. *)
Definition AddDays (t : Time) (days : Z) : Time := MkTime (wrap64 (t_sec t + days * 86400)) (t_nsec t).

(** A broken-down time. *)
Record Civil := MkCivil {
  c_year : Z; c_month : Z; c_day : Z; c_hour : Z; c_min : Z; c_sec : Z; c_nsec : Z
}.

(** [time.Date(...)] in UTC, of fields in range. *)
Definition Date (c : Civil) : Time :=
  unix_time (days_of_civil (c_year c) (c_month c) (c_day c) * 86400 +
             c_hour c * 3600 + c_min c * 60 + c_sec c) (c_nsec c).

(** ** Printing: the layout 2006-01-02T15:04:05Z *)

(** [appendInt(year, 4)]. *)
Definition pad4 (n : Z) : string :=
  let abs n := if n <? 10000 then pad2 (n / 100) +:+ pad2 (n mod 100) else fmt_d n in
  if n <? 0 then "-" +:+ abs (- n) else abs n.

Definition layout_text (c : Civil) : string :=
  pad4 (c_year c) +:+ "-" +:+ pad2 (c_month c) +:+ "-" +:+ pad2 (c_day c) +:+ "T" +:+
  pad2 (c_hour c) +:+ ":" +:+ pad2 (c_min c) +:+ ":" +:+ pad2 (c_sec c).

(** The broken-down time of a time in a zone that many seconds ahead of UTC. *)
Definition civil (t : Time) (offset : Z) : Civil :=
  let unix := t_sec t - unixToInternal + offset in
  let '(year, month, day) := civil_of_days (unix / 86400) in
  let sec := unix mod 86400 in
  MkCivil year month day (sec / 3600) (sec mod 3600 / 60) (sec mod 60) (t_nsec t).

(** [t.Format("2006-01-02T15:04:05Z")]. *)
Definition Format (t : Time) (offset : Z) : string := layout_text (civil t offset) +:+ "Z".

(** ** Parsing *)

(** [getnum(s, fixed)]: two digits, or one when they need not be two. *)
Definition getnum (fixed : bool) (s : string) : option (Z * string) :=
  match s with
  | String c1 s1 =>
      d1 ← decimal c1;
      match s1 with
      | String c2 s2 =>
          match decimal c2 with
          | Some d2 => Some (d1 * 10 + d2, s2)
          | None => if fixed then None else Some (d1, s1)
          end
      | EmptyString => if fixed then None else Some (d1, s1)
      end
  | EmptyString => None
  end.

(** The year: four bytes, a number that begins with a digit. *)
Definition getyear (s : string) : option (Z * string) :=
  match s with
  | String c1 (String c2 (String c3 (String c4 s'))) =>
      n ← digits_val 0 (String c1 (String c2 (String c3 (String c4 ""))));
      Some (n, s')
  | _ => None
  end.

(** [skip(value, prefix)] for a prefix without spaces. *)
Definition skip (prefix s : string) : option string :=
  if HasPrefix s prefix then Some (TrimPrefix s prefix) else None.

(** A number within bounds. *)
Definition within (lo hi : Z) (x : option (Z * string)) : option (Z * string) :=
  '(n, s) ← x; if (lo <=? n) && (n <=? hi) then Some (n, s) else None.

(** The leading digits. *)
Fixpoint span_digits (s : string) : string * string :=
  match s with
  | String c s' =>
      match decimal c with
      | Some _ => let '(ds, rest) := span_digits s' in (String c ds, rest)
      | None => ("", s)
      end
  | EmptyString => ("", s)
  end.

(** [parseNanoseconds]: the first nine digits, scaled. *)
Definition nanoseconds (ds : string) : Z :=
  let ds' := take_str 9 ds in
  default 0 (digits_val 0 ds') * 10 ^ (9 - Z.of_nat (String.length ds')).

(** The fraction of a second that may follow although the layout has none. *)
Definition fraction (s : string) : Z * string :=
  match s with
  | String c s' =>
      if decide (c = "."%char ∨ c = ","%char) then
        match span_digits s' with
        | ("", _) => (0, s)
        | (ds, rest) => (nanoseconds ds, rest)
        end
      else (0, s)
  | EmptyString => (0, s)
  end.

(** The layout 2006-01-02T15:04:05, and what follows it in the text. *)
Definition parse_date_time (s : string) : option (Civil * string) :=
  '(year, s) ← getyear s;
  s ← skip "-" s;
  '(month, s) ← within 1 12 (getnum true s);
  s ← skip "-" s;
  '(day, s) ← getnum true s;
  s ← skip "T" s;
  '(hour, s) ← within 0 23 (getnum false s);
  s ← skip ":" s;
  '(min, s) ← within 0 59 (getnum true s);
  s ← skip ":" s;
  '(sec, s) ← within 0 59 (getnum true s);
  let '(nsec, s) := fraction s in
  Some (MkCivil year month day hour min sec nsec, s).

(** The day is checked once everything is parsed. *)
Definition checked (c : Civil) : option Civil :=
  if (1 <=? c_day c) && (c_day c <=? days_in (c_year c) (c_month c)) then Some c else None.

Definition parse_error : error := Errorf "parsing time".

(** [time.Parse("2006-01-02T15:04:05+00:00", value)]: the offset of the layout is
    literal text, so the time is taken to be UTC. *)
Definition Parse_literal_zone (value : string) : result Time :=
  result_of_option parse_error (
    '(c, s) ← parse_date_time value;
    s ← skip "+00:00" s;
    if decide (s = "") then Date <$> checked c else None).

(** The zone of RFC 3339, in seconds ahead of UTC: [Z], or a sign, two digits, a
    colon and two digits. *)
Definition zone (s : string) : option (Z * string) :=
  match s with
  | String "Z" s' => Some (0, s')
  | String sign (String h1 (String h2 (String ":" (String m1 (String m2 s'))))) =>
      '(hr, _) ← within 0 24 (getnum true (String h1 (String h2 "")));
      '(mm, _) ← within 0 60 (getnum true (String m1 (String m2 "")));
      let offset := (hr * 60 + mm) * 60 in
      if decide (sign = "+"%char) then Some (offset, s')
      else if decide (sign = "-"%char) then Some (- offset, s')
      else None
  | _ => None
  end.

(** [time.Parse(time.RFC3339, value)].  (Go tries a stricter parser first, which gives
    the same times for what it accepts.) *)
Definition Parse_RFC3339 (value : string) : result Time :=
  result_of_option parse_error (
    '(c, s) ← parse_date_time value;
    '(offset, s) ← zone s;
    if decide (s = "") then
      c ← checked c;
      Some (MkTime (wrap64 (t_sec (Date c) - offset)) (c_nsec c))
    else None).

Example parse_ex :
  (λ t, Format t 0) <$> Parse_literal_zone "2024-08-20T10:54:54.042000+00:00" = Ok "2024-08-20T10:54:54Z" ∧
  Parse_literal_zone "2023-02-29T00:00:00+00:00" = Err parse_error ∧
  Parse_literal_zone "2024-08-20T10:54:54Z" = Err parse_error ∧
  (λ t, Format t 0) <$> Parse_RFC3339 "2024-12-02T08:22:15+02:00" = Ok "2024-12-02T06:22:15Z" ∧
  Parse_RFC3339 "2024-12-02T08:22:15Z" = Parse_RFC3339 "2024-12-02T8:22:15,0+00:00".
Proof. by vm_compute. Qed.

(** ** Printing and parsing *)

Record valid_civil (c : Civil) : Prop := {
  vc_year : 0 ≤ c_year c < 10000;
  vc_date : valid_date (c_year c) (c_month c) (c_day c);
  vc_hour : 0 ≤ c_hour c < 24;
  vc_min : 0 ≤ c_min c < 60;
  vc_sec : 0 ≤ c_sec c < 60
}.

Lemma decimal_digit n : 0 ≤ n < 10 → decimal (digit n) = Some n.
Proof.
  intros H. unfold decimal, digit. rewrite nat_ascii_embedding by lia.
  rewrite decide_True by lia. f_equal. lia.
Qed.

Lemma pad2_app n s : pad2 n +:+ s = String (digit (n / 10)) (String (digit (n mod 10)) s).
Proof. done. Qed.

Lemma getnum_pad2 fixed n s : 0 ≤ n < 100 → getnum fixed (pad2 n +:+ s) = Some (n, s).
Proof.
  intros H. rewrite pad2_app. cbn [getnum].
  rewrite !decimal_digit by (Z.to_euclidean_division_equations; lia). cbn [mbind option_bind].
  do 2 f_equal. pose proof (Z.div_mod n 10 ltac:(lia)). lia.
Qed.

Lemma within_some lo hi n s : lo ≤ n ≤ hi → within lo hi (Some (n, s)) = Some (n, s).
Proof.
  intros H. unfold within. cbn [mbind option_bind].
  by rewrite (proj2 (Z.leb_le _ _)), (proj2 (Z.leb_le _ _)) by lia.
Qed.

Lemma skip_app prefix s : skip prefix (prefix +:+ s) = Some s.
Proof.
  unfold skip. rewrite TrimPrefix_app.
  by rewrite (proj2 (HasPrefix_spec _ _)) by eauto.
Qed.

Lemma getyear_pad4 n s : 0 ≤ n < 10000 → getyear (pad4 n +:+ s) = Some (n, s).
Proof.
  intros H. unfold pad4. rewrite (proj2 (Z.ltb_ge n 0)), (proj2 (Z.ltb_lt n 10000)) by lia.
  rewrite app_assoc_str, !pad2_app. cbn [getyear digits_val].
  rewrite !decimal_digit by (Z.to_euclidean_division_equations; lia). cbn [mbind option_bind].
  do 2 f_equal. Z.to_euclidean_division_equations; lia.
Qed.

(** A fraction as it may follow the seconds: nothing, or a point and digits. *)
Definition is_fraction (f : string) : Prop :=
  f = "" ∨ ∃ ds, ds ≠ "" ∧ f = "." +:+ ds ∧ Forall (λ c, is_Some (decimal c)) (explode ds).

Lemma span_digits_app ds s :
  Forall (λ c, is_Some (decimal c)) (explode ds) →
  (∀ c s', s = String c s' → decimal c = None) → span_digits (ds +:+ s) = (ds, s).
Proof.
  intros HF Hs. induction ds as [|c ds IH].
  - rewrite app_nil_l_str. destruct s as [|c s']; [done|]. simpl. by rewrite (Hs c s').
  - rewrite app_cons_str. simpl in *. apply Forall_cons in HF as [[d Hd] HF].
    by rewrite Hd, IH.
Qed.

Lemma fraction_app f s :
  is_fraction f → (∀ c s', s = String c s' → decimal c = None ∧ c ≠ "."%char ∧ c ≠ ","%char) →
  ∃ nsec, fraction (f +:+ s) = (nsec, s).
Proof.
  intros [->|(ds & Hne & -> & HF)] Hs.
  - exists 0. rewrite app_nil_l_str. destruct s as [|c s']; [done|]. simpl.
    destruct (Hs c s' eq_refl) as (_ & ? & ?). by rewrite decide_False by naive_solver.
  - exists (nanoseconds ds). rewrite app_assoc_str.
    change ("." +:+ ds +:+ s) with (String "." (ds +:+ s)). cbn [fraction].
    rewrite decide_True by auto. rewrite span_digits_app; [by destruct ds|done|].
    intros c s' E. by destruct (Hs c s' E).
Qed.

(** The broken-down time read back from its text, with what follows it. *)
Lemma parse_date_time_text c f s :
  valid_civil c → is_fraction f →
  (∀ d s', s = String d s' → decimal d = None ∧ d ≠ "."%char ∧ d ≠ ","%char) →
  ∃ nsec, parse_date_time (layout_text c +:+ f +:+ s) =
    Some (MkCivil (c_year c) (c_month c) (c_day c) (c_hour c) (c_min c) (c_sec c) nsec, s).
Proof.
  intros [Hy [Hm Hd] Hh Hmi Hs] Hf Hrest. destruct (fraction_app f s Hf Hrest) as [nsec Hn].
  exists nsec. pose proof (days_in_le (c_year c) (c_month c)) as [Hdi _].
  unfold parse_date_time, layout_text. rewrite !app_assoc_str.
  rewrite getyear_pad4 by done. cbn [mbind option_bind].
  rewrite skip_app. cbn [mbind option_bind]. rewrite getnum_pad2, within_some by lia.
  cbn [mbind option_bind]. rewrite skip_app. cbn [mbind option_bind].
  rewrite getnum_pad2 by lia. cbn [mbind option_bind]. rewrite skip_app. cbn [mbind option_bind].
  rewrite getnum_pad2, within_some by lia. cbn [mbind option_bind].
  rewrite skip_app. cbn [mbind option_bind]. rewrite getnum_pad2, within_some by lia.
  cbn [mbind option_bind]. rewrite skip_app. cbn [mbind option_bind].
  rewrite getnum_pad2, within_some by lia. cbn [mbind option_bind]. by rewrite Hn.
Qed.

(** A time made of valid fields has these fields. *)
Lemma days_of_civil_bound year month day :
  0 ≤ year < 10000 → valid_date year month day → -1000000 ≤ days_of_civil year month day < 4000000.
Proof.
  intros Hy [Hm Hd]. pose proof (days_in_le year month) as [Hdi _]. unfold days_of_civil.
  set (y := if month <=? 2 then year - 1 else year).
  set (mp := if month <=? 2 then month + 9 else month - 3).
  assert (-1 ≤ y < 10000 ∧ 0 ≤ mp ≤ 11) as [Hyb Hmp]
    by (unfold y, mp; destruct (Z.leb_spec month 2); lia).
  clearbody y mp. pose proof (Z.mod_pos_bound y 400 ltac:(lia)) as Hyoe.
  assert (-1 ≤ y / 400 < 25) by (clear -Hyb; Z.to_euclidean_division_equations; lia).
  assert (0 ≤ (153 * mp + 2) / 5 < 340) by (clear -Hmp; Z.to_euclidean_division_equations; lia).
  set (yoe := y mod 400) in *. clearbody yoe.
  assert (0 ≤ yoe / 4 < 100) by (clear -Hyoe; Z.to_euclidean_division_equations; lia).
  assert (0 ≤ yoe / 100 < 4) by (clear -Hyoe; Z.to_euclidean_division_equations; lia).
  lia.
Qed.

Lemma wrap64_small n : - 2^63 ≤ n < 2^63 → wrap64 n = n.
Proof. intros H. unfold wrap64. rewrite Z.mod_small by lia. lia. Qed.

Lemma civil_Date c : valid_civil c → civil (Date c) 0 = c.
Proof.
  intros [Hy Hd Hh Hmi Hs]. pose proof (days_of_civil_bound _ _ _ Hy Hd) as Hb.
  destruct c as [y mo d h mi s ns]. unfold civil, Date, unix_time.
  cbn [c_year c_month c_day c_hour c_min c_sec c_nsec t_sec t_nsec] in *.
  pose proof (civil_of_days_of_civil y mo d Hd) as Hciv. change unixToInternal with 62135596800.
  set (days := days_of_civil y mo d) in *. clearbody days. clear Hy Hd.
  rewrite wrap64_small by lia.
  replace (days * 86400 + h * 3600 + mi * 60 + s + 62135596800 - 62135596800 + 0)
    with ((h * 3600 + mi * 60 + s) + days * 86400) by lia.
  rewrite Z_mod_plus_full, Z_div_plus_full by lia.
  rewrite (Z.div_small (_ + _) 86400), (Z.mod_small (_ + _) 86400) by lia. rewrite Z.add_0_l.
  rewrite Hciv. f_equal; Z.to_euclidean_division_equations; lia.
Qed.

Lemma checked_valid c : valid_date (c_year c) (c_month c) (c_day c) → checked c = Some c.
Proof.
  intros [_ Hd]. unfold checked. by rewrite (proj2 (Z.leb_le _ _)), (proj2 (Z.leb_le _ _)) by lia.
Qed.

(** Reading a valid date in the layout with the literal zone and printing it in the
    layout with the letter Z keeps all fields; a fraction of the seconds is dropped. *)
Lemma Parse_Format c f :
  valid_civil c → is_fraction f →
  ∃ t, Parse_literal_zone (layout_text c +:+ f +:+ "+00:00") = Ok t ∧ Format t 0 = layout_text c +:+ "Z".
Proof.
  intros Hc Hf. destruct (parse_date_time_text c f "+00:00" Hc Hf) as [nsec Hp].
  { intros d s' [= <- _]. done. }
  unfold Parse_literal_zone. rewrite Hp. cbn [mbind option_bind].
  rewrite <-(app_nil_r_str "+00:00"), skip_app. cbn [mbind option_bind]. rewrite decide_True by done.
  rewrite checked_valid by apply Hc. eexists. split; [reflexivity|]. unfold Format. f_equal.
  rewrite civil_Date by (split; apply Hc). done.
Qed.
