(* ===== verification/OsvVex.v ===== *)
(** * CSAF VEX advisories

    [tools/osv-generator/csaf_vex_vulnerability.go]: the structures, how a JSON document
    is decoded into them, and that every value is the value of a document. *)

From S2P Require Import Prelude GoStrings GoJson GoJsonRead GoJsonSyntax GoJsonRound GoJsonDecode Json.

Record Note := MkNote { note_Category : string; note_Text : string }.
Record VexReference := MkVexReference { vref_Category : string; vref_Url : string }.

Record Vulnerability := MkVulnerability {
  Cve : string;
  DiscoveryDate : string;
  Cwe_Id : string;
  References : list VexReference;
  Notes : list Note
}.

(** The product tree: a product of the third level is its
    [Product.ProductIdentificationHelper.Purl]. *)
Record SubBranch := MkSubBranch { sub_Category : string; sub_Branches : list string }.
Record Branch := MkBranch { br_Branches : list SubBranch }.

(** An entry of the list of vulnerabilities is a pointer, nil for a JSON null. *)
Record VEX := MkVEX {
  AggregateSeverity_Text : string;
  Vulnerabilities : list (option Vulnerability);
  ProductTree_Branches : list Branch
}.

(** ** As JSON

    The decoders the tags of the structures describe, and a document with a given
    value. *)

Definition d_note : decoder Note :=
  d_struct [("category", fits d_string); ("text", fits d_string)]
    (λ get, MkNote (value_of d_string (get "category")) (value_of d_string (get "text"))).

Definition d_vex_reference : decoder VexReference :=
  d_struct [("category", fits d_string); ("url", fits d_string)]
    (λ get, MkVexReference (value_of d_string (get "category")) (value_of d_string (get "url"))).

Definition d_vulnerability : decoder Vulnerability :=
  let cwe := d_field "id" d_string in
  d_struct [("cve", fits d_string); ("discovery_date", fits d_string); ("cwe", fits cwe);
            ("references", fits (d_slice d_vex_reference)); ("notes", fits (d_slice d_note))]
    (λ get, MkVulnerability (value_of d_string (get "cve")) (value_of d_string (get "discovery_date"))
              (value_of cwe (get "cwe")) (value_of (d_slice d_vex_reference) (get "references"))
              (value_of (d_slice d_note) (get "notes"))).

Definition d_product : decoder string :=
  d_field "product" (d_field "product_identification_helper" (d_field "purl" d_string)).

Definition d_sub_branch : decoder SubBranch :=
  d_struct [("category", fits d_string); ("branches", fits (d_slice d_product))]
    (λ get, MkSubBranch (value_of d_string (get "category")) (value_of (d_slice d_product) (get "branches"))).

Definition d_branch : decoder Branch :=
  d_struct [("branches", fits (d_slice d_sub_branch))]
    (λ get, MkBranch (value_of (d_slice d_sub_branch) (get "branches"))).

Definition d_vex : decoder VEX :=
  let document := d_field "aggregate_severity" (d_field "text" d_string) in
  let tree := d_field "branches" (d_slice d_branch) in
  let vulnerabilities := d_slice (d_pointer d_vulnerability) in
  d_struct [("document", fits document); ("vulnerabilities", fits vulnerabilities);
            ("product_tree", fits tree)]
    (λ get, MkVEX (value_of document (get "document")) (value_of vulnerabilities (get "vulnerabilities"))
              (value_of tree (get "product_tree"))).

(** [json.Unmarshal] into a [VEX]. *)
Definition Unmarshal_VEX : string → error + VEX := Unmarshal d_vex.

Definition note_text (n : Note) : jtext :=
  TObject [("category", TString (note_Category n)); ("text", TString (note_Text n))].

Definition vex_reference_text (r : VexReference) : jtext :=
  TObject [("category", TString (vref_Category r)); ("url", TString (vref_Url r))].

Definition vulnerability_text (v : Vulnerability) : jtext :=
  TObject [("cve", TString (Cve v)); ("discovery_date", TString (DiscoveryDate v));
           ("cwe", TObject [("id", TString (Cwe_Id v))]);
           ("references", TArray (vex_reference_text <$> References v));
           ("notes", TArray (note_text <$> Notes v))].

Definition product_text (purl : string) : jtext :=
  TObject [("product", TObject [("product_identification_helper", TObject [("purl", TString purl)])])].

Definition sub_branch_text (b : SubBranch) : jtext :=
  TObject [("category", TString (sub_Category b)); ("branches", TArray (product_text <$> sub_Branches b))].

Definition branch_text (b : Branch) : jtext :=
  TObject [("branches", TArray (sub_branch_text <$> br_Branches b))].

Definition vex_text (v : VEX) : jtext :=
  TObject [("document", TObject [("aggregate_severity", TObject [("text", TString (AggregateSeverity_Text v))])]);
           ("vulnerabilities",
              TArray ((λ o, match o with Some x => vulnerability_text x | None => TNull end) <$> Vulnerabilities v));
           ("product_tree", TObject [("branches", TArray (branch_text <$> ProductTree_Branches v))])].

(** A document with a given value is decoded as that value. *)
Lemma slice_text {A} (d : decoder A) (text : A → jtext) l :
  (∀ a, value_of d [text a] = a) → value_of (d_slice d) [TArray (text <$> l)] = l.
Proof.
  intros Ht. rewrite value_of_slice, <-list_fmap_compose. apply list_eq. intros i.
  rewrite list_lookup_fmap. destruct (l !! i) as [a|]; [|done]. cbn. by rewrite Ht.
Qed.

Lemma fits_slice_text {A} (d : decoder A) (text : A → jtext) l :
  (∀ a, fits d (text a) = true) → fits (d_slice d) (TArray (text <$> l)) = true.
Proof. intros Ht. cbn [fits d_slice]. induction l as [|a l IH]; [done|]. cbn. by rewrite Ht. Qed.

Lemma vulnerability_text_value v :
  fits d_vulnerability (vulnerability_text v) = true ∧ value_of d_vulnerability [vulnerability_text v] = v.
Proof.
  assert (∀ n, value_of d_note [note_text n] = n) as Hn by by intros [].
  assert (∀ r, value_of d_vex_reference [vex_reference_text r] = r) as Hr by by intros [].
  destruct v as [cve date cwe refs notes]. split.
  - change ((fits (d_slice d_vex_reference) (TArray (vex_reference_text <$> refs)) && true) &&
            ((fits (d_slice d_note) (TArray (note_text <$> notes)) && true) && true) = true).
    by rewrite !fits_slice_text.
  - change (MkVulnerability cve date cwe
              (value_of (d_slice d_vex_reference) [TArray (vex_reference_text <$> refs)])
              (value_of (d_slice d_note) [TArray (note_text <$> notes)]) =
            MkVulnerability cve date cwe refs notes).
    by rewrite !slice_text.
Qed.

Lemma pointer_text_value (o : option Vulnerability) :
  let text := match o with Some x => vulnerability_text x | None => TNull end in
  fits (d_pointer d_vulnerability) text = true ∧ value_of (d_pointer d_vulnerability) [text] = o.
Proof.
  destruct o as [v|]; [|done]. destruct (vulnerability_text_value v) as [Hf Hv]. split.
  - by apply fits_pointer.
  - rewrite value_of_pointer by done. by rewrite Hv.
Qed.

Lemma sub_branch_text_value b :
  fits d_sub_branch (sub_branch_text b) = true ∧ value_of d_sub_branch [sub_branch_text b] = b.
Proof.
  destruct b as [category purls]. split.
  - change ((fits (d_slice d_product) (TArray (product_text <$> purls)) && true) && true = true).
    by rewrite fits_slice_text.
  - change (MkSubBranch category (value_of (d_slice d_product) [TArray (product_text <$> purls)]) =
            MkSubBranch category purls).
    by rewrite slice_text.
Qed.

Lemma branch_text_value b : fits d_branch (branch_text b) = true ∧ value_of d_branch [branch_text b] = b.
Proof.
  destruct b as [l]. split.
  - change ((fits (d_slice d_sub_branch) (TArray (sub_branch_text <$> l)) && true) && true = true).
    rewrite fits_slice_text; [done|]. intros b. apply sub_branch_text_value.
  - change (MkBranch (value_of (d_slice d_sub_branch) [TArray (sub_branch_text <$> l)]) = MkBranch l).
    rewrite slice_text; [done|]. intros b. apply sub_branch_text_value.
Qed.

Lemma vex_text_value v : fits d_vex (vex_text v) = true ∧ value_of d_vex [vex_text v] = v.
Proof.
  destruct v as [severity vulns branches].
  set (vs := TArray ((λ o, match o with Some x => vulnerability_text x | None => TNull end) <$> vulns)).
  set (bs := TArray (branch_text <$> branches)).
  assert (fits (d_slice (d_pointer d_vulnerability)) vs = true ∧
          value_of (d_slice (d_pointer d_vulnerability)) [vs] = vulns) as [Fv Vv].
  { split; [apply fits_slice_text|apply slice_text]; intros o; apply pointer_text_value. }
  assert (fits (d_slice d_branch) bs = true ∧ value_of (d_slice d_branch) [bs] = branches) as [Fb Vb].
  { split; [apply fits_slice_text|apply slice_text]; intros b; apply branch_text_value. }
  split.
  - change ((fits (d_slice (d_pointer d_vulnerability)) vs && true) &&
            ((((fits (d_slice d_branch) bs && true) && true) && true) && true) = true).
    by rewrite Fv, Fb.
  - change (MkVEX severity (value_of (d_slice (d_pointer d_vulnerability)) [vs])
              (value_of (d_slice d_branch) [bs]) = MkVEX severity vulns branches).
    by rewrite Vv, Vb.
Qed.

(** A text that reads as the document of a value is unmarshalled to it. *)
Lemma Unmarshal_VEX_text v body : read_json body = Some (vex_text v) → Unmarshal_VEX body = inr v.
Proof.
  intros Hr. destruct (vex_text_value v) as [Hf Hv]. unfold Unmarshal_VEX.
  by rewrite (Unmarshal_read _ _ _ Hr Hf), Hv.
Qed.

Lemma deepest_le {A} (f : A → N) l b : (∀ a, (f a ≤ b)%N) → (deepest f l ≤ b)%N.
Proof. intros Hf. induction l as [|a l IH]; [apply N.le_0_l|]. rewrite deepest_cons. specialize (Hf a). lia. Qed.

Lemma nesting_map {A} (text : A → jtext) l b :
  (∀ a, (nesting (text a) ≤ b)%N) → (nesting (TArray (text <$> l)) ≤ 1 + b)%N.
Proof.
  intros Ht. rewrite nesting_array. assert (deepest nesting (text <$> l) ≤ b)%N; [|lia].
  unfold deepest. rewrite <-list_fmap_compose. by apply (deepest_le (nesting ∘ text)).
Qed.

Lemma numbers_map {A} (text : A → jtext) l :
  (∀ a, numbers_ok (text a) = true) → numbers_ok (TArray (text <$> l)) = true.
Proof. intros Ht. cbn [numbers_ok]. rewrite forallb_fmap. apply forallb_Forall, Forall_true, Ht. Qed.

(** Written values have no numbers, and are not deep. *)
Definition shaped (v : jtext) (n : N) : Prop := numbers_ok v = true ∧ (nesting v ≤ n)%N.

Lemma shaped_array {A} (text : A → jtext) l n :
  (∀ a, shaped (text a) n) → shaped (TArray (text <$> l)) (1 + n).
Proof. intros Ht. split; [apply numbers_map|apply nesting_map]; intros a; apply Ht. Qed.

Lemma shaped_object l n : Forall (λ m, shaped m.2 n) l → shaped (TObject l) (1 + n).
Proof.
  intros Hl. unfold shaped. cbn [numbers_ok]. rewrite nesting_object, forallb_Forall.
  assert (deepest member_nesting l ≤ n)%N; [|split; [|lia]].
  - induction Hl as [|m l [_ Hm] Hl IH]; [apply N.le_0_l|]. rewrite deepest_cons.
    unfold member_nesting at 1. lia.
  - eapply Forall_impl; [exact Hl|]. by intros m [Hm _].
Qed.

Lemma shaped_more v n k : shaped v n → (n ≤ k)%N → shaped v k.
Proof. intros [H1 H2] Hk. split; [done|lia]. Qed.

Ltac shape :=
  repeat first
    [ apply Forall_nil_2 | apply Forall_cons_2; cbn [snd]
    | by split; [reflexivity|apply N.le_0_l]
    | apply shaped_array; intros ? | apply shaped_object ].

Lemma vulnerability_shaped (o : option Vulnerability) :
  shaped (match o with Some x => vulnerability_text x | None => TNull end) (1 + (1 + (1 + 0)))%N.
Proof. destruct o; [|done]. unfold vulnerability_text, vex_reference_text, note_text. shape. Qed.

Lemma branch_shaped b : shaped (branch_text b) (1 + (1 + (1 + (1 + (1 + (1 + (1 + 0)))))))%N.
Proof. unfold branch_text, sub_branch_text, product_text. shape. Qed.

Lemma vex_text_shape v : shaped (vex_text v) max_nesting.
Proof.
  apply (shaped_more _ 10); [|done]. unfold vex_text. change 10%N with (1 + (1 + 8))%N.
  apply shaped_object. repeat apply Forall_cons_2; [..|apply Forall_nil_2]; cbn [snd].
  - apply (shaped_more _ (1 + (1 + 0))); [shape|done].
  - apply (shaped_more _ 4); [|done]. apply (shaped_array _ _ 3), vulnerability_shaped.
  - apply (shaped_object _ 8). apply Forall_cons_2; [|apply Forall_nil_2].
    apply (shaped_array _ _ 7), branch_shaped.
Qed.

(** C24.  An advisory with UTF-8 strings that is written as JSON, compact or indented, is
    read back as it is: every value of the model is the value of a document. *)
Theorem Unmarshal_VEX_written v :
  valid_text (vex_text v) = vex_text v →
  Unmarshal_VEX (implode (compact (vex_text v))) = inr v ∧
  Unmarshal_VEX (implode (indent 0 (vex_text v))) = inr v.
Proof.
  intros Hv. destruct (vex_text_shape v) as [Hn Hd].
  destruct (read_json_written (vex_text v) Hn Hd) as [H1 H2]. rewrite Hv in H1, H2.
  split; apply Unmarshal_VEX_text; assumption.
Qed.
