(* ===== verification/Osv.v ===== *)
(** * From CSAF VEX to OSV

    [tools/osv-generator/osv_vulnerability.go] and the conversions of [cve_parser.go]:
    the affected packages of an advisory, and one OSV entry per vulnerability. *)

From S2P Require Import Prelude GoStrings GoRegexp GoTime GoJson GoJsonRead GoJsonSyntax GoJsonRound Json ToolWorld OsvVex.
From Stdlib Require Import Ascii.

(** ** OSV *)

Record Event := MkEvent { Introduced : string; Fixed : string }.
Record Range := MkRange { range_Type : string; Events : list Event }.
Record Package := MkPackage { Ecosystem : string; pkg_Name : string; Purl : string }.
Record Affected := MkAffected { aff_Package : Package; Ranges : list Range }.
Record Reference := MkReference { ref_Type : string; ref_Url : string }.
Record DatabaseSpecific := MkDatabaseSpecific { Severity : string; CWEids : list string }.

Record OSV := MkOSV {
  IdInternal : string;
  SchemaVersion : string;
  Id : string;
  osv_DatabaseSpecific : DatabaseSpecific;
  Modified : string;
  Published : string;
  Summary : string;
  Details : string;
  osv_Affected : list Affected;
  osv_References : list Reference
}.

(** *** As JSON

    What the encoder writes for an entry.  The affected packages and the references are
    nil slices, hence [null], when there are none; the ranges never are. *)

Definition nil_array (l : list jtext) : jtext := match l with [] => TNull | _ => TArray l end.

(* both fields are omitted when empty *)
Definition event_text (e : Event) : jtext :=
  TObject
    ((if decide (Introduced e = "") then [] else [("introduced", TString (Introduced e))]) ++
     (if decide (Fixed e = "") then [] else [("fixed", TString (Fixed e))])).

Definition range_text (r : Range) : jtext :=
  TObject [("type", TString (range_Type r)); ("events", TArray (event_text <$> Events r))].

Definition package_text (p : Package) : jtext :=
  TObject [("ecosystem", TString (Ecosystem p)); ("name", TString (pkg_Name p)); ("purl", TString (Purl p))].

Definition affected_text (a : Affected) : jtext :=
  TObject [("package", package_text (aff_Package a)); ("ranges", TArray (range_text <$> Ranges a))].

Definition reference_text (r : Reference) : jtext :=
  TObject [("type", TString (ref_Type r)); ("url", TString (ref_Url r))].

Definition database_text (d : DatabaseSpecific) : jtext :=
  TObject [("severity", TString (Severity d)); ("cwe_ids", TArray (TString <$> CWEids d))].

Definition osv_text (o : OSV) : jtext :=
  TObject
    [("_id", TString (IdInternal o));
     ("schema_version", TString (SchemaVersion o));
     ("id", TString (Id o));
     ("database_specific", database_text (osv_DatabaseSpecific o));
     ("modified", TString (Modified o));
     ("published", TString (Published o));
     ("summary", TString (Summary o));
     ("details", TString (Details o));
     ("affected", nil_array (affected_text <$> osv_Affected o));
     ("references", nil_array (reference_text <$> osv_References o))].

Lemma shaped_nil_array {A} (text : A → jtext) l n :
  (∀ a, shaped (text a) n) → shaped (nil_array (text <$> l)) (1 + n).
Proof. intros Ht. destruct l; [split; [done|apply N.le_0_l]|]. by apply (shaped_array text). Qed.

Lemma osv_text_shape o : shaped (osv_text o) max_nesting.
Proof.
  apply (shaped_more _ (1 + 6)); [|done]. unfold osv_text. apply shaped_object.
  repeat apply Forall_cons_2; try apply Forall_nil_2; cbn [snd]; try (by split; [done|apply N.le_0_l]).
  - apply (shaped_more _ (1 + (1 + 0))); [|done]. unfold database_text. shape.
  - apply (shaped_nil_array _ _ 5). intros a. apply (shaped_more _ (1 + (1 + (1 + (1 + (1 + 0))))));
      [|done]. unfold affected_text, package_text, range_text, event_text. shape.
    apply Forall_app_2; case_decide; shape.
  - apply (shaped_more _ (1 + (1 + 0))); [|done]. apply shaped_nil_array. intros r. unfold reference_text. shape.
Qed.

(** ** Affected packages *)

(** A loop that carries a local variable and may panic. *)
Fixpoint r_fold {A X} (l : list A) (x : X) (body : A → X → result X) : result X :=
  match l with
  | [] => Ok x
  | a :: l' => x' ← body a x; r_fold l' x' body
  end.

(** [contains(affectedList, affectedPackage)]: by name. *)
Definition contains (affectedList : list Affected) (affectedPackage : Affected) : bool :=
  existsb (λ item, bool_decide (pkg_Name (aff_Package item) = pkg_Name (aff_Package affectedPackage)))
    affectedList.

(** [if !contains(...) { affectedList = append(...) }]. *)
Definition append_new (affectedList : list Affected) (affectedPackage : Affected) : list Affected :=
  if contains affectedList affectedPackage then affectedList else affectedList ++ [affectedPackage].

Definition not_byte (c d : ascii) : bool := bool_decide (d ≠ c).

(** [(pkg:rpm(?:mod)?/(?:redhat/)?([^@]+))@([^?]+)] *)
Definition re_rpm : regex :=
  Cat [Grp 1 (Cat [Lit "pkg:rpm"; Opt (Lit "mod"); Lit "/"; Opt (Lit "redhat/");
                   Grp 2 (Plus (not_byte "@"%char))]);
       Lit "@"; Grp 3 (Plus (not_byte "?"%char))].

(** [pkg:oci/.*&repository_url=([^&]+)] *)
Definition re_oci : regex :=
  Cat [Lit "pkg:oci/"; Many Dot; Lit "&repository_url="; Grp 1 (Plus (not_byte "&"%char))].

Definition index_panic {A} : result A := Panic "index out of range".

(** The affected RPM package of a purl; [matches[1]] of no match panics. *)
Definition rpm_package (purl : string) : result Affected :=
  match FindStringSubmatch 3 re_rpm purl with
  | [_; purl'; packageName; version] =>
      Ok (MkAffected (MkPackage "RPM" packageName purl')
            [MkRange "ECOSYSTEM" [MkEvent "0.0.0" ""; MkEvent "" version]])
  | _ => index_panic
  end.

(** The body of the innermost loop for RPM packages. *)
Definition rpm_product (purl : string) (affectedList : list Affected) : result (list Affected) :=
  if HasPrefix purl "pkg:rpm" then
    affectedPackage ← rpm_package purl;
    Ok (append_new affectedList affectedPackage)
  else Ok affectedList.

(** The affected container image of a purl, and the same image under the name of the
    old registry. *)
Definition old_registry (s : string) : string :=
  ReplaceAll s "registry.redhat.io" "registry.access.redhat.com".

Definition container_packages (purl : string) : result (Affected * Affected) :=
  match FindStringSubmatch 1 re_oci purl with
  | [_; repositoryUrl] =>
      Ok (MkAffected (MkPackage "Docker" repositoryUrl purl) [],
          MkAffected (MkPackage "Docker" (old_registry repositoryUrl) (old_registry purl)) [])
  | _ => index_panic
  end.

(** The body of the innermost loop for containers. *)
Definition container_product (purl : string) (affectedList : list Affected)
    : result (list Affected) :=
  if HasPrefix purl "pkg:oci" then
    '(affectedPackage, affectedPackageOldRegistry) ← container_packages purl;
    Ok (append_new (append_new affectedList affectedPackage) affectedPackageOldRegistry)
  else Ok affectedList.

(** The walk over the product tree both functions make. *)
Definition traverse (vex : VEX) (body : string → list Affected → result (list Affected))
    : result (list Affected) :=
  r_fold (ProductTree_Branches vex) [] (λ branch affectedList,
    r_fold (br_Branches branch) affectedList (λ subBranch affectedList,
      if decide (sub_Category subBranch = "architecture")
      then r_fold (sub_Branches subBranch) affectedList body
      else Ok affectedList)).

Definition getAffectedListRPMs (vex : VEX) : result (list Affected) := traverse vex rpm_product.
Definition getAffectedListContainers (vex : VEX) : result (list Affected) :=
  traverse vex container_product.

(** ** One vulnerability *)

Definition getReferencesList (vulnerability : Vulnerability) : list Reference :=
  (λ reference,
     if decide (vref_Category reference = "self") then MkReference "REPORT" (vref_Url reference)
     else MkReference "WEB" (vref_Url reference)) <$> References vulnerability.

(** The text of the first note of a category. *)
Definition find_note (category : string) (notes : list Note) : option string :=
  note_Text <$> List.find (λ note, bool_decide (note_Category note = category)) notes.

Definition getDetails (vulnerability : Vulnerability) : result string :=
  match find_note "description" (Notes vulnerability) with
  | Some text => Ok text
  | None => Panic "No CVE details found"
  end.

Definition getSummary (vulnerability : Vulnerability) : option string :=
  find_note "summary" (Notes vulnerability).

Definition getPublishedDate (vulnerability : Vulnerability) : result string :=
  match Parse_literal_zone (DiscoveryDate vulnerability) with
  | Ok t => Ok (Format t 0)
  | Err e => Panic (error_msg e)
  | Panic p => Panic p
  end.

(** The body of the loop over the vulnerabilities: nothing for one without a summary. *)
Definition convert_one (vexData : VEX) (affectedList : list Affected)
    (entry : option Vulnerability) : Prog (option OSV) :=
  match entry with
  | None => p_panic "invalid memory address or nil pointer dereference"
  | Some vulnerability =>
      match getSummary vulnerability with
      | None => p_ret None
      | Some summary =>
          do id := ask Uniuri in
          do now := ask Now in
          do published := Ret (getPublishedDate vulnerability) in
          do details := Ret (getDetails vulnerability) in
          p_ret (Some {|
            IdInternal := id;
            SchemaVersion := "1.6.0";
            Id := Cve vulnerability;
            osv_DatabaseSpecific :=
              MkDatabaseSpecific (AggregateSeverity_Text vexData) [Cwe_Id vulnerability];
            Modified := Format (unix_time (ck_nanos now / 10^9) (ck_nanos now mod 10^9)) (ck_offset now);
            Published := published;
            Summary := summary;
            Details := details;
            osv_References := getReferencesList vulnerability;
            osv_Affected := affectedList
          |})
      end
  end.

Definition append_some {A} (l : list A) (o : option A) : list A :=
  match o with Some a => l ++ [a] | None => l end.

(** [ConvertToOSV(vexData, containerVulns)]. *)
Definition ConvertToOSV (vexData : VEX) (containerVulns : bool) : Prog (list OSV) :=
  let vulnerabilities affectedList :=
    p_fold (Vulnerabilities vexData) [] (λ vulnerability vulnerabilities,
      do osvVulnerability := convert_one vexData affectedList vulnerability in
      p_ret (append_some vulnerabilities osvVulnerability)) in
  if containerVulns then
    do affectedList := Ret (getAffectedListContainers vexData) in
    if decide (affectedList = []) then p_ret []
    else vulnerabilities affectedList
  else
    do affectedList := Ret (getAffectedListRPMs vexData) in
    vulnerabilities affectedList.
