(* ===== verification/OsvAffected.v ===== *)
(** * The affected packages of an advisory

    The walk over the product tree computes the reference definition below: the
    packages of the products at architecture level, the first of each name.  The
    package URLs of the two kinds are taken apart as their patterns say. *)

From S2P Require Import Prelude GoStrings GoRegexp GoJson OsvVex Osv.
From Stdlib Require Import Ascii.

(** ** The reference definition *)

(** The package URLs the walk visits, in order. *)
Definition arch_purls (vex : VEX) : list string :=
  ProductTree_Branches vex ≫= λ branch,
    br_Branches branch ≫= λ subBranch,
      if decide (sub_Category subBranch = "architecture") then sub_Branches subBranch else [].

Definition aff_name (a : Affected) : string := pkg_Name (aff_Package a).

(** Keeping the first entry of each name. *)
Definition first_of_each_name (l : list Affected) : list Affected := foldl append_new [] l.

(** The entries a package URL gives. *)
Definition rpm_entries (purl : string) : result (list Affected) :=
  if HasPrefix purl "pkg:rpm" then (λ a, [a]) <$> rpm_package purl else Ok [].

Definition container_entries (purl : string) : result (list Affected) :=
  if HasPrefix purl "pkg:oci" then (λ p, [p.1; p.2]) <$> container_packages purl else Ok [].

Fixpoint collect (entries : string → result (list Affected)) (purls : list string)
    : result (list Affected) :=
  match purls with
  | [] => Ok []
  | purl :: purls' => here ← entries purl; rest ← collect entries purls'; Ok (here ++ rest)
  end.

(** ** The walk *)

Lemma r_fold_app {A X} (l1 l2 : list A) (x : X) body :
  r_fold (l1 ++ l2) x body = r_fold l1 x body ≫= λ x', r_fold l2 x' body.
Proof.
  revert x. induction l1 as [|a l1 IH]; intros x; [done|]. simpl.
  destruct (body a x); simpl; [apply IH|done..].
Qed.

(** A loop in a loop is a loop over the concatenation. *)
Lemma r_fold_nested {A B X} (l : list A) (f : A → list B) (x : X) outer body :
  (∀ a x, outer a x = r_fold (f a) x body) → r_fold l x outer = r_fold (l ≫= f) x body.
Proof.
  intros Hf. revert x. induction l as [|a l IH]; intros x; [done|].
  rewrite bind_cons, r_fold_app. simpl. rewrite Hf. destruct (r_fold (f a) x body); simpl; auto.
Qed.

Lemma traverse_flat vex body : traverse vex body = r_fold (arch_purls vex) [] body.
Proof.
  unfold traverse, arch_purls. apply r_fold_nested. intros branch x.
  apply r_fold_nested. intros sub y. by case_decide.
Qed.

Lemma r_fold_collect entries body purls acc :
  (∀ purl acc, body purl acc = (λ here, foldl append_new acc here) <$> entries purl) →
  r_fold purls acc body = (λ all, foldl append_new acc all) <$> collect entries purls.
Proof.
  intros Hb. revert acc. induction purls as [|purl purls IH]; intros acc; [done|]. simpl.
  rewrite Hb. destruct (entries purl) as [here| |]; simpl; [|done..]. rewrite IH.
  destruct (collect entries purls); simpl; [|done..]. by rewrite foldl_app.
Qed.

Lemma getAffectedListRPMs_collect vex :
  getAffectedListRPMs vex = first_of_each_name <$> collect rpm_entries (arch_purls vex).
Proof.
  unfold getAffectedListRPMs. rewrite traverse_flat. apply r_fold_collect. intros purl acc.
  unfold rpm_product, rpm_entries. destruct (HasPrefix _ _); [|done]. by destruct (rpm_package purl).
Qed.

Lemma getAffectedListContainers_collect vex :
  getAffectedListContainers vex = first_of_each_name <$> collect container_entries (arch_purls vex).
Proof.
  unfold getAffectedListContainers. rewrite traverse_flat. apply r_fold_collect. intros purl acc.
  unfold container_product, container_entries. destruct (HasPrefix _ _); [|done].
  by destruct (container_packages purl) as [[a b]| |].
Qed.

(** ** The first of each name *)

Lemma contains_spec l a : contains l a = true ↔ aff_name a ∈ aff_name <$> l.
Proof.
  unfold contains. rewrite existsb_exists, list_elem_of_fmap. unfold aff_name. split.
  - intros (b & Hb & E%bool_decide_eq_true). exists b. by rewrite list_elem_of_In.
  - intros (b & E & Hb). exists b. rewrite <-list_elem_of_In. by rewrite bool_decide_eq_true.
Qed.

Lemma append_new_eq l a : append_new l a = if contains l a then l else l ++ [a].
Proof. done. Qed.

Lemma foldl_append_new acc l :
  NoDup (aff_name <$> acc) →
  let r := foldl append_new acc l in
  NoDup (aff_name <$> r) ∧
  ∀ a, a ∈ r ↔ a ∈ acc ∨
    ∃ l1 l2, l = l1 ++ a :: l2 ∧ aff_name a ∉ aff_name <$> acc ∧ aff_name a ∉ aff_name <$> l1.
Proof.
  cbn zeta. revert acc. induction l as [|b l IH]; intros acc Hacc; simpl.
  - split; [done|]. intros a. split; [auto|]. by intros [?|([|] & l2 & [=] & _)].
  - rewrite append_new_eq. destruct (contains acc b) eqn:Hc.
    + apply contains_spec in Hc. destruct (IH acc Hacc) as [IH1 IH2]. split; [done|].
      intros a. rewrite IH2. f_equiv. split.
      * intros (l1 & l2 & -> & H1 & H2). exists (b :: l1), l2. split_and!; [done..|].
        rewrite fmap_cons, not_elem_of_cons. split; [congruence|done].
      * intros ([|b' l1] & l2 & Hl & H1 & H2); injection Hl as -> ->; [done|].
        rewrite fmap_cons, not_elem_of_cons in H2. exists l1, l2. naive_solver.
    + assert (aff_name b ∉ aff_name <$> acc) as Hb by (rewrite <-contains_spec, Hc; done).
      destruct (IH (acc ++ [b])) as [IH1 IH2].
      { rewrite fmap_app. apply NoDup_app. split_and!; [done| |by apply NoDup_singleton].
        intros n Hn Hin. apply list_elem_of_singleton in Hin as ->. done. }
      split; [done|]. intros a. rewrite IH2, elem_of_app, list_elem_of_singleton, fmap_app. split.
      * intros [[Ha| ->]|(l1 & l2 & -> & H1 & H2)]; [auto| |].
        -- right. exists [], l. split_and!; [done..|apply not_elem_of_nil].
        -- right. exists (b :: l1), l2. rewrite not_elem_of_app in H1.
           rewrite fmap_cons, not_elem_of_cons. simpl in H1.
           rewrite not_elem_of_cons in H1. naive_solver.
      * intros [Ha|([|b' l1] & l2 & Hl & H1 & H2)]; [auto|..]; injection Hl as -> ->; [auto|].
        right. rewrite fmap_cons, not_elem_of_cons in H2. exists l1, l2. split_and!; [done| |naive_solver].
        simpl. rewrite not_elem_of_app, not_elem_of_cons. split_and!; [naive_solver..|apply not_elem_of_nil].
Qed.

Lemma first_of_each_name_spec l :
  NoDup (aff_name <$> first_of_each_name l) ∧
  ∀ a, a ∈ first_of_each_name l ↔ ∃ l1 l2, l = l1 ++ a :: l2 ∧ aff_name a ∉ aff_name <$> l1.
Proof.
  destruct (foldl_append_new [] l) as [H1 H2]; [by apply NoDup_nil_2|]. split; [done|].
  intros a. unfold first_of_each_name. rewrite H2. split.
  - intros [H|(l1 & l2 & ? & _ & ?)]; [by apply elem_of_nil in H|eauto].
  - intros (l1 & l2 & ? & ?). right. exists l1, l2. split_and!; [done|apply not_elem_of_nil|done].
Qed.

(** Every name collected is kept. *)
Lemma first_of_each_name_names l n :
  n ∈ aff_name <$> first_of_each_name l ↔ n ∈ aff_name <$> l.
Proof.
  unfold first_of_each_name. transitivity (n ∈ aff_name <$> [] ∨ n ∈ aff_name <$> l).
  2: { rewrite elem_of_nil. tauto. }
  generalize (@nil Affected). induction l as [|b l IH]; intros acc; simpl.
  - rewrite elem_of_nil. tauto.
  - rewrite IH, elem_of_cons, append_new_eq. destruct (contains acc b) eqn:Hc.
    + apply contains_spec in Hc. split; [tauto|]. intros [?|[->|?]]; auto.
    + rewrite fmap_app, elem_of_app, fmap_cons, list_elem_of_singleton. tauto.
Qed.

(** ** What the walks find *)

Section Collect.
Context (entries : string → result (list Affected)).

Lemma collect_sound purls all a l1 l2 :
  collect entries purls = Ok all → all = l1 ++ a :: l2 →
  ∃ before purl after h1 h2, purls = before ++ purl :: after ∧ entries purl = Ok (h1 ++ a :: h2) ∧
    ∀ purl' h b, purl' ∈ before → entries purl' = Ok h → b ∈ h → b ∈ l1.
Proof.
  revert all l1. induction purls as [|p purls IH]; intros all l1; cbn [collect].
  { intros [= <-] ?. by destruct l1. }
  rewrite bind_ok. intros (here & Hh & H) Hall. rewrite bind_ok in H.
  destruct H as (rest & Hr & [= <-]). apply app_eq_app in Hall as (k & [[-> Hk]|[-> Hk]]).
  - destruct k as [|b k].
    + simpl in Hk. subst rest. destruct (IH _ [] Hr eq_refl) as (be & p' & af & h1 & h2 & -> & He & Hb).
      exists (p :: be), p', af, h1, h2. split_and!; [done..|].
      intros q h c [->|Hq]%elem_of_cons Hqh Hc.
      * rewrite app_nil_r in Hh. congruence.
      * apply (Hb q h c) in Hq; [|done..]. by apply elem_of_nil in Hq.
    + injection Hk as <- ->. exists [], p, purls, l1, k. split_and!; [done..|].
      intros q h c Hq. by apply elem_of_nil in Hq.
  - destruct (IH _ k Hr Hk) as (be & p' & af & h1 & h2 & -> & He & Hb).
    exists (p :: be), p', af, h1, h2. split_and!; [done..|].
    intros q h c [->|Hq]%elem_of_cons Hqh Hc; apply elem_of_app.
    + left. congruence.
    + right. by eapply Hb.
Qed.

Lemma collect_complete purls all purl h a :
  collect entries purls = Ok all → purl ∈ purls → entries purl = Ok h → a ∈ h → a ∈ all.
Proof.
  revert all. induction purls as [|p purls IH]; intros all; cbn [collect].
  { intros _ Hp. by apply elem_of_nil in Hp. }
  rewrite bind_ok. intros (here & Hh & H) Hp He Ha. rewrite bind_ok in H.
  destruct H as (rest & Hr & [= <-]). rewrite elem_of_app.
  apply elem_of_cons in Hp as [->|Hp]; [left; congruence|right; eauto].
Qed.

(** The list is all right exactly when every entry is. *)
Lemma collect_ok purls :
  (∃ all, collect entries purls = Ok all) ↔ ∀ purl, purl ∈ purls → ∃ h, entries purl = Ok h.
Proof.
  induction purls as [|p purls IH]; cbn [collect].
  - split; [|eauto]. intros _ purl Hp. by apply elem_of_nil in Hp.
  - setoid_rewrite bind_ok. split.
    + intros (all & here & Hh & H) purl [->|Hp]%elem_of_cons; [eauto|].
      apply bind_ok in H as (rest & Hr & _). apply IH; eauto.
    + intros H. destruct (H p) as [here Hh]; [left|].
      destruct (proj2 IH) as [rest Hr]; [intros; apply H; by right|].
      exists (here ++ rest), here. split; [done|]. apply bind_ok. eauto.
Qed.
End Collect.

(** The affected RPM packages of an advisory: no name twice; every entry is that of the
    first product of its name, among the products at architecture level whose URL is
    that of an RPM package; and the name of every such product is there. *)
Theorem getAffectedListRPMs_spec vex l :
  getAffectedListRPMs vex = Ok l →
  NoDup (aff_name <$> l) ∧
  (∀ a, a ∈ l → ∃ before purl after,
     arch_purls vex = before ++ purl :: after ∧ HasPrefix purl "pkg:rpm" = true ∧
     rpm_package purl = Ok a ∧
     ∀ purl' a', purl' ∈ before → HasPrefix purl' "pkg:rpm" = true → rpm_package purl' = Ok a' →
       aff_name a' ≠ aff_name a) ∧
  (∀ purl, purl ∈ arch_purls vex → HasPrefix purl "pkg:rpm" = true →
     ∃ a, rpm_package purl = Ok a ∧ aff_name a ∈ aff_name <$> l).
Proof.
  rewrite getAffectedListRPMs_collect. destruct (collect _ _) as [all| |] eqn:Hc; [|done..].
  intros [= <-]. destruct (first_of_each_name_spec all) as [H1 H2]. split_and!; [done| |].
  - intros a (l1 & l2 & Hall & Hn)%H2.
    destruct (collect_sound _ _ _ _ _ _ Hc Hall) as (be & p & af & h1 & h2 & Hp & He & Hb).
    exists be, p, af. unfold rpm_entries in He. destruct (HasPrefix p "pkg:rpm") eqn:Hpre.
    2: { by destruct h1. }
    destruct (rpm_package p) as [a'| |] eqn:Ha; [|done..]. simpl in He.
    destruct h1 as [|? [|]]; [|discriminate He..]. injection He as -> _. split_and!; [done..|].
    intros q a' Hq Hqp Hqa Heq. apply Hn. rewrite <-Heq. apply list_elem_of_fmap_2.
    apply (Hb q [a']); [done| |by left]. unfold rpm_entries. by rewrite Hqp, Hqa.
  - intros p Hp Hpre. destruct (proj1 (collect_ok rpm_entries (arch_purls vex))) with p as [h Hh]; [eauto|done|].
    pose proof Hh as Hh'. unfold rpm_entries in Hh'. rewrite Hpre in Hh'.
    destruct (rpm_package p) as [a| |] eqn:Ha; [|done..]. exists a. split; [done|].
    apply first_of_each_name_names, list_elem_of_fmap_2.
    eapply collect_complete; [exact Hc|exact Hp|exact Hh|]. injection Hh' as <-. left.
Qed.

(** The affected images of an advisory: no name twice; every entry comes from the URL of
    an image at architecture level; and both names of every such image are there, the
    one in the URL and the one with the old registry. *)
Theorem getAffectedListContainers_spec vex l :
  getAffectedListContainers vex = Ok l →
  NoDup (aff_name <$> l) ∧
  (∀ a, a ∈ l → ∃ purl a1 a2, purl ∈ arch_purls vex ∧ HasPrefix purl "pkg:oci" = true ∧
     container_packages purl = Ok (a1, a2) ∧ (a = a1 ∨ a = a2)) ∧
  (∀ purl, purl ∈ arch_purls vex → HasPrefix purl "pkg:oci" = true →
     ∃ a1 a2, container_packages purl = Ok (a1, a2) ∧
       aff_name a1 ∈ aff_name <$> l ∧ aff_name a2 ∈ aff_name <$> l ∧
       aff_name a2 = old_registry (aff_name a1)).
Proof.
  rewrite getAffectedListContainers_collect. destruct (collect _ _) as [all| |] eqn:Hc; [|done..].
  intros [= <-]. destruct (first_of_each_name_spec all) as [H1 H2]. split_and!; [done| |].
  - intros a (l1 & l2 & Hall & Hn)%H2.
    destruct (collect_sound _ _ _ _ _ _ Hc Hall) as (be & p & af & h1 & h2 & Hp & He & _).
    exists p. unfold container_entries in He. destruct (HasPrefix p "pkg:oci") eqn:Hpre.
    2: { by destruct h1. }
    destruct (container_packages p) as [[a1 a2]| |] eqn:Ha; [|done..]. simpl in He. exists a1, a2.
    rewrite Hp, elem_of_app, elem_of_cons. split_and!; [auto|done|done|].
    injection He as He. assert (a ∈ [a1; a2]) as Hin by (rewrite He, elem_of_app; right; left).
    rewrite !elem_of_cons, elem_of_nil in Hin. tauto.
  - intros p Hp Hpre. destruct (proj1 (collect_ok container_entries (arch_purls vex))) with p as [h Hh]; [eauto|done|].
    pose proof Hh as Hh'. unfold container_entries in Hh'. rewrite Hpre in Hh'.
    destruct (container_packages p) as [[a1 a2]| |] eqn:Ha; [|done..]. exists a1, a2. injection Hh' as <-.
    pose proof (λ a, collect_complete _ _ _ _ _ a Hc Hp Hh) as Hin.
    split_and!; [done|apply first_of_each_name_names, list_elem_of_fmap_2, Hin..|].
    + left.
    + right. left.
    + unfold container_packages in Ha. repeat case_match; try done. by injection Ha as <- <-.
Qed.

(** A walk does not fail with an error: it succeeds or panics. *)
Lemma collect_no_error entries purls e :
  (∀ purl e, entries purl ≠ Err e) → collect entries purls ≠ Err e.
Proof.
  intros He. induction purls as [|p purls IH]; [done|]. cbn [collect].
  specialize (He p). destruct (entries p) as [here|e'|]; simpl; [|naive_solver..].
  by destruct (collect entries purls).
Qed.

Lemma rpm_entries_no_error purl e : rpm_entries purl ≠ Err e.
Proof. unfold rpm_entries, rpm_package. by repeat case_match. Qed.

Lemma container_entries_no_error purl e : container_entries purl ≠ Err e.
Proof. unfold container_entries, container_packages. by repeat case_match. Qed.

Lemma getAffectedListRPMs_no_error vex e : getAffectedListRPMs vex ≠ Err e.
Proof.
  rewrite getAffectedListRPMs_collect. destruct (collect _ _) eqn:Hc; try done.
  by apply collect_no_error in Hc; [|apply rpm_entries_no_error].
Qed.

Lemma getAffectedListContainers_no_error vex e : getAffectedListContainers vex ≠ Err e.
Proof.
  rewrite getAffectedListContainers_collect. destruct (collect _ _) eqn:Hc; try done.
  by apply collect_no_error in Hc; [|apply container_entries_no_error].
Qed.
