(* ===== verification/OsvPurl.v ===== *)
(** * Package URLs

    What the two patterns of the generator find in a package URL, and what happens
    when they find nothing. *)

From S2P Require Import Prelude GoStrings GoRegexp OsvVex Osv OsvAffected.
From Stdlib Require Import Ascii.

(** ** Matching the parts of a pattern

    [leads l m]: [m] is the preferred one of the matches [l]. *)

Definition leads (l : list mstate) (m : mstate) : Prop := ∃ ms, l = m :: ms.

Lemma leads_seq r1 r2 s m1 m2 :
  leads (matches r1 s) m1 → leads (matches r2 m1) m2 → leads (matches (Seq r1 r2) s) m2.
Proof.
  intros [ms1 H1] [ms2 H2]. simpl. rewrite H1, bind_cons, H2. by eexists.
Qed.

Lemma leads_eps s : leads (matches Eps s) s.
Proof. by exists []. Qed.

Lemma leads_opt r s m : leads (matches r s) m → leads (matches (Opt r) s) m.
Proof. intros [ms H]. simpl. rewrite H. by eexists. Qed.

Lemma leads_opt_none r s : matches r s = [] → leads (matches (Opt r) s) s.
Proof. intros H. simpl. rewrite H. by eexists. Qed.

Lemma leads_lit w pos rest caps :
  leads (matches (Lit w) (MState pos (explode w ++ rest) caps))
    (MState (pos + String.length w) rest caps).
Proof. rewrite matches_Lit. by eexists. Qed.

Lemma matches_Lit_none w s :
  (∀ rest, ms_rest s ≠ explode w ++ rest) → matches (Lit w) s = [].
Proof.
  intros H. destruct (matches (Lit w) s) as [|m ms] eqn:E; [done|]. exfalso.
  apply (H (ms_rest m)). apply (elem_of_matches_Lit w s m). rewrite E. left.
Qed.

Lemma leads_grp n r pos w rest caps pos' caps' :
  leads (matches r (MState pos (w ++ rest) caps)) (MState pos' rest caps') →
  leads (matches (Grp n r) (MState pos (w ++ rest) caps)) (MState pos' rest (caps' ++ [(n, w)])).
Proof.
  intros [ms H]. simpl. rewrite H, fmap_cons. unfold capture. simpl. eexists. do 4 f_equal.
  rewrite length_app, Nat.add_sub. by rewrite take_app_length.
Qed.

(** The longest run of a class. *)
Lemma leads_plus p pos w rest caps :
  w ≠ [] → Forall (λ c, p c = true) w → (∀ c rest', rest = c :: rest' → p c = false) →
  leads (matches (Plus p) (MState pos (w ++ rest) caps)) (MState (pos + length w) rest caps).
Proof.
  intros Hw HF Hrest. destruct w as [|c w]; [done|]. cbn [matches ms_pos ms_rest ms_caps app].
  assert (strip_start p ((c :: w) ++ rest) = rest ∧ span_len p ((c :: w) ++ rest) = length (c :: w))
    as [H1 H2].
  { clear Hw. induction HF as [|d l Hd HF [IH1 IH2]].
    - destruct rest as [|e rest]; [done|]. simpl. by rewrite (Hrest e rest eq_refl).
    - simpl. rewrite Hd, IH1, IH2. done. }
  apply Forall_cons in HF as [Hc _]. destruct (run_class_head p pos c (w ++ rest) caps Hc) as [ms Hms].
  cbn [app] in H1, H2. rewrite Hms, H1, H2. by exists ms.
Qed.

(** A search succeeds at the start of the text. *)
Lemma find_leads k r s w rest pos caps :
  explode s = w ++ rest → leads (matches r (MState 0 (w ++ rest) [])) (MState pos rest caps) →
  FindStringSubmatch k r s = implode w :: ((λ n, group n (MState pos rest caps)) <$> seq 1 k).
Proof.
  intros Hs [ms H]. unfold FindStringSubmatch. rewrite Hs, (find_from_hit _ _ _ _ _ H).
  simpl. f_equal. by rewrite length_app, Nat.add_sub, take_app_length.
Qed.

(** ** RPM packages *)

Lemma not_byte_all c s : ¬ byte_in c s → Forall (λ d, not_byte c d = true) (explode s).
Proof.
  intros H. apply Forall_forall. intros d Hd. unfold not_byte. apply bool_decide_eq_true.
  by intros ->.
Qed.

Lemma leads_group n c w pos rest caps :
  w ≠ "" → ¬ byte_in c w → rest = [] ∨ (∃ rest', rest = c :: rest') →
  leads (matches (Grp n (Plus (not_byte c))) (MState pos (explode w ++ rest) caps))
    (MState (pos + length (explode w)) rest (caps ++ [(n, explode w)])).
Proof.
  intros Hw Hc Hrest. apply leads_grp, leads_plus.
  - by destruct w.
  - by apply not_byte_all.
  - intros d rest' ->. destruct Hrest as [[=]|[r [= -> ->]]]. unfold not_byte.
    by rewrite bool_decide_eq_false_2 by naive_solver.
Qed.

(** An optional literal that is there, or of which nothing else is a prefix. *)
Lemma leads_opt_lit lit w pos rest caps :
  w = lit ∨ w = "" ∧ (∀ rest', rest ≠ explode lit ++ rest') →
  leads (matches (Opt (Lit lit)) (MState pos (explode w ++ rest) caps))
    (MState (pos + String.length w) rest caps).
Proof.
  intros [->|[-> H]].
  - apply leads_opt, leads_lit.
  - simpl String.length. rewrite Nat.add_0_r. apply leads_opt_none, matches_Lit_none. exact H.
Qed.

Lemma at_not_in_redhat c : c = "@"%char → ¬ byte_in c "redhat/".
Proof. intros ->. by apply (bool_decide_unpack (¬ byte_in "@"%char "redhat/")). Qed.

(** The parts of a package URL: [pkg:rpm] or [pkg:rpmmod], an optional namespace
    [redhat], the name up to the first at-sign, the version up to the first question
    mark. *)
Lemma rpm_package_parts md ns name version qualifiers :
  md = "" ∨ md = "mod" →
  ns = "redhat/" ∨ ns = "" ∧ HasPrefix name "redhat/" = false →
  name ≠ "" → ¬ byte_in "@"%char name → version ≠ "" → ¬ byte_in "?"%char version →
  qualifiers = "" ∨ HasPrefix qualifiers "?" = true →
  let purl := "pkg:rpm" +:+ md +:+ "/" +:+ ns +:+ name in
  rpm_package (purl +:+ "@" +:+ version +:+ qualifiers) =
  Ok (MkAffected (MkPackage "RPM" name purl)
        [MkRange "ECOSYSTEM" [MkEvent "0.0.0" ""; MkEvent "" version]]).
Proof.
  intros Hmd Hns Hname Hat Hver Hq Hqual purl.
  set (q := explode qualifiers). set (rest := explode "@" ++ explode version ++ q).
  assert (explode purl = explode "pkg:rpm" ++ explode md ++ explode "/" ++ explode ns ++ explode name)
    as Hpurl by (unfold purl; by rewrite !explode_app).
  assert (∃ pos, leads (matches (Cat [Lit "pkg:rpm"; Opt (Lit "mod"); Lit "/"; Opt (Lit "redhat/");
                   Grp 2 (Plus (not_byte "@"%char))]) (MState 0 (explode purl ++ rest) []))
                 (MState pos rest [(2, explode name)])) as [pos1 H1].
  { rewrite Hpurl, <-!app_assoc. eexists.
    eapply leads_seq; [apply leads_lit|]. eapply leads_seq.
    { apply leads_opt_lit. destruct Hmd as [->|]; [right|by left]. split; [done|]. by intros r [=]. }
    eapply leads_seq; [apply leads_lit|]. eapply leads_seq.
    { apply leads_opt_lit. destruct Hns as [|[-> Hp]]; [by left|right]. split; [done|].
      intros r Hr. apply not_true_iff_false in Hp. apply Hp, HasPrefix_spec.
      apply app_eq_app in Hr as (k & [[Hk _]|[Hk Hr]]).
      - exists (implode k). apply explode_inj. by rewrite explode_app, explode_implode.
      - destruct k as [|d k].
        + exists "". apply explode_inj. by rewrite explode_app, app_nil_r, Hk, app_nil_r.
        + injection Hr as <- _. exfalso. apply (at_not_in_redhat "@"%char eq_refl).
          unfold byte_in. rewrite Hk, elem_of_app. right. left. }
    eapply leads_seq; [|apply leads_eps].
    apply (leads_group 2 "@"%char name _ rest []); [done..|]. right. by eexists. }
  assert (∃ pos, leads (matches re_rpm (MState 0 (explode purl ++ rest) []))
            (MState pos q [(2, explode name); (1, explode purl); (3, explode version)])) as [pos HL].
  { eexists. eapply leads_seq; [apply leads_grp, H1|]. eapply leads_seq; [apply leads_lit|].
    eapply leads_seq; [|apply leads_eps].
    apply (leads_group 3 "?"%char version _ q); [done..|].
    destruct Hqual as [->|[t ->]%HasPrefix_spec]; [by left|right; by eexists]. }
  unfold rpm_package.
  rewrite (find_leads 3 re_rpm _ (explode purl ++ explode "@" ++ explode version) q pos
    [(2, explode name); (1, explode purl); (3, explode version)]).
  - simpl. unfold group. simpl. by rewrite !implode_explode.
  - unfold q. by rewrite !explode_app, <-!app_assoc.
  - by rewrite <-!app_assoc.
Qed.

(** ** No match *)

(** A match ends at what is left of the text. *)
Lemma matches_suffix r s m : m ∈ matches r s → ∃ w, ms_rest s = w ++ ms_rest m.
Proof.
  revert s m. induction r as [|p|p|p|r IH|r1 IH1 r2 IH2|n r IH| |]; intros s m; cbn [matches].
  - intros ->%list_elem_of_singleton. by exists [].
  - destruct (ms_rest s) as [|c rest] eqn:Hs; [by intros ?%elem_of_nil|].
    destruct (p c); [|by intros ?%elem_of_nil]. intros ->%list_elem_of_singleton. by exists [c].
  - intros (w & _ & _ & -> & _)%elem_of_run_class. by exists w.
  - intros [(w & _ & _ & -> & _)%elem_of_run_class| ->%list_elem_of_singleton]%elem_of_app;
      [by exists w|by exists []].
  - intros [H| ->%list_elem_of_singleton]%elem_of_app; [by apply IH|by exists []].
  - intros (m1 & H2 & H1)%list_elem_of_bind. apply IH1 in H1 as [w1 ->]. apply IH2 in H2 as [w2 ->].
    exists (w1 ++ w2). by rewrite app_assoc.
  - intros (m1 & -> & H)%list_elem_of_fmap. by apply IH in H.
  - case_decide; [|by intros ?%elem_of_nil]. intros ->%list_elem_of_singleton. by exists [].
  - destruct (ms_rest s) eqn:Hs; [|by intros ?%elem_of_nil].
    intros ->%list_elem_of_singleton. exists []. by rewrite Hs.
Qed.

Lemma elem_of_matches_Seq r1 r2 s m :
  m ∈ matches (Seq r1 r2) s ↔ ∃ m1, m1 ∈ matches r1 s ∧ m ∈ matches r2 m1.
Proof. cbn [matches]. rewrite list_elem_of_bind. naive_solver. Qed.

Lemma find_none k r s :
  (∀ st m, (∃ pre, explode s = pre ++ ms_rest st) → m ∈ matches r st → False) →
  FindStringSubmatch k r s = [].
Proof.
  intros H. unfold FindStringSubmatch.
  destruct (find_from r 0 (explode s)) as [[[pos start] m]|] eqn:Hf; [|done]. exfalso.
  apply find_from_sound in Hf as [[pre [Hs _]] Hm]. eapply H; [|exact Hm]. by exists pre.
Qed.

(** A package URL without an at-sign, for instance one without a version, is not
    matched: [matches[1]] panics. *)
Lemma rpm_package_panics_aux purl : ¬ byte_in "@"%char purl → rpm_package purl = index_panic.
Proof.
  intros Hat. unfold rpm_package. rewrite find_none; [done|].
  intros st m [pre Hpre] Hm. apply Hat. unfold byte_in. rewrite Hpre, elem_of_app. right.
  unfold re_rpm in Hm. change (Cat [?a; ?b; ?c]) with (Seq a (Seq b (Seq c Eps))) in Hm.
  apply elem_of_matches_Seq in Hm as (m1 & H1%matches_suffix & Hm).
  apply elem_of_matches_Seq in Hm as (m2 & H2 & _).
  destruct H1 as [w ->]. apply elem_of_matches_Lit in H2 as [-> _].
  rewrite !elem_of_app. right. left. left.
Qed.

Theorem rpm_package_panics purl : ¬ byte_in "@"%char purl → rpm_package purl = index_panic.
Proof. apply rpm_package_panics_aux. Qed.

(** ** Container images *)

(** The pattern ends in [&repository_url=] and a value, the last such one. *)
Lemma no_later_ampersand url rest w :
  ¬ byte_in "&"%char url → (∀ a b, rest ≠ a ++ explode "&repository_url=" ++ b) →
  ∀ c k, explode "repository_url=" ++ explode url ++ rest = w ++ explode "&repository_url=" ++ c :: k → False.
Proof.
  intros Hurl Hrest c k H. rewrite app_assoc in H.
  apply app_eq_app in H as (z & [[Hz Hk]|[Hz Hk]]).
  - destruct z as [|d z].
    + rewrite app_nil_r in Hz. by apply (Hrest [] (c :: k)).
    + injection Hk as <- Hk. assert ("&"%char ∈ explode "repository_url=" ++ explode url) as Hin.
      { rewrite Hz, elem_of_app. right. left. }
      apply elem_of_app in Hin as [Hin|Hin]; [|done].
      by apply (bool_decide_unpack (¬ byte_in "&"%char "repository_url=")) in Hin.
  - by apply (Hrest z (c :: k)).
Qed.

(** A greedy [*] followed by something that matches after [w] and nowhere later. *)
Lemma leads_many p r w rest pos caps m :
  Forall (λ c, p c = true) (w ++ rest) →
  (∀ w' rest' pos', w' ≠ [] → rest = w' ++ rest' → matches r (MState pos' rest' caps) = []) →
  leads (matches r (MState (pos + length w) rest caps)) m →
  leads (matches (Seq (Many p) r) (MState pos (w ++ rest) caps)) m.
Proof.
  intros HF Hnone [ms Hm].
  change (matches (Seq (Many p) r) ?s) with (matches (Many p) s ≫= matches r).
  revert Hnone Hm. generalize (matches r). intros K Hnone Hm. cbn [matches ms_pos ms_rest ms_caps]. rewrite run_class_eq.
  assert (span_len p (w ++ rest) = length w + length rest) as ->.
  { rewrite <-length_app. induction HF as [|c l Hc _ IH]; [done|]. simpl. by rewrite Hc, IH. }
  set (st := λ k, MState (pos + k) (drop k (w ++ rest)) caps).
  assert (MState pos (w ++ rest) caps = st 0) as -> by (unfold st; by rewrite Nat.add_0_r).
  change [st 0] with (st <$> [0]). rewrite <-fmap_app.
  assert (reverse (seq 1 (length w + length rest)) ++ [0] =
          reverse (seq (S (length w)) (length rest)) ++ length w :: reverse (seq 0 (length w))) as ->.
  { rewrite <-reverse_cons. change (0 :: seq 1 (length w + length rest)) with (seq 0 (S (length w + length rest))).
    replace (S (length w + length rest)) with (length w + S (length rest)) by lia.
    rewrite seq_app, reverse_app. simpl. by rewrite reverse_cons, <-app_assoc. }
  rewrite fmap_app, bind_app, fmap_cons, bind_cons.
  assert (st (length w) = MState (pos + length w) rest caps) as ->
    by (unfold st; by rewrite drop_app_length).
  assert ((st <$> reverse (seq (S (length w)) (length rest))) ≫= K = []) as ->.
  {
    assert (∀ k, k ∈ reverse (seq (S (length w)) (length rest)) → K (st k) = []) as Hk.
    { intros k. rewrite elem_of_reverse, elem_of_seq. intros Hk.
      apply (Hnone (take (k - length w) rest)).
      - intros E. apply (f_equal length) in E. rewrite length_take in E. simpl in E. lia.
      - rewrite drop_app_ge by lia. by rewrite take_drop. }
    induction (reverse _) as [|k l IH]; [done|]. rewrite fmap_cons, bind_cons, Hk by left.
    apply IH. intros k' H'. apply Hk. by right. }
  rewrite Hm. by eexists.
Qed.

(** The repository of an image: the value of the last [repository_url] qualifier that
    is not the first qualifier. *)
Lemma container_packages_parts path url rest :
  let purl := "pkg:oci/" +:+ path +:+ "&repository_url=" +:+ url +:+ rest in
  ¬ byte_in "010"%char purl → url ≠ "" → ¬ byte_in "&"%char url →
  rest = "" ∨ HasPrefix rest "&" = true → Contains rest "&repository_url=" = false →
  container_packages purl =
  Ok (MkAffected (MkPackage "Docker" url purl) [],
      MkAffected (MkPackage "Docker" (old_registry url) (old_registry purl)) []).
Proof.
  intros purl Hnl Hurl Hamp Hrest Hlast.
  set (tail := explode "&repository_url=" ++ explode url ++ explode rest).
  set (r := Seq (Lit "&repository_url=") (Seq (Grp 1 (Plus (not_byte "&"%char))) Eps)).
  assert (explode purl = explode "pkg:oci/" ++ explode path ++ tail) as Hpurl
    by (unfold purl, tail; by rewrite !explode_app).
  assert (∀ a b, explode rest ≠ a ++ explode "&repository_url=" ++ b) as Hlater.
  { intros a b Hab. apply not_true_iff_false in Hlast. apply Hlast, Contains_spec.
    exists (implode a), (implode b). apply explode_inj. by rewrite !explode_app, !explode_implode. }
  assert (∀ pos, ∃ pos', leads (matches r (MState pos tail [])) (MState pos' (explode rest) [(1, explode url)])) as HK.
  { intros pos. eexists. unfold r, tail. eapply leads_seq; [apply leads_lit|].
    eapply leads_seq; [|apply leads_eps]. apply (leads_group 1 "&"%char url _ _ []); [done..|].
    destruct Hrest as [->|[t ->]%HasPrefix_spec]; [by left|right; by eexists]. }
  assert (∃ pos, leads (matches re_oci (MState 0 (explode purl) []))
            (MState pos (explode rest) [(1, explode url)])) as [pos HL].
  { rewrite Hpurl. destruct (HK (8 + length (explode path))) as [pos' HK']. exists pos'.
    change re_oci with (Seq (Lit "pkg:oci/") (Seq (Many Dot) r)).
    eapply leads_seq; [apply (leads_lit "pkg:oci/")|].
    apply leads_many; [| |exact HK'].
    - apply Forall_forall. intros c Hc. unfold Dot. apply negb_true_iff, bool_decide_eq_false.
      intros ->. apply Hnl. unfold byte_in. rewrite Hpurl, elem_of_app. by right.
    - intros w' rest' p Hw Heq. destruct (matches r (MState p rest' [])) as [|m ms] eqn:E; [done|]. exfalso.
      assert (m ∈ matches r (MState p rest' [])) as Hm by (rewrite E; left).
      apply elem_of_matches_Seq in Hm as (m1 & [H1 _]%elem_of_matches_Lit & Hm).
      cbn [ms_rest] in H1.
      apply elem_of_matches_Seq in Hm as (m2 & H2 & _). cbn [matches] in H2.
      apply list_elem_of_fmap in H2 as (m3 & _ & H3). apply elem_of_run_class in H3 as (x & Hx & _ & Hr & _).
      destruct x as [|c x]; [done|]. destruct w' as [|d w']; [done|].
      change tail with ("&"%char :: explode "repository_url=" ++ explode url ++ explode rest) in Heq.
      injection Heq as _ Heq. rewrite H1, Hr in Heq. revert Heq.
      apply (no_later_ampersand url (explode rest) w' Hamp Hlater c (x ++ ms_rest m3)). }
  unfold container_packages.
  rewrite (find_leads 1 re_oci _ (explode "pkg:oci/" ++ explode path ++ explode "&repository_url=" ++ explode url)
    (explode rest) pos [(1, explode url)]).
  - simpl. unfold group. simpl. by rewrite !implode_explode.
  - rewrite Hpurl. unfold tail. by rewrite <-!app_assoc.
  - unfold tail in Hpurl. rewrite <-!app_assoc, <-Hpurl. exact HL.
Qed.

(** An image whose URL has no [repository_url] qualifier, or has it as its first one, is
    not matched either. *)
Theorem container_packages_panics purl :
  Contains purl "&repository_url=" = false → container_packages purl = index_panic.
Proof.
  intros Hc. unfold container_packages. rewrite find_none; [done|].
  intros st m [pre Hpre] Hm. apply not_true_iff_false in Hc. apply Hc, Contains_spec.
  unfold re_oci in Hm. change (Cat [?a; ?b; ?c; ?d]) with (Seq a (Seq b (Seq c (Seq d Eps)))) in Hm.
  apply elem_of_matches_Seq in Hm as (m1 & [w1 H1]%matches_suffix & Hm).
  apply elem_of_matches_Seq in Hm as (m2 & [w2 H2]%matches_suffix & Hm).
  apply elem_of_matches_Seq in Hm as (m3 & [H3 _]%elem_of_matches_Lit & _).
  exists (implode (pre ++ w1 ++ w2)), (implode (ms_rest m3)). apply explode_inj.
  rewrite !explode_app, !explode_implode, Hpre, H1, H2, H3. by rewrite <-!app_assoc.
Qed.

Lemma rpm_package_parts_witness :
  rpm_package "pkg:rpm/redhat/openstack@2.0.0?arch=src" =
  Ok (MkAffected (MkPackage "RPM" "openstack" "pkg:rpm/redhat/openstack")
        [MkRange "ECOSYSTEM" [MkEvent "0.0.0" ""; MkEvent "" "2.0.0"]]).
Proof.
  assert (∀ c s, bool_decide (byte_in c s) = false → ¬ byte_in c s) as Hb
    by (intros c s H; by apply bool_decide_eq_false in H).
  apply (rpm_package_parts "" "redhat/" "openstack" "2.0.0" "?arch=src");
    [by left|by left|done|by apply Hb|done|by apply Hb|by right].
Defined.

Lemma container_packages_parts_witness :
  container_packages "pkg:oci/x@sha256:ab?arch=amd64&repository_url=registry.redhat.io/a/b&tag=v1" =
  Ok (MkAffected (MkPackage "Docker" "registry.redhat.io/a/b"
         "pkg:oci/x@sha256:ab?arch=amd64&repository_url=registry.redhat.io/a/b&tag=v1") [],
      MkAffected (MkPackage "Docker" "registry.access.redhat.com/a/b"
         "pkg:oci/x@sha256:ab?arch=amd64&repository_url=registry.access.redhat.com/a/b&tag=v1") []).
Proof.
  assert (∀ c s, bool_decide (byte_in c s) = false → ¬ byte_in c s) as Hb
    by (intros c s H; by apply bool_decide_eq_false in H).
  apply (container_packages_parts "x@sha256:ab?arch=amd64" "registry.redhat.io/a/b" "&tag=v1");
    [by apply Hb|done|by apply Hb|by right|done].
Defined.

Lemma rpm_package_panics_witness : rpm_package "pkg:rpm/redhat/openstack" = index_panic.
Proof. apply rpm_package_panics. by apply (bool_decide_eq_false_1 (byte_in "@"%char _)). Defined.

Lemma container_packages_panics_witness :
  container_packages "pkg:oci/x@sha256:ab?repository_url=registry.redhat.io/a/b" = index_panic.
Proof. apply container_packages_panics. reflexivity. Defined.
