(* ===== verification/OsvGenerator.v ===== *)
(** * The OSV database generator

    [tools/osv-generator/generator.go], the downloads and the storing of
    [cve_parser.go], and [cmd/osv-generator/main.go]. *)

From S2P Require Import Prelude GoStrings GoStrconv GoFlag GoTime GoCsv GoPath GoJson Json.
From S2P Require Import ToolWorld OsvDownload OsvVex Osv.
From Stdlib Require Import Ascii.

(** ** Downloads *)

Definition second : Z := 10^9.

(** [fmt.Errorf("all retries failed: %w", lastErr)]; the last error is nil when the last
    attempt got a response that was not 200. *)
Definition all_retries_failed (lastErr : option error) : error :=
  match lastErr with
  | Some e => wrap "all retries failed: " e
  | None => Errorf "all retries failed: %!w(<nil>)"
  end.

(** The loop of [retryGet], [n] attempts left. *)
Fixpoint retry_loop (url : string) (n : nat) (backoff : Z) (lastErr : option error) : Prog string :=
  match n with
  | 0 => p_fail (all_retries_failed lastErr)
  | S n =>
      let retry err :=
        do _ := ask (Sleep backoff) in
        retry_loop url n (wrap64 (backoff * 2)) err in
      do r := ask (HttpGet url) in
      match r with
      | inr resp =>
          if decide (StatusCode resp = 200%Z) then
            match st_err (resp_Body resp) with
            | Some readErr => p_fail (wrap "could not read response body: " readErr)
            | None => p_ret (st_data (resp_Body resp))
            end
          else retry None
      | inl err => retry (Some err)
      end
  end.

(** [retryGet(url, maxRetries, backoff)]. *)
Definition retryGet (url : string) (maxRetries backoff : Z) : Prog string :=
  retry_loop url (Z.to_nat maxRetries) backoff None.

Section Generator.

(** [GetVEXFromUrl(url)]. *)
Definition GetVEXFromUrl (url : string) : Prog VEX :=
  do body := retryGet url 5 second in
  match Unmarshal_VEX body with
  | inl err => p_fail (errorf_v "could not unmarshal JSON: " err)
  | inr vexData => p_ret vexData
  end.

Definition URL : string := "https://security.access.redhat.com/data/csaf/v2/advisories".

(** The loop of [getAdvisoryListByReleases] over the records. *)
Fixpoint recent (dateThreshold : Time) (records : list (list string)) (advisories : list string)
    : result (list string) :=
  match records with
  | [] => Ok advisories
  | record :: records' =>
      match record with
      | name :: date :: _ =>
          match Parse_RFC3339 date with
          | Ok advisoryDate =>
              let advisories := advisories ++ [name] in
              if Before advisoryDate dateThreshold then Ok advisories
              else recent dateThreshold records' advisories
          | Err e => Err e
          | Panic p => Panic p
          end
      | _ => index_panic
      end
  end.

(** [time.Now()] as a time; [time.Now().AddDate(0, 0, -days)]. *)
Definition time_of (now : Clock) : Time :=
  unix_time (ck_nanos now / second) (ck_nanos now mod second).

(** [getAdvisoryListByReleases(days)]; the status of the response is not looked at. *)
Definition getAdvisoryListByReleases (days : Z) : Prog (list string) :=
  do response := p_lift (ask (HttpGet (URL +:+ "/" +:+ "releases.csv"))) in
  do records := Ret (ReadAll (resp_Body response)) in
  do now := ask Now in
  Ret (recent (AddDays (time_of now) (wrap64 (- days))) records []).

(** The loop of [getAdvisoryListByModified] over the sorted names. *)
Fixpoint take_rhsa (limit : Z) (names : list string) (advisories : list string) : list string :=
  match names with
  | [] => advisories
  | name :: names' =>
      if Contains name "rhsa-" then
        let advisories := advisories ++ [name] in
        if decide (Z.of_nat (length advisories) = limit) then advisories
        else take_rhsa limit names' advisories
      else take_rhsa limit names' advisories
  end.

(** The order of [sort.Slice]: descending by the first field.  Records with the same
    first field may come in any order, which does not show: only that field is used. *)
Definition name_ge (a b : string) : Prop := String.leb b a = true.

#[export] Instance name_ge_dec a b : Decision (name_ge a b).
Proof. unfold name_ge. apply _. Defined.

Definition first_field (record : list string) : string := default "" (head record).

(** [getAdvisoryListByModified(limit)]. *)
Definition getAdvisoryListByModified (limit : Z) : Prog (list string) :=
  do response := p_lift (ask (HttpGet (URL +:+ "/" +:+ "changes.csv"))) in
  do records := Ret (ReadAll (resp_Body response)) in
  p_ret (take_rhsa limit (merge_sort name_ge (first_field <$> records)) []).

(** [extractAdvisory(advisory, containerVulns)]: an error panics. *)
Definition extractAdvisory (advisory : string) (containerVulns : bool) : Prog (list OSV) :=
  attempt vexVulnerability := GetVEXFromUrl (URL +:+ "/" +:+ advisory) in
  match vexVulnerability with
  | inl err => p_panic (error_msg err)
  | inr vexVulnerability => ConvertToOSV vexVulnerability containerVulns
  end.

(** ** Storing *)

(** [encoder.Encode(v)]: the value and a newline, in one write. *)
Definition encode_line (v : OSV) : string := implode (compact (osv_text v) ++ ["010"%char]).

(** [StoreToFile(filename, convertedVulnerabilities)]. *)
Definition StoreToFile (filename : string) (convertedVulnerabilities : list OSV) : Prog unit :=
  do _ := p_wrap (errorf_v "error accessing file: ") (p_lift (ask (OpenFile filename 420))) in
  p_defer
    (p_for convertedVulnerabilities (λ v,
       p_wrap (errorf_v "could not encode OSV data: ") (p_lift (ask (Write filename (encode_line v))))))
    (close_quietly filename).

(** A goroutine per advisory, and as many rounds of the loop that receives. *)
Definition extraction (advisories : list string) (containerVulns : bool) : Group (list OSV) :=
  MkGroup ((λ advisory, extractAdvisory advisory containerVulns) <$> advisories) [] (length advisories).

(** [GenerateOSV(filename, containerVulns, days)]; the results are concatenated in the
    order they arrive. *)
Definition GenerateOSV (filename : string) (containerVulns : bool) (days : Z) : Behaviour unit :=
  b_bind (b_prog (getAdvisoryListByReleases days)) (λ advisories,
  b_bind (group_runs (extraction advisories containerVulns)) (λ received,
  b_prog (StoreToFile filename (concat received)))).

(** ** The command line *)

Record Options := MkOptions {
  containerFilename : string;
  rpmFilename : string;
  destDir : string;
  days : Z
}.

Definition default_options : Options := MkOptions "docker.nedb" "rpm.nedb" "/tmp/osv-offline" 120.

Definition flags : list (Flag Options) :=
  [StringVar "container-filename" (λ v '(MkOptions _ r d n), MkOptions v r d n);
   StringVar "rpm-filename" (λ v '(MkOptions c _ d n), MkOptions c v d n);
   StringVar "destination-dir" (λ v '(MkOptions c r _ n), MkOptions c r v n);
   IntVar "days" (λ v '(MkOptions c r d _), MkOptions c r d v)].

(** ** The program *)

(** [os.Exit(1)] after an error, or the end of [main]. *)
Definition or_exit {A} (m : Behaviour A) (k : Behaviour Z) : Behaviour Z := λ tr r,
  (∃ a tr1 tr2, tr = tr1 ++ tr2 ∧ m tr1 (Ok a) ∧ k tr2 r) ∨
  (∃ e, m tr (Err e) ∧ r = Ok 1%Z) ∨ (∃ p, m tr (Panic p) ∧ r = Panic p).

(** What follows [flag.Parse] in [main] of cmd/osv-generator; the result is the exit
    code. *)
Definition run_main (o : Options) : Behaviour Z :=
  or_exit (b_prog (p_lift (ask (MkdirAll (destDir o)))))
  (or_exit (b_prog (DownloadOsvDb (destDir o)))
  (or_exit (GenerateOSV (Join2 (destDir o) (containerFilename o)) true (days o))
  (or_exit (GenerateOSV (Join2 (destDir o) (rpmFilename o)) false (days o))
  (b_prog (p_ret 0%Z))))).

(** [main] on the arguments of the program. *)
Definition main (args : list string) : Behaviour Z :=
  match Parse flags default_options args with
  | Parsed o _ => run_main o
  | c => b_prog (p_ret (default 0%Z (exit_code c)))
  end.
End Generator.
