(* ===== verification/OsvProofs.v ===== *)
(** * The OSV database generator, verified

    The retries of a download, the two lists of advisories, what a conversion
    computes, and what is in the file when the generator has succeeded. *)

From S2P Require Import Prelude GoStrings GoRegexp GoStrconv GoTime GoCsv GoJson Json.
From S2P Require Import ToolWorld OsvDownload OsvVex Osv OsvAffected OsvPurl OsvGenerator.
From Stdlib Require Import Ascii.

(** ** Retries *)

(** An attempt that failed: the request, answered with an error or a status that is not
    200, and the wait after it. *)
Definition failed_answer (a : error + Response) : Prop :=
  ∀ resp, a = inr resp → StatusCode resp ≠ 200%Z.

Fixpoint attempts (url : string) (backoff : Z) (fails : list (error + Response)) : list event :=
  match fails with
  | [] => []
  | a :: fails' =>
      ev (HttpGet url) a :: ev (Sleep backoff) tt :: attempts url (wrap64 (backoff * 2)) fails'
  end.

(** The error of the last failed attempt, if it was one. *)
Definition last_error (before : option error) (fails : list (error + Response)) : option error :=
  match last fails with Some (inl e) => Some e | Some (inr _) => None | None => before end.

Lemma last_error_cons before a fails :
  last_error before (a :: fails) =
  last_error (match a with inl e => Some e | inr _ => None end) fails.
Proof. unfold last_error. rewrite last_cons. destruct (last fails) as [[]|]; [done..|]. by destruct a. Qed.

Definition read_body (s : Stream) : result string :=
  match st_err s with
  | Some e => Err (wrap "could not read response body: " e)
  | None => Ok (st_data s)
  end.

Lemma retry_loop_runs url n backoff err tr r :
  Runs (retry_loop url n backoff err) tr r →
  ∃ fails, Forall failed_answer fails ∧
    (length fails = n ∧ tr = attempts url backoff fails ∧
       r = Err (all_retries_failed (last_error err fails)) ∨
     ∃ resp, length fails < n ∧ StatusCode resp = 200%Z ∧
       tr = attempts url backoff fails ++ [ev (HttpGet url) (inr resp)] ∧
       r = read_body (resp_Body resp)).
Proof.
  revert backoff err tr. induction n as [|n IH]; intros backoff err tr; cbn [retry_loop].
  { intros [-> ->]. exists []. split; [constructor|]. by left. }
  assert (∀ a, failed_answer a → ∀ tr',
    Runs (do _ := ask (Sleep backoff) in
          retry_loop url n (wrap64 (backoff * 2)) (match a with inl e => Some e | inr _ => None end)) tr' r →
    ∃ fails, Forall failed_answer fails ∧
      (length fails = S n ∧ ev (HttpGet url) a :: tr' = attempts url backoff fails ∧
         r = Err (all_retries_failed (last_error err fails)) ∨
       ∃ resp, length fails < S n ∧ StatusCode resp = 200%Z ∧
         ev (HttpGet url) a :: tr' = attempts url backoff fails ++ [ev (HttpGet url) (inr resp)] ∧
         r = read_body (resp_Body resp))) as Hretry.
  { intros a Ha tr' H. simpl in H. destruct H as ([] & tr2 & -> & H).
    apply IH in H as (fails & HF & H). exists (a :: fails). split; [by constructor|].
    destruct H as [(Hl & -> & ->)|(resp & Hl & Hs & -> & ->)].
    - left. simpl. rewrite last_error_cons. auto.
    - right. exists resp. simpl. split_and!; [lia|done..]. }
  intros (a & tr' & -> & H). destruct a as [e|resp]; cbn [p_then] in H.
  - by apply (Hretry (inl e)).
  - case_decide as Hs; [|by apply (Hretry (inr resp)); [intros ? [= <-]|]].
    exists []. split; [constructor|]. right. exists resp. simpl. unfold read_body.
    split_and!; [lia|done| |]; destruct (st_err (resp_Body resp)); by destruct H as [-> ->].
Qed.

Lemma retryGet_spec_aux url maxRetries backoff tr r :
  Runs (retryGet url maxRetries backoff) tr r →
  ∃ fails, Forall failed_answer fails ∧
    (length fails = Z.to_nat maxRetries ∧ tr = attempts url backoff fails ∧
       r = Err (all_retries_failed (last_error None fails)) ∨
     ∃ resp, length fails < Z.to_nat maxRetries ∧ StatusCode resp = 200%Z ∧
       tr = attempts url backoff fails ++ [ev (HttpGet url) (inr resp)] ∧
       r = read_body (resp_Body resp)).
Proof. apply retry_loop_runs. Qed.

(** C20.  A download makes at most [maxRetries] requests, waits after every failed one, the
    last included, twice as long each time, and ends with the first response of status
    200 or, when there is none, with the error of the last attempt (nil when that one
    had a response). *)
Theorem retryGet_spec url maxRetries backoff tr r :
  Runs (retryGet url maxRetries backoff) tr r →
  ∃ fails, Forall failed_answer fails ∧
    (length fails = Z.to_nat maxRetries ∧ tr = attempts url backoff fails ∧
       r = Err (all_retries_failed (last_error None fails)) ∨
     ∃ resp, length fails < Z.to_nat maxRetries ∧ StatusCode resp = 200%Z ∧
       tr = attempts url backoff fails ++ [ev (HttpGet url) (inr resp)] ∧
       r = read_body (resp_Body resp)).
Proof. apply retryGet_spec_aux. Qed.

(** The waits of a trace, and the number of its requests to a server. *)
Definition sleeps (tr : list event) : list Z :=
  tr ≫= λ e : event, match projT1 e with Sleep d => [d] | _ => [] end.

Definition gets (tr : list event) : nat :=
  length (tr ≫= λ e : event, match projT1 e with HttpGet _ => [tt] | _ => [] end).

Lemma sleeps_attempts url fails :
  length fails ≤ 5 →
  sleeps (attempts url second fails) =
  take (length fails) [second; 2 * second; 4 * second; 8 * second; 16 * second]%Z.
Proof.
  intros H. do 6 (destruct fails as [|? fails]; [vm_compute; reflexivity|]). simpl in H. lia.
Qed.

Lemma gets_attempts url backoff fails : gets (attempts url backoff fails) = length fails.
Proof.
  revert backoff. induction fails as [|a fails IH]; intros backoff; [done|].
  change (gets (attempts url backoff (a :: fails))) with (S (gets (attempts url (wrap64 (backoff * 2)) fails))).
  by rewrite IH.
Qed.

(** Fetching an advisory makes at most five requests and waits 1, 2, 4, 8 and 16
    seconds after the failed ones. *)
Theorem GetVEXFromUrl_waits url tr r :
  Runs (GetVEXFromUrl url) tr r →
  gets tr ≤ 5 ∧
  ∃ k, k ≤ gets tr ∧ sleeps tr = take k [second; 2 * second; 4 * second; 8 * second; 16 * second]%Z.
Proof.
  intros HR. assert (∃ r0, Runs (retryGet url 5 second) tr r0) as [r0 H0].
  { unfold GetVEXFromUrl in HR. apply Runs_bind in HR as [(body & tr1 & tr2 & -> & H1 & H2)|[(e & H1 & _)|(p & H1 & _)]].
    - exists (Ok body). destruct (Unmarshal_VEX body); destruct H2 as [-> _]; by rewrite app_nil_r.
    - by eexists.
    - by eexists. }
  apply retryGet_spec_aux in H0 as (fails & _ & [(Hl & -> & _)|(resp & Hl & _ & -> & _)]).
  - change (Z.to_nat 5) with 5 in Hl. rewrite gets_attempts. split; [lia|]. exists (length fails).
    split; [lia|]. apply sleeps_attempts. lia.
  - change (Z.to_nat 5) with 5 in Hl. unfold gets, sleeps. rewrite !bind_app, length_app.
    fold (gets (attempts url second fails)). fold (sleeps (attempts url second fails)).
    rewrite gets_attempts. simpl. split; [lia|]. exists (length fails). split; [lia|].
    rewrite app_nil_r. apply sleeps_attempts. lia.
Qed.

(** ** The lists of advisories *)

(** A record of the releases with its date before the threshold, or not. *)
Definition dated (threshold : Time) (older : bool) (record : list string) : Prop :=
  ∃ name date more t, record = name :: date :: more ∧ Parse_RFC3339 date = Ok t ∧
    Before t threshold = older.

Lemma recent_spec threshold records before l :
  recent threshold records before = Ok l →
  ∃ newer stop rest, records = newer ++ stop ++ rest ∧
    l = before ++ (first_field <$> newer ++ stop) ∧ Forall (dated threshold false) newer ∧
    (stop = [] ∧ rest = [] ∨ ∃ record, stop = [record] ∧ dated threshold true record).
Proof.
  revert before. induction records as [|record records IH]; intros before; cbn [recent].
  { intros [= <-]. exists [], [], []. split_and!; [done|by rewrite app_nil_r|constructor|by left]. }
  destruct record as [|name [|date more]]; [done..|].
  destruct (Parse_RFC3339 date) as [t| |] eqn:Ht; [|done..]. cbn zeta.
  destruct (Before t threshold) eqn:Hold.
  - intros [= <-]. exists [], [name :: date :: more], records. split_and!; [done..|constructor|].
    right. eexists. split; [done|]. by exists name, date, more, t.
  - intros (newer & stop & rest & -> & -> & HF & Hs)%IH.
    exists ((name :: date :: more) :: newer), stop, rest. split_and!; [done| | |done].
    + by rewrite <-app_assoc.
    + constructor; [by exists name, date, more, t|done].
Qed.

(** The threshold: the current time less the given number of days. *)
Definition threshold (now : Clock) (days : Z) : Time := AddDays (time_of now) (wrap64 (- days)).

(** The advisories of a successful listing by release date: the names of the leading
    records that are not older than the threshold, and of the first one that is older,
    if any.  (That one was not released within the given number of days.) *)
Theorem getAdvisoryListByReleases_spec days tr advisories :
  Runs (getAdvisoryListByReleases days) tr (Ok advisories) →
  ∃ response now newer stop rest,
    tr = [ev (HttpGet (URL +:+ "/" +:+ "releases.csv")) (inr response); ev Now now] ∧
    ReadAll (resp_Body response) = Ok (newer ++ stop ++ rest) ∧
    advisories = first_field <$> newer ++ stop ∧
    Forall (dated (threshold now days) false) newer ∧
    (stop = [] ∧ rest = [] ∨ ∃ record, stop = [record] ∧ dated (threshold now days) true record).
Proof.
  unfold getAdvisoryListByReleases. rewrite Runs_bind_ok. intros (response & tr1 & tr2 & -> & H1 & H).
  ask_inv H1. rewrite Runs_bind_ok in H. destruct H as (records & tr3 & tr4 & -> & [-> Hr] & H).
  rewrite Runs_bind_ok in H. destruct H as (now & tr5 & tr6 & -> & H5 & [-> H]).
  apply Runs_ask_ok in H5 as ->. symmetry in H, Hr.
  apply recent_spec in H as (newer & stop & rest & -> & -> & HF & Hs).
  by exists response, now, newer, stop, rest.
Qed.

(** Listing by name: at most [limit] names, for a positive [limit]; all of them for any
    other one. *)
Lemma take_rhsa_spec limit names before :
  (Z.of_nat (length before) < limit ∨ limit ≤ 0)%Z →
  take_rhsa limit names before =
  before ++ (let found := filter (λ name, Contains name "rhsa-" = true) names in
             if decide (0 < limit)%Z then take (Z.to_nat limit - length before) found else found).
Proof.
  cbn zeta. revert before. induction names as [|name names IH]; intros before Hl; cbn [take_rhsa].
  { rewrite filter_nil. case_decide; rewrite ?take_nil; by rewrite app_nil_r. }
  destruct (Contains name "rhsa-") eqn:Hc.
  - rewrite filter_cons_True by done. rewrite length_app. simpl length.
    destruct (decide (Z.of_nat (length before + 1) = limit)) as [E|E].
    + rewrite decide_True by lia. replace (Z.to_nat limit - length before) with 1 by lia. done.
    + rewrite IH by (rewrite length_app; simpl; lia). rewrite <-app_assoc. f_equal. simpl.
      case_decide as Hp; [|done]. rewrite length_app. simpl.
      replace (Z.to_nat limit - length before) with (S (Z.to_nat limit - (length before + 1))) by lia.
      done.
  - rewrite filter_cons_False by (by rewrite Hc). by rewrite IH.
Qed.

#[export] Instance name_ge_total : Total name_ge.
Proof. intros a b. apply String.leb_total. Qed.

Definition rhsa (name : string) : Prop := Contains name "rhsa-" = true.

(** The advisories of a successful listing by name: the RHSA advisories among the names,
    in descending order, and of these the first [limit] ones when the limit is positive
    (all of them when it is zero or negative). *)
Theorem getAdvisoryListByModified_spec limit tr advisories :
  Runs (getAdvisoryListByModified limit) tr (Ok advisories) →
  ∃ response records sorted,
    tr = [ev (HttpGet (URL +:+ "/" +:+ "changes.csv")) (inr response)] ∧
    ReadAll (resp_Body response) = Ok records ∧
    sorted ≡ₚ first_field <$> records ∧ Sorted name_ge sorted ∧
    advisories = (let found := filter rhsa sorted in
                  if decide (0 < limit)%Z then take (Z.to_nat limit) found else found).
Proof.
  unfold getAdvisoryListByModified. rewrite Runs_bind_ok. intros (response & tr1 & tr2 & -> & H1 & H).
  ask_inv H1. rewrite Runs_bind_ok in H. destruct H as (records & tr3 & tr4 & -> & [-> Hr] & [-> H]).
  injection H as ->. symmetry in Hr.
  exists response, records, (merge_sort name_ge (first_field <$> records)).
  split_and!; [done..|apply merge_sort_Permutation|apply Sorted_merge_sort, _|].
  rewrite take_rhsa_spec by (simpl; lia). simpl. by rewrite Nat.sub_0_r.
Qed.
