(* ===== verification/OsvDatabase.v ===== *)
(** * The generated database

    An abstract specification of a conversion ([converted]) and the theorem that the
    code implements it; which documents it accepts; and what the file holds when the
    generator has succeeded, however the goroutines were interleaved. *)

From S2P Require Import Prelude GoStrings GoRegexp GoStrconv GoParse GoFlag GoTime GoCsv.
From S2P Require Import GoJson Json GoJsonRead GoJsonSyntax GoJsonRound GoPath ToolWorld OsvDownload.
From S2P Require Import OsvVex Osv OsvAffected OsvPurl OsvGenerator OsvProofs.
From Stdlib Require Import Ascii.

(** ** The specification of a conversion *)

(** The entry of one vulnerability. *)
Record entry_of (vex : VEX) (affected : list Affected) (v : Vulnerability) (o : OSV) : Prop := {
  eo_id : Id o = Cve v;
  eo_schema : SchemaVersion o = "1.6.0";
  eo_database : osv_DatabaseSpecific o = MkDatabaseSpecific (AggregateSeverity_Text vex) [Cwe_Id v];
  eo_summary : getSummary v = Some (Summary o);
  eo_details : find_note "description" (Notes v) = Some (Details o);
  eo_published : ∃ t, Parse_literal_zone (DiscoveryDate v) = Ok t ∧ Published o = Format t 0;
  eo_references : osv_References o = getReferencesList v;
  eo_affected : osv_Affected o = affected
}.

(** The entries of the vulnerabilities that have a summary, in order. *)
Inductive entries (vex : VEX) (affected : list Affected) :
    list (option Vulnerability) → list OSV → Prop :=
| entries_nil : entries vex affected [] []
| entries_skip v vs os :
    getSummary v = None → entries vex affected vs os → entries vex affected (Some v :: vs) os
| entries_one v vs o os :
    entry_of vex affected v o → entries vex affected vs os →
    entries vex affected (Some v :: vs) (o :: os).

Definition affected_list (vex : VEX) (containerVulns : bool) : result (list Affected) :=
  if containerVulns then getAffectedListContainers vex else getAffectedListRPMs vex.

(** Containers: a document that affects none gives nothing. *)
Definition irrelevant (containerVulns : bool) (affected : list Affected) : Prop :=
  containerVulns = true ∧ affected = [].

Definition converted (vex : VEX) (containerVulns : bool) (osvs : list OSV) : Prop :=
  ∃ affected, affected_list vex containerVulns = Ok affected ∧
    (irrelevant containerVulns affected ∧ osvs = [] ∨
     ¬ irrelevant containerVulns affected ∧ entries vex affected (Vulnerabilities vex) osvs).

(** What the code needs of a vulnerability: that there is one, and a description and a
    readable date if it has a summary. *)
Definition good_vulnerability (entry : option Vulnerability) : Prop :=
  ∃ v, entry = Some v ∧
    (getSummary v = None ∨
     is_Some (find_note "description" (Notes v)) ∧ ∃ t, Parse_literal_zone (DiscoveryDate v) = Ok t).

Definition well_formed (vex : VEX) (containerVulns : bool) : Prop :=
  ∃ affected, affected_list vex containerVulns = Ok affected ∧
    (irrelevant containerVulns affected ∨ Forall good_vulnerability (Vulnerabilities vex)).

(** ** The conversion implements it *)

Lemma convert_one_runs vex affected entry tr r :
  Runs (convert_one vex affected entry) tr r →
  (good_vulnerability entry ∧ ∃ v, entry = Some v ∧
     ((getSummary v = None ∧ r = Ok None) ∨ ∃ o, entry_of vex affected v o ∧ r = Ok (Some o))) ∨
  (¬ good_vulnerability entry ∧ ∃ p, r = Panic p).
Proof.
  destruct entry as [v|]; cbn [convert_one].
  2: { intros [_ ->]. right. split; [|by eexists]. by intros (? & [=] & _). }
  destruct (getSummary v) as [summary|] eqn:Hs.
  2: { intros [_ ->]. left. split; [exists v; auto|]. exists v. auto. }
  simpl. intros (id & tr1 & -> & now & tr2 & -> & H). unfold getPublishedDate, getDetails in H.
  destruct (Parse_literal_zone (DiscoveryDate v)) as [t|e|p] eqn:Hd.
  2, 3: destruct H as [-> ->]; right; split; [|by eexists];
    intros (v' & [= <-] & [?|[_ [t Ht]]]); congruence.
  simpl in H. destruct (find_note "description" (Notes v)) as [details|] eqn:Hn.
  2: { destruct H as [-> ->]. right. split; [|by eexists].
       intros (v' & [= <-] & [?|[[d Hd'] _]]); congruence. }
  destruct H as [-> ->]. left. split.
  { exists v. split; [done|]. right. rewrite Hn. split; eauto. }
  exists v. split; [done|]. right. eexists. split; [|reflexivity]. split; simpl; eauto.
Qed.

Lemma convert_loop_runs vex affected vs acc tr r :
  Runs (p_fold vs acc (λ vulnerability vulnerabilities,
          do osvVulnerability := convert_one vex affected vulnerability in
          p_ret (append_some vulnerabilities osvVulnerability))) tr r →
  (Forall good_vulnerability vs ∧ ∃ os, entries vex affected vs os ∧ r = Ok (acc ++ os)) ∨
  (¬ Forall good_vulnerability vs ∧ ∃ p, r = Panic p).
Proof.
  revert acc tr. induction vs as [|v vs IH]; intros acc tr; cbn [p_fold].
  { intros [_ ->]. left. split; [done|]. exists []. rewrite app_nil_r. split; [constructor|done]. }
  rewrite Forall_cons, Runs_bind.
  intros [(acc' & tr1 & tr2 & -> & H1 & H2)|[(e & H1 & ->)|(p & H1 & ->)]];
    apply Runs_bind in H1 as [(o & tr3 & tr4 & -> & H3 & [-> H4])|[(e' & H3 & H4)|(p' & H3 & H4)]];
    try discriminate H4;
    apply convert_one_runs in H3 as [[Hg (v' & -> & H)]|[Hb [p0 H]]]; try discriminate H;
    try (destruct H as [[_ H]|(? & _ & H)]; discriminate H).
  - injection H4 as ->. destruct (IH _ _ H2) as [[HF (os & He & ->)]|[HF [p ->]]].
    + left. split; [done|]. destruct H as [[Hs [= ->]]|(o' & Ho & [= ->])]; simpl.
      * exists os. split; [by constructor|done].
      * exists (o' :: os). split; [by constructor|by rewrite <-app_assoc].
    + right. split; [naive_solver|by eexists].
  - right. split; [naive_solver|by eexists].
Qed.

(** A conversion succeeds exactly on the well-formed documents, and then its result is
    as specified; on any other document it panics. *)
Lemma ConvertToOSV_runs vex containerVulns tr r :
  Runs (ConvertToOSV vex containerVulns) tr r →
  (well_formed vex containerVulns ∧ ∃ osvs, r = Ok osvs ∧ converted vex containerVulns osvs) ∨
  (¬ well_formed vex containerVulns ∧ ∃ p, r = Panic p).
Proof.
  assert (∀ affected, affected_list vex containerVulns = Ok affected →
    ¬ irrelevant containerVulns affected → ∀ tr,
    Runs (p_fold (Vulnerabilities vex) [] (λ vulnerability vulnerabilities,
          do osvVulnerability := convert_one vex affected vulnerability in
          p_ret (append_some vulnerabilities osvVulnerability))) tr r →
    (well_formed vex containerVulns ∧ ∃ osvs, r = Ok osvs ∧ converted vex containerVulns osvs) ∨
    (¬ well_formed vex containerVulns ∧ ∃ p, r = Panic p)) as Hloop.
  { intros affected Ha Hi tr' H. apply convert_loop_runs in H as [[HF (os & He & ->)]|[HF [p ->]]].
    - left. split; [exists affected; auto|]. exists os. split; [done|]. exists affected. auto.
    - right. split; [|by eexists]. intros (a' & Ha' & [?|?]); [|done].
      rewrite Ha in Ha'. by injection Ha' as <-. }
  assert (∀ p, affected_list vex containerVulns = Panic p → ¬ well_formed vex containerVulns) as Hp
    by (intros p Ha (a & Ha' & _); congruence).
  assert (∀ e, affected_list vex containerVulns ≠ Err e) as He.
  { intros e. destruct containerVulns;
      [apply getAffectedListContainers_no_error|apply getAffectedListRPMs_no_error]. }
  unfold ConvertToOSV. cbn zeta. unfold affected_list in *. destruct containerVulns.
  - rewrite Runs_bind. intros [(affected & tr1 & tr2 & -> & [-> Ha] & H)|[(e & [_ H] & _)|(p & [_ H] & ->)]].
    + symmetry in Ha. case_decide as E.
      * destruct H as [-> ->]. left. split; [exists affected; by split; [|left]|].
        exists []. split; [done|]. exists affected. split; [done|]. by left.
      * eapply Hloop; [exact Ha| |exact H]. by intros [_ ?].
    + by symmetry in H; apply He in H.
    + right. split; [by eapply Hp|by eexists].
  - rewrite Runs_bind. intros [(affected & tr1 & tr2 & -> & [-> Ha] & H)|[(e & [_ H] & _)|(p & [_ H] & ->)]].
    + symmetry in Ha. eapply Hloop; [exact Ha| |exact H]. by intros [? _].
    + by symmetry in H; apply He in H.
    + right. split; [by eapply Hp|by eexists].
Qed.

(** C19.  The code of a conversion refines its specification: every run succeeds with
    specified entries on a well-formed document, and panics on any other one. *)
Theorem ConvertToOSV_refines vex containerVulns tr r :
  Runs (ConvertToOSV vex containerVulns) tr r →
  (well_formed vex containerVulns ∧ ∃ osvs, r = Ok osvs ∧ converted vex containerVulns osvs) ∨
  (¬ well_formed vex containerVulns ∧ ∃ p, r = Panic p).
Proof. apply ConvertToOSV_runs. Qed.

(** The date of a vulnerability: a valid date and time in the layout of the documents,
    with a fraction of a second or without, is published as the same date and time
    without the fraction and with the letter Z. *)
Theorem getPublishedDate_spec v c f :
  valid_civil c → is_fraction f → DiscoveryDate v = layout_text c +:+ f +:+ "+00:00" →
  getPublishedDate v = Ok (layout_text c +:+ "Z").
Proof.
  intros Hc Hf Hd. destruct (Parse_Format c f Hc Hf) as (t & Ht & HF).
  unfold getPublishedDate. by rewrite Hd, Ht, HF.
Qed.

(** ** The file *)

(** What a file holds after a trace: opening it for writing empties it. *)
Definition file_step (filename content : string) (e : event) : string :=
  match e with
  | existT o a =>
      match o, a with
      | OpenFile p _, a => if decide (p = filename) then "" else content
      | Write p data, a => if decide (p = filename) then content +:+ data else content
      | _, _ => content
      end
  end.

Definition file_content (filename : string) (tr : list event) : string :=
  foldl (file_step filename) "" tr.

(** A file of lines. *)
Definition line_of (o : OSV) : string := implode (compact (osv_text o)).
Definition lines_of (osvs : list OSV) : list string := line_of <$> osvs.

Definition newline_byte : ascii := "010".

Lemma write_all_ok filename osvs tr :
  Runs (p_for osvs (λ v,
    p_wrap (errorf_v "could not encode OSV data: ") (p_lift (ask (Write filename (encode_line v)))))) tr (Ok tt) →
  tr = (λ v, ev (Write filename (encode_line v)) (inr tt)) <$> osvs.
Proof.
  revert tr. induction osvs as [|v osvs IH]; intros tr; cbn [p_for]; [by intros [-> _]|].
  rewrite Runs_bind_ok. intros ([] & tr1 & tr2 & -> & H1 & H2).
  rewrite Runs_wrap_ok in H1. ask_inv H1. by rewrite (IH tr2 H2).
Qed.

Lemma StoreToFile_ok filename osvs tr :
  Runs (StoreToFile filename osvs) tr (Ok tt) →
  ∃ c : error + unit,
    tr = ev (OpenFile filename 420) (inr tt) ::
         ((λ v, ev (Write filename (encode_line v)) (inr tt)) <$> osvs) ++ [ev (CloseFile filename) c].
Proof.
  unfold StoreToFile. rewrite Runs_bind_ok. intros ([] & tr1 & tr2 & -> & H1 & H).
  rewrite Runs_wrap_ok in H1. ask_inv H1. unfold p_defer in H. rewrite Runs_then in H.
  destruct H as (r & tr3 & tr4 & -> & H3 & H). rewrite Runs_then in H.
  destruct H as (rd & tr5 & tr6 & -> & H5 & H). unfold close_quietly in H5.
  rewrite Runs_bind in H5. destruct H5 as [(c & tr7 & tr8 & -> & H7 & [-> ->])|[(e & H5 & _)|(m & H5 & _)]].
  2,3: by rewrite Runs_ask in H5; destruct H5 as (? & ? & ?).
  apply Runs_ask_ok in H7 as ->. destruct H as [-> <-]. apply write_all_ok in H3 as ->. by exists c.
Qed.

Lemma file_content_writes filename osvs content :
  foldl (file_step filename) content ((λ v, ev (Write filename (encode_line v)) (inr tt)) <$> osvs) =
  content +:+ foldr (λ v s, encode_line v +:+ s) "" osvs.
Proof.
  revert content. induction osvs as [|v osvs IH]; intros content; [by rewrite app_nil_r_str|].
  cbn [foldl fmap list_fmap foldr]. unfold fmap in IH. rewrite IH. simpl. rewrite decide_True by done.
  by rewrite app_assoc_str.
Qed.

Lemma line_no_newline o : ¬ byte_in newline_byte (line_of o).
Proof.
  unfold byte_in, line_of. rewrite explode_implode. intros Hin.
  pose proof (compact_printable _ (proj1 (osv_text_shape o))) as HF.
  rewrite forallb_forall in HF. specialize (HF newline_byte). rewrite <-list_elem_of_In in HF.
  by specialize (HF Hin).
Qed.

Lemma Split_lines osvs :
  Split (foldr (λ v s, encode_line v +:+ s) "" osvs) newline_byte = lines_of osvs ++ [""].
Proof.
  induction osvs as [|v osvs IH]; [done|]. cbn [foldr]. unfold encode_line at 1.
  rewrite implode_app, app_assoc_str. change (implode ["010"%char] +:+ ?s) with (String newline_byte s).
  rewrite Split_app by apply line_no_newline. by rewrite IH.
Qed.

Lemma StoreToFile_lines_aux filename osvs tr :
  Runs (StoreToFile filename osvs) tr (Ok tt) →
  ∀ before, Split (file_content filename (before ++ tr)) newline_byte = lines_of osvs ++ [""].
Proof.
  intros H before. destruct (StoreToFile_ok _ _ _ H) as [c ->]. unfold file_content.
  rewrite foldl_app. cbn [foldl]. rewrite foldl_app. cbn [foldl]. simpl file_step at 3.
  rewrite (decide_True (P := filename = filename)) by done.
  rewrite file_content_writes. apply Split_lines.
Qed.

Lemma line_read o : read_json (line_of o) = Some (valid_text (osv_text o)).
Proof. destruct (osv_text_shape o) as [Hn Hd]. by apply read_json_written. Qed.

(** C23.  A successful store leaves one line per entry in the file, in order.  Who reads
    the lines as JSON finds the entries, but for bytes that are not UTF-8. *)
Theorem StoreToFile_lines filename osvs tr :
  Runs (StoreToFile filename osvs) tr (Ok tt) →
  ∀ before, ∃ lines,
    Split (file_content filename (before ++ tr)) newline_byte = lines ++ [""] ∧
    Forall2 (λ line o, read_json line = Some (valid_text (osv_text o))) lines osvs.
Proof.
  intros H before. exists (lines_of osvs). split; [by apply StoreToFile_lines_aux|].
  apply Forall2_fmap_l, Forall_Forall2_diag, Forall_true. exact line_read.
Qed.

(** ** The generator *)

Section Generated.

(** The document of an advisory was fetched, decoded and converted. *)
Definition fetched (tr : list event) (containerVulns : bool) (advisory : string) (osvs : list OSV) : Prop :=
  ∃ resp vex, ev (HttpGet (URL +:+ "/" +:+ advisory)) (inr resp) ∈ tr ∧
    StatusCode resp = 200%Z ∧ st_err (resp_Body resp) = None ∧
    Unmarshal_VEX (st_data (resp_Body resp)) = inr vex ∧ converted vex containerVulns osvs.

Lemma extractAdvisory_ok advisory containerVulns tr osvs :
  Runs (extractAdvisory advisory containerVulns) tr (Ok osvs) → fetched tr containerVulns advisory osvs.
Proof.
  unfold extractAdvisory. rewrite Runs_try_ok. intros ([e|vex] & tr1 & tr2 & -> & H1 & H2); [by destruct H2|].
  simpl of_sum in H1. unfold GetVEXFromUrl in H1. rewrite Runs_bind_ok in H1.
  destruct H1 as (body & tr3 & tr4 & -> & H3 & H4).
  destruct (Unmarshal_VEX body) as [e|vex'] eqn:Hu; [by destruct H4|]. destruct H4 as [-> [= <-]].
  apply retryGet_spec_aux in H3 as (fails & _ & [(_ & _ & [=])|(resp & _ & Hs & -> & Hr)]).
  apply ConvertToOSV_runs in H2 as [[_ (osvs' & [= <-] & Hc)]|[_ [p [=]]]].
  unfold read_body in Hr. destruct (st_err (resp_Body resp)) eqn:He; [done|]. injection Hr as ->.
  exists resp, vex. split_and!; [|done..]. rewrite !elem_of_app. left. left. right. left.
Qed.

(** An advisory never ends in an error the goroutine could not send. *)
Lemma ConvertToOSV_no_error vex containerVulns tr e : ¬ Runs (ConvertToOSV vex containerVulns) tr (Err e).
Proof. by intros [[_ (? & ? & _)]|[_ [? ?]]]%ConvertToOSV_runs. Qed.

(** What the goroutine of each advisory did. *)
Lemma extraction_parts advisories containerVulns tr received :
  group_runs (extraction advisories containerVulns) tr (Ok received) →
  ∃ outs : list (list event * list OSV),
    Forall2 (λ t o, Runs t o.1 (Ok o.2))
      ((λ advisory, extractAdvisory advisory containerVulns) <$> advisories) outs ∧
    received ≡ₚ outs.*2 ∧ tr ≡ₚ concat outs.*1 ∧ Forall (λ o, o.1 `sublist_of` tr) outs.
Proof.
  unfold extraction. rewrite <-(length_fmap (λ advisory, extractAdvisory advisory containerVulns)).
  apply goroutines_parts.
Qed.

Lemma GenerateOSV_runs filename containerVulns days tr :
  GenerateOSV filename containerVulns days tr (Ok tt) →
  ∃ tr1 tr2 tr3 advisories received,
    tr = tr1 ++ tr2 ++ tr3 ∧ Runs (getAdvisoryListByReleases days) tr1 (Ok advisories) ∧
    group_runs (extraction advisories containerVulns) tr2 (Ok received) ∧
    Runs (StoreToFile filename (concat received)) tr3 (Ok tt).
Proof.
  unfold GenerateOSV, b_bind, b_prog.
  intros [(advisories & tr1 & tr' & -> & H1 & H)|[(e & _ & [=])|(p & _ & [=])]].
  destruct H as [(received & tr2 & tr3 & -> & H2 & H3)|[(e & _ & [=])|(p & _ & [=])]].
  by exists tr1, tr2, tr3, advisories, received.
Qed.

Lemma GenerateOSV_refines_aux filename containerVulns days tr :
  GenerateOSV filename containerVulns days tr (Ok tt) →
  ∃ tr1 tr' advisories osvss received,
    tr = tr1 ++ tr' ∧ Runs (getAdvisoryListByReleases days) tr1 (Ok advisories) ∧
    Forall2 (fetched tr' containerVulns) advisories osvss ∧ received ≡ₚ osvss ∧
    Split (file_content filename tr) newline_byte = lines_of (concat received) ++ [""].
Proof.
  intros (tr1 & tr2 & tr3 & advisories & received & -> & H1 & H2 & H3)%GenerateOSV_runs.
  destruct (extraction_parts _ _ _ _ H2) as (outs & HF & Hp & _ & Hs).
  exists tr1, (tr2 ++ tr3), advisories, outs.*2, received. split_and!; [done|done| |done|].
  - apply Forall2_fmap_l in HF. apply Forall2_fmap_r.
    apply Forall2_same_length_lookup. split; [by eapply Forall2_length|].
    intros i adv [tri osvs] Ha Ho. pose proof (Forall2_lookup_lr _ _ _ _ _ _ HF Ha Ho) as Hr. simpl in *.
    apply extractAdvisory_ok in Hr as (resp & vex & Hin & Hr). exists resp, vex. split; [|done].
    rewrite Forall_lookup in Hs. specialize (Hs i _ Ho). rewrite elem_of_app. left.
    by eapply elem_of_sublist.
  - rewrite app_assoc. by apply StoreToFile_lines_aux.
Qed.

(** C15.  When the generator succeeds, however its goroutines were interleaved: every
    advisory of the list was fetched with status 200 and converted as specified, and
    the file holds one line for each entry of each of them and no other one, the
    entries of an advisory together and in order; only the order of the advisories is
    open. *)
Theorem GenerateOSV_refines filename containerVulns days tr :
  GenerateOSV filename containerVulns days tr (Ok tt) →
  ∃ tr1 tr' advisories osvss received,
    tr = tr1 ++ tr' ∧ Runs (getAdvisoryListByReleases days) tr1 (Ok advisories) ∧
    Forall2 (fetched tr' containerVulns) advisories osvss ∧ received ≡ₚ osvss ∧
    Split (file_content filename tr) newline_byte = lines_of (concat received) ++ [""].
Proof. apply GenerateOSV_refines_aux. Qed.

Lemma unmatched_product vex purl osvs :
  purl ∈ arch_purls vex → HasPrefix purl "pkg:rpm" = true → ¬ byte_in "@"%char purl →
  ¬ converted vex false osvs.
Proof.
  intros Hin Hp Hat (affected & Ha & _). simpl in Ha. rewrite getAffectedListRPMs_collect in Ha.
  destruct (collect _ _) as [all| |] eqn:Hc; [|done..].
  destruct (proj1 (collect_ok rpm_entries (arch_purls vex)) (ex_intro _ _ Hc) purl Hin) as [h Hh].
  unfold rpm_entries in Hh. by rewrite Hp, rpm_package_panics_aux in Hh.
Qed.

(** *** Nothing else is touched *)

(** A request that concerns no file but one. *)
Definition only_file (filename : string) (o : op) : Prop :=
  match o with
  | OpenFile p _ | Write p _ | CloseFile p => p = filename
  | HttpGet _ | Sleep _ | Now | Uniuri => True
  | _ => False
  end.

Definition no_file (o : op) : Prop :=
  match o with HttpGet _ | Sleep _ | Now | Uniuri => True | _ => False end.

Lemma retry_loop_asks url n backoff err : asks no_file (retry_loop url n backoff err).
Proof.
  revert backoff err. induction n as [|n IH]; intros backoff err; [done|]. cbn [retry_loop].
  apply asks_bind; [by apply asks_ask|]. intros [e|resp].
  - apply asks_bind; [by apply asks_ask|auto].
  - case_decide; [by destruct (st_err _)|]. apply asks_bind; [by apply asks_ask|auto].
Qed.

Lemma convert_one_asks vex affected entry : asks no_file (convert_one vex affected entry).
Proof.
  destruct entry as [v|]; [|done]. cbn [convert_one]. destruct (getSummary v); [|done].
  solve_asks; done.
Qed.

Lemma ConvertToOSV_asks vex containerVulns : asks no_file (ConvertToOSV vex containerVulns).
Proof.
  assert (∀ affected vs acc, asks no_file (p_fold vs acc (λ vulnerability vulnerabilities,
          do osvVulnerability := convert_one vex affected vulnerability in
          p_ret (append_some vulnerabilities osvVulnerability)))) as Hloop.
  { intros. apply asks_fold. intros v x _. apply asks_bind; [apply convert_one_asks|done]. }
  unfold ConvertToOSV. cbn zeta. destruct containerVulns; (apply asks_bind; [done|]);
    intros affected; [case_decide; [done|]|]; apply Hloop.
Qed.

Lemma extractAdvisory_asks advisory containerVulns :
  asks no_file (extractAdvisory advisory containerVulns).
Proof.
  unfold extractAdvisory, GetVEXFromUrl. apply asks_try.
  - apply asks_bind; [apply retry_loop_asks|]. intros body. by destruct (Unmarshal_VEX body).
  - intros [e|vex]; [done|apply ConvertToOSV_asks].
Qed.

Lemma StoreToFile_asks filename osvs : asks (only_file filename) (StoreToFile filename osvs).
Proof.
  unfold StoreToFile. apply asks_bind; [by apply asks_wrap, asks_lift, asks_ask|intros _].
  apply asks_defer.
  - apply asks_for. intros v _. by apply asks_wrap, asks_lift, asks_ask.
  - by apply asks_bind; [apply asks_ask|].
Qed.

Lemma group_step_asks {X} P (s s' : Group X) tr xs :
  group_step s tr xs s' → Forall (asks P) (started s ++ to_start s) →
  Forall (λ e : event, P (projT1 e)) tr ∧ Forall (asks P) (started s' ++ to_start s').
Proof.
  intros []; simpl; rewrite ?Forall_app, ?Forall_cons; simpl; rewrite ?Forall_nil; naive_solver.
Qed.

Lemma group_runs_asks {X} P (s : Group X) tr r :
  group_runs s tr r → Forall (asks P) (started s ++ to_start s) → Forall (λ e : event, P (projT1 e)) tr.
Proof.
  induction 1 as [|s tr1 xs s' tr2 r Hs _ IH|]; intros HF; [constructor| |constructor].
  destruct (group_step_asks P _ _ _ _ Hs HF). apply Forall_app_2; auto.
Qed.

Lemma no_file_only filename tr :
  Forall (λ e : event, no_file (projT1 e)) tr → Forall (λ e : event, only_file filename (projT1 e)) tr.
Proof. intros H. eapply Forall_impl; [exact H|]. intros [o a]. by destruct o. Qed.

Lemma getAdvisoryListByReleases_asks days : asks no_file (getAdvisoryListByReleases days).
Proof. unfold getAdvisoryListByReleases. solve_asks; done. Qed.

(** The generator opens and writes no file but its own, whatever happens. *)
Lemma GenerateOSV_only_file filename containerVulns days tr r :
  GenerateOSV filename containerVulns days tr r →
  Forall (λ e : event, only_file filename (projT1 e)) tr.
Proof.
  assert (∀ tr r, Runs (getAdvisoryListByReleases days) tr r →
            Forall (λ e : event, only_file filename (projT1 e)) tr) as Hlist.
  { intros tr' r' H. eapply no_file_only, asks_Runs; [apply getAdvisoryListByReleases_asks|exact H]. }
  assert (∀ advs tr r, group_runs (extraction advs containerVulns) tr r →
            Forall (λ e : event, only_file filename (projT1 e)) tr) as Hgo.
  { intros advs tr' r' H. eapply no_file_only, group_runs_asks; [exact H|].
    apply Forall_fmap, Forall_true. intros a. apply extractAdvisory_asks. }
  unfold GenerateOSV, b_bind, b_prog.
  intros [(advs & tr1 & tr' & -> & H1 & H)|[(e & H & _)|(p & H & _)]]; [|by eapply Hlist..].
  apply Forall_app_2; [by eapply Hlist|].
  destruct H as [(received & tr2 & tr3 & -> & H2 & H3)|[(e & H & _)|(p & H & _)]]; [|by eapply Hgo..].
  apply Forall_app_2; [by eapply Hgo|]. eapply asks_Runs; [apply StoreToFile_asks|exact H3].
Qed.

(** A generation whose listing succeeded: its goroutines either all sent, or one of them
    panicked and with it the generation, after which nothing is asked any more. *)
Lemma group_runs_no_error {X} (s : Group X) tr r e : group_runs s tr r → r ≠ Err e.
Proof. induction 1 as [|s tr1 xs s' tr2 r _ _ IH|]; [done| |done]. by destruct r. Qed.

Lemma GenerateOSV_cases filename containerVulns days tr1 tr2 advisories r :
  GenerateOSV filename containerVulns days (tr1 ++ tr2) r →
  Runs (getAdvisoryListByReleases days) tr1 (Ok advisories) →
  (∃ p, group_runs (extraction advisories containerVulns) tr2 (Panic p) ∧ r = Panic p) ∨
  (∃ received tr3 tr4, tr2 = tr3 ++ tr4 ∧ group_runs (extraction advisories containerVulns) tr3 (Ok received) ∧
     Runs (StoreToFile filename (concat received)) tr4 r).
Proof.
  unfold GenerateOSV, b_bind, b_prog. intros H H1.
  assert (∀ t1 t2 r', Runs (getAdvisoryListByReleases days) t1 r' → tr1 ++ tr2 = t1 ++ t2 →
            t1 = tr1 ∧ t2 = tr2 ∧ r' = Ok advisories) as Hdet.
  { intros t1 t2 r' Hr Heq. destruct (Runs_determined _ _ _ _ _ _ _ H1 Hr Heq) as [<- <-].
    by apply app_inv_head in Heq as <-. }
  destruct H as [(advs & t1 & t2 & Heq & Hl & H)|[(e & Hl & _)|(p & Hl & _)]].
  2, 3: by destruct (Hdet _ [] _ Hl (eq_sym (app_nil_r _))) as (_ & _ & [=]).
  destruct (Hdet _ _ _ Hl Heq) as (-> & -> & [= ->]).
  destruct H as [(received & t3 & t4 & -> & H2 & H3)|[(e & H2 & _)|(p & H2 & ->)]].
  - right. by exists received, t3, t4.
  - by destruct (group_runs_no_error _ _ _ e H2).
  - left. by exists p.
Qed.

(** C21.  One RPM product whose package URL has no version, in the document of one listed
    advisory, and the whole generation ends in a panic, before any file is touched. *)
Theorem malformed_product_stops filename days tr1 tr2 advisories r advisory vex purl :
  GenerateOSV filename false days (tr1 ++ tr2) r →
  Runs (getAdvisoryListByReleases days) tr1 (Ok advisories) → advisory ∈ advisories →
  (∀ resp, ev (HttpGet (URL +:+ "/" +:+ advisory)) (inr resp) ∈ tr2 →
     Unmarshal_VEX (st_data (resp_Body resp)) = inr vex) →
  purl ∈ arch_purls vex → HasPrefix purl "pkg:rpm" = true → ¬ byte_in "@"%char purl →
  (∃ p, r = Panic p) ∧ Forall (λ e : event, no_file (projT1 e)) (tr1 ++ tr2).
Proof.
  intros HG Hlist Hadv Hdoc Hin Hp Hat.
  destruct (GenerateOSV_cases _ _ _ _ _ _ _ HG Hlist) as [(p & H & ->)|(received & tr3 & tr4 & -> & H & _)].
  { split; [by eexists|]. apply Forall_app_2.
    - eapply asks_Runs; [apply getAdvisoryListByReleases_asks|exact Hlist].
    - eapply group_runs_asks; [exact H|]. apply Forall_fmap, Forall_true. intros a. apply extractAdvisory_asks. }
  exfalso. destruct (extraction_parts _ _ _ _ H) as (outs & HF & _ & _ & Hs).
  apply list_elem_of_lookup in Hadv as [i Hi]. apply Forall2_fmap_l in HF.
  destruct (Forall2_lookup_l _ _ _ _ _ HF Hi) as ([tri osvs] & Ho & Hr). cbn [fst snd] in Hr.
  apply extractAdvisory_ok in Hr as (resp & vex' & Hev & _ & _ & Hu & Hc).
  rewrite Forall_lookup in Hs. specialize (Hs i _ Ho). rewrite (Hdoc resp) in Hu.
  - injection Hu as <-. by eapply unmatched_product.
  - apply elem_of_app. left. by eapply elem_of_sublist.
Qed.

Lemma file_step_other filename filename' content (e : event) :
  filename ≠ filename' → only_file filename' (projT1 e) → file_step filename content e = content.
Proof.
  intros Hne. destruct e as [o a]. destruct o; simpl; try done; intros ->; by rewrite decide_False by congruence.
Qed.

Lemma file_content_other filename filename' content tr :
  filename ≠ filename' → Forall (λ e : event, only_file filename' (projT1 e)) tr →
  foldl (file_step filename) content tr = content.
Proof.
  intros Hne. induction 1 as [|e tr He _ IH]; [done|]. cbn [foldl].
  by rewrite (file_step_other _ filename') by done.
Qed.

(** *** The program *)

Lemma or_exit_ok {A} (m : Behaviour A) k tr code :
  or_exit m k tr (Ok code) →
  (∃ a tr1 tr2, tr = tr1 ++ tr2 ∧ m tr1 (Ok a) ∧ k tr2 (Ok code)) ∨ (∃ e, m tr (Err e)) ∧ code = 1%Z.
Proof. intros [?|[(e & H & [= ->])|(p & _ & [=])]]; [by left|right; eauto]. Qed.

(** C16.  When the program exits with 0, its command line asked for help and nothing was done;
    or the command line was understood, the archive was downloaded and extracted, and both
    databases were generated, the one for containers first; if their names differ, each
    file then holds one line for each entry of each advisory that was listed for it. *)
Theorem main_success args tr :
  main args tr (Ok 0%Z) →
  Parse flags default_options args = ErrHelp ∧ tr = [] ∨
  ∃ o rest tr0 tr1 tr2 tr3,
    let containers := Join2 (destDir o) (containerFilename o) in
    let rpms := Join2 (destDir o) (rpmFilename o) in
    Parse flags default_options args = Parsed o rest ∧
    tr = tr0 ++ tr1 ++ tr2 ++ tr3 ∧ tr0 = [ev (MkdirAll (destDir o)) (inr tt)] ∧
    Runs (DownloadOsvDb (destDir o)) tr1 (Ok tt) ∧
    GenerateOSV containers true (days o) tr2 (Ok tt) ∧ GenerateOSV rpms false (days o) tr3 (Ok tt) ∧
    (containers ≠ rpms →
       (∃ osvs, Split (file_content containers tr) newline_byte = lines_of osvs ++ [""]) ∧
       file_content containers tr = file_content containers (tr0 ++ tr1 ++ tr2)).
Proof.
  unfold main. destruct (Parse flags default_options args) as [o rest| |] eqn:Ha.
  2: { intros H. left. split; [done|]. unfold b_prog in H. by inversion H. }
  2: { intros H. unfold b_prog in H. by inversion H. }
  intros H. right. exists o, rest. revert H.
  unfold run_main. intros [([] & tr0 & trA & -> & H0 & H)|[_ [=]]]%or_exit_ok.
  apply or_exit_ok in H as [([] & tr1 & trB & -> & H1 & H)|[_ [=]]].
  apply or_exit_ok in H as [([] & tr2 & trC & -> & H2 & H)|[_ [=]]].
  apply or_exit_ok in H as [([] & tr3 & trD & -> & H3 & [-> _])|[_ [=]]].
  unfold b_prog in H0. ask_inv H0. rewrite app_nil_r.
  set (tr0 := [_]). exists tr0, tr1, tr2, tr3. cbn zeta. split_and!; [done..|].
  set (containers := Join2 _ _). intros Hne. pose proof (GenerateOSV_only_file _ _ _ _ _ H3) as HF.
  assert (file_content containers (tr0 ++ tr1 ++ tr2 ++ tr3) =
          file_content containers (tr0 ++ tr1 ++ tr2)) as E.
  { rewrite !app_assoc. unfold file_content. rewrite (foldl_app _ _ tr3). by eapply file_content_other. }
  split; [|exact E]. rewrite E. apply GenerateOSV_runs in H2.
  destruct H2 as (t1 & t2 & t3 & advs & received & -> & _ & _ & Hst).
  exists (concat received). rewrite !app_assoc. by apply StoreToFile_lines_aux.
Qed.

(** A command line that is not understood ends the program with 2 before it does anything. *)
Lemma main_usage args tr r :
  Parse flags default_options args = ErrUsage → main args tr r ↔ tr = [] ∧ r = Ok 2%Z.
Proof.
  intros Ha. unfold main, b_prog. rewrite Ha. split; [intros H; by inversion H|].
  intros [-> ->]. by constructor.
Qed.

(** Every choice of the options can be written on a command line. *)
Lemma main_options c r d n tr res :
  (-2^63 ≤ n < 2^63)%Z →
  main ["--container-filename=" +:+ c; "--rpm-filename=" +:+ r; "--destination-dir=" +:+ d;
        "--days=" +:+ fmt_d n] tr res ↔ run_main (MkOptions c r d n) tr res.
Proof.
  intros Hn. unfold main.
  set (written := [("container-filename", c); ("rpm-filename", r); ("destination-dir", d);
                   ("days", fmt_d n)]).
  change (_ :: _) with ((setting_word <$> written) ++ []).
  rewrite Parse_settings by (repeat constructor; cbn; eauto).
  pose proof (ParseInt0_fmt_d n Hn) as Hn'. unfold written. by apply_written.
Qed.
End Generated.
