(* ===== verification/OsvLiveness.v ===== *)
(** * The generation ends, and when it succeeds

    The steps of the goroutines of the generator and of the function that starts them
    and receives from them: there is no infinite run and no deadlock, and nobody is left
    behind.  And the other direction of the refinement: when the servers answer with
    well-formed documents and the file can be written, the generator succeeds. *)

From S2P Require Import Prelude GoStrings GoTime GoCsv GoJson ToolWorld OsvDownload OsvVex Osv.
From S2P Require Import OsvAffected OsvGenerator OsvProofs OsvDatabase.

(** ** Steps *)

Section Steps.
Context {X : Type}.

Definition next (s s' : Group X) : Prop := ∃ tr xs, group_step s tr xs s'.

(** A sequence of steps, with all that was asked and received in it. *)
Inductive group_steps : Group X → list event → list X → Group X → Prop :=
| steps_refl s : group_steps s [] [] s
| steps_snoc s tr xs s' tr' xs' s'' :
    group_steps s tr xs s' → group_step s' tr' xs' s'' → group_steps s (tr ++ tr') (xs ++ xs') s''.

(** *** No infinite run *)

(** The goroutines alone: one makes a request, or is gone. *)
Inductive shrinks : list (Prog X) → list (Prog X) → Prop :=
| shrinks_ask ts1 o k (a : answer o) ts2 : shrinks (ts1 ++ Ask o k :: ts2) (ts1 ++ k a :: ts2)
| shrinks_gone ts1 r ts2 : shrinks (ts1 ++ Ret r :: ts2) (ts1 ++ ts2).

Abbreviation ends := (Acc (flip shrinks)).

Lemma shrinks_cons_inv (t : Prog X) ts us :
  shrinks (t :: ts) us →
  match t with Ask o k => ∃ a, us = k a :: ts | Ret _ => us = ts end ∨
  ∃ ts', shrinks ts ts' ∧ us = t :: ts'.
Proof.
  intros H. inversion H as [ts1 o k a ts2 E1 E2|ts1 r ts2 E1 E2]; subst;
    destruct ts1 as [|t1 ts1]; simplify_eq/=; [left; eauto| |left; eauto|];
    right; eexists; (split; [|reflexivity]); constructor.
Qed.

(** One more goroutine: induction on it, and on the steps of the others. *)
Lemma ends_cons (t : Prog X) ts : ends ts → ends (t :: ts).
Proof.
  revert ts. induction t as [r|o k IHt]; intros ts; induction 1 as [ts Hts IH]; constructor;
    intros us [H|(ts' & Hs & ->)]%shrinks_cons_inv; try by apply IH.
  - subst us. by constructor.
  - destruct H as [a ->]. apply IHt. by constructor.
Qed.

Lemma goroutines_end (ts : list (Prog X)) : ends ts.
Proof.
  induction ts as [|t ts IH]; [|by apply ends_cons]. constructor.
  intros us H. inversion H; by destruct ts1.
Qed.

Lemma group_ends (s : Group X) : Acc (flip next) s.
Proof.
  destruct s as [ts run n]. revert run n. induction ts as [|t ts IHts]; intros run;
    induction (goroutines_end run) as [run _ IHrun]; intros n; constructor;
    intros s' (tr & xs & Hs); inversion Hs; subst; [..|apply IHts|]; apply IHrun; constructor.
Qed.

(** *** No deadlock *)

(** A program that ends in a value or a panic, never in an error. *)
Definition never_err (p : Prog X) : Prop := ∀ tr e, ¬ Runs p tr (Err e).

(** There is a round for each goroutine, and none ends in an error. *)
Definition balanced (s : Group X) : Prop :=
  to_receive s = length (started s ++ to_start s) ∧ Forall never_err (started s ++ to_start s).

Lemma balanced_step s tr xs s' : group_step s tr xs s' → balanced s → balanced s'.
Proof.
  unfold balanced. intros []; simpl; rewrite ?length_app, ?Forall_app, ?Forall_cons; simpl;
    rewrite ?Forall_nil.
  - intros [H1 H2]. split; [lia|naive_solver].
  - intros (H1 & (H2 & H & H3) & H4). split_and!; [lia|done| |done..].
    intros tr' e Hr. apply (H (ev o a :: tr') e). simpl. eauto.
  - intros [H1 H2]. split; [lia|naive_solver].
Qed.

Lemma answer_inhabited o : inhabited (answer o).
Proof.
  destruct o; constructor; simpl; try exact (inl (Errorf "")); [exact tt|exact (MkClock 0 0)|exact ""].
Qed.

(** As long as anything is left to do, a step can be made or a goroutine has panicked. *)
Lemma balanced_progress s :
  balanced s → s = MkGroup [] [] 0 ∨ (∃ m, group_panics s m) ∨ ∃ s', next s s'.
Proof.
  destruct s as [[|t ts] run n].
  2: { intros _. right. right. do 3 eexists. constructor. }
  intros [Hn HF]. simpl in *. rewrite app_nil_r in *. destruct run as [|[[x|e|m]|o k] run]; simpl in *.
  - left. by subst.
  - subst n. right. right. exists (MkGroup [] run (length run)), [], [x]. apply (step_send [] x run).
  - apply Forall_cons in HF as [H _]. by destruct (H [] e).
  - right. left. exists m. left.
  - right. right. destruct (answer_inhabited o) as [a].
    exists (MkGroup [] (k a :: run) n), [ev o a], []. apply (step_ask [] [] o k a run).
Qed.

Lemma balanced_steps s tr xs s' : group_steps s tr xs s' → balanced s → balanced s'.
Proof. induction 1; eauto using balanced_step. Qed.

(** Each receive uses up a round. *)
Lemma steps_received s tr xs s' :
  group_steps s tr xs s' → to_receive s = to_receive s' + length xs.
Proof.
  induction 1 as [|s tr xs s' tr' xs' s'' _ IH H]; [simpl; lia|]. rewrite length_app.
  destruct H; simpl in *; lia.
Qed.

(** *** Budgets *)

Section Budget.
Context (cost : event → Z) (cost_nonneg : ∀ e, (0 ≤ cost e)%Z).

Definition total (tr : list event) : Z := foldr (λ e z, cost e + z)%Z 0%Z tr.
Definition sum (ks : list Z) : Z := foldr Z.add 0%Z ks.

Lemma total_app tr1 tr2 : total (tr1 ++ tr2) = (total tr1 + total tr2)%Z.
Proof. induction tr1; simpl; lia. Qed.

Lemma sum_app ks1 ks2 : sum (ks1 ++ ks2) = (sum ks1 + sum ks2)%Z.
Proof. induction ks1; simpl; lia. Qed.

(** A program that costs no more than [k], however it goes. *)
Definition within (p : Prog X) (k : Z) : Prop := ∀ tr r, Runs p tr r → (total tr ≤ k)%Z.

Lemma within_nonneg p k : within p k → (0 ≤ k)%Z.
Proof.
  intros Hp. set (f := (λ _ o, match o return answer o with
    | Sleep _ => tt | Now => MkClock 0 0 | Uniuri => "" | _ => inl (Errorf "") end) : Oracle).
  pose proof (Hp _ _ (run_Runs p f [])) as H. assert (∀ tr, 0 ≤ total tr)%Z as Ht.
  { intros tr. induction tr as [|e tr IH]; simpl; [lia|]. pose proof (cost_nonneg e). lia. }
  specialize (Ht (run p f []).2). lia.
Qed.

Lemma within_ask o k n (a : answer o) : within (Ask o k) n → within (k a) (n - cost (ev o a)).
Proof.
  intros H tr r Hr. specialize (H (ev o a :: tr) r). simpl in H.
  enough (cost (ev o a) + total tr ≤ n)%Z by lia. apply H. eauto.
Qed.

(** What is asked in a step comes out of the budget of a goroutine. *)
Lemma budget_step s tr xs s' ks :
  group_step s tr xs s' → Forall2 within (started s ++ to_start s) ks →
  ∃ ks', Forall2 within (started s' ++ to_start s') ks' ∧ (total tr + sum ks' ≤ sum ks)%Z.
Proof.
  intros H HF. destruct H as [t ts run n|ts run1 o k a run2 n|run1 x run2 n]; simpl in *.
  - exists ks. rewrite <-app_assoc. split; [done|lia].
  - rewrite <-app_assoc in *. apply Forall2_app_inv_l in HF as (k1 & k2' & H1 & H2 & ->).
    apply Forall2_cons_inv_l in H2 as (b & k2 & Hb & H2 & ->).
    exists (k1 ++ (b - cost (ev o a))%Z :: k2). split.
    + apply Forall2_app; [done|]. constructor; [by apply within_ask|done].
    + rewrite !sum_app. simpl. lia.
  - rewrite app_nil_r in *. apply Forall2_app_inv_l in HF as (k1 & k2' & H1 & H2 & ->).
    apply Forall2_cons_inv_l in H2 as (b & k2 & Hb%within_nonneg & H2 & ->).
    exists (k1 ++ k2). split; [by apply Forall2_app|]. rewrite !sum_app. simpl. lia.
Qed.

Lemma budget_steps s tr xs s' k :
  group_steps s tr xs s' → Forall (λ p, within p k) (started s ++ to_start s) →
  (total tr ≤ k * Z.of_nat (length (started s ++ to_start s)))%Z.
Proof.
  intros H HF.
  assert (∃ ks', Forall2 within (started s' ++ to_start s') ks' ∧
    (total tr + sum ks' ≤ k * Z.of_nat (length (started s ++ to_start s)))%Z) as (ks' & Hw & Hle).
  { induction H as [s|s tr xs s' tr' xs' s'' _ IH Hs].
    - generalize dependent (started s ++ to_start s). intros l HF. exists (replicate (length l) k). split.
      + induction HF; simpl; by constructor.
      + simpl. clear. induction l as [|x l IH]; [simpl; lia|].
        cbn [length replicate sum foldr]. rewrite Nat2Z.inj_succ. unfold sum in IH. lia.
    - destruct (IH HF) as (ks & Hw & Hle). destruct (budget_step _ _ _ _ _ Hs Hw) as (ks' & Hw' & Hle').
      exists ks'. split; [done|]. rewrite total_app. lia. }
  assert (0 ≤ sum ks')%Z; [|lia]. clear Hle. unfold sum.
  induction Hw as [|p b ps bs Hb%within_nonneg _ IH]; simpl; lia.
Qed.
End Budget.
End Steps.

Section Live.

Lemma extractAdvisory_never_err advisory containerVulns : never_err (extractAdvisory advisory containerVulns).
Proof.
  intros tr e H. unfold extractAdvisory in H.
  apply Runs_try in H as [([e'|vex] & tr1 & tr2 & _ & _ & H)|(p & _ & [=])].
  - by destruct H.
  - by apply ConvertToOSV_no_error in H.
Qed.

(** *** What an advisory costs *)

Definition get_cost (e : event) : Z := match projT1 e with HttpGet _ => 1 | _ => 0 end.
(** A negative duration is no wait. *)
Definition sleep_cost (e : event) : Z := match projT1 e with Sleep d => Z.max 0 d | _ => 0 end.

Definition downloads (tr : list event) : Z := total get_cost tr.
Definition waited (tr : list event) : Z := total sleep_cost tr.

Lemma downloads_gets tr : downloads tr = Z.of_nat (gets tr).
Proof.
  induction tr as [|[o a] tr IH]; [done|].
  change (downloads (existT o a :: tr)) with (get_cost (existT o a) + downloads tr)%Z. rewrite IH.
  destruct o; try done. change (gets (existT (HttpGet url) a :: tr)) with (S (gets tr)).
  rewrite Nat2Z.inj_succ. unfold get_cost. simpl. lia.
Qed.

Lemma waited_sleeps tr : waited tr = sum (Z.max 0 <$> sleeps tr).
Proof.
  induction tr as [|[o a] tr IH]; [done|]. unfold waited, sleeps in *.
  destruct o; simpl in *; by rewrite ?IH.
Qed.

(** The conversion downloads nothing and does not wait. *)
Definition offline (o : op) : Prop := match o with Uniuri | Now => True | _ => False end.

Lemma ConvertToOSV_offline vex containerVulns : asks offline (ConvertToOSV vex containerVulns).
Proof.
  assert (∀ affected vs acc, asks offline (p_fold vs acc (λ vulnerability vulnerabilities,
          do osvVulnerability := convert_one vex affected vulnerability in
          p_ret (append_some vulnerabilities osvVulnerability)))) as Hloop.
  { intros. apply asks_fold. intros [v|] x _; [|done]. apply asks_bind; [|done].
    cbn [convert_one]. destruct (getSummary v); [|done]. solve_asks; done. }
  unfold ConvertToOSV. cbn zeta. destruct containerVulns; (apply asks_bind; [done|]);
    intros affected; [case_decide; [done|]|]; apply Hloop.
Qed.

Lemma offline_free tr : Forall (λ e : event, offline (projT1 e)) tr → downloads tr = 0%Z ∧ waited tr = 0%Z.
Proof.
  unfold downloads, waited. induction 1 as [|[o a] tr Ho _ [IH1 IH2]]; [done|].
  destruct o; simpl in *; try done; by rewrite IH1, IH2.
Qed.

Lemma GetVEXFromUrl_cost url tr r :
  Runs (GetVEXFromUrl url) tr r → (downloads tr ≤ 5 ∧ waited tr ≤ 31 * second)%Z.
Proof.
  intros (Hg & k & Hk & Hs)%GetVEXFromUrl_waits. rewrite downloads_gets, waited_sleeps, Hs.
  split; [lia|]. do 6 (destruct k as [|k]; [vm_compute; discriminate|]). lia.
Qed.

Lemma extractAdvisory_cost advisory containerVulns tr r :
  Runs (extractAdvisory advisory containerVulns) tr r → (downloads tr ≤ 5 ∧ waited tr ≤ 31 * second)%Z.
Proof.
  unfold extractAdvisory.
  intros [([e|vex] & tr1 & tr2 & -> & H1 & H2)|(p & H & _)]%Runs_try; [..|by eapply GetVEXFromUrl_cost];
    apply GetVEXFromUrl_cost in H1 as [Hd Hw]; unfold downloads, waited in *; rewrite !total_app.
  - destruct H2 as [-> _]. simpl. lia.
  - destruct (offline_free tr2) as [E1 E2]; [|unfold downloads, waited in E1, E2; lia].
    exact (asks_Runs _ _ _ _ (ConvertToOSV_offline vex containerVulns) H2).
Qed.

(** C17.  Fetching and converting the advisories always ends, whatever is answered and in
    whatever order the goroutines go.  There is no infinite sequence of steps; at most
    five downloads are made for each advisory, and the waits between them add up to at
    most 31 seconds for each; and when no step can be made any more, either a goroutine
    has panicked, or the results of all advisories were received, no goroutine is left
    waiting to send, and no round of the receiving loop is left. *)
Theorem extraction_ends advisories containerVulns :
  let n := length advisories in
  let start := extraction advisories containerVulns in
  Acc (flip next) start ∧
  ∀ tr received s, group_steps start tr received s →
    (downloads tr ≤ 5 * Z.of_nat n ∧ waited tr ≤ 31 * second * Z.of_nat n)%Z ∧
    (s = MkGroup [] [] 0 ∧ length received = n ∨ (∃ m, group_panics s m) ∨ ∃ s', next s s').
Proof.
  intros n start. split; [apply group_ends|]. intros tr received s H.
  assert (started start ++ to_start start = (λ a, extractAdvisory a containerVulns) <$> advisories) as Hts
    by done.
  assert (∀ k (cost : event → Z), (∀ e, 0 ≤ cost e)%Z →
    (∀ a tr r, Runs (extractAdvisory a containerVulns) tr r → total cost tr ≤ k)%Z →
    (total cost tr ≤ k * Z.of_nat n)%Z) as Hcost.
  { intros k cost Hnn Hk. pose proof (budget_steps cost Hnn _ _ _ _ k H) as Hb.
    rewrite Hts, length_fmap in Hb. apply Hb. apply Forall_fmap, Forall_true. intros a tr' r. apply Hk. }
  split; [split|].
  - apply Hcost; [intros [[] ?]; unfold get_cost; cbn; lia|]. intros a tr' r Hr.
    apply (extractAdvisory_cost _ _ _ _ Hr).
  - apply Hcost; [intros [[] ?]; unfold sleep_cost; cbn; lia|]. intros a tr' r Hr.
    apply (extractAdvisory_cost _ _ _ _ Hr).
  - assert (balanced start) as Hbal.
    { split; rewrite Hts; [by rewrite length_fmap|].
      apply Forall_fmap, Forall_true. intros a. apply extractAdvisory_never_err. }
    pose proof (steps_received _ _ _ _ H) as Hrec.
    destruct (balanced_progress s) as [->|Hs]; [by eapply balanced_steps|left|by right].
    split; [done|]. simpl in Hrec. lia.
Qed.

(** ** Success *)

(** A record that can be read, of an advisory that is not the list itself. *)
Definition good_record (record : list string) : Prop :=
  ∃ name date more t, record = name :: date :: more ∧ Parse_RFC3339 date = Ok t ∧ name ≠ "releases.csv".

(** What the generator hopes for: a readable list of releases, well-formed documents, and
    a file that can be written. *)
Definition kind_answer (containerVulns : bool) (o : op) : answer o → Prop :=
  match o return answer o → Prop with
  | HttpGet url => λ a, ∃ resp, a = inr resp ∧
      if decide (url = URL +:+ "/" +:+ "releases.csv")
      then ∃ records, ReadAll (resp_Body resp) = Ok records ∧ Forall good_record records
      else StatusCode resp = 200%Z ∧ st_err (resp_Body resp) = None ∧
           ∃ vex, Unmarshal_VEX (st_data (resp_Body resp)) = inr vex ∧ well_formed vex containerVulns
  | OpenFile _ _ | Write _ _ | CloseFile _ => λ a, a = inr tt
  | _ => λ _, True
  end.

Definition kind_event (containerVulns : bool) (e : event) : Prop :=
  kind_answer containerVulns (projT1 e) (projT2 e).

(** [m] succeeds when it is answered kindly. *)
Definition succeeds {A} (containerVulns : bool) (Q : A → Prop) (m : Prog A) : Prop :=
  ∀ tr r, Runs m tr r → Forall (kind_event containerVulns) tr → ∃ a, r = Ok a ∧ Q a.

Section Success.
Context (containerVulns : bool).

Lemma succeeds_bind {A B} Q Q' (m : Prog A) (k : A → Prog B) :
  succeeds containerVulns Q m → (∀ a, Q a → succeeds containerVulns Q' (k a)) →
  succeeds containerVulns Q' (p_bind m k).
Proof.
  intros Hm Hk tr r [(a & tr1 & tr2 & -> & H1 & H2)|[(e & H1 & ->)|(p & H1 & ->)]]%Runs_bind HF.
  - apply Forall_app in HF as [HF1 HF2]. destruct (Hm _ _ H1 HF1) as (a' & [= <-] & Ha). by eapply Hk.
  - by destruct (Hm _ _ H1 HF) as (? & [=] & _).
  - by destruct (Hm _ _ H1 HF) as (? & [=] & _).
Qed.

Lemma succeeds_try {A B} Q Q' (m : Prog A) (k : error + A → Prog B) :
  succeeds containerVulns Q m → (∀ a, Q a → succeeds containerVulns Q' (k (inr a))) →
  succeeds containerVulns Q' (p_try m k).
Proof.
  intros Hm Hk tr r [(x & tr1 & tr2 & -> & H1 & H2)|(p & H1 & ->)]%Runs_try HF.
  - apply Forall_app in HF as [HF1 HF2]. destruct (Hm _ _ H1 HF1) as (a' & E & Ha).
    destruct x as [e|a]; [done|]. injection E as ->. by eapply Hk.
  - by destruct (Hm _ _ H1 HF) as (? & [=] & _).
Qed.

Lemma succeeds_ret {A} (Q : A → Prop) (r : result A) :
  (∃ a, r = Ok a ∧ Q a) → succeeds containerVulns Q (Ret r).
Proof. by intros H tr r' [-> ->] _. Qed.

Lemma succeeds_ask o : succeeds containerVulns (kind_answer containerVulns o) (ask o).
Proof. intros tr r (a & -> & ->)%Runs_ask [H _]%Forall_cons. by exists a. Qed.

(** A call with an error. *)
Lemma succeeds_lift {A} Q (m : Prog (error + A)) :
  succeeds containerVulns (λ x, ∃ a, x = inr a ∧ Q a) m → succeeds containerVulns Q (p_lift m).
Proof.
  intros H. eapply succeeds_bind; [exact H|]. intros x (a & -> & Ha). apply succeeds_ret. eauto.
Qed.

Lemma succeeds_wrap {A} Q f (m : Prog A) :
  succeeds containerVulns Q m → succeeds containerVulns Q (p_wrap f m).
Proof. intros H. eapply succeeds_try; [exact H|]. intros a Ha. apply succeeds_ret. eauto. Qed.

Definition no_list (name : string) : Prop := name ≠ "releases.csv".

Lemma recent_good threshold records advisories :
  Forall good_record records → Forall no_list advisories →
  ∃ l, recent threshold records advisories = Ok l ∧ Forall no_list l.
Proof.
  intros HF. revert advisories.
  induction HF as [|? records (name & date & more & t & -> & Hd & Hn) _ IH]; intros advisories Ha;
    cbn [recent]; [eauto|].
  rewrite Hd. assert (Forall no_list (advisories ++ [name])) by (apply Forall_app_2; [done|by constructor]).
  destruct (Before t threshold); eauto.
Qed.

Lemma listing_succeeds days : succeeds containerVulns (Forall no_list) (getAdvisoryListByReleases days).
Proof.
  unfold getAdvisoryListByReleases. eapply succeeds_bind; [apply (succeeds_lift _ (ask (HttpGet _)))|].
  { intros tr r H HF. destruct (succeeds_ask _ _ _ H HF) as (a & -> & resp & -> & Hr).
    rewrite decide_True in Hr by done. exists (inr resp). split; [done|]. exists resp. split; [done|exact Hr]. }
  intros resp (records & Hr & HF). eapply (succeeds_bind (eq records)); [apply succeeds_ret; eauto|].
  intros ? <-.  eapply succeeds_bind; [apply succeeds_ask|]. intros now _.
  apply succeeds_ret. by apply recent_good.
Qed.

(** The first attempt has the document. *)
Lemma retryGet_succeeds url : url ≠ URL +:+ "/" +:+ "releases.csv" →
  succeeds containerVulns (λ body, ∃ vex, Unmarshal_VEX body = inr vex ∧ well_formed vex containerVulns)
    (retryGet url 5 second).
Proof.
  intros Hurl tr r (fails & Hf & H)%retryGet_spec_aux HF.
  assert (∀ a rest, tr = ev (HttpGet url) a :: rest →
            kind_answer containerVulns (HttpGet url) a) as Hfirst.
  { intros a rest ->. by apply Forall_cons in HF as [HF _]. }
  simpl in Hfirst. setoid_rewrite decide_False in Hfirst; [|done].
  destruct fails as [|a fails].
  - destruct H as [([=] & _)|(resp & _ & _ & -> & ->)].
    destruct (Hfirst _ _ eq_refl) as (resp' & [= <-] & _ & He & vex & Hu & Hw).
    exists (st_data (resp_Body resp)). split; [|eauto]. unfold read_body. by rewrite He.
  - apply Forall_cons in Hf as [Ha _]. exfalso.
    destruct H as [(_ & -> & _)|(resp & _ & _ & -> & _)];
      destruct (Hfirst _ _ eq_refl) as (resp' & -> & Hs & _); by eapply Ha.
Qed.

Lemma extractAdvisory_succeeds advisory : no_list advisory →
  succeeds containerVulns (λ _, True) (extractAdvisory advisory containerVulns).
Proof.
  intros Hn. unfold extractAdvisory, GetVEXFromUrl. eapply (succeeds_try (λ vex, well_formed vex containerVulns)).
  - eapply succeeds_bind; [apply retryGet_succeeds|].
    { intros E. by do 2 apply (inj (String.append _)) in E. }
    intros body (vex & -> & Hw). apply succeeds_ret. eauto.
  - intros vex Hw tr r [(_ & osvs & -> & _)|[Hnw _]]%ConvertToOSV_runs _; [eauto|done].
Qed.

Lemma group_succeeds {X} (s : Group X) tr r :
  group_runs s tr r → Forall (succeeds containerVulns (λ _, True)) (started s ++ to_start s) →
  Forall (kind_event containerVulns) tr → ∃ xs, r = Ok xs.
Proof.
  induction 1 as [|s tr1 xs s' tr2 r Hs _ IH|s m Hm]; intros HS HF; [by eexists|..].
  - apply Forall_app in HF as [HF1 HF2]. destruct IH as [ys ->]; [|done|by eexists].
    destruct Hs as [t ts run n|ts run1 o k a run2 n|run1 x run2 n]; simpl in *;
      rewrite !Forall_app, ?Forall_cons in *; simpl in *; rewrite ?Forall_nil; [naive_solver| |naive_solver].
    destruct HS as ((H1 & H & H2) & H3). destruct HF1 as [Ha _]. split_and!; [done| |done..].
    intros tr' r' Hr HF'. apply (H (ev o a :: tr')); [by exists a, tr'|by constructor].
  - apply Forall_app in HS as [HS _]. rewrite Forall_forall in HS.
    by destruct (HS _ Hm [] (Panic m)) as (? & [=] & _).
Qed.

Lemma StoreToFile_succeeds filename osvs : succeeds containerVulns (λ _, True) (StoreToFile filename osvs).
Proof.
  unfold StoreToFile. eapply (succeeds_bind (λ _, True)).
  { apply succeeds_wrap, (succeeds_lift _ (ask (OpenFile _ _))). intros tr r H HF.
    destruct (succeeds_ask _ _ _ H HF) as (a & -> & ->). eauto. }
  intros _ _ tr r (r1 & tr1 & tr2 & -> & H1 & H2)%Runs_then [HF1 HF2]%Forall_app.
  assert (∃ x, r1 = Ok x) as [x ->].
  { enough (succeeds containerVulns (λ _, True) (p_for osvs (λ v, p_wrap (errorf_v "could not encode OSV data: ")
      (p_lift (ask (Write filename (encode_line v))))))) as Hl by (destruct (Hl _ _ H1 HF1) as (? & -> & _); eauto).
    clear. induction osvs as [|o osvs IH]; cbn [p_for]; [apply succeeds_ret; eauto|].
    eapply (succeeds_bind (λ _, True)); [|done].
    apply succeeds_wrap, (succeeds_lift _ (ask (Write _ _))). intros tr r H HF.
    destruct (succeeds_ask _ _ _ H HF) as (a & -> & ->). eauto. }
  simpl in H2. destruct H2 as (a & t & _ & _ & ->). eauto.
Qed.
End Success.

(** C22.  The generator succeeds whenever the list of releases is readable, every document it
    fetches is well formed and the file can be written, in whatever order its goroutines
    go. *)
Theorem GenerateOSV_succeeds filename containerVulns days tr r :
  GenerateOSV filename containerVulns days tr r → Forall (kind_event containerVulns) tr → r = Ok tt.
Proof.
  intros [(advs & tr1 & tr' & -> & H1 & H)|[(e & H1 & ->)|(p & H1 & ->)]] HF.
  2, 3: by destruct (listing_succeeds _ _ _ _ H1 HF) as (? & [=] & _).
  apply Forall_app in HF as [HF1 HF]. destruct (listing_succeeds _ _ _ _ H1 HF1) as (? & [= <-] & Hn).
  assert (Forall (succeeds containerVulns (λ _, True))
    (started (extraction advs containerVulns) ++ to_start (extraction advs containerVulns))) as Hs
    by (simpl; apply Forall_fmap; eapply Forall_impl; [exact Hn|]; intros; by apply extractAdvisory_succeeds).
  destruct H as [(received & tr2 & tr3 & -> & H2 & H3)|[(e & H2 & ->)|(p & H2 & ->)]].
  - apply Forall_app in HF as [_ HF3]. by destruct (StoreToFile_succeeds _ _ _ _ _ H3 HF3) as ([] & -> & _).
  - by destruct (group_succeeds _ _ _ _ H2 Hs HF).
  - by destruct (group_succeeds _ _ _ _ H2 Hs HF).
Qed.
End Live.
