(* ===== verification/OsvSample.v ===== *)
(** * Runs of the OSV generator

    A small world with three advisories within reach of the listing and one that is
    not, whose second document is first answered with a 503; and the theorems about the
    generator applied to runs in it. *)

From S2P Require Import Prelude GoStrings GoRegexp GoStrconv GoTime GoCsv GoJson Json GoPath.
From S2P Require Import ToolWorld OsvDownload OsvVex Osv OsvAffected OsvPurl OsvGenerator OsvProofs.
From S2P Require Import OsvDatabase OsvLiveness GoJsonRead GoJsonRound GoFlag.
From Stdlib Require Import Ascii.

(** ** Running the generator

    For given answers and choices of the scheduler. *)

Definition run_GenerateOSV (choices : list nat) (filename : string) (containerVulns : bool)
    (days : Z) (f : Oracle) (h : list event) : option (result unit * list event) :=
  let '(r1, t1) := run (getAdvisoryListByReleases days) f h in
  match r1 with
  | Ok advisories =>
      match schedule choices ((λ a, extractAdvisory a containerVulns) <$> advisories)
              (length advisories) f (h ++ t1) with
      | Some (Ok received, t2) =>
          let '(r3, t3) := run (StoreToFile filename (concat received)) f (h ++ t1 ++ t2) in
          Some (r3, t1 ++ t2 ++ t3)
      | Some (Err e, t2) => Some (Err e, t1 ++ t2)
      | Some (Panic p, t2) => Some (Panic p, t1 ++ t2)
      | None => None
      end
  | Err e => Some (Err e, t1)
  | Panic p => Some (Panic p, t1)
  end.

Lemma run_GenerateOSV_sound choices filename containerVulns days f h r tr :
  run_GenerateOSV choices filename containerVulns days f h = Some (r, tr) →
  GenerateOSV filename containerVulns days tr r.
Proof.
  unfold run_GenerateOSV, GenerateOSV, b_bind, b_prog.
  pose proof (run_Runs (getAdvisoryListByReleases days) f h) as R1.
  destruct (run _ f h) as [[advs|e|p] t1]; cbn [fst snd] in R1.
  2: { intros [= <- <-]. right. left. eauto. }
  2: { intros [= <- <-]. right. right. eauto. }
  destruct (schedule _ _ _ _ _) as [[[received|e|p] t2]|] eqn:Hs; [..|done]; apply schedule_sound in Hs.
  - pose proof (run_Runs (StoreToFile filename (concat received)) f (h ++ t1 ++ t2)) as R3.
    destruct (run (StoreToFile _ _) _ _) as [r3 t3]. cbn [fst snd] in R3. intros [= <- <-].
    left. exists advs, t1, (t2 ++ t3). split_and!; [done..|]. left. by exists received, t2, t3.
  - intros [= <- <-]. left. exists advs, t1, t2. split_and!; [done..|]. right. left. eauto.
  - intros [= <- <-]. left. exists advs, t1, t2. split_and!; [done..|]. right. right. eauto.
Qed.

(** ** The world *)

Definition vuln (cve summary : string) : Vulnerability :=
  MkVulnerability cve "2024-08-20T10:54:54.042000+00:00" "CWE-79" [MkVexReference "self" "https://x"]
    [MkNote "description" "a <description>"; MkNote "summary" summary].

Definition no_summary : Vulnerability :=
  MkVulnerability "CVE-0" "unknown" "" [] [].

Definition vex_a : VEX :=
  MkVEX "High" [Some (vuln "CVE-1" "one"); Some no_summary; Some (vuln "CVE-2" "two")]
    [MkBranch [MkSubBranch "architecture"
       ["pkg:rpm/redhat/openssl@1.0.el8?arch=src"; "pkg:oci/a@sha256:0?arch=amd64&repository_url=r/a";
        "pkg:rpm/redhat/openssl@2.0.el9?arch=src"];
      MkSubBranch "product_name" ["pkg:rpm/redhat/ignored@1"]]].

Definition vex_b : VEX := MkVEX "Low" [Some (vuln "CVE-3" "three")] [].

(** A product without a version. *)
Definition vex_bad : VEX :=
  MkVEX "High" [] [MkBranch [MkSubBranch "architecture" ["pkg:rpm/redhat/openssl"]]].

(** Their documents. *)
Definition body_a : string := implode (indent 0 (vex_text vex_a)).
Definition body_b : string := implode (compact (vex_text vex_b)).
Definition body_bad : string := implode (compact (vex_text vex_bad)).

Lemma bodies :
  Unmarshal_VEX body_a = inr vex_a ∧ Unmarshal_VEX body_b = inr vex_b ∧
  Unmarshal_VEX body_bad = inr vex_bad.
Proof. vm_compute. repeat split. Qed.

Lemma Unmarshal_VEX_written_witness : Unmarshal_VEX (implode (compact (vex_text vex_a))) = inr vex_a.
Proof. apply (Unmarshal_VEX_written vex_a). vm_compute. reflexivity. Defined.

Definition nl : string := String "010" "".

Definition releases : string :=
  "a.json,2024-12-02T08:22:15+00:00" +:+ nl +:+ "b.json,2024-08-20T00:00:00Z" +:+ nl +:+
  "old.json,2024-07-01T00:00:00+02:00" +:+ nl +:+ "older.json,2024-01-01T00:00:00Z" +:+ nl.

Definition ok_response (body : string) : Response := MkResponse 200 (MkStream body None).

(** 2024-12-10T00:00:00Z; the second document is not there at first. *)
Definition generator_world : Oracle := λ h o,
  match o return answer o with
  | HttpGet url =>
      inr (if decide (url = URL +:+ "/releases.csv") then ok_response releases
           else if decide (url = URL +:+ "/changes.csv") then ok_response releases
           else if decide (url = URL +:+ "/a.json") then ok_response body_a
           else if decide (url = URL +:+ "/b.json" ∧ sleeps h = []) then MkResponse 503 (MkStream "" None)
           else ok_response body_b)
  | Now => MkClock (1733788800 * 10^9) 0
  | o => willing [MkAsset (Some "osv-offline.zip") (Some "https://x/osv.zip")]
           [MkZipFile "npm.nedb" false 420 (MkStream "data" None)] "PK" h o
  end.

(** The third goroutine starts, then the second, then the first, which sends first. *)
Definition generated : option (result unit * list event) :=
  run_GenerateOSV [2; 1; 0; 1; 1; 0; 0; 0; 0; 0; 0; 1; 1; 1; 0; 0; 0]%nat "rpm.nedb" false 120 generator_world [].

Definition trace_of (o : option (result unit * list event)) : list event :=
  match o with Some (_, tr) => tr | None => [] end.

Lemma generated_ok : generated = Some (Ok tt, trace_of generated).
Proof. vm_compute. reflexivity. Qed.

Lemma generated_runs : GenerateOSV "rpm.nedb" false 120 (trace_of generated) (Ok tt).
Proof.
  eapply run_GenerateOSV_sound. rewrite <-generated_ok. unfold generated. reflexivity.
Qed.

(** Four lines and the end of the last one, in the order in which the goroutines sent:
    the first advisory's two entries, then the others'. *)
Example generated_lines :
  length (Split (file_content "rpm.nedb" (trace_of generated)) newline_byte) = 5.
Proof. vm_compute. reflexivity. Qed.

(** ** The theorems at work *)

Lemma retryGet_spec_witness :
  let url := URL +:+ "/b.json" in
  let '(r, tr) := run (retryGet url 5 second) generator_world [] in
  Runs (retryGet url 5 second) tr r ∧
  ∃ fails, Forall failed_answer fails ∧
    (length fails = Z.to_nat 5 ∧ tr = attempts url second fails ∧
       r = Err (all_retries_failed (last_error None fails)) ∨
     ∃ resp, length fails < Z.to_nat 5 ∧ StatusCode resp = 200%Z ∧
       tr = attempts url second fails ++ [ev (HttpGet url) (inr resp)] ∧
       r = read_body (resp_Body resp)).
Proof.
  intros url. pose proof (run_Runs (retryGet url 5 second) generator_world []) as H.
  destruct (run (retryGet url 5 second) generator_world []) as [r tr]. cbn [fst snd] in H.
  split; [exact H|exact (retryGet_spec _ _ _ _ _ H)].
Defined.

Lemma GetVEXFromUrl_waits_witness :
  let '(r, tr) := run (GetVEXFromUrl (URL +:+ "/b.json")) generator_world [] in
  Runs (GetVEXFromUrl (URL +:+ "/b.json")) tr r ∧
  gets tr ≤ 5 ∧
  ∃ k, k ≤ gets tr ∧ sleeps tr = take k [second; 2 * second; 4 * second; 8 * second; 16 * second]%Z.
Proof.
  pose proof (run_Runs (GetVEXFromUrl (URL +:+ "/b.json")) generator_world []) as H.
  destruct (run (GetVEXFromUrl (URL +:+ "/b.json")) generator_world []) as [r tr]. cbn [fst snd] in H.
  split; [exact H|exact (GetVEXFromUrl_waits _ _ _ H)].
Defined.

Definition listing : result (list string) * list event :=
  run (getAdvisoryListByReleases 120) generator_world [].

(** The listing has the advisory of July too, which is older than 120 days. *)
Lemma listing_ok : listing.1 = Ok ["a.json"; "b.json"; "old.json"].
Proof. vm_compute. reflexivity. Qed.

Lemma getAdvisoryListByReleases_spec_witness :
  Runs (getAdvisoryListByReleases 120) listing.2 (Ok ["a.json"; "b.json"; "old.json"]) ∧
  ∃ response now newer stop rest,
    listing.2 = [ev (HttpGet (URL +:+ "/" +:+ "releases.csv")) (inr response); ev Now now] ∧
    ReadAll (resp_Body response) = Ok (newer ++ stop ++ rest) ∧
    ["a.json"; "b.json"; "old.json"] = first_field <$> newer ++ stop ∧
    Forall (dated (threshold now 120) false) newer ∧
    (stop = [] ∧ rest = [] ∨ ∃ record, stop = [record] ∧ dated (threshold now 120) true record).
Proof.
  assert (Runs (getAdvisoryListByReleases 120) listing.2 (Ok ["a.json"; "b.json"; "old.json"])) as H
    by (rewrite <-listing_ok; apply run_Runs).
  split; [exact H|exact (getAdvisoryListByReleases_spec _ _ _ H)].
Defined.

Lemma getAdvisoryListByModified_spec_witness :
  let '(r, tr) := run (getAdvisoryListByModified 0) generator_world [] in
  r = Ok [] ∧
  ∃ response records sorted,
    tr = [ev (HttpGet (URL +:+ "/" +:+ "changes.csv")) (inr response)] ∧
    ReadAll (resp_Body response) = Ok records ∧
    sorted ≡ₚ first_field <$> records ∧ Sorted name_ge sorted ∧
    [] = (let found := filter rhsa sorted in
          if decide (0 < 0)%Z then take (Z.to_nat 0) found else found).
Proof.
  pose proof (run_Runs (getAdvisoryListByModified 0) generator_world []) as H.
  assert ((run (getAdvisoryListByModified 0) generator_world []).1 = Ok []) as E
    by (vm_compute; reflexivity).
  destruct (run (getAdvisoryListByModified 0) generator_world []) as [r tr]. cbn [fst snd] in H, E.
  subst r. split; [reflexivity|exact (getAdvisoryListByModified_spec _ _ _ H)].
Defined.

Lemma ConvertToOSV_refines_witness :
  let '(r, tr) := run (ConvertToOSV vex_a false) generator_world [] in
  Runs (ConvertToOSV vex_a false) tr r ∧
  ((well_formed vex_a false ∧ ∃ osvs, r = Ok osvs ∧ converted vex_a false osvs) ∨
   (¬ well_formed vex_a false ∧ ∃ p, r = Panic p)).
Proof.
  pose proof (run_Runs (ConvertToOSV vex_a false) generator_world []) as H.
  destruct (run (ConvertToOSV vex_a false) generator_world []) as [r tr]. cbn [fst snd] in H.
  split; [exact H|exact (ConvertToOSV_refines _ _ _ _ H)].
Defined.

Definition sample_civil : Civil := MkCivil 2024 8 20 10 54 54 0.

Lemma getPublishedDate_spec_witness :
  getPublishedDate (vuln "CVE-1" "one") = Ok "2024-08-20T10:54:54Z".
Proof.
  apply (getPublishedDate_spec (vuln "CVE-1" "one") sample_civil ".042000").
  - split; simpl; [lia|split; vm_compute; split; discriminate|lia..].
  - right. exists "042000". split; [done|]. split; [reflexivity|].
    repeat constructor; eexists; vm_compute; reflexivity.
  - vm_compute. reflexivity.
Defined.

Lemma GenerateOSV_refines_witness :
  GenerateOSV "rpm.nedb" false 120 (trace_of generated) (Ok tt) ∧
  ∃ tr1 tr' advisories osvss received,
    trace_of generated = tr1 ++ tr' ∧ Runs (getAdvisoryListByReleases 120) tr1 (Ok advisories) ∧
    Forall2 (fetched tr' false) advisories osvss ∧ received ≡ₚ osvss ∧
    Split (file_content "rpm.nedb" (trace_of generated)) newline_byte = lines_of (concat received) ++ [""].
Proof.
  split; [exact generated_runs|exact (GenerateOSV_refines _ _ _ _ generated_runs)].
Defined.

Definition sample_osv : OSV :=
  MkOSV "CVE-1" "1.6.7" "CVE-1" (MkDatabaseSpecific "High" ["CWE-79"]) "" "" "one" "a <description>" []
    [MkReference "ADVISORY" "https://x"].

Lemma StoreToFile_lines_witness :
  let tr := (run (StoreToFile "f" [sample_osv]) generator_world []).2 in
  Runs (StoreToFile "f" [sample_osv]) tr (Ok tt) ∧
  ∃ lines,
    Split (file_content "f" (trace_of generated ++ tr)) newline_byte = lines ++ [""] ∧
    Forall2 (λ line o, read_json line = Some (valid_text (osv_text o))) lines [sample_osv].
Proof.
  intros tr. assert (Runs (StoreToFile "f" [sample_osv]) tr (Ok tt)) as H
    by exact (run_Runs (StoreToFile "f" [sample_osv]) generator_world []).
  split; [exact H|exact (StoreToFile_lines _ _ _ H (trace_of generated))].
Defined.

Lemma getAffectedListRPMs_spec_witness :
  let l := [MkAffected (MkPackage "RPM" "openssl" "pkg:rpm/redhat/openssl")
              [MkRange "ECOSYSTEM" [MkEvent "0.0.0" ""; MkEvent "" "1.0.el8"]]] in
  getAffectedListRPMs vex_a = Ok l ∧ NoDup (aff_name <$> l).
Proof.
  intros l. assert (getAffectedListRPMs vex_a = Ok l) as H by (vm_compute; reflexivity).
  split; [exact H|]. destruct (getAffectedListRPMs_spec _ _ H) as [HN _]. exact HN.
Defined.

Lemma getAffectedListContainers_spec_witness :
  let l := [MkAffected (MkPackage "Docker" "r/a" "pkg:oci/a@sha256:0?arch=amd64&repository_url=r/a") []] in
  getAffectedListContainers vex_a = Ok l ∧ NoDup (aff_name <$> l).
Proof.
  intros l. assert (getAffectedListContainers vex_a = Ok l) as H by (vm_compute; reflexivity).
  split; [exact H|]. destruct (getAffectedListContainers_spec _ _ H) as [HN _]. exact HN.
Defined.

(** *** A kind world *)

(** Everything asked of an oracle that answers well is answered well. *)
Section Answers.
Context (P : event → Prop) (f : Oracle) (HP : ∀ h o, P (ev o (f h o))).

Lemma run_answers {A} (p : Prog A) h : Forall P (run p f h).2.
Proof.
  revert h. induction p as [r|o k IH]; intros h; [constructor|]. simpl.
  specialize (IH (f h o) (h ++ [ev o (f h o)])). destruct (run _ _ _). by constructor.
Qed.

Lemma schedule_answers {X} choices (ts : list (Prog X)) n h r tr :
  schedule choices ts n f h = Some (r, tr) → Forall P tr.
Proof.
  revert ts n h r tr. induction choices as [|i choices IH]; intros ts [|n] h r tr; cbn [schedule];
    [by intros [= _ <-]|done|by intros [= _ <-]|].
  destruct (ts !! i) as [[[x|e|m]|o k]|]; [|done|by intros [= _ <-]| |done];
    intros ([r' tr'] & E%IH & [= _ <-])%bind_Some; [done|by constructor].
Qed.

Lemma run_GenerateOSV_answers choices filename containerVulns days h r tr :
  run_GenerateOSV choices filename containerVulns days f h = Some (r, tr) → Forall P tr.
Proof.
  unfold run_GenerateOSV. pose proof (run_answers (getAdvisoryListByReleases days) h) as R1.
  destruct (run _ f h) as [[advs|e|p] t1]; cbn [snd] in R1; [|by intros [= _ <-]..].
  destruct (schedule _ _ _ _ _) as [[[received|e|p] t2]|] eqn:Hs; [..|done]; apply schedule_answers in Hs.
  - pose proof (run_answers (StoreToFile filename (concat received)) (h ++ t1 ++ t2)) as R3.
    destruct (run (StoreToFile _ _) _ _). cbn [snd] in R3. intros [= _ <-]. by rewrite !Forall_app.
  - intros [= _ <-]. by apply Forall_app_2.
  - intros [= _ <-]. by apply Forall_app_2.
Qed.
End Answers.

Definition kind_world : Oracle := λ h o,
  match o return answer o with
  | HttpGet url =>
      inr (if decide (url = URL +:+ "/" +:+ "releases.csv") then ok_response releases
           else if decide (url = URL +:+ "/a.json") then ok_response body_a else ok_response body_b)
  | o => generator_world h o
  end.

Lemma sample_well_formed vex : vex = vex_a ∨ vex = vex_b → well_formed vex false.
Proof.
  intros Hv. pose proof (run_Runs (ConvertToOSV vex false) generator_world []) as H.
  apply ConvertToOSV_runs in H as [[Hw _]|[_ [p Hp]]]; [exact Hw|].
  exfalso. by destruct Hv as [->| ->]; vm_compute in Hp.
Qed.

Lemma releases_good :
  ∃ records, ReadAll (MkStream releases None) = Ok records ∧ Forall good_record records.
Proof.
  eexists. split; [vm_compute; reflexivity|].
  repeat constructor; (eexists _, _, _, _; split_and!; [reflexivity|vm_compute; reflexivity|discriminate]).
Qed.

Lemma kind_world_kind h o : kind_event false (ev o (kind_world h o)).
Proof.
  destruct o as [|owner repo|url| | | |path|path m|path d|path|path|n|n]; try exact I; try reflexivity.
  unfold kind_event, kind_answer, kind_world. cbn [projT1 projT2 ev].
  destruct (decide (url = URL +:+ "/" +:+ "releases.csv")) as [E|E].
  { exists (ok_response releases). split; [done|exact releases_good]. }
  destruct (decide (url = URL +:+ "/a.json"));
    [exists (ok_response body_a)|exists (ok_response body_b)]; (split_and!; [done..|]);
    eexists; (split; [apply bodies|]); apply sample_well_formed; auto.
Qed.

Definition kind_run : option (result unit * list event) :=
  run_GenerateOSV [2; 1; 0; 1; 1; 0; 0; 0; 0; 0; 0; 0; 0; 0]%nat "rpm.nedb" false 120 kind_world [].

Definition result_of (o : option (result unit * list event)) : result unit :=
  match o with Some (r, _) => r | None => Ok tt end.

Lemma kind_run_ends : kind_run = Some (result_of kind_run, trace_of kind_run).
Proof. vm_compute. reflexivity. Qed.

Lemma kind_run_runs : GenerateOSV "rpm.nedb" false 120 (trace_of kind_run) (result_of kind_run).
Proof. eapply run_GenerateOSV_sound. rewrite <-kind_run_ends. unfold kind_run. reflexivity. Qed.

Lemma kind_run_kind : Forall (kind_event false) (trace_of kind_run).
Proof.
  eapply (run_GenerateOSV_answers _ kind_world kind_world_kind). rewrite <-kind_run_ends.
  unfold kind_run. reflexivity.
Qed.

Lemma GenerateOSV_succeeds_witness :
  GenerateOSV "rpm.nedb" false 120 (trace_of kind_run) (result_of kind_run) ∧
  Forall (kind_event false) (trace_of kind_run) ∧ result_of kind_run = Ok tt.
Proof.
  split; [exact kind_run_runs|]. split; [exact kind_run_kind|].
  exact (GenerateOSV_succeeds _ _ _ _ _ kind_run_runs kind_run_kind).
Defined.

(** *** The whole program *)

Definition generation (filename : string) (containerVulns : bool) (choices : list nat) :
    option (result unit * list event) :=
  run_GenerateOSV choices filename containerVulns 120 generator_world [].

Definition containers_generated : option (result unit * list event) :=
  generation "/d/docker.nedb" true [2; 1; 0; 1; 1; 0; 0; 0; 0; 0; 0; 0]%nat.
Definition rpms_generated : option (result unit * list event) :=
  generation "/d/rpm.nedb" false [2; 1; 0; 1; 1; 0; 0; 0; 0; 0; 0; 1; 1; 1; 0; 0; 0]%nat.

Definition program_trace : list event :=
  [ev (MkdirAll "/d") (inr tt)] ++ (run (DownloadOsvDb "/d") generator_world []).2 ++
  trace_of containers_generated ++ trace_of rpms_generated.

Lemma generation_runs filename containerVulns choices tr :
  generation filename containerVulns choices = Some (Ok tt, tr) →
  GenerateOSV filename containerVulns 120 tr (Ok tt).
Proof. apply run_GenerateOSV_sound. Qed.

Lemma containers_ok : containers_generated = Some (Ok tt, trace_of containers_generated).
Proof. vm_compute. reflexivity. Qed.

Lemma rpms_ok : rpms_generated = Some (Ok tt, trace_of rpms_generated).
Proof. vm_compute. reflexivity. Qed.

Lemma download_ok : (run (DownloadOsvDb "/d") generator_world []).1 = Ok tt.
Proof. vm_compute. reflexivity. Qed.

Lemma or_exit_go {A} (m : Behaviour A) k a tr1 tr2 r :
  m tr1 (Ok a) → k tr2 r → or_exit m k (tr1 ++ tr2) r.
Proof. intros Hm Hk. left. by exists a, tr1, tr2. Qed.

Lemma containers_runs : GenerateOSV "/d/docker.nedb" true 120 (trace_of containers_generated) (Ok tt).
Proof. eapply generation_runs. rewrite <-containers_ok. unfold containers_generated. reflexivity. Qed.

Lemma rpms_runs : GenerateOSV "/d/rpm.nedb" false 120 (trace_of rpms_generated) (Ok tt).
Proof. eapply generation_runs. rewrite <-rpms_ok. unfold rpms_generated. reflexivity. Qed.

Lemma download_runs : Runs (DownloadOsvDb "/d") (run (DownloadOsvDb "/d") generator_world []).2 (Ok tt).
Proof.
  pose proof (run_Runs (DownloadOsvDb "/d") generator_world []) as H. by rewrite download_ok in H.
Qed.

Definition program_args : list string := ["--destination-dir"; "/d"].

Lemma program_runs : main program_args program_trace (Ok 0%Z).
Proof.
  assert (Join2 "/d" "docker.nedb" = "/d/docker.nedb") as Hc by (vm_compute; reflexivity).
  assert (Join2 "/d" "rpm.nedb" = "/d/rpm.nedb") as Hr by (vm_compute; reflexivity).
  unfold main.
  replace (Parse flags default_options program_args)
    with (Parsed (MkOptions "docker.nedb" "rpm.nedb" "/d" 120) []) by (vm_compute; reflexivity).
  unfold program_trace, run_main. cbn [containerFilename rpmFilename destDir days].
  rewrite Hc, Hr, <-(app_nil_r (trace_of rpms_generated)).
  apply (or_exit_go _ _ tt); [by apply Runs_lift_ok, Runs_ask_ok|].
  apply (or_exit_go _ _ tt); [exact download_runs|].
  apply (or_exit_go _ _ tt); [exact containers_runs|].
  apply (or_exit_go _ _ tt); [exact rpms_runs|done].
Qed.

Lemma main_success_witness :
  main program_args program_trace (Ok 0%Z) ∧
  (Parse flags default_options program_args = ErrHelp ∧ program_trace = [] ∨
   ∃ o rest tr0 tr1 tr2 tr3,
    let containers := Join2 (destDir o) (containerFilename o) in
    let rpms := Join2 (destDir o) (rpmFilename o) in
    Parse flags default_options program_args = Parsed o rest ∧
    program_trace = tr0 ++ tr1 ++ tr2 ++ tr3 ∧ tr0 = [ev (MkdirAll (destDir o)) (inr tt)] ∧
    Runs (DownloadOsvDb (destDir o)) tr1 (Ok tt) ∧
    GenerateOSV containers true (days o) tr2 (Ok tt) ∧ GenerateOSV rpms false (days o) tr3 (Ok tt) ∧
    (containers ≠ rpms →
       (∃ osvs, Split (file_content containers program_trace) newline_byte = lines_of osvs ++ [""]) ∧
       file_content containers program_trace = file_content containers (tr0 ++ tr1 ++ tr2))).
Proof. split; [exact program_runs|exact (main_success _ _ program_runs)]. Defined.

(** Documents with a product that has no version: the process ends in a panic. *)
Definition bad_world : Oracle := λ h o,
  match o return answer o with
  | HttpGet url =>
      inr (if decide (url = URL +:+ "/" +:+ "releases.csv") then ok_response releases
           else ok_response body_bad)
  | o => generator_world h o
  end.

Definition bad_listing : result (list string) * list event :=
  run (getAdvisoryListByReleases 120) bad_world [].

Lemma bad_listing_ok : bad_listing.1 = Ok ["a.json"; "b.json"; "old.json"].
Proof. vm_compute. reflexivity. Qed.

Definition stopped : option (result unit * list event) :=
  run_GenerateOSV [2; 2]%nat "rpm.nedb" false 120 bad_world [].

Lemma stopped_panics : stopped = Some (Panic "index out of range", trace_of stopped).
Proof. vm_compute. reflexivity. Qed.

Lemma stopped_runs : GenerateOSV "rpm.nedb" false 120 (trace_of stopped) (Panic "index out of range").
Proof. eapply run_GenerateOSV_sound. rewrite <-stopped_panics. unfold stopped. reflexivity. Qed.

Definition bad_event (e : event) : Prop :=
  ∀ resp, e = ev (HttpGet (URL +:+ "/" +:+ "old.json")) (inr resp) → resp = ok_response body_bad.

Lemma bad_world_bad h o : bad_event (ev o (bad_world h o)).
Proof.
  intros resp He. pose proof (f_equal (@projT1 _ _) He) as Ho. cbn in Ho. subst o.
  apply ev_inj in He. unfold bad_world in He. rewrite decide_False in He by done. by injection He as <-.
Qed.

Lemma malformed_product_stops_witness :
  let rest := drop 2 (trace_of stopped) in
  GenerateOSV "rpm.nedb" false 120 (bad_listing.2 ++ rest) (Panic "index out of range") ∧
  (∃ p, @Panic unit "index out of range" = Panic p) ∧
  Forall (λ e : event, no_file (projT1 e)) (bad_listing.2 ++ rest).
Proof.
  intros rest. assert (trace_of stopped = bad_listing.2 ++ rest) as E by (vm_compute; reflexivity).
  assert (GenerateOSV "rpm.nedb" false 120 (bad_listing.2 ++ rest) (Panic "index out of range"))
    as HG by (rewrite <-E; exact stopped_runs).
  split; [exact HG|].
  refine (malformed_product_stops "rpm.nedb" 120 bad_listing.2 rest
    ["a.json"; "b.json"; "old.json"] _ "old.json" vex_bad "pkg:rpm/redhat/openssl" HG _ _ _ _ _ _).
  - rewrite <-bad_listing_ok. apply run_Runs.
  - right. right. left.
  - intros resp Hev. assert (Forall bad_event (trace_of stopped)) as HF.
    { eapply (run_GenerateOSV_answers _ bad_world bad_world_bad). rewrite <-stopped_panics.
      unfold stopped. reflexivity. }
    rewrite E in HF. apply Forall_app in HF as [_ HF]. rewrite Forall_forall in HF.
    rewrite (HF _ Hev resp eq_refl). apply bodies.
  - left.
  - reflexivity.
  - by apply (bool_decide_eq_false_1 (byte_in "@"%char _)).
Defined.
