(* ===== verification/DeepCopy.v ===== *)
(** * api/v1alpha1: the deep copies

    [zz_generated.deepcopy.go], on a memory in which slices share their arrays: a copy
    denotes the same value and shares nothing with what was there before.  The metadata
    of an object is copied by a library; what it promises is the class that the copies
    of this file are proved to satisfy too. *)

From S2P Require Import Prelude.

(** ** Memory

    A slice that is not nil is an array and a length; a pointer that is not nil is an
    array too, of which it is the first element. *)

Definition loc : Type := positive.
Record slice := MkSlice { sl_array : loc; sl_len : nat }.

Record ApplicationSpec := MkApp { Application : string; Components : option slice }.
Record NamespaceSpec := MkNs { Namespace : string; Applications : option slice }.
Record DependencyUpdateCheckSpec := MkSpec { Namespaces : option slice }.
Record DependencyUpdateCheckStatus := MkStatus { }.
Record TypeMeta := MkTypeMeta { Kind : string; APIVersion : string }.

Section DeepCopy.
Context {ObjectMeta ListMeta library : Type}.

Record DependencyUpdateCheck := MkCheck {
  check_TypeMeta : TypeMeta;
  check_ObjectMeta : ObjectMeta;
  Spec : DependencyUpdateCheckSpec;
  Status : DependencyUpdateCheckStatus
}.

Record DependencyUpdateCheckList := MkList {
  list_TypeMeta : TypeMeta;
  list_ListMeta : ListMeta;
  Items : option slice
}.

(** The arrays in memory, with those of the library. *)
Inductive cell :=
| Strings (l : list string)
| ApplicationSpecs (l : list ApplicationSpec)
| NamespaceSpecs (l : list NamespaceSpec)
| Specs (l : list DependencyUpdateCheckSpec)
| Statuses (l : list DependencyUpdateCheckStatus)
| Checks (l : list DependencyUpdateCheck)
| Lists (l : list DependencyUpdateCheckList)
| Library (c : library).

Abbreviation Heap := (gmap loc cell).

(** The types that arrays are made of. *)
Class Stored (A : Type) := {
  array : list A → cell;
  elements : cell → option (list A);
  zero : A;
  elements_array l : elements (array l) = Some l
}.

Definition nil_pointer {A} : GoM Heap A := go_panic "invalid memory address or nil pointer dereference".
Definition out_of_range {A} : GoM Heap A := go_panic "index out of range".

Section Arrays.
Context `{Stored A}.

Definition get_array (l : loc) : GoM Heap (list A) := λ h,
  match h !! l ≫= elements with Some es => (Ok es, h) | None => nil_pointer h end.

(** [make([]A, n)]; [new(A)] is the array of length 1. *)
Definition make (n : nat) : GoM Heap loc := λ h,
  let l := fresh (dom h) in (Ok l, <[l := array (replicate n zero)]> h).

Definition load (l : loc) (i : nat) : GoM Heap A :=
  let! es := get_array l in
  match es !! i with Some a => go_ret a | None => out_of_range end.

Definition store (l : loc) (i : nat) (a : A) : GoM Heap unit :=
  let! es := get_array l in
  if decide (i < length es)%nat then λ h, (Ok tt, <[l := array (<[i := a]> es)]> h) else out_of_range.

(** [copy(dst, src)] of whole slices of length [n]. *)
Definition go_copy (dst src : loc) (n : nat) : GoM Heap unit :=
  let! from := get_array src in
  let! to := get_array dst in
  λ h, (Ok tt, <[dst := array (take n from ++ drop n to)]> h).
End Arrays.

(** ** Deep copies *)

(** What a type with a deep copy has: the copy of a value, as it is stored into the
    destination, and the abstract value that a memory and a struct stand for, with the
    arrays it is spread over. *)
Class DeepCopyable (A V : Type) := {
  DeepCopyInto : A → GoM Heap A;
  denotes : Heap → A → V → gset loc → Prop
}.

(** A deep copy succeeds, changes nothing that was there, and gives the same value in
    new memory only. *)
Class DeepCopyLaws (A V : Type) `{DeepCopyable A V} := {
  denotes_dom h a v F : denotes h a v F → F ⊆ dom h;
  denotes_agree h h' a v F :
    denotes h a v F → (∀ l, l ∈ F → h' !! l = h !! l) → denotes h' a v F;
  DeepCopyInto_spec h a v F :
    denotes h a v F →
    ∃ a' h' F', DeepCopyInto a h = (Ok a', h') ∧ h ⊆ h' ∧ denotes h' a' v F' ∧ F' ## dom h
}.

Lemma denotes_mono `{DeepCopyLaws A V} h h' a v F : denotes h a v F → h ⊆ h' → denotes h' a v F.
Proof.
  intros Hd Hs. eapply denotes_agree; [exact Hd|]. intros l Hl.
  apply (denotes_dom _ _ _ _ Hd) in Hl. apply elem_of_dom in Hl as [c Hc].
  rewrite Hc. by eapply lookup_weaken.
Qed.

Lemma Forall3_impl_and {A B C} (P Q : A → B → C → Prop) (R : C → Prop) l k m :
  Forall3 P l k m → Forall R m → (∀ a b c, P a b c → R c → Q a b c) → Forall3 Q l k m.
Proof. intros H HR HI. induction H; [constructor|]. apply Forall_cons in HR as [? ?]. constructor; auto. Qed.

Section Slices.
Context `{Stored A, DeepCopyLaws A V}.

(** A slice: nil, or the values of its first elements. *)
Definition slice_denotes (h : Heap) (s : option slice) (v : option (list V)) (F : gset loc) : Prop :=
  match s, v with
  | None, None => F = ∅
  | Some s, Some vs => ∃ es Fs,
      (h !! sl_array s ≫= elements) = Some es ∧ (sl_len s ≤ length es)%nat ∧
      Forall3 (denotes h) (take (sl_len s) es) vs Fs ∧ F = {[sl_array s]} ∪ ⋃ Fs
  | _, _ => False
  end.

(** [for i := range *in { ( *in)[i].DeepCopyInto(&( *out)[i]) }], [n] rounds left. *)
Fixpoint copy_loop (src dst : loc) (i n : nat) : GoM Heap unit :=
  match n with
  | 0 => go_ret tt
  | S n =>
      let! a := load src i in
      let! a' := DeepCopyInto a in
      let! _ := store dst i a' in
      copy_loop src dst (S i) n
  end.

(** The block for a field that is a slice of structs. *)
Definition copy_structs (s : option slice) : GoM Heap (option slice) :=
  match s with
  | None => go_ret None
  | Some s =>
      let! out := make (A := A) (sl_len s) in
      let! _ := copy_loop (sl_array s) out 0 (sl_len s) in
      go_ret (Some (MkSlice out (sl_len s)))
  end.

(** The one for a field that is a slice of values without pointers. *)
Definition copy_values (s : option slice) : GoM Heap (option slice) :=
  match s with
  | None => go_ret None
  | Some s =>
      let! out := make (A := A) (sl_len s) in
      let! _ := go_copy (A := A) out (sl_array s) (sl_len s) in
      go_ret (Some (MkSlice out (sl_len s)))
  end.

(** [DeepCopy()]: nil for nil, else a new object. *)
Definition DeepCopy (p : option loc) : GoM Heap (option loc) :=
  match p with
  | None => go_ret None
  | Some l =>
      let! out := make (A := A) 1 in
      let! a := load l 0 in
      let! a' := DeepCopyInto a in
      let! _ := store out 0 a' in
      go_ret (Some out)
  end.

(** *** Slices *)

Lemma get_array_ok (h : Heap) l es :
  (h !! l ≫= elements) = Some es → get_array (A := A) l h = (Ok es, h).
Proof. intros E. unfold get_array. by rewrite E. Qed.

Lemma load_ok (h : Heap) l es i a :
  (h !! l ≫= elements) = Some es → es !! i = Some a → load l i h = (Ok a, h).
Proof. intros E Hi. unfold load, go_bind. by rewrite (get_array_ok _ _ _ E), Hi. Qed.

Lemma store_ok (h : Heap) l es i a :
  (h !! l ≫= elements) = Some es → (i < length es)%nat →
  store l i a h = (Ok tt, <[l := array (<[i := a]> es)]> h).
Proof. intros E Hi. unfold store, go_bind. by rewrite (get_array_ok _ _ _ E), decide_True. Qed.

Lemma slice_denotes_dom h s v F : slice_denotes h s v F → F ⊆ dom h.
Proof.
  destruct s as [s|], v as [vs|]; simpl; [|done..|by intros ->].
  intros (es & Fs & E & _ & HF & ->). apply union_subseteq. split.
  - apply singleton_subseteq_l, elem_of_dom. by destruct (h !! sl_array s).
  - clear E. induction HF as [|e w F' ? ? Fs' Hd _ IH]; simpl; [set_solver|].
    apply denotes_dom in Hd. set_solver.
Qed.

Lemma slice_denotes_agree (h h' : Heap) s v F :
  slice_denotes h s v F → (∀ l, l ∈ F → h' !! l = h !! l) → slice_denotes h' s v F.
Proof.
  destruct s as [s|], v as [vs|]; simpl; [|done..].
  intros (es & Fs & E & Hl & HF & ->) Hagree. exists es, Fs. split_and!; [|done| |done].
  - rewrite Hagree; [done|set_solver].
  - clear E Hl. induction HF as [|e w F' ? ? Fs' Hd HF IH]; constructor.
    + eapply denotes_agree; [exact Hd|]. intros x Hx. apply Hagree. simpl. set_solver.
    + apply IH. intros x Hx. apply Hagree. simpl. set_solver.
Qed.

(** An array that did not exist in [h0] may be changed without harm to what was there. *)
Lemma insert_fresh (h0 h : Heap) l c : h0 ⊆ h → l ∉ dom h0 → h0 ⊆ <[l := c]> h.
Proof. intros Hs Hl. apply insert_subseteq_r; [by apply not_elem_of_dom|done]. Qed.

(** What the first [i] rounds have done: the first [i] elements of the new array are
    copies, in memory that is neither old nor the array itself. *)
Definition copied (h0 h : Heap) (dst : loc) (es : list A) (vs : list V) : Prop :=
  (h !! dst ≫= elements) = Some es ∧
  ∃ Fs, Forall3 (denotes h) (take (length vs) es) vs Fs ∧ Forall (λ F, F ## dom h0 ∧ dst ∉ F) Fs.

Lemma copy_loop_spec (h0 : Heap) src dst es vs Fs :
  (h0 !! src ≫= elements) = Some es → dst ∉ dom h0 → Forall3 (denotes h0) (take (length vs) es) vs Fs →
  ∀ n i h ds,
    h0 ⊆ h → i + n = length vs → length ds = length vs → copied h0 h dst ds (take i vs) →
    ∃ h' ds', copy_loop src dst i n h = (Ok tt, h') ∧ h0 ⊆ h' ∧ length ds' = length vs ∧
      copied h0 h' dst ds' vs.
Proof.
  intros Hsrc Hdst Hes. induction n as [|n IH]; intros i h ds Hsub Hi Hds Hc; cbn [copy_loop].
  { rewrite take_ge in Hc by lia. by exists h, ds. }
  destruct Hc as (Hd & Fd & HFd & Hfresh). rewrite length_take_le in HFd by lia.
  destruct (lookup_lt_is_Some_2 vs i) as [v Hv]; [lia|].
  destruct (Forall3_lookup_m _ _ _ _ _ _ Hes Hv) as (e & F & He & _ & Hde).
  apply lookup_take_Some in He as [He _].
  assert ((h !! src ≫= elements) = Some es) as Hsrc'.
  { destruct (h0 !! src) as [c|] eqn:E; [|done]. by rewrite (lookup_weaken _ _ _ _ E Hsub). }
  pose proof (denotes_mono _ _ _ _ _ Hde Hsub) as Hde'.
  destruct (DeepCopyInto_spec _ _ _ _ Hde') as (e' & h1 & F1 & Hcopy & Hsub1 & Hd1 & HF1).
  assert ((h1 !! dst ≫= elements) = Some ds) as Hdst1.
  { destruct (h !! dst) as [c|] eqn:E; [|done]. by rewrite (lookup_weaken _ _ _ _ E Hsub1). }
  assert (dst ∈ dom h) as Hin by (apply elem_of_dom; by destruct (h !! dst)).
  assert (dom h0 ⊆ dom h) as Hdom by (by apply subseteq_dom).
  assert (∀ a w G, denotes h1 a w G → dst ∉ G →
            denotes (<[dst := array (<[i := e']> ds)]> h1) a w G) as Hkeep.
  { intros a w G Hdn HG. eapply denotes_agree; [exact Hdn|]. intros l Hl. apply lookup_insert_ne. set_solver. }
  destruct (IH (S i) (<[dst := array (<[i := e']> ds)]> h1) (<[i := e']> ds)) as (h' & ds' & Hrun & Hrest).
  - apply insert_fresh; [by transitivity h|done].
  - lia.
  - by rewrite length_insert.
  - split; [by rewrite lookup_insert_eq; simpl; apply elements_array|].
    rewrite (take_S_r _ _ _ Hv), length_app, length_take_le by lia. simpl.
    exists (Fd ++ [F1]). split; [|apply Forall_app_2; [done|]; constructor; [set_solver|done]].
    rewrite Nat.add_1_r, (take_S_r _ _ e') by (apply list_lookup_insert_eq; lia).
    rewrite take_insert_ge by lia. apply Forall3_app.
    + eapply Forall3_impl_and; [exact HFd|exact Hfresh|].
      intros a w G Hdn [_ HG]. apply Hkeep; [|done]. by eapply denotes_mono.
    + constructor; [|constructor]. apply Hkeep; [done|set_solver].
  - exists h', ds'. split; [|done]. unfold go_bind at 1.
    rewrite (load_ok _ _ _ _ _ Hsrc' He). unfold go_bind at 1. rewrite Hcopy. unfold go_bind at 1.
    rewrite (store_ok _ _ _ _ _ Hdst1); [exact Hrun|lia].
Qed.

(** The blocks for slices are deep copies of slices. *)
Definition slice_copy (copy : option slice → GoM Heap (option slice)) : Prop :=
  ∀ h s v F, slice_denotes h s v F →
    ∃ s' h' F', copy s h = (Ok s', h') ∧ h ⊆ h' ∧ slice_denotes h' s' v F' ∧ F' ## dom h.

Lemma copied_slice (h0 h : Heap) dst es vs n :
  n = length vs → length es = length vs → dst ∉ dom h0 → copied h0 h dst es vs →
  ∃ F', slice_denotes h (Some (MkSlice dst n)) (Some vs) F' ∧ F' ## dom h0.
Proof.
  intros -> Hl Hd (E & Fs & HF & Hfr). exists ({[dst]} ∪ ⋃ Fs). split.
  - exists es, Fs. simpl. split_and!; [done|lia|done..].
  - apply disjoint_union_l. split; [set_solver|]. clear HF.
    induction Hfr as [|F' Fs' [? _] _ IH]; simpl; set_solver.
Qed.

Lemma copy_structs_ok : slice_copy copy_structs.
Proof.
  intros h [s|] [vs|] F; simpl; try done.
  2: { intros ->. exists None, h, ∅. split_and!; [done..|set_solver]. }
  intros (es & Fs & E & Hl & HF & ->).
  assert (sl_len s = length vs) as Hn
    by (apply Forall3_length_lm in HF; by rewrite length_take_le in HF).
  rewrite Hn in *. set (out := fresh (dom h)). assert (out ∉ dom h) as Hout by apply is_fresh.
  set (h1 := <[out := array (replicate (length vs) zero)]> h).
  destruct (copy_loop_spec h (sl_array s) out es vs Fs E Hout HF (length vs) 0 h1
              (replicate (length vs) zero)) as (h' & ds' & Hrun & Hsub & Hlen & Hc).
  - by apply insert_fresh.
  - done.
  - apply length_replicate.
  - split; [unfold h1; rewrite lookup_insert_eq; apply elements_array|]. exists []. split; constructor.
  - destruct (copied_slice _ _ _ _ _ (length vs) eq_refl Hlen Hout Hc) as (F' & HF' & Hdis).
    exists (Some (MkSlice out (length vs))), h', F'. split_and!; [|done..].
    unfold go_bind at 1, make. fold out h1. unfold go_bind at 1. by rewrite Hrun.
Qed.

(** Values without pointers. *)
Definition flat : Prop := ∀ h a v F, denotes h a v F → F = ∅.

Lemma copy_values_ok : flat → slice_copy copy_values.
Proof.
  intros Hflat h [s|] [vs|] F; simpl; try done.
  2: { intros ->. exists None, h, ∅. split_and!; [done..|set_solver]. }
  intros (es & Fs & E & Hl & HF & ->).
  assert (sl_len s = length vs) as Hn
    by (apply Forall3_length_lm in HF; by rewrite length_take_le in HF).
  rewrite Hn in *. set (out := fresh (dom h)). assert (out ∉ dom h) as Hout by apply is_fresh.
  set (h1 := <[out := array (replicate (length vs) zero)]> h).
  assert (h ⊆ h1) as Hsub by by apply insert_fresh.
  assert ((h1 !! sl_array s ≫= elements) = Some es) as E1.
  { destruct (h !! sl_array s) as [c|] eqn:Es; [|done]. by rewrite (lookup_weaken _ _ _ _ Es Hsub). }
  assert ((h1 !! out ≫= elements) = Some (replicate (length vs) zero)) as E2
    by (unfold h1; rewrite lookup_insert_eq; apply elements_array).
  set (h' := <[out := array (take (length vs) es)]> h1).
  assert (copied h h' out (take (length vs) es) vs) as Hc.
  { split; [unfold h'; rewrite lookup_insert_eq; apply elements_array|]. exists Fs. rewrite take_take, Nat.min_id.
    assert (Forall (λ F, F = ∅) Fs) as He.
    { clear -HF Hflat. induction HF; constructor; [by eapply Hflat|done]. }
    split; [|eapply Forall_impl; [exact He|]; intros ? ->; set_solver].
    eapply Forall3_impl_and; [exact HF|exact He|]. intros a v F Hd ->.
    eapply denotes_agree; [exact Hd|set_solver]. }
  destruct (copied_slice h h' out (take (length vs) es) vs (length vs)) as (F' & HF' & Hdis);
    [done|by rewrite length_take_le|done..|].
  exists (Some (MkSlice out (length vs))), h', F'. split_and!; [| |done..].
  - unfold go_bind at 1, make. fold out h1. unfold go_bind at 1, go_copy. unfold go_bind at 1.
    rewrite (get_array_ok _ _ _ E1). unfold go_bind at 1. rewrite (get_array_ok _ _ _ E2).
    by rewrite drop_ge, app_nil_r by (by rewrite length_replicate).
  - by apply insert_fresh.
Qed.

(** *** Objects *)

(** A pointer to an object: nil, or the value of the object. *)
Definition object_denotes (h : Heap) (p : option loc) (v : option V) (F : gset loc) : Prop :=
  match p, v with
  | None, None => F = ∅
  | Some l, Some v => ∃ a es G, (h !! l ≫= elements) = Some (a :: es) ∧ denotes h a v G ∧ F = {[l]} ∪ G
  | _, _ => False
  end.

Lemma object_denotes_agree (h h' : Heap) p v F :
  object_denotes h p v F → (∀ l, l ∈ F → h' !! l = h !! l) → object_denotes h' p v F.
Proof.
  destruct p as [l|], v as [v|]; simpl; [|done..]. intros (a & es & G & E & Hd & ->) Hagree.
  exists a, es, G. split_and!; [rewrite Hagree by set_solver; done| |done].
  eapply denotes_agree; [exact Hd|set_solver].
Qed.

Lemma object_denotes_dom (h : Heap) p v F : object_denotes h p v F → F ⊆ dom h.
Proof.
  destruct p as [l|], v as [v|]; simpl; [|done..|by intros ->]. intros (a & es & G & E & Hd & ->).
  apply denotes_dom in Hd. apply union_subseteq. split; [|done].
  apply singleton_subseteq_l, elem_of_dom. by destruct (h !! l).
Qed.

Lemma DeepCopy_ok (h : Heap) p v F :
  object_denotes h p v F →
  ∃ p' h' F', DeepCopy p h = (Ok p', h') ∧ h ⊆ h' ∧ object_denotes h' p' v F' ∧ F' ## dom h.
Proof.
  destruct p as [l|], v as [v|]; simpl; try done.
  2: { intros ->. exists None, h, ∅. split_and!; [done..|set_solver]. }
  intros (a & es & G & E & Hd & ->).
  set (out := fresh (dom h)). assert (out ∉ dom h) as Hout by apply is_fresh.
  set (h1 := <[out := array (replicate 1 zero)]> h).
  assert (h ⊆ h1) as Hsub by by apply insert_fresh.
  assert ((h1 !! l ≫= elements) = Some (a :: es)) as E1.
  { destruct (h !! l) as [c|] eqn:Es; [|done]. by rewrite (lookup_weaken _ _ _ _ Es Hsub). }
  destruct (DeepCopyInto_spec h1 a v G) as (a' & h2 & G' & Hcopy & Hsub2 & Hd2 & HG');
    [by eapply denotes_mono|].
  assert (dom h ⊆ dom h1) as Hdom by (by apply subseteq_dom).
  assert (out ∈ dom h1) as Hin by (unfold h1; set_solver).
  assert ((h2 !! out ≫= elements) = Some [zero]) as E2.
  { rewrite (lookup_weaken h1 h2 out (array [zero])); [apply elements_array| |done].
    unfold h1. by rewrite lookup_insert_eq. }
  exists (Some out), (<[out := array [a']]> h2), ({[out]} ∪ G'). split_and!.
  - unfold go_bind at 1, make. fold out h1. unfold go_bind at 1.
    rewrite (load_ok _ _ _ 0 _ E1 eq_refl). unfold go_bind at 1. rewrite Hcopy. unfold go_bind at 1.
    rewrite (store_ok _ _ _ 0 a' E2) by (simpl; lia). done.
  - apply insert_fresh; [by transitivity h1|done].
  - exists a', [], G'. split_and!; [rewrite lookup_insert_eq; apply elements_array| |done].
    eapply denotes_agree; [exact Hd2|]. intros x Hx. apply lookup_insert_ne. set_solver.
  - set_solver.
Qed.
End Slices.

(** ** The types of the API *)

#[global] Instance Strings_stored : Stored string :=
  {| array := Strings; elements c := match c with Strings l => Some l | _ => None end; zero := "";
     elements_array _ := eq_refl |}.

#[global] Instance ApplicationSpecs_stored : Stored ApplicationSpec :=
  {| array := ApplicationSpecs; elements c := match c with ApplicationSpecs l => Some l | _ => None end;
     zero := MkApp "" None;
     elements_array _ := eq_refl |}.

#[global] Instance NamespaceSpecs_stored : Stored NamespaceSpec :=
  {| array := NamespaceSpecs; elements c := match c with NamespaceSpecs l => Some l | _ => None end;
     zero := MkNs "" None;
     elements_array _ := eq_refl |}.

#[global] Instance Specs_stored : Stored DependencyUpdateCheckSpec :=
  {| array := Specs; elements c := match c with Specs l => Some l | _ => None end; zero := MkSpec None;
     elements_array _ := eq_refl |}.

#[global] Instance Statuses_stored : Stored DependencyUpdateCheckStatus :=
  {| array := Statuses; elements c := match c with Statuses l => Some l | _ => None end; zero := MkStatus;
     elements_array _ := eq_refl |}.

#[global] Instance string_copyable : DeepCopyable string string :=
  {| DeepCopyInto s := go_ret s; denotes _ s v F := s = v ∧ F = ∅ |}.

#[global] Instance string_laws : DeepCopyLaws string string.
Proof.
  split; simpl; [by intros h a v F [_ ->]|done|]. intros h a v F [-> ->].
  exists v, h, ∅. split_and!; [done..|set_solver].
Qed.

Lemma string_flat : flat (A := string) (V := string).
Proof. by intros h a v F [_ ->]. Qed.

(** *** [DeepCopyInto] of each type *)

(** An [ApplicationSpec] stands for its name and the names of its components, a nil slice
    apart from an empty one; and so on for the types above it. *)
Definition application_value : Type := string * option (list string).
Definition namespace_value : Type := string * option (list application_value).
Definition spec_value : Type := option (list namespace_value).

Definition ApplicationSpec_DeepCopyInto (in_ : ApplicationSpec) : GoM Heap ApplicationSpec :=
  let! components := copy_values (A := string) (Components in_) in
  go_ret (MkApp (Application in_) components).

#[global] Instance ApplicationSpec_copyable : DeepCopyable ApplicationSpec application_value := {|
  DeepCopyInto := ApplicationSpec_DeepCopyInto;
  denotes h a v F := Application a = v.1 ∧ slice_denotes h (Components a) v.2 F
|}.

Definition NamespaceSpec_DeepCopyInto (in_ : NamespaceSpec) : GoM Heap NamespaceSpec :=
  let! applications := copy_structs (A := ApplicationSpec) (Applications in_) in
  go_ret (MkNs (Namespace in_) applications).

#[global] Instance NamespaceSpec_copyable : DeepCopyable NamespaceSpec namespace_value := {|
  DeepCopyInto := NamespaceSpec_DeepCopyInto;
  denotes h a v F := Namespace a = v.1 ∧ slice_denotes h (Applications a) v.2 F
|}.

Definition DependencyUpdateCheckSpec_DeepCopyInto (in_ : DependencyUpdateCheckSpec)
    : GoM Heap DependencyUpdateCheckSpec :=
  let! namespaces := copy_structs (A := NamespaceSpec) (Namespaces in_) in
  go_ret (MkSpec namespaces).

#[global] Instance DependencyUpdateCheckSpec_copyable : DeepCopyable DependencyUpdateCheckSpec spec_value := {|
  DeepCopyInto := DependencyUpdateCheckSpec_DeepCopyInto;
  denotes h a v F := slice_denotes h (Namespaces a) v F
|}.

Definition DependencyUpdateCheckStatus_DeepCopyInto (in_ : DependencyUpdateCheckStatus)
    : GoM Heap DependencyUpdateCheckStatus :=
  go_ret in_.

#[global] Instance DependencyUpdateCheckStatus_copyable : DeepCopyable DependencyUpdateCheckStatus unit := {|
  DeepCopyInto := DependencyUpdateCheckStatus_DeepCopyInto;
  denotes _ _ _ F := F = ∅
|}.

(** *** [DeepCopy] of each type *)

Definition ApplicationSpec_DeepCopy : option loc → GoM Heap (option loc) := DeepCopy (A := ApplicationSpec).
Definition NamespaceSpec_DeepCopy : option loc → GoM Heap (option loc) := DeepCopy (A := NamespaceSpec).
Definition DependencyUpdateCheckSpec_DeepCopy : option loc → GoM Heap (option loc) :=
  DeepCopy (A := DependencyUpdateCheckSpec).
Definition DependencyUpdateCheckStatus_DeepCopy : option loc → GoM Heap (option loc) :=
  DeepCopy (A := DependencyUpdateCheckStatus).

#[global] Instance ApplicationSpec_laws : DeepCopyLaws ApplicationSpec application_value.
Proof.
  split.
  - intros h a v F [_ H]. by eapply slice_denotes_dom.
  - intros h h' a v F [E H] Hl. split; [done|]. by eapply slice_denotes_agree.
  - intros h [n s] [n' v] F [E H]. simpl in *.
    destruct (copy_values_ok string_flat _ _ _ _ H) as (s' & h' & F' & Hc & Hs & Hd & HF).
    exists (MkApp n s'), h', F'. unfold ApplicationSpec_DeepCopyInto, go_bind. simpl. by rewrite Hc.
Qed.

#[global] Instance NamespaceSpec_laws : DeepCopyLaws NamespaceSpec namespace_value.
Proof.
  split.
  - intros h a v F [_ H]. by eapply slice_denotes_dom.
  - intros h h' a v F [E H] Hl. split; [done|]. by eapply slice_denotes_agree.
  - intros h [n s] [n' v] F [E H]. simpl in *.
    destruct (copy_structs_ok _ _ _ _ H) as (s' & h' & F' & Hc & Hs & Hd & HF).
    exists (MkNs n s'), h', F'. unfold NamespaceSpec_DeepCopyInto, go_bind. simpl. by rewrite Hc.
Qed.

#[global] Instance DependencyUpdateCheckSpec_laws : DeepCopyLaws DependencyUpdateCheckSpec spec_value.
Proof.
  split.
  - intros h a v F H. exact (slice_denotes_dom _ _ _ _ H).
  - intros h h' a v F H. exact (slice_denotes_agree _ _ _ _ _ H).
  - intros h [s] v F H. simpl in *.
    destruct (copy_structs_ok _ _ _ _ H) as (s' & h' & F' & Hc & Hs & Hd & HF).
    exists (MkSpec s'), h', F'. unfold DependencyUpdateCheckSpec_DeepCopyInto, go_bind. simpl. by rewrite Hc.
Qed.

#[global] Instance DependencyUpdateCheckStatus_laws : DeepCopyLaws DependencyUpdateCheckStatus unit.
Proof.
  split; simpl; [by intros h a v F ->|done|]. intros h a v F ->. exists a, h, ∅.
  split_and!; [done..|set_solver].
Qed.

(** [DeepCopyObject()]. *)
Definition DeepCopyObject `{Stored A, DeepCopyable A V} (p : option loc) : GoM Heap (option loc) :=
  let! c := DeepCopy p in
  match c with Some c => go_ret (Some c) | None => go_ret None end.

(** Whatever is written later to the memory of the copy leaves the original as it was,
    and the other way round. *)
Definition independent `{Stored A, DeepCopyable A V} (h : Heap) (p p' : option loc) (v : option V) : Prop :=
  ∃ F F', object_denotes h p v F ∧ object_denotes h p' v F' ∧ F ## F' ∧
    (∀ h', (∀ l, l ∉ F' → h' !! l = h !! l) → object_denotes h' p v F) ∧
    (∀ h', (∀ l, l ∉ F → h' !! l = h !! l) → object_denotes h' p' v F').

Lemma DeepCopyObject_independent_aux `{Stored A, DeepCopyLaws A V} (h : Heap) p v F :
  object_denotes h p v F →
  ∃ p' h', DeepCopyObject p h = (Ok p', h') ∧ h ⊆ h' ∧ independent h' p p' v.
Proof.
  intros Hd. destruct (DeepCopy_ok h p v F Hd) as (p' & h' & F' & Hc & Hs & Hd' & HF').
  assert (F ⊆ dom h) as HF by exact (object_denotes_dom _ _ _ _ Hd).
  assert (object_denotes h' p v F) as Hd2.
  { eapply object_denotes_agree; [exact Hd|]. intros l Hl. apply HF in Hl.
    apply elem_of_dom in Hl as [c Hl]. rewrite Hl. by eapply lookup_weaken. }
  exists p', h'. split_and!; [unfold DeepCopyObject, go_bind; rewrite Hc; by destruct p'|done|].
  exists F, F'. split_and!; [done|done|set_solver|..]; intros h2 Hl;
    (eapply object_denotes_agree; [eassumption|set_solver]).
Qed.

(** *** The resource and the list of resources *)

Section Resource.
Context (zero_ObjectMeta : ObjectMeta) (zero_ListMeta : ListMeta).
Context `{DeepCopyLaws ObjectMeta VO} `{DeepCopyLaws ListMeta VL}.

#[global] Instance Checks_stored : Stored DependencyUpdateCheck :=
  {| array := Checks; elements c := match c with Checks l => Some l | _ => None end;
     zero := MkCheck (MkTypeMeta "" "") zero_ObjectMeta (MkSpec None) MkStatus;
     elements_array _ := eq_refl |}.

#[global] Instance Lists_stored : Stored DependencyUpdateCheckList :=
  {| array := Lists; elements c := match c with Lists l => Some l | _ => None end;
     zero := MkList (MkTypeMeta "" "") zero_ListMeta None;
     elements_array _ := eq_refl |}.

Definition check_value : Type := TypeMeta * VO * spec_value.
Definition list_value : Type := TypeMeta * VL * option (list check_value).

Definition DependencyUpdateCheck_DeepCopyInto (in_ : DependencyUpdateCheck)
    : GoM Heap DependencyUpdateCheck :=
  let! meta := DeepCopyInto (check_ObjectMeta in_) in
  let! spec := DeepCopyInto (Spec in_) in
  go_ret (MkCheck (check_TypeMeta in_) meta spec (Status in_)).

#[global] Instance DependencyUpdateCheck_copyable : DeepCopyable DependencyUpdateCheck check_value := {|
  DeepCopyInto := DependencyUpdateCheck_DeepCopyInto;
  denotes h a v F :=
    check_TypeMeta a = v.1.1 ∧ ∃ F1 F2, denotes h (check_ObjectMeta a) v.1.2 F1 ∧
      denotes h (Spec a) v.2 F2 ∧ F = F1 ∪ F2
|}.

Definition DependencyUpdateCheckList_DeepCopyInto (in_ : DependencyUpdateCheckList)
    : GoM Heap DependencyUpdateCheckList :=
  let! meta := DeepCopyInto (list_ListMeta in_) in
  let! items := copy_structs (A := DependencyUpdateCheck) (Items in_) in
  go_ret (MkList (list_TypeMeta in_) meta items).

#[global] Instance DependencyUpdateCheckList_copyable : DeepCopyable DependencyUpdateCheckList list_value := {|
  DeepCopyInto := DependencyUpdateCheckList_DeepCopyInto;
  denotes h a v F :=
    list_TypeMeta a = v.1.1 ∧ ∃ F1 F2, denotes h (list_ListMeta a) v.1.2 F1 ∧
      slice_denotes (V := check_value) h (Items a) v.2 F2 ∧ F = F1 ∪ F2
|}.

Definition DependencyUpdateCheck_DeepCopy : option loc → GoM Heap (option loc) :=
  DeepCopy (A := DependencyUpdateCheck) (V := check_value).
Definition DependencyUpdateCheckList_DeepCopy : option loc → GoM Heap (option loc) :=
  DeepCopy (A := DependencyUpdateCheckList) (V := list_value).
Definition DependencyUpdateCheck_DeepCopyObject : option loc → GoM Heap (option loc) :=
  DeepCopyObject (A := DependencyUpdateCheck) (V := check_value).
Definition DependencyUpdateCheckList_DeepCopyObject : option loc → GoM Heap (option loc) :=
  DeepCopyObject (A := DependencyUpdateCheckList) (V := list_value).

#[global] Instance DependencyUpdateCheck_laws : DeepCopyLaws DependencyUpdateCheck check_value.
Proof.
  split.
  - intros h a v F (_ & F1 & F2 & Hm & Hsl & ->). apply union_subseteq.
    split; [exact (denotes_dom _ _ _ _ Hm)|exact (denotes_dom _ _ _ _ Hsl)].
  - intros h h' a v F (E & F1 & F2 & Hm & Hsl & ->) Hl. split; [done|]. exists F1, F2.
    split_and!; [| |done]; (eapply denotes_agree; [eassumption|set_solver]).
  - intros h [t m s st] [[t' vm] vs] F (E & F1 & F2 & Hm & Hsl & ->). cbn [fst snd check_TypeMeta check_ObjectMeta Spec list_TypeMeta list_ListMeta Items] in * |-.
    destruct (DeepCopyInto_spec _ _ _ _ Hm) as (m' & h1 & G1 & Hc1 & Hs1 & Hd1 & HG1).
    destruct (DeepCopyInto_spec h1 s vs F2) as (s' & h2 & G2 & Hc2 & Hs2 & Hd2 & HG2);
      [by eapply denotes_mono|].
    exists (MkCheck t m' s' st), h2, (G1 ∪ G2). split_and!.
    + cbn [DeepCopyInto DependencyUpdateCheck_copyable].
      unfold DependencyUpdateCheck_DeepCopyInto. unfold go_bind at 1. cbn [check_ObjectMeta Spec]. rewrite Hc1. unfold go_bind at 1.
      by rewrite Hc2.
    + by transitivity h1.
    + split; [done|]. exists G1, G2. split_and!; [by eapply denotes_mono|done..].
    + assert (dom h ⊆ dom h1) by (by apply subseteq_dom). set_solver.
Qed.

#[global] Instance DependencyUpdateCheckList_laws : DeepCopyLaws DependencyUpdateCheckList list_value.
Proof.
  split.
  - intros h a v F (_ & F1 & F2 & Hm & Hsl & ->). apply union_subseteq.
    split; [exact (denotes_dom _ _ _ _ Hm)|exact (slice_denotes_dom _ _ _ _ Hsl)].
  - intros h h' a v F (E & F1 & F2 & Hm & Hsl & ->) Hl. split; [done|]. exists F1, F2.
    split_and!; [eapply denotes_agree|eapply slice_denotes_agree|done]; first [eassumption|set_solver].
  - intros h [t m s] [[t' vm] vs] F (E & F1 & F2 & Hm & Hsl & ->). cbn [fst snd check_TypeMeta check_ObjectMeta Spec list_TypeMeta list_ListMeta Items] in * |-.
    destruct (DeepCopyInto_spec _ _ _ _ Hm) as (m' & h1 & G1 & Hc1 & Hs1 & Hd1 & HG1).
    assert (slice_denotes (V := check_value) h1 s vs F2) as Hsl'.
    { eapply slice_denotes_agree; [exact Hsl|]. intros l Hl. apply (slice_denotes_dom _ _ _ _ Hsl) in Hl.
      apply elem_of_dom in Hl as [c Hc]. rewrite Hc. by eapply lookup_weaken. }
    destruct (copy_structs_ok h1 s vs F2 Hsl') as (s' & h2 & G2 & Hc2 & Hs2 & Hd2 & HG2).
    exists (MkList t m' s'), h2, (G1 ∪ G2). split_and!.
    + cbn [DeepCopyInto DependencyUpdateCheckList_copyable].
      unfold DependencyUpdateCheckList_DeepCopyInto. unfold go_bind at 1. cbn [list_ListMeta Items]. rewrite Hc1. unfold go_bind at 1.
      by rewrite Hc2.
    + by transitivity h1.
    + split; [done|]. exists G1, G2. split_and!; [by eapply denotes_mono|done..].
    + assert (dom h ⊆ dom h1) by (by apply subseteq_dom). set_solver.
Qed.

(** *** What the runtime library relies on *)

(** C39.  A deep copy of a list of resources, down to the names of the components its items
    select, denotes the same value as the original and is independent of it, and nothing
    that was in memory has changed; a nil pointer is copied to nil. *)
Theorem DeepCopyObject_independent (h : Heap) p v F :
  object_denotes (A := DependencyUpdateCheckList) (V := list_value) h p v F →
  ∃ p' h', DependencyUpdateCheckList_DeepCopyObject p h = (Ok p', h') ∧
    h ⊆ h' ∧ independent (A := DependencyUpdateCheckList) (V := list_value) h' p p' v.
Proof. apply DeepCopyObject_independent_aux. Qed.

(** The same for a single resource. *)
Theorem DeepCopyObject_check_independent (h : Heap) p v F :
  object_denotes (A := DependencyUpdateCheck) (V := check_value) h p v F →
  ∃ p' h', DependencyUpdateCheck_DeepCopyObject p h = (Ok p', h') ∧
    h ⊆ h' ∧ independent (A := DependencyUpdateCheck) (V := check_value) h' p p' v.
Proof. apply DeepCopyObject_independent_aux. Qed.
End Resource.
End DeepCopy.

(** ** A list in memory *)

(** Metadata that is a string, which a library copies as it is. *)
Abbreviation sample_cell := (@cell string string Empty_set).
Abbreviation SampleCheck := (@DependencyUpdateCheck string).
Abbreviation SampleList := (@DependencyUpdateCheckList string).

(** Two items, of which the second shares the array of namespaces of the first. *)
Definition sample_heap : gmap loc sample_cell :=
  list_to_map
    [(1%positive, Strings ["one"; "two"; "spare"]);
     (2%positive, ApplicationSpecs [MkApp "app" (Some (MkSlice 1%positive 2))]);
     (3%positive, NamespaceSpecs [MkNs "tenant" (Some (MkSlice 2%positive 1)); MkNs "other" None]);
     (4%positive, Checks [MkCheck (MkTypeMeta "" "") "a" (MkSpec (Some (MkSlice 3%positive 2))) MkStatus;
                          MkCheck (MkTypeMeta "" "") "b" (MkSpec (Some (MkSlice 3%positive 1))) MkStatus]);
     (5%positive, Lists [MkList (MkTypeMeta "DependencyUpdateCheckList" "v1alpha1") "list"
                          (Some (MkSlice 4%positive 2))])].

#[local] Instance sample_stored : @Stored string string Empty_set SampleList := Lists_stored "".
#[local] Instance sample_copyable :
  @DeepCopyable string string Empty_set SampleList (list_value (VO := string) (VL := string)) :=
  DependencyUpdateCheckList_copyable "".

Definition sample_value : list_value (VO := string) (VL := string) :=
  let tenant := ("tenant", Some [("app", Some ["one"; "two"])]) in
  (MkTypeMeta "DependencyUpdateCheckList" "v1alpha1", "list",
   Some [(MkTypeMeta "" "", "a", Some [tenant; ("other", None)]);
         (MkTypeMeta "" "", "b", Some [tenant])]).

(** Splitting what a memory denotes into its parts. *)
Ltac denote :=
  repeat match goal with
  | |- _ ∧ _ => split
  | |- ∃ _, _ => eexists
  | |- Forall3 _ _ _ _ => constructor
  | |- _ = _ => reflexivity
  | |- _ => progress cbn
  end.

Lemma sample_denotes :
  ∃ F, object_denotes (A := SampleList) (V := list_value) sample_heap (Some 5%positive) (Some sample_value) F.
Proof. unfold object_denotes. denote; lia. Qed.

Lemma DeepCopyObject_independent_witness :
  ∃ p' h',
    DependencyUpdateCheckList_DeepCopyObject (VO := string) (VL := string) "" "" (Some 5%positive)
      sample_heap = (Ok p', h') ∧
    sample_heap ⊆ h' ∧
    independent (A := SampleList) (V := list_value) h' (Some 5%positive) p' (Some sample_value).
Proof.
  destruct sample_denotes as [F HF].
  exact (DeepCopyObject_independent (library := Empty_set) "" "" sample_heap (Some 5%positive)
           (Some sample_value) F HF).
Defined.

(** The array the items share is there twice in the copy, and the element beyond the
    length of a slice is not copied. *)
Example sample_copy_size :
  size (DeepCopyObject (A := SampleList) (V := list_value) (Some 5%positive) sample_heap).2 = 13.
Proof. vm_compute. reflexivity. Qed.
